(* ===== verification/_CoqProject ===== *)
-Q . S2P
Prelude.v
GoStd.v
GoErrors.v
Quantity.v
ApiTypes.v
Json.v
Floats.v
JsonText.v
FloatText.v
Times.v
JsonStruct.v
JsonTypes.v
UserData.v
ProviderConfig.v
ProviderStatus.v
DeepCopy.v
TenantCluster.v
InfraCluster.v
MachineScope.v
InfraServer.v
Kubevirt.v
Interference.v
Actuator.v
Version.v
Registration.v
Conditions.v
NodeUpdate.v
MachineController.v
TenantServer.v
Patches.v
Stubs.v
Controllers.v
Runs.v
MachineLifecycle.v
Neighbours.v
Isolation.v
Lifecycle.v
Liveness.v
NodeRuns.v
Creation.v
Running.v
System.v
Retirement.v
Main.v
