(* ===== verification/Prelude.v ===== *)
(** * Verification of the OpenShift KubeVirt machine provider

    The program (a Go repository, sources under src/) is a controller process.
    A tenant OpenShift cluster lists the machines it wants as Machine objects;
    the provider runs each of them as a KubeVirt virtual machine in an infra
    cluster.  main builds two clients and an actuator and starts two
    controllers.  The machine controller, a library, calls the actuator for
    each Machine; the actuator makes a scope of the machine, lets the virtual
    machine manager act on the infra cluster, and writes what it learned back
    to the Machine in the tenant cluster.  The node controller gives the nodes
    of the tenant cluster their provider IDs and removes those whose virtual
    machine is gone.

    ** The files, and the code they model

    - Prelude: the Go monad, its weakest preconditions and the step tactics,
      Go maps, lemmas on strings.
    - GoStd: what the program uses of Go's standard library: UTF-8, strconv,
      fmt with a text as its format, IP addresses.
    - GoErrors: the error values: plain texts, API statuses, MachineError,
      RequeueAfterError, and wrapping (pkg/errors, apimachinery's api/errors,
      pkg/controller/machine/errors.go of the machine-api-operator).
    - Quantity: resource quantities (apimachinery api/resource, inf.v0): the
      parser with its int64 and its decimal path, and MustParse.
    - ApiTypes: the API objects, a module for each Go package.
    - Json: encoding/json and strconv: float64, strings, decoder and encoder.
    - Floats, FloatText, JsonText, JsonTypes: the decoder and the encoder are
      inverse to each other: the digits of a float64, its text, every JSON
      text, the values the decoder builds.
    - Times: times as RFC 3339 texts: time.Parse, AppendFormat, and the
      MarshalJSON of meta/v1.
    - JsonStruct: json.Unmarshal into structs, slices, maps and pointers: how
      members find their fields, and which error is kept.
    - UserData: addHostnameToUserData of pkg/kubevirt/kubevirt.go.
    - ProviderConfig, ProviderStatus: pkg/apis/kubevirtprovider/v1alpha1
      (types.go and register.go): the provider spec and status as raw
      extensions, written and read.
    - DeepCopy: zz_generated.deepcopy.go of the same package, on a heap.
    - Registration: the scheme builders of the same package, pkg/apis, and the
      scheme they register with (apimachinery runtime/scheme.go).
    - Version: pkg/version/version.go, with the parser and the printer of
      blang/semver.
    - TenantCluster, InfraCluster: pkg/clients/tenantcluster/client.go and
      pkg/clients/infracluster/client.go: the interface, its implementation
      over client-go, and the laws of both.
    - MachineScope: pkg/machinescope: the virtual machine and the secret made
      for a machine, and the synchronisation of the machine with them.
    - Kubevirt: the manager of pkg/kubevirt/kubevirt.go: Create, Delete, Update,
      Exists; a machine's life as a step relation over these calls.
    - Interference: the manager while others act between its calls.
    - Actuator: pkg/actuator/actuator.go.
    - Conditions: conditions and validation of machines (machine-api-operator,
      pkg/util/conditions/setter.go, pkg/util/util.go, Validate of
      machine_types.go).
    - NodeUpdate: pkg/controller/nodeupdate/nodeupdate_controller.go.
    - MachineController: pkg/controller/machine/controller.go of the
      machine-api-operator: Reconcile and all it calls, the contract an
      actuator has to keep ([ActuatorLaws]) and what follows from it.
    - InfraServer, TenantServer: reference clusters that keep every law the
      theorems assume; the examples and witnesses run on them.  The tenant
      answers a patch as an API server does a JSON merge patch.
    - Patches: patchMachine of the actuator while others write the machine.
    - Stubs: pkg/testutils/stubs.go, the objects the unit tests expect.
    - Controllers, MachineLifecycle: the properties of the actuator, the node
      controller, and the machine controller with the provider's actuator.
    - Neighbours: the nodes a reconciliation of one machine leaves alone.
    - Isolation: what else it leaves alone: other machines and their objects.
    - Lifecycle: the life of a machine as a small transition system, which
      all runs of the two together refine.
    - Runs: what happens in the end, from what happens in one step.
    - Liveness, Creation, Running, NodeRuns: what comes to its end when the
      clusters answer: a deletion, the way of a new machine to its virtual
      machine and on to the phase Running, and nodes.
    - System, Retirement: both controllers on the same clusters, taking turns
      in any order, for any machines and nodes: a wanted machine and its node,
      one under deletion and its node.
    - Main: cmd/manager/main.go.

    ** How state and calls are modelled

    A Go function that acts on the world is a [Go W A]: from a world to an
    outcome, a result or a panic, and the world it leaves.  [W] is abstract
    where a cluster is meant: [TW] for the tenant, [IW] for the infra cluster.
    A pointer that a function writes through, such as the *Machine of the
    actuator and of the controllers, is a first component of the world, and a
    client that overwrites it with the server's answer does so here: the
    status lost between the two patches of patchMachine is visible.  A nil
    pointer is [None], and using it panics.  Errors are values; integers that
    can overflow wrap.

    A Go interface is a type class of operations (TenantApi, InfraApi, Client
    twice, KubevirtVM, Resolver, EventRecorder, NodeApi, MachineApi,
    StatusConverter, ManagerLib) or a record (MachineActuator).  Code that is
    not the program's is such a class without an implementation, and what the
    theorems need of it is a class of laws: TenantLaws and ApiLaws say what an
    API server does with reads, creations, updates, patches and deletions,
    ConverterLaws that an object survives the unstructured form, NodeLaws and
    MachineLaws the same for nodes and machines, ResolverLaws and EventLaws
    that DNS and events change no object, ManagerLaws that starting up
    changes no configuration.  A call may fail at any time, before or after
    it took effect.  The clients' own laws (two classes ClientLaws) are
    proved of the implementations (kubeClient_laws, client_laws) and used
    by everything above: that is where a component's theorems rest on
    another component's promise and not on its code.  In the same way the
    machine controller asks of its actuator only ActuatorLaws, which the
    provider's actuator is proved to keep.  Addressed says that a request
    reaches the object it names, MergeLaws what a merge patch does to an
    object that has changed since it was read.  AnsweringTenant, ReliableTenant and
    ReliableInfra, CreatingTenant and CreatingInfra, RunningTenant and
    RunningInfra, ReliableNodes and SystemTenant say what clusters do that
    are up; only the files on runs use them.  NodeRequests says which nodes
    the requests of the machine controller can touch; SystemTenant includes
    it.  valid_object and doomed stand for what a server checks of an object:
    an update of an object marked for deletion that leaves it no finalizers
    removes it.  YamlLib, the reading of a
    YAML document as JSON, Kubeconfig and TimeErrors, the wording of
    time.Parse, have no laws; where a document matters, the hypothesis
    reads_json says that this JSON document is read as JSON, in any order
    of its members.

    ** What the theorems show

    - The whole: every run of the machine controller with this actuator, with
      any outcomes of its calls and others acting in between, refines the
      small transition system of Lifecycle (lifecycle_refines): a virtual
      machine is created for a due machine only, is removed by the controller
      only if its machine is under deletion or it was marked for deletion
      before, and outlives no released machine.  While the clusters are up,
      and others leave the objects concerned alone, a machine due for creation
      gets its virtual machine in the end and, once that is ready and the node
      is there, runs (machine_runs), a machine under deletion that is valid
      and readable is released (deletion_live), and nodes follow their virtual
      machines (nodes_follow).
    - Both controllers together, for any number of machines and nodes, in any
      order of their turns: a wanted machine runs and has the provider ID its
      node has (system_runs); a machine under deletion, its virtual machine and
      its node go (system_retires); both under the conditions their comments
      list.  A reconciliation leaves every other machine and its objects alone
      (machines_isolated), and every node but its own (nodes_spared).
    - One reconciliation: the finalizer stays while the virtual machine exists
      (vm_never_forgotten); a deletion that is reported as done is done, and
      does not panic on the way (deletion_completes); it creates and deletes
      only for a machine that is due, but for virtual machines that were marked
      before, which an update can remove (vm_created_only_when_due,
      vm_deleted_only_when_due).
    - The manager's operations on every branch (Create_effects, Update_result,
      Delete_result), and over a life of calls: at most one creation, and one
      more for each time others interfere with the secret or the virtual
      machine (create_at_most_once), none after a deletion while others keep
      their hands off (no_recreation); with others acting during the call, no
      update of theirs is lost (Update_conflict).
    - The actuator from end to end (Create_success_stored), and what its
      patches keep of others' writes (patchMachine_loses_nothing).
    - The virtual machine that is built, exactly when it is built, and with
      which resources (CreateVirtualMachine_well_formed, _returns_iff,
      _resources), the synchronisation (SyncMachine_total).
    - The node controller's actions (Reconcile_actions), conditions
      (Set_result), start-up (main_started, version_init), the types that are
      registered (AddToScheme_enters).
    - Data: quantities (ParseQuantity_exact, MustParse_uint32); user data:
      when it is accepted, and that the new document decodes to the old one
      with the file added (addHostname_returns_iff, addHostname_decoded); the provider spec's and the provider status'
      round trips through their JSON texts (provider_spec_roundtrip,
      provider_status_roundtrip); copies that share no memory
      (DeepCopyObject_separate).
    - What goes wrong: errors lose their kind on the way up
      (actuator_errors_opaque), so a machine with an unreadable spec is
      retried for ever and can never be deleted (misconfigured_retried,
      misconfigured_never_deleted); an empty spec panics (empty_spec_panics);
      an update strips the finalizers of the virtual machine (Update_result).

    ** Bounds and fuel

    Numbers printed in decimal take one step of fuel for each bit, which
    bounds their digits (itoa, proved by digits_val_itoa).  A format text
    takes one step for each byte (sprintf0_go_fuel: more changes nothing).
    The JSON decoder has two steps for each byte, since it consumes a byte
    every two calls (decode_document_fuel and encode_string_go_fuel: more
    changes nothing), and the decoder's own limit of 10000 nested values.
    The shortest digits of a float64 are looked for up to 17 digits, which
    are enough for every float64 (seventeen_read).  Reconciliation has no loop.

    ** What is not modelled

    Logging, contexts and timeouts; the generated gomock mocks, which only
    record and replay calls; printing and arithmetic of quantities; time zones
    (a time is an instant, and Local changes none); the converter and
    defaulting functions of the scheme; the comparison of versions, which
    nothing uses; watches, work queues and reconciliations that overlap:
    a theorem is about one call, or a sequence of calls, with nobody else
    writing to the objects it looks at while a call runs, but for Interference
    and Patches (between calls others may: lifecycle_refines and the theorems on runs; that
    two machines write nothing in common is machines_isolated).  Outside DeepCopy
    values are copied by being passed.  sort.Slice of conditions
    is an insertion sort; with one condition of each type, which Set_result
    keeps, every sort gives the same list (sort_conditions_unique).  The
    machine controller's message for validation errors, the quoting of %q and
    its metric are parameters.

    ** What could follow

    Other writers of the machine during the whole of a reconciliation, not
    only during patchMachine; the printing of quantities. *)

From stdpp Require Export base tactics option list gmap fin_maps strings.
From Stdlib Require Export ZArith Lia.
From Stdlib Require Import Ascii.

#[global] Open Scope Z_scope.

(** ** Outcomes and the Go monad

    A Go function that may panic and that reads and changes the world around
    it is modelled as a state transformer: it receives the world [W] and
    gives an outcome and the world it leaves behind.  An [error] result is an
    ordinary value (file [GoErrors]); a panic is an outcome of its own, and
    the effects performed before it stay. *)

Inductive outcome (A : Type) : Type :=
  | Ret (a : A)
  | Panic (msg : string).
Arguments Ret {A} a.
Arguments Panic {A} msg.

Definition Go (W A : Type) : Type := W → outcome A * W.

#[export] Instance outcome_ret : MRet outcome := λ A a, Ret a.
#[export] Instance outcome_bind : MBind outcome := λ A B f o,
  match o with Ret a => f a | Panic m => Panic m end.

#[export] Instance go_ret {W} : MRet (Go W) := λ A a w, (Ret a, w).
#[export] Instance go_bind {W} : MBind (Go W) := λ A B f m w,
  match m w with
  | (Ret a, w') => f a w'
  | (Panic msg, w') => (Panic msg, w')
  end.

Definition go_panic {W A} (msg : string) : Go W A := λ w, (Panic msg, w).
Definition go_get {W} : Go W W := λ w, (Ret w, w).
Definition go_modify {W} (f : W → W) : Go W unit := λ w, (Ret tt, f w).
(** A computation that cannot touch the world but may panic. *)
Definition go_lift {W A} (o : outcome A) : Go W A := λ w, (o, w).

Definition outcome_is_panic {A} (o : outcome A) : bool :=
  match o with Ret _ => false | Panic _ => true end.

(** Run a computation on the second, or on the first, component of a pair. *)
Definition go_snd {X W A} (m : Go W A) : Go (X * W) A := λ xw,
  let '(o, w') := m (snd xw) in (o, (fst xw, w')).
Definition go_fst {X W A} (m : Go X A) : Go (X * W) A := λ xw,
  let '(o, x') := m (fst xw) in (o, (x', snd xw)).

(** Run a computation on a part of the world. *)
Definition go_zoom {V W A} (get : W → V) (put : V → W → W) (m : Go V A) : Go W A := λ w,
  let '(o, v) := m (get w) in (o, put v w).

Lemma outcome_bind_ret {A B} (o : outcome A) (f : A → outcome B) b :
  o ≫= f = Ret b → ∃ a, o = Ret a ∧ f a = Ret b.
Proof. destruct o as [a|]; [by exists a|done]. Qed.

(** ** Weakest preconditions

    [wp m Q E w]: started in [w], the computation [m] either returns a result
    that satisfies [Q] with the final world, or panics in a way [E] allows.
    With [no_panic] for [E] it is total correctness: [m] returns. *)

Definition wp {W A} (m : Go W A) (Q : A → W → Prop) (E : string → W → Prop)
    (w : W) : Prop :=
  match m w with
  | (Ret a, w') => Q a w'
  | (Panic msg, w') => E msg w'
  end.

Definition no_panic {W} : string → W → Prop := λ _ _, False.

Section wp.
Context {W : Type}.
Implicit Types (w : W) (E : string → W → Prop).

Lemma wp_ret {A} (a : A) Q E w : Q a w → wp (mret a) Q E w.
Proof. done. Qed.

Lemma wp_bind {A B} (m : Go W A) (f : A → Go W B) Q E w :
  wp m (λ a, wp (f a) Q E) E w → wp (m ≫= f) Q E w.
Proof. unfold wp, mbind, go_bind. by destruct (m w) as [[a|s] w']. Qed.

Lemma wp_bind_inv {A B} (m : Go W A) (f : A → Go W B) Q E w :
  wp (m ≫= f) Q E w → wp m (λ a, wp (f a) Q E) E w.
Proof. unfold wp, mbind, go_bind. by destruct (m w) as [[a|s] w']. Qed.

Lemma wp_mono {A} (m : Go W A) (Q Q' : A → W → Prop) E (E' : string → W → Prop) w :
  wp m Q E w → (∀ a w', Q a w' → Q' a w') → (∀ s w', E s w' → E' s w') →
  wp m Q' E' w.
Proof. unfold wp. destruct (m w) as [[a|s] w']; eauto. Qed.

Lemma wp_and {A} (m : Go W A) (Q Q' : A → W → Prop) E (E' : string → W → Prop) w :
  wp m Q E w → wp m Q' E' w →
  wp m (λ a w', Q a w' ∧ Q' a w') (λ s w', E s w' ∧ E' s w') w.
Proof. unfold wp. by destruct (m w) as [[a|s] w']. Qed.

Lemma wp_lift {A} (o : outcome A) Q E w :
  match o with Ret a => Q a w | Panic s => E s w end → wp (go_lift o) Q E w.
Proof. by destruct o. Qed.

Lemma wp_get Q E w : Q w w → wp go_get Q E w.
Proof. done. Qed.

Lemma wp_modify f Q E w : Q tt (f w) → wp (go_modify f) Q E w.
Proof. done. Qed.

Lemma wp_snd {X A} (m : Go W A) (Q : A → X * W → Prop) (E : string → X * W → Prop) x w :
  wp m (λ a w', Q a (x, w')) (λ s w', E s (x, w')) w → wp (go_snd m) Q E (x, w).
Proof. unfold wp, go_snd; simpl. by destruct (m w) as [[a|s] w']. Qed.

Lemma wp_fst {X A} (m : Go X A) (Q : A → X * W → Prop) (E : string → X * W → Prop) x w :
  wp m (λ a x', Q a (x', w)) (λ s x', E s (x', w)) x → wp (go_fst m) Q E (x, w).
Proof. unfold wp, go_fst; simpl. by destruct (m x) as [[a|s] w']. Qed.

Lemma wp_zoom {V A} (get : W → V) (put : V → W → W) (m : Go V A)
    (Q : A → W → Prop) (E : string → W → Prop) w :
  wp m (λ a v, Q a (put v w)) (λ s v, E s (put v w)) (get w) → wp (go_zoom get put m) Q E w.
Proof. unfold wp, go_zoom; simpl. by destruct (m (get w)) as [[a|s] v]. Qed.

(** What a known run says. *)
Lemma wp_run {A} (m : Go W A) Q E w o w' :
  m w = (o, w') → wp m Q E w →
  match o with Ret a => Q a w' | Panic s => E s w' end.
Proof. unfold wp. by intros ->. Qed.
End wp.

(** The step tactic: peel binds, returns and embedded computations off a
    [wp] goal; the calls it stops at are those of an interface. *)
Create HintDb go discriminated.
#[export] Hint Resolve wp_ret wp_get wp_modify : go.

Ltac go_step :=
  lazymatch goal with
  | |- wp (mbind _ _) _ _ _ => apply wp_bind
  | |- wp (mret _) _ _ _ => apply wp_ret
  | |- wp (go_lift _) _ _ _ => apply wp_lift
  | |- wp go_get _ _ _ => apply wp_get
  | |- wp (go_modify _) _ _ _ => apply wp_modify
  | |- wp (go_snd _) _ _ (_, _) => apply wp_snd
  | |- wp (go_fst _) _ _ (_, _) => apply wp_fst
  | |- wp (go_zoom _ _ _) _ _ _ => apply wp_zoom
  end.
Ltac go_steps := repeat (go_step; simpl).

(** Use a specification of the call at the head of the goal. *)
Ltac go_call H := eapply wp_mono; [eapply H | simpl | simpl; try done].

(** ** Go maps

    A Go map is a reference that may be nil: reading a nil map gives nothing,
    writing to it panics.  [None] is the nil map. *)

Abbreviation gomap V := (option (gmap string V)).

Definition map_index {V} (m : gomap V) (k : string) : option V := m ≫= lookup k.

Definition map_assign {V} (m : gomap V) (k : string) (v : V) : outcome (gomap V) :=
  match m with
  | Some m => Ret (Some (<[k:=v]> m))
  | None => Panic "assignment to entry in nil map"
  end.

(** [for k, v := range src { dst[k] = v }], the entries of [src] taken in the
    order [es]: Go leaves the order open, and [map_range_order] shows that it
    does not matter. *)
Definition map_range_entries {V} (es : list (string * V)) (dst : gmap string V)
    : gmap string V :=
  foldl (λ acc kv, <[kv.1:=kv.2]> acc) dst es.

Definition map_range_assign {V} (src : gomap V) (dst : gmap string V) : gmap string V :=
  map_range_entries (map_to_list (default ∅ src)) dst.

Section gomap.
Context {V : Type}.
Implicit Types (m dst : gmap string V) (es : list (string * V)).

Lemma map_range_entries_lookup es dst k :
  NoDup es.*1 →
  map_range_entries es dst !! k =
    match list_to_map (M:=gmap string V) es !! k with Some v => Some v | None => dst !! k end.
Proof.
  revert dst. induction es as [|[k' v] es IH]; intros dst Hnd; simpl in *; [done|].
  apply NoDup_cons in Hnd as [Hk Hnd]. rewrite IH by done.
  destruct (decide (k' = k)) as [->|Hne].
  - rewrite (not_elem_of_list_to_map_1 es k) by done. by rewrite !lookup_insert_eq.
  - by rewrite !lookup_insert_ne by done.
Qed.

(** Every order of the entries of the source map gives the same result,
    and the source wins over the destination. *)
Lemma map_range_order (m : gmap string V) es dst :
  es ≡ₚ map_to_list m → map_range_entries es dst = m ∪ dst.
Proof.
  intros Hp. assert (NoDup es.*1) as Hnd.
  { rewrite Hp. apply NoDup_fst_map_to_list. }
  apply map_eq. intros k. rewrite map_range_entries_lookup by done.
  rewrite (list_to_map_proper es (map_to_list m)) by done.
  rewrite list_to_map_to_list, lookup_union.
  by destruct (m !! k), (dst !! k).
Qed.

Lemma map_range_assign_union (src : gomap V) dst :
  map_range_assign src dst = default ∅ src ∪ dst.
Proof. by apply map_range_order. Qed.

Lemma map_index_assign m m' k k' v :
  map_assign (Some m) k v = Ret (Some m') →
  map_index (Some m') k' = if decide (k = k') then Some v else m !! k'.
Proof. intros [= <-]. simpl. apply lookup_insert. Qed.
End gomap.

(** ** Strings *)

#[global] Arguments Ascii.eqb : simpl never.

Fixpoint char_in (c : ascii) (s : string) : bool :=
  match s with
  | EmptyString => false
  | String c' s' => Ascii.eqb c c' || char_in c s'
  end.

Lemma append_cons c s t : String c s +:+ t = String c (s +:+ t).
Proof. done. Qed.

Lemma append_nil_l s : "" +:+ s = s.
Proof. done. Qed.

Lemma append_nil_r s : s +:+ "" = s.
Proof. induction s as [|c s IH]; [done|]. by rewrite append_cons, IH. Qed.

Lemma append_assoc s t u : (s +:+ t) +:+ u = s +:+ (t +:+ u).
Proof. induction s as [|c s IH]; [done|]. by rewrite !append_cons, IH. Qed.

Lemma length_append s t :
  String.length (s +:+ t) = (String.length s + String.length t)%nat.
Proof. induction s as [|c s IH]; [done|]. rewrite append_cons. simpl. by rewrite IH. Qed.

Lemma append_inj_l s t u : t +:+ s = u +:+ s → t = u.
Proof.
  revert u. induction t as [|c t IH]; intros [|c' u] H;
    rewrite ?append_cons, ?append_nil_l in H; [done| | |].
  - apply (f_equal String.length) in H. simpl in H. rewrite length_append in H. lia.
  - apply (f_equal String.length) in H. simpl in H. rewrite length_append in H. lia.
  - injection H as -> H. f_equal. auto.
Qed.

Lemma char_in_append c s t : char_in c (s +:+ t) = char_in c s || char_in c t.
Proof.
  induction s as [|c' s IH]; [done|].
  rewrite append_cons. simpl. by rewrite IH, orb_assoc.
Qed.

(** A separator splits a string in one way when it does not occur on its left. *)
Lemma append_sep_inj c s1 t1 s2 t2 :
  char_in c s1 = false → char_in c s2 = false →
  s1 +:+ String c t1 = s2 +:+ String c t2 → s1 = s2 ∧ t1 = t2.
Proof.
  revert s2. induction s1 as [|a s1 IH]; intros [|b s2] H1 H2 H;
    rewrite ?append_cons, ?append_nil_l in H; simpl in *.
  - by injection H as ->.
  - injection H as -> _. by rewrite Ascii.eqb_refl in H2.
  - injection H as -> _. by rewrite Ascii.eqb_refl in H1.
  - apply orb_false_iff in H1 as [_ H1], H2 as [_ H2].
    injection H as -> H. destruct (IH s2) as [-> ->]; auto.
Qed.
