(* ===== verification/GoStd.v ===== *)
(** * The parts of the Go standard library the provider uses

    UTF-8 decoding ([unicode/utf8]), decimal numbers ([strconv]), the
    formatting of a string that is passed to [fmt.Errorf] as a format with no
    arguments, and the textual form of IPv4 addresses ([net]).  A Go string is
    a sequence of bytes, so is a Rocq [string]. *)

From S2P Require Import Prelude.
From Stdlib Require Import Ascii.

Definition byte_of (c : ascii) : Z := Z.of_N (N_of_ascii c).
Definition chr (z : Z) : ascii := ascii_of_N (Z.to_N z).
Definition in_range (lo hi z : Z) : bool := (lo <=? z) && (z <=? hi).
Definition is_digit (c : ascii) : bool := in_range 48 57 (byte_of c).
Definition digit_val (c : ascii) : Z := byte_of c - 48.

(** A Go string with its double quotes written as single ones. *)
Fixpoint ticks (s : string) : string :=
  match s with
  | EmptyString => EmptyString
  | String c r => String (if Ascii.eqb c "'"%char then chr 34 else c) (ticks r)
  end.

(** ** unicode/utf8 *)
Module Utf8.
(** The second byte a first byte admits, and how many continuation bytes
    follow it; [None] for a byte that starts no rune. *)
Definition first_byte (b : Z) : option (Z * Z * nat) :=
  if in_range 0xC2 0xDF b then Some (0x80, 0xBF, 1%nat)
  else if b =? 0xE0 then Some (0xA0, 0xBF, 2%nat)
  else if b =? 0xED then Some (0x80, 0x9F, 2%nat)
  else if in_range 0xE1 0xEF b then Some (0x80, 0xBF, 2%nat)
  else if b =? 0xF0 then Some (0x90, 0xBF, 3%nat)
  else if in_range 0xF1 0xF3 b then Some (0x80, 0xBF, 3%nat)
  else if b =? 0xF4 then Some (0x80, 0x8F, 3%nat)
  else None.

(** [n] continuation bytes at the head of [s]. *)
Fixpoint conts (n : nat) (s : string) : option (string * string) :=
  match n, s with
  | O, _ => Some ("", s)
  | S n, String c s =>
      if in_range 0x80 0xBF (byte_of c) then
        '(a, r) ← conts n s; Some (String c a, r)
      else None
  | S _, EmptyString => None
  end.

(** [utf8.DecodeRune]: the bytes of the first rune and the rest of the
    string, or [None] when the first byte does not start a valid encoding
    (Go then gives [RuneError] with size 1). *)
Definition decode_rune (s : string) : option (string * string) :=
  match s with
  | EmptyString => None
  | String c s =>
      if byte_of c <? 0x80 then Some (String c "", s)
      else
        '(lo, hi, n) ← first_byte (byte_of c);
        match s with
        | String d r =>
            if in_range lo hi (byte_of d) then
              '(a, r) ← conts (Nat.pred n) r; Some (String c (String d a), r)
            else None
        | EmptyString => None
        end
  end.

(** The encoding of [utf8.RuneError], U+FFFD. *)
Definition rune_error : string := String (chr 0xEF) (String (chr 0xBF) (String (chr 0xBD) "")).
End Utf8.

(** ** strconv *)
Module Strconv.
Definition digit (z : Z) : ascii := chr (48 + z).

Fixpoint dec_go (fuel : nat) (n : Z) (acc : string) : string :=
  match fuel with
  | O => acc
  | S fuel =>
      let acc := String (digit (n mod 10)) acc in
      if n <? 10 then acc else dec_go fuel (n / 10) acc
  end.

(** The decimal digits of a non-negative number; one step of fuel for each
    bit is more than one for each digit. *)
Definition itoa (n : Z) : string := dec_go (S (Z.to_nat (Z.log2 n))) n "".

(** The value of a string of decimal digits; [None] at any other byte. *)
Fixpoint digits_val_from (acc : Z) (s : string) : option Z :=
  match s with
  | EmptyString => Some acc
  | String c s =>
      if is_digit c then digits_val_from (10 * acc + digit_val c) s else None
  end.
Definition digits_val (s : string) : option Z :=
  match s with EmptyString => None | _ => digits_val_from 0 s end.

Fixpoint all_digits (s : string) : bool :=
  match s with EmptyString => true | String c s => is_digit c && all_digits s end.

Lemma digit_is_digit z : 0 ≤ z < 10 → is_digit (digit z) = true ∧ digit_val (digit z) = z.
Proof.
  intros Hz. assert (z = 0 ∨ z = 1 ∨ z = 2 ∨ z = 3 ∨ z = 4 ∨ z = 5 ∨ z = 6
    ∨ z = 7 ∨ z = 8 ∨ z = 9) as H by lia.
  by destruct_or! H; subst.
Qed.

Lemma dec_go_val fuel n s acc :
  0 ≤ n → (Z.to_nat (Z.log2 n) < fuel)%nat →
  digits_val_from acc (dec_go fuel n s) =
    digits_val_from (acc * 10 ^ Z.of_nat (String.length (dec_go fuel n "")) + n) s.
Proof.
  revert n s acc. induction fuel as [|fuel IH]; intros n s acc Hn Hf; [lia|].
  assert (0 ≤ n mod 10 < 10) as Hm by (apply Z.mod_pos_bound; lia).
  destruct (digit_is_digit (n mod 10) Hm) as [Hd Hv]. simpl.
  destruct (Z.ltb_spec n 10) as [Hlt|Hge].
  - simpl. rewrite Hd, Hv. f_equal. rewrite Z.mod_small by lia. lia.
  - assert (Z.log2 (n / 10) < Z.log2 n) as Hlog.
    { apply Z.le_lt_trans with (Z.log2 (n / 2)).
      - apply Z.log2_le_mono, Z.div_le_compat_l; lia.
      - rewrite <-(Z.div2_div n), Z.div2_spec, Z.log2_shiftr by lia.
        pose proof (Z.log2_pos n ltac:(lia)). lia. }
    pose proof (Z.log2_nonneg (n / 10)).
    assert (0 ≤ n / 10) by (apply Z.div_pos; lia).
    rewrite IH by lia. simpl. rewrite Hd, Hv. f_equal.
    assert (∀ f m t, String.length (dec_go f m t)
      = (String.length (dec_go f m "") + String.length t)%nat) as Hlen.
    { clear. intros f. induction f as [|f IHf]; intros m t; [done|]. simpl.
      case_match; simpl; [done|]. rewrite (IHf _ (String _ t)), (IHf _ (String _ "")).
      simpl. lia. }
    rewrite (Hlen _ _ (String _ "")). simpl.
    rewrite Nat2Z.inj_add, Z.pow_add_r by lia. change (10 ^ Z.of_nat 1) with 10.
    pose proof (Z.div_mod n 10 ltac:(lia)).
    generalize dependent (10 ^ Z.of_nat (String.length (dec_go fuel (n / 10) ""))).
    intros P. lia.
Qed.

Lemma dec_go_length fuel m acc d :
  0 ≤ m < 10 ^ Z.of_nat (S d) →
  (String.length (dec_go fuel m acc) ≤ S d + String.length acc)%nat.
Proof.
  revert m acc d. induction fuel as [|fuel IH]; intros m acc d Hm; [simpl; lia|].
  cbn [dec_go]. destruct (Z.ltb_spec m 10); [simpl; lia|].
  destruct d as [|d]; [change (10 ^ Z.of_nat 1) with 10 in Hm; lia|].
  rewrite (Nat2Z.inj_succ (S d)), Z.pow_succ_r in Hm by lia.
  assert (0 ≤ m / 10 < 10 ^ Z.of_nat (S d)) as Hd.
  { split; [apply Z.div_pos; lia|apply Z.div_lt_upper_bound; lia]. }
  specialize (IH (m / 10) (String (digit (m mod 10)) acc) d Hd). simpl in *. lia.
Qed.

Lemma itoa_length n d :
  0 ≤ n < 10 ^ Z.of_nat (S d) → (String.length (itoa n) ≤ S d)%nat.
Proof.
  intros Hn. unfold itoa. etrans; [by apply (dec_go_length _ _ _ d)|]. simpl. lia.
Qed.

Lemma digits_val_from_digits acc s v :
  digits_val_from acc s = Some v → all_digits s = true.
Proof.
  revert acc. induction s as [|c s IH]; intros acc; simpl; [done|].
  destruct (is_digit c); simpl; [eauto|done].
Qed.

Lemma itoa_nonempty n : itoa n ≠ "".
Proof.
  unfold itoa. simpl. case_match; [done|].
  generalize (Z.to_nat (Z.log2 n)), (n / 10). intros f.
  assert (∀ m t, t ≠ "" → dec_go f m t ≠ "") as Hne; [|auto].
  induction f as [|f IH]; intros m t Ht; simpl; [done|]. case_match; auto.
Qed.

(** Printing and reading a number gives it back. *)
Lemma digits_val_itoa n : 0 ≤ n → digits_val (itoa n) = Some n.
Proof.
  intros Hn. unfold digits_val. pose proof (itoa_nonempty n) as Hne.
  destruct (itoa n) as [|c s] eqn:Hi; [done|]. rewrite <-Hi. unfold itoa.
  rewrite dec_go_val by lia. done.
Qed.

Lemma itoa_inj m n : 0 ≤ m → 0 ≤ n → itoa m = itoa n → m = n.
Proof.
  intros Hm Hn H. apply (f_equal digits_val) in H.
  rewrite !digits_val_itoa in H by done. congruence.
Qed.

Lemma itoa_digits n : 0 ≤ n → all_digits (itoa n) = true.
Proof.
  intros Hn. apply digits_val_itoa in Hn. unfold digits_val in Hn.
  destruct (itoa n) eqn:E; [done|]. rewrite <-E in *. by eapply digits_val_from_digits.
Qed.

Lemma digits_val_from_lt acc s v :
  digits_val_from acc s = Some v → v < (acc + 1) * 10 ^ Z.of_nat (String.length s).
Proof.
  revert acc. induction s as [|c s IH]; intros acc; simpl String.length.
  { intros [= <-]. change (10 ^ Z.of_nat 0) with 1. lia. }
  cbn [digits_val_from]. destruct (is_digit c) eqn:Hc; [|done]. intros Hv%IH.
  rewrite Nat2Z.inj_succ, Z.pow_succ_r by lia.
  unfold is_digit, in_range, digit_val in *.
  pose proof (Z.pow_pos_nonneg 10 (Z.of_nat (String.length s)) ltac:(lia) ltac:(lia)). nia.
Qed.

(** A number of several digits does not begin with a zero. *)
Lemma itoa_no_leading_zero n c d s :
  0 ≤ n → itoa n = String c (String d s) → Ascii.eqb c "0"%char = false.
Proof.
  intros Hn Hi. destruct (Ascii.eqb_spec c "0"%char) as [->|]; [|done].
  pose proof (digits_val_itoa n Hn) as Hv. rewrite Hi in Hv.
  change (digits_val_from 0 (String d s) = Some n) in Hv.
  apply digits_val_from_lt in Hv.
  assert (String.length (itoa n) ≤ S (String.length s))%nat as Hl.
  { apply itoa_length. change (S (String.length s)) with (String.length (String d s)). lia. }
  rewrite Hi in Hl. simpl in Hl. lia.
Qed.

(** Digits read after the ones with the value [acc]. *)
Lemma digits_val_from_split acc s v :
  digits_val_from acc s = Some v →
  ∃ u, digits_val_from 0 s = Some u ∧ v = acc * 10 ^ Z.of_nat (String.length s) + u ∧
       0 ≤ u < 10 ^ Z.of_nat (String.length s).
Proof.
  revert acc v. induction s as [|c s IH]; intros acc v.
  { intros [= <-]. exists 0. change (10 ^ Z.of_nat (String.length "")) with 1. split; [done|lia]. }
  cbn [digits_val_from]. destruct (is_digit c) eqn:Hc; [|done]. intros Hv.
  destruct (IH _ _ Hv) as (u & Hu & -> & Hb).
  unfold is_digit, in_range in Hc. apply andb_prop in Hc as [H1%Z.leb_le H2%Z.leb_le].
  destruct (digits_val_from (10 * 0 + digit_val c) s) as [w|] eqn:Hw.
  - destruct (IH _ _ Hw) as (u' & Hu' & -> & _). rewrite Hu in Hu'. injection Hu' as <-.
    eexists. split; [done|]. change (String.length (String c s)) with (S (String.length s)).
    rewrite Nat2Z.inj_succ, Z.pow_succ_r by lia. unfold digit_val in *. nia.
  - assert (∀ acc, is_Some (digits_val_from acc s)) as Hall; [|by destruct (Hall (10 * 0 + digit_val c)); congruence].
    clear -Hu. revert Hu. generalize 0, u. induction s as [|d s IH]; intros z u'; simpl; [by eexists|].
    destruct (is_digit d); [|done]. intros Hd acc. by eapply IH.
Qed.

Lemma digits_val_from_append acc s t :
  digits_val_from acc (s +:+ t) = (digits_val_from acc s ≫= λ v, digits_val_from v t).
Proof.
  revert acc. induction s as [|c s IH]; intros acc; [done|].
  rewrite append_cons. simpl. by destruct (is_digit c).
Qed.

(** Texts of one length are told apart by their values. *)
Lemma digits_val_from_inj s t v acc :
  String.length s = String.length t →
  digits_val_from acc s = Some v → digits_val_from acc t = Some v → s = t.
Proof.
  revert t acc. induction s as [|c s IH]; intros [|d t] acc; simpl; try done.
  intros [= Hl]. destruct (is_digit c) eqn:Hc; [|done]. destruct (is_digit d) eqn:Hd; [|done].
  intros Hs Ht. destruct (digits_val_from_split _ _ _ Hs) as (u & _ & -> & Hu).
  destruct (digits_val_from_split _ _ _ Ht) as (u' & _ & Heq & Hu'). rewrite <-Hl in *.
  assert (digit_val c = digit_val d) as Hcd by nia.
  assert (c = d) as ->.
  { unfold digit_val, byte_of in Hcd. rewrite <-(ascii_N_embedding c), <-(ascii_N_embedding d).
    f_equal. lia. }
  f_equal. by eapply IH.
Qed.

(** A text without leading zeros. *)
Definition no_leading_zero (s : string) : Prop :=
  ∀ c d r, s = String c (String d r) → Ascii.eqb c "0" = false.

Lemma digits_val_bounds s n :
  digits_val s = Some n → no_leading_zero s →
  0 ≤ n < 10 ^ Z.of_nat (String.length s) ∧
  ((2 ≤ String.length s)%nat → 10 ^ Z.of_nat (pred (String.length s)) ≤ n).
Proof.
  destruct s as [|c r]; [done|]. cbn [digits_val digits_val_from].
  destruct (is_digit c) eqn:Hc; [|done]. intros Hv Hlead.
  destruct (digits_val_from_split _ _ _ Hv) as (u & _ & -> & Hu).
  change (String.length (String c r)) with (S (String.length r)). cbn [pred].
  rewrite Nat2Z.inj_succ, Z.pow_succ_r by lia.
  unfold is_digit, in_range in Hc. apply andb_prop in Hc as [H1%Z.leb_le H2%Z.leb_le].
  unfold digit_val in *. split; [nia|]. intros Hlen. destruct r as [|d r]; [simpl in Hlen; lia|].
  assert (byte_of c ≠ 48) as Hne; [|nia].
  intros Hb. specialize (Hlead c d r eq_refl). apply Ascii.eqb_neq in Hlead. destruct Hlead.
  unfold byte_of in Hb. rewrite <-(ascii_N_embedding c). by replace (N_of_ascii c) with 48%N by lia.
Qed.

(** A text of digits without leading zeros is the one that is printed. *)
Lemma itoa_digits_val s n : digits_val s = Some n → no_leading_zero s → itoa n = s.
Proof.
  intros Hv Hlead. destruct (digits_val_bounds s n Hv Hlead) as [Hn Hlow].
  assert (digits_val (itoa n) = Some n) as Hi by (apply digits_val_itoa; lia).
  assert (no_leading_zero (itoa n)) as Hlead'.
  { intros c d r Hr. apply (itoa_no_leading_zero n c d r); [lia|done]. }
  destruct (digits_val_bounds _ n Hi Hlead') as [Hn' Hlow'].
  assert (∀ x y : nat, n < 10 ^ Z.of_nat x → ((2 ≤ y)%nat → 10 ^ Z.of_nat (pred y) ≤ n) →
    (0 < x)%nat → (y ≤ x)%nat) as Hle.
  { intros x y Hx Hy Hpos. destruct (decide (y ≤ x)%nat) as [|Hlt]; [done|].
    assert (10 ^ Z.of_nat x ≤ 10 ^ Z.of_nat (pred y)) by (apply Z.pow_le_mono_r; lia). lia. }
  assert (s ≠ "" ∧ itoa n ≠ "") as [Hs Hi'].
  { split; intros Hnil; [rewrite Hnil in Hv|rewrite Hnil in Hi]; done. }
  assert (∀ t : string, t ≠ "" → (0 < String.length t)%nat) as Hpos.
  { intros []; simpl; [done|lia]. }
  apply (digits_val_from_inj _ _ n 0).
  - apply Nat.le_antisymm; apply Hle; auto; lia.
  - by destruct (itoa n).
  - by destruct s.
Qed.
End Strconv.

(** ** fmt

    [fmt.Errorf(msg)], with a message built at run time in the place of the
    format and no arguments: the bytes outside directives are copied, a
    directive finds no operand and leaves its own mark in the text.  The
    functions follow [doPrintf] for an empty argument list. *)
Module Fmt.
Definition is_flag (c : ascii) : bool :=
  existsb (Ascii.eqb c) ["#"%char; "0"%char; "+"%char; "-"%char; " "%char].

Fixpoint skip_flags (s : string) : string :=
  match s with
  | String c r => if is_flag c then skip_flags r else s
  | EmptyString => s
  end.

(** [parsenum]: whether a number was read, and the rest.  A number above a
    million makes it give up at the end of the input. *)
Fixpoint parsenum_go (num : Z) (isnum : bool) (s : string) : bool * string :=
  match s with
  | String c r =>
      if is_digit c then
        if 1000000 <? num then (false, "") else parsenum_go (num * 10 + digit_val c) true r
      else (isnum, s)
  | EmptyString => (isnum, s)
  end.
Definition parsenum : string → bool * string := parsenum_go 0 false.

(** The text up to the first closing bracket, and what follows it. *)
Fixpoint split_bracket (s : string) : option (string * string) :=
  match s with
  | EmptyString => None
  | String c r =>
      if Ascii.eqb c "]"%char then Some ("", r)
      else '(a, b) ← split_bracket r; Some (String c a, b)
  end.

(** [argNumber] with no arguments: no index is in range.  Gives whether
    [goodArgNum] stays true, [afterIndex], and the rest of the format. *)
Definition arg_number (s : string) : bool * bool * string :=
  match s with
  | String c r =>
      if negb (Ascii.eqb c "["%char) then (true, false, s)
      else if (String.length s <? 3)%nat then (false, false, r)
      else match split_bracket r with
           | None => (false, false, r)
           | Some (num, rest) =>
               match parsenum num with
               | (true, EmptyString) => (false, true, rest)
               | _ => (false, false, rest)
               end
           end
  | EmptyString => (true, false, s)
  end.

(** A width or a precision: a star has no operand to read it from. *)
Definition star_or_num (bad : string) (after : bool) (s : string)
    : string * bool * string :=
  match s with
  | String c r =>
      if Ascii.eqb c "*"%char then (bad, false, r) else ("", after, (parsenum s).2)
  | EmptyString => ("", after, s)
  end.

(** The precision, when the format has one. *)
Definition precision (after : bool) (s : string) : bool * string * bool * string :=
  match s with
  | String c r =>
      if Ascii.eqb c "."%char then
        let '(g, after', r) := arg_number r in
        let '(o, after', r) := star_or_num "%!(BADPREC)" after' r in
        (negb after && g, o, after', r)
      else (true, "", after, s)
  | EmptyString => (true, "", after, s)
  end.

(** The verb: a percent sign stands for itself, any other verb finds no
    operand. *)
Definition verb_text (good : bool) (s : string) : string * string :=
  match s with
  | EmptyString => ("%!(NOVERB)", "")
  | String c r =>
      let '(verb, rest) := default (Utf8.rune_error, r) (Utf8.decode_rune s) in
      if Ascii.eqb c "%"%char then ("%", r)
      else if good then ("%!" +:+ verb +:+ "(MISSING)", rest)
      else ("%!" +:+ verb +:+ "(BADINDEX)", rest)
  end.

(** One directive, after its percent sign: the text it leaves and the rest
    of the format. *)
Definition directive (s : string) : string * string :=
  let '(good1, after, s) := arg_number (skip_flags s) in
  let '(out1, after, s) := star_or_num "%!(BADWIDTH)" after s in
  let '(good2, out2, after, s) := precision after s in
  let '(good3, s) :=
    if after then (true, s) else let '(g, _, r) := arg_number s in (g, r) in
  let '(out, rest) := verb_text (good1 && good2 && good3) s in
  (out1 +:+ out2 +:+ out, rest).

Fixpoint sprintf0_go (fuel : nat) (s : string) : string :=
  match fuel with
  | O => ""
  | S fuel =>
      match s with
      | EmptyString => ""
      | String c r =>
          if Ascii.eqb c "%"%char then
            let '(out, rest) := directive r in out +:+ sprintf0_go fuel rest
          else String c (sprintf0_go fuel r)
      end
  end.

(** [fmt.Sprintf(s)]: every step consumes at least one byte, so the length
    of the format is enough fuel. *)
Definition sprintf0 (s : string) : string := sprintf0_go (S (String.length s)) s.

(** A text without a percent sign is its own formatting. *)
Lemma sprintf0_go_plain fuel s :
  (String.length s < fuel)%nat → char_in "%"%char s = false → sprintf0_go fuel s = s.
Proof.
  revert s. induction fuel as [|fuel IH]; intros [|c s] Hf Hs; simpl in *; [lia..|done|].
  apply orb_false_iff in Hs as [Hc Hs].
  rewrite Ascii.eqb_sym, Hc. f_equal. apply IH; [lia|done].
Qed.

Lemma sprintf0_plain s : char_in "%"%char s = false → sprintf0 s = s.
Proof. intros Hs. apply sprintf0_go_plain; [lia|done]. Qed.

Lemma skip_flags_length s : (String.length (skip_flags s) ≤ String.length s)%nat.
Proof. induction s as [|c s IH]; simpl; [lia|]. case_match; simpl; lia. Qed.

Lemma parsenum_length n b s :
  (String.length (parsenum_go n b s).2 ≤ String.length s)%nat.
Proof.
  revert n b. induction s as [|c s IH]; intros n b; simpl; [lia|].
  repeat case_match; simpl; [lia| |lia]. specialize (IH (n * 10 + digit_val c) true). lia.
Qed.

Lemma split_bracket_length s a b :
  split_bracket s = Some (a, b) → (String.length b < String.length s)%nat.
Proof.
  revert a. induction s as [|c s IH]; intros a; simpl; [done|].
  case_match; [intros [= <- <-]; lia|].
  destruct (split_bracket s) as [[a' b']|]; simpl; [|done].
  intros [= <- <-]. specialize (IH a' eq_refl). lia.
Qed.

Lemma arg_number_length s : (String.length (arg_number s).2 ≤ String.length s)%nat.
Proof.
  destruct s as [|c s]; [done|]. unfold arg_number.
  destruct (negb _); [done|]. destruct (_ <? _)%nat; [simpl; lia|].
  destruct (split_bracket s) as [[a b]|] eqn:E; [|simpl; lia].
  apply split_bracket_length in E. destruct (parsenum a) as [[] []]; simpl; lia.
Qed.

Lemma star_or_num_length bad after s :
  (String.length (star_or_num bad after s).2 ≤ String.length s)%nat.
Proof.
  destruct s as [|c s]; [done|]. unfold star_or_num.
  destruct (Ascii.eqb _ _); [simpl; lia|]. apply parsenum_length.
Qed.

Lemma precision_length after s :
  (String.length (precision after s).2 ≤ String.length s)%nat.
Proof.
  destruct s as [|c s]; [done|]. unfold precision. destruct (Ascii.eqb _ _); [|done].
  pose proof (arg_number_length s) as H1. destruct (arg_number s) as [[g a] r].
  pose proof (star_or_num_length "%!(BADPREC)" a r) as H2.
  destruct (star_or_num _ a r) as [[o a'] r']. simpl in *. lia.
Qed.

Lemma conts_length n s a r :
  Utf8.conts n s = Some (a, r) → (String.length r ≤ String.length s)%nat.
Proof.
  revert s a. induction n as [|n IH]; intros s a; simpl; [by intros [= <- <-]|].
  destruct s as [|c s]; [done|]. case_match; [|done].
  destruct (Utf8.conts n s) as [[a' r']|] eqn:E; simpl; [|done].
  intros [= <- <-]. apply IH in E. lia.
Qed.

Lemma decode_rune_length s v r :
  Utf8.decode_rune s = Some (v, r) → (String.length r < String.length s)%nat.
Proof.
  destruct s as [|c s]; simpl; [done|].
  destruct (_ <? _); [intros [= <- <-]; lia|].
  destruct (Utf8.first_byte _) as [[[lo hi] n]|]; simpl; [|done].
  destruct s as [|d s]; [done|]. destruct (in_range lo hi _); [|done].
  destruct (Utf8.conts _ s) as [[a r']|] eqn:E; simpl; [|done].
  intros [= <- <-]. apply conts_length in E. simpl. lia.
Qed.

Lemma verb_text_length good s :
  (String.length (verb_text good s).2 ≤ String.length s)%nat.
Proof.
  destruct s as [|c s]; [done|]. unfold verb_text.
  destruct (Utf8.decode_rune _) as [[v r]|] eqn:E; simpl default.
  - apply decode_rune_length in E. destruct (Ascii.eqb _ _), good; simpl in *; lia.
  - destruct (Ascii.eqb _ _), good; simpl; lia.
Qed.

Lemma directive_length s : (String.length (directive s).2 ≤ String.length s)%nat.
Proof.
  unfold directive. pose proof (skip_flags_length s) as H0.
  pose proof (arg_number_length (skip_flags s)) as H1.
  destruct (arg_number (skip_flags s)) as [[g1 a1] s1].
  pose proof (star_or_num_length "%!(BADWIDTH)" a1 s1) as H2.
  destruct (star_or_num _ a1 s1) as [[o1 a2] s2].
  pose proof (precision_length a2 s2) as H3.
  destruct (precision a2 s2) as [[[g2 o2] a3] s3].
  pose proof (arg_number_length s3) as H4.
  destruct (arg_number s3) as [[g3 a4] s4]. simpl in *.
  destruct a3; simpl.
  - pose proof (verb_text_length (g1 && g2 && true) s3).
    destruct (verb_text _ _). simpl in *. lia.
  - pose proof (verb_text_length (g1 && g2 && g3) s4).
    destruct (verb_text _ _). simpl in *. lia.
Qed.

(** More fuel than bytes changes nothing. *)
Lemma sprintf0_go_fuel f1 f2 s :
  (String.length s < f1)%nat → (String.length s < f2)%nat →
  sprintf0_go f1 s = sprintf0_go f2 s.
Proof.
  revert f2 s. induction f1 as [|f1 IH]; intros [|f2] [|c s] H1 H2; simpl in *;
    [lia..|done|].
  destruct (Ascii.eqb _ _).
  - pose proof (directive_length s). destruct (directive s) as [out r].
    simpl in *. f_equal. apply IH; lia.
  - f_equal. apply IH; lia.
Qed.

Lemma sprintf0_directive s :
  sprintf0 (String "%"%char s) = (directive s).1 +:+ sprintf0 (directive s).2.
Proof.
  pose proof (directive_length s).
  change (sprintf0 (String "%"%char s)) with
    (let '(out, r) := directive s in out +:+ sprintf0_go (S (String.length s)) r).
  destruct (directive s) as [out r]. cbn [fst snd] in *. f_equal.
  apply sprintf0_go_fuel; lia.
Qed.

(** Any other byte is copied. *)
Lemma sprintf0_cons c s :
  Ascii.eqb c "%"%char = false → sprintf0 (String c s) = String c (sprintf0 s).
Proof. intros Hc. unfold sprintf0. simpl. by rewrite Hc. Qed.
End Fmt.

(** ** net *)
Module Net.
(** [net.IP]: a slice of 4 or 16 bytes. *)
Definition IP : Type := list Z.

Definition v4InV6Prefix : list Z := [0;0;0;0;0;0;0;0;0;0;0xff;0xff].

(** [IP.To4]: the 4-byte form, [None] for nil. *)
Definition To4 (ip : IP) : option IP :=
  if (length ip =? 4)%nat then Some ip
  else if (length ip =? 16)%nat && bool_decide (take 12 ip = v4InV6Prefix)
  then Some (drop 12 ip)
  else None.

(** [IP.String] of an address with a 4-byte form. *)
Definition ip_string (ip : IP) : string :=
  match To4 ip with
  | Some [a; b; c; d] =>
      Strconv.itoa a +:+ "." +:+ Strconv.itoa b +:+ "." +:+
      Strconv.itoa c +:+ "." +:+ Strconv.itoa d
  | _ => ""
  end.

Lemma To4_length ip ip4 : To4 ip = Some ip4 → length ip4 = 4%nat.
Proof.
  unfold To4. case_match eqn:H4; [intros [= <-]; by apply Nat.eqb_eq|].
  case_match eqn:H16; [|done]. intros [= <-].
  apply andb_prop in H16 as [H16%Nat.eqb_eq _]. rewrite length_drop, H16. done.
Qed.
End Net.
