(* ===== verification/GoErrors.v ===== *)
(** * Error values

    A Go [error] is one of the concrete types that meet in the provider: the
    plain string errors of [fmt.Errorf] and [errors.New], the API server's
    [*StatusError], the [*MachineError] and [*RequeueAfterError] of the
    machine controller, and the wrappers of [github.com/pkg/errors].  A nil
    error is [None] of an [option], a pair [(T, error)] of which callers read
    one half is a sum. *)

From S2P Require Import Prelude GoStd.
From Stdlib Require Import Ascii.

(** Seconds, of [time.Duration]; only whole seconds occur. *)
Inductive goerror :=
  | ErrorString (s : string)
  | StatusError (Reason : string) (Message : string)
  | MachineError (Reason : string) (Message : string)
  | RequeueAfterError (RequeueAfter : Z)
  | withMessage (cause : goerror) (msg : string)
  | withStack (cause : goerror).

#[export] Instance goerror_eq_dec : EqDecision goerror.
Proof. solve_decision. Defined.

(** The result of a Go function [func (...) (T, error)]. *)
Abbreviation result T := (T + goerror)%type.

Definition StatusReasonUnknown := "".
Definition StatusReasonNotFound := "NotFound".
Definition StatusReasonAlreadyExists := "AlreadyExists".
Definition StatusReasonConflict := "Conflict".

Definition InvalidConfigurationMachineError := "InvalidConfiguration".
Definition CreateMachineError := "CreateError".
Definition UpdateMachineError := "UpdateError".
Definition DeleteMachineError := "DeleteError".

(** The text of a duration of whole seconds below a minute; the only
    [RequeueAfterError] the controllers build holds 20 seconds. *)
Definition duration_text (s : Z) : string := Strconv.itoa s +:+ "s".

(** [err.Error()], which is also what the verb [%v] prints. *)
Fixpoint Error (e : goerror) : string :=
  match e with
  | ErrorString s => s
  | StatusError _ msg => msg
  | MachineError _ msg => msg
  | RequeueAfterError d => "requeue in: " +:+ duration_text d
  | withMessage cause msg => msg +:+ ": " +:+ Error cause
  | withStack cause => Error cause
  end.

(** [errors.Unwrap]. *)
Definition Unwrap (e : goerror) : option goerror :=
  match e with
  | withMessage cause _ => Some cause
  | withStack cause => Some cause
  | _ => None
  end.

(** The chain [errors.As] walks: the error and what it wraps. *)
Fixpoint chain (e : goerror) : list goerror :=
  e :: match e with
       | withMessage cause _ | withStack cause => chain cause
       | _ => []
       end.

(** [errors.As(err, &status)] for an [APIStatus], then its reason. *)
Fixpoint ReasonForError (e : goerror) : string :=
  match e with
  | StatusError reason _ => reason
  | withMessage cause _ | withStack cause => ReasonForError cause
  | _ => StatusReasonUnknown
  end.

Definition IsNotFound (e : goerror) : bool :=
  bool_decide (ReasonForError e = StatusReasonNotFound).
Definition IsAlreadyExists (e : goerror) : bool :=
  bool_decide (ReasonForError e = StatusReasonAlreadyExists).

(** [errors.As(err, &machineError)]. *)
Fixpoint as_machine_error (e : goerror) : option (string * string) :=
  match e with
  | MachineError reason msg => Some (reason, msg)
  | withMessage cause _ | withStack cause => as_machine_error cause
  | _ => None
  end.

(** [errors.As(err, &requeueAfterError)]. *)
Fixpoint as_requeue_after (e : goerror) : option Z :=
  match e with
  | RequeueAfterError d => Some d
  | withMessage cause _ | withStack cause => as_requeue_after cause
  | _ => None
  end.

(** [isInvalidMachineConfigurationError] of the machine controller. *)
Definition isInvalidMachineConfigurationError (e : goerror) : bool :=
  match as_machine_error e with
  | Some (reason, _) => bool_decide (reason = InvalidConfigurationMachineError)
  | None => false
  end.

(** [errors.Wrap(err, msg)] of pkg/errors, for an error that is not nil. *)
Definition Wrap (e : goerror) (msg : string) : goerror := withStack (withMessage e msg).

(** [fmt.Errorf(msg)]: the text is used as a format. *)
Definition Errorf (msg : string) : goerror := ErrorString (Fmt.sprintf0 msg).

Definition InvalidMachineConfiguration (msg : string) : goerror :=
  MachineError InvalidConfigurationMachineError msg.

(** An error whose chain is the error alone and that no [errors.As] of the
    controllers recognises. *)
Definition opaque_error (e : goerror) : Prop := ∃ s, e = ErrorString s.

Lemma opaque_Errorf msg : opaque_error (Errorf msg).
Proof. by eexists. Qed.

Lemma opaque_not_invalid e :
  opaque_error e → isInvalidMachineConfigurationError e = false.
Proof. by intros [s ->]. Qed.

Lemma opaque_not_found e : opaque_error e → IsNotFound e = false.
Proof. by intros [s ->]. Qed.

Lemma opaque_not_requeue e : opaque_error e → as_requeue_after e = None.
Proof. by intros [s ->]. Qed.

(** Wrapping keeps what [errors.As] finds. *)
Lemma ReasonForError_Wrap e msg : ReasonForError (Wrap e msg) = ReasonForError e.
Proof. done. Qed.

Lemma IsNotFound_Wrap e msg : IsNotFound (Wrap e msg) = IsNotFound e.
Proof. done. Qed.

Lemma IsNotFound_not_invalid e :
  IsNotFound e = true → isInvalidMachineConfigurationError e = false.
Proof.
  unfold isInvalidMachineConfigurationError, IsNotFound.
  intros H%bool_decide_eq_true_1. induction e; simpl in *; auto; discriminate.
Qed.

(** The recognisers only depend on the chain. *)
Lemma ReasonForError_chain e :
  ReasonForError e =
    foldr (λ c r, match c with StatusError reason _ => reason | _ => r end)
      StatusReasonUnknown (chain e).
Proof. induction e; simpl; auto. Qed.

Lemma as_machine_error_chain e :
  as_machine_error e =
    foldr (λ c r, match c with MachineError reason msg => Some (reason, msg) | _ => r end)
      None (chain e).
Proof. induction e; simpl; auto. Qed.

Lemma Errorf_plain msg : char_in "%"%char msg = false → Error (Errorf msg) = msg.
Proof. apply Fmt.sprintf0_plain. Qed.

#[export] Hint Resolve opaque_Errorf opaque_not_invalid opaque_not_found
  opaque_not_requeue : go.
