(* ===== verification/Quantity.v ===== *)
(** * Resource quantities ([k8s.io/apimachinery/pkg/api/resource])

    The provider turns the memory, CPU and storage strings of a machine into
    quantities with [resource.MustParse], which panics on a string it cannot
    read.  The file models the parser of the vendored package: the scanner
    [parseQuantityString], the table of suffixes, the int64 fast path and the
    arbitrary-precision slow path of [ParseQuantity], and [MustParse].  The
    32- and 64-bit integers wrap where the code lets them. *)

From S2P Require Import Prelude GoStd GoErrors.
From Stdlib Require Import Ascii.

(** ** Machine integers *)
Definition wrap (w : Z) (z : Z) : Z := (z + 2 ^ (w - 1)) mod 2 ^ w - 2 ^ (w - 1).
Definition wrap32 : Z → Z := wrap 32.
Definition wrap64 : Z → Z := wrap 64.
Definition mostPositive : Z := 2 ^ 63 - 1.
Definition mostNegative : Z := - 2 ^ 63.

Lemma wrap_small w z : 0 < w → - 2 ^ (w - 1) ≤ z < 2 ^ (w - 1) → wrap w z = z.
Proof.
  intros Hw Hz. unfold wrap.
  assert (2 ^ w = 2 * 2 ^ (w - 1)) as Hp.
  { rewrite <-Z.pow_succ_r by lia. f_equal. lia. }
  rewrite Z.mod_small; lia.
Qed.

Lemma wrap64_id z : - 2 ^ 63 ≤ z < 2 ^ 63 → wrap64 z = z.
Proof. intros ?. by apply (wrap_small 64). Qed.

Lemma wrap64_range z : mostNegative ≤ wrap64 z ≤ mostPositive.
Proof.
  unfold wrap64, wrap, mostNegative, mostPositive.
  pose proof (Z.mod_pos_bound (z + 2 ^ (64 - 1)) (2 ^ 64) ltac:(lia)). lia.
Qed.

(** ** Data *)
Inductive Format := DecimalExponent | BinarySI | DecimalSI.

#[export] Instance Format_eq_dec : EqDecision Format.
Proof. solve_decision. Defined.

(** [int64Amount] and [inf.Dec]: [value * 10^scale] and [unscaled * 10^-scale]. *)
Record int64Amount := Int64Amount { value : Z; scale : Z }.
Record Dec := MkDec { Unscaled : Z; Scale : Z }.

Record Quantity := MkQuantity {
  q_i : int64Amount;
  q_d : option Dec;
  q_s : string;
  q_format : Format
}.

#[export] Instance Quantity_eq_dec : EqDecision Quantity.
Proof.
  assert (EqDecision int64Amount) by solve_decision.
  assert (EqDecision Dec) by solve_decision.
  solve_decision.
Defined.

Definition splitREString := "^([+-]?[0-9.]+)([eEinumkKMGTP]*[-+]?[0-9]*)$".
Definition ErrFormatWrong : goerror :=
  ErrorString ("quantities must match the regular expression '" +:+ splitREString +:+ "'").
Definition ErrNumeric : goerror := ErrorString "unable to parse numeric part of quantity".
Definition ErrSuffix : goerror := ErrorString "unable to parse quantity's suffix".

(** ** Scanning *)
Fixpoint span (p : ascii → bool) (s : string) : string * string :=
  match s with
  | EmptyString => ("", "")
  | String c r => if p c then let '(a, b) := span p r in (String c a, b) else ("", s)
  end.

(** An optional sign: whether it is a minus, its text, and the rest. *)
Definition split_sign (s : string) : bool * string * string :=
  match s with
  | String c r => if Ascii.eqb c "-"%char then (true, "-", r)
                  else if Ascii.eqb c "+"%char then (false, "+", r)
                  else (false, "", s)
  | EmptyString => (false, "", s)
  end.

Definition is_zero_char (c : ascii) : bool := Ascii.eqb c "0"%char.
Definition is_suffix_char (c : ascii) : bool := char_in c "eEinumkKMGTP".
Definition is_sign (c : ascii) : bool := Ascii.eqb c "-"%char || Ascii.eqb c "+"%char.

Record scanned := Scanned {
  positive : bool;
  svalue : string;
  num : string;
  denom : string;
  suffix : string
}.

(** The suffix: letters, then an optional sign and digits, up to the end. *)
Definition scan_suffix (s : string) : bool :=
  let '(_, r) := span is_suffix_char s in
  let r := match r with
           | String c r' => if is_sign c then r' else r
           | EmptyString => r
           end in
  bool_decide ((span is_digit r).2 = "").

(** [parseQuantityString]. *)
Definition parseQuantityString (str : string) : result scanned :=
  let '(neg, sgn, r1) := split_sign str in
  let pos := negb neg in
  let '(zs, r2) := span is_zero_char r1 in
  match r2 with
  | EmptyString => inl (Scanned pos "0" "0" "" "")
  | _ =>
      let '(n, r3) := span is_digit r2 in
      match r3 with
      | EmptyString => inl (Scanned pos str n "" "")
      | String c r =>
          let n' := if bool_decide (n = "") then "0" else n in
          let before := sgn +:+ zs +:+ n in
          let '(value, d, r4) :=
            if Ascii.eqb c "."%char then
              let '(d, r4) := span is_digit r in (before +:+ "." +:+ d, d, r4)
            else (before, "", r3) in
          if scan_suffix r4 then inl (Scanned pos value n' d r4) else inr ErrFormatWrong
      end
  end.

(** ** Suffixes *)
Definition decSuffixes : gmap string Z :=
  list_to_map [("n", -9); ("u", -6); ("m", -3); ("", 0); ("k", 3); ("M", 6); ("G", 9);
               ("T", 12); ("P", 15); ("E", 18)].
Definition binSuffixes : gmap string Z :=
  list_to_map [("Ki", 10); ("Mi", 20); ("Gi", 30); ("Ti", 40); ("Pi", 50); ("Ei", 60)].

(** [strconv.ParseInt(s, 10, 64)]; [None] for a syntax or a range error. *)
Definition ParseInt (s : string) : option Z :=
  let '(neg, _, r) := split_sign s in
  v ← Strconv.digits_val r;
  let v := if neg : bool then - v else v in
  if in_range mostNegative mostPositive v then Some v else None.

(** [interpret]: base, exponent and format of a suffix. *)
Definition interpret (s : string) : option (Z * Z * Format) :=
  match decSuffixes !! s with
  | Some e => Some (10, e, DecimalSI)
  | None =>
      match binSuffixes !! s with
      | Some e => Some (2, e, BinarySI)
      | None =>
          match s with
          | String c (String _ _ as r) =>
              if Ascii.eqb c "E"%char || Ascii.eqb c "e"%char then
                parsed ← ParseInt r; Some (10, wrap32 parsed, DecimalExponent)
              else None
          | _ => None
          end
      end
  end.

(** ** Arithmetic *)
Definition maxInt64Factors : Z := 18.
Definition Nano : Z := -9.

(** [int64Multiply]: the product, or [None] when it overflows. *)
Definition int64Multiply (a b : Z) : option Z :=
  if (a =? 0) || (b =? 0) || (a =? 1) || (b =? 1) then Some (wrap64 (a * b))
  else if (a =? mostNegative) || (b =? mostNegative) then None
  else let c := wrap64 (a * b) in
       if Z.quot c b =? a then Some c else None.

(** [inf.Dec.SetString]: sign, digits and at most one decimal point. *)
Definition dec_SetString (s : string) : option Dec :=
  let '(neg, _, r) := split_sign s in
  let '(ip, r) := span is_digit r in
  let '(fp, r) :=
    match r with
    | String c r' => if Ascii.eqb c "."%char then span is_digit r' else ("", r)
    | EmptyString => ("", r)
    end in
  if bool_decide (r = "") then
    u ← Strconv.digits_val (ip +:+ fp);
    Some (MkDec (if neg : bool then - u else u) (Z.of_nat (String.length fp)))
  else None.

(** [Dec.Round(x, s, RoundUp)] of a non-negative number: away from zero. *)
Definition dec_RoundUp (x : Dec) (s : Z) : Dec :=
  let shift := s - Scale x in
  if shift >? 0 then MkDec (Unscaled x * 10 ^ shift) s
  else
    let d := 10 ^ (- shift) in
    let q := Unscaled x / d in
    MkDec (if Unscaled x mod d =? 0 then q else q + 1) s.

(** [Dec.Cmp]: the comparison of the numbers, at their larger scale. *)
Definition dec_ltb (x y : Dec) : bool :=
  let m := Z.max (Scale x) (Scale y) in
  Unscaled x * 10 ^ (m - Scale x) <? Unscaled y * 10 ^ (m - Scale y).

Definition maxAllowed : Dec := MkDec mostPositive 0.
Definition decOne : Dec := MkDec 1 0.
Definition decZero : Dec := MkDec 0 0.

Fixpoint has_suffix (suf s : string) : bool :=
  bool_decide (s = suf) ||
  match s with EmptyString => false | String _ r => has_suffix suf r end.

Definition starts_with_zero (s : string) : bool :=
  match s with String c _ => is_zero_char c | EmptyString => false end.

(** The precision, scale and mantissa of the fast path. *)
Definition fast_params (exponent : Z) (f : Format) (n d : string) : Z * Z * Z :=
  match f with
  | DecimalExponent | DecimalSI =>
      (wrap32 (maxInt64Factors -
               wrap32 (Z.of_nat (String.length n + String.length d)%nat)), exponent, 1)
  | BinarySI =>
      if (0 <=? exponent) && bool_decide (d = "") then
        (wrap32 (15 - wrap32 (Z.of_nat (String.length n)) - Z.quot (exponent * 3) 10 - 1), 0,
         wrap64 (Z.shiftl 1 exponent))
      else (-1, 0, 1)
  end.

(** The fast path: [None] when it does not apply. *)
Definition parse_fast (str : string) (sc : scanned) (exponent : Z) (f : Format)
    : option (result Quantity) :=
  let '(precision, scale0, mantissa) := fast_params exponent f (num sc) (denom sc) in
  if 0 <=? precision then
    let scale := wrap32 (scale0 - wrap32 (Z.of_nat (String.length (denom sc)))) in
    if Nano <=? scale then
      let shifted := num sc +:+ denom sc in
      match ParseInt shifted with
      | None => Some (inr ErrNumeric)
      | Some v =>
          match int64Multiply v mantissa with
          | None => None
          | Some r =>
              let r := if positive sc then r else wrap64 (- r) in
              let canonical :=
                match f with
                | BinarySI => (Z.rem exponent 10 =? 0) && negb (Z.land v 7 =? 0)
                | _ => (Z.rem scale 3 =? 0) && negb (has_suffix "000" shifted)
                       && negb (starts_with_zero shifted)
                end in
              Some (inl (MkQuantity (Int64Amount r scale) None
                           (if canonical : bool then str else "") f))
          end
      end
    else None
  else None.

(** The slow path on the magnitude: round, cap, and the format to keep. *)
Definition slow_magnitude (f : Format) (amount : Dec) : Dec * Format :=
  let amount :=
    if Unscaled amount =? 0 then amount else dec_RoundUp amount (wrap32 (- Nano)) in
  let amount :=
    if bool_decide (f = BinarySI) && dec_ltb maxAllowed amount then maxAllowed else amount in
  let f :=
    if bool_decide (f = BinarySI) && dec_ltb amount decOne && dec_ltb decZero amount
    then DecimalSI else f in
  (amount, f).

#[global] Arguments slow_magnitude : simpl never.

(** The slow path. *)
Definition parse_slow (sc : scanned) (base exponent : Z) (f : Format) : result Quantity :=
  match dec_SetString (svalue sc) with
  | None => inr ErrNumeric
  | Some amount =>
      let amount :=
        if base =? 10 then MkDec (Unscaled amount) (wrap32 (Scale amount + wrap32 (- exponent)))
        else MkDec (Unscaled amount * 2 ^ exponent) (Scale amount) in
      let sign := Z.sgn (Unscaled amount) in
      let amount := if sign =? -1 then MkDec (- Unscaled amount) (Scale amount) else amount in
      let '(amount, f) := slow_magnitude f amount in
      let amount := if sign =? -1 then MkDec (- Unscaled amount) (Scale amount) else amount in
      inl (MkQuantity (Int64Amount 0 0) (Some amount) "" f)
  end.

(** [ParseQuantity]. *)
Definition ParseQuantity (str : string) : result Quantity :=
  if bool_decide (str = "") then inr ErrFormatWrong
  else if bool_decide (str = "0") then
    inl (MkQuantity (Int64Amount 0 0) None str DecimalSI)
  else
    match parseQuantityString str with
    | inr e => inr e
    | inl sc =>
        match interpret (suffix sc) with
        | None => inr ErrSuffix
        | Some (base, exponent, f) =>
            match parse_fast str sc exponent f with
            | Some r => r
            | None => parse_slow sc base exponent f
            end
        end
    end.

(** [MustParse]. *)
Definition MustParse (str : string) : outcome Quantity :=
  match ParseQuantity str with
  | inl q => Ret q
  | inr e => Panic ("cannot parse '" +:+ str +:+ "': " +:+ Error e)
  end.

(** ** Lemmas on the scanner *)
Fixpoint all_chars (p : ascii → bool) (s : string) : bool :=
  match s with EmptyString => true | String c r => p c && all_chars p r end.
Definition head_not (p : ascii → bool) (s : string) : bool :=
  match s with EmptyString => true | String c _ => negb (p c) end.

Lemma span_spec p s :
  s = (span p s).1 +:+ (span p s).2 ∧
  all_chars p (span p s).1 = true ∧ head_not p (span p s).2 = true.
Proof.
  induction s as [|c s IH]; [done|]. simpl. destruct (p c) eqn:Hc; simpl; [|by rewrite Hc].
  destruct (span p s) as [a b]. simpl in *. destruct IH as (-> & Ha & Hb).
  by rewrite append_cons, Hc, Ha.
Qed.

Lemma span_app p a b :
  all_chars p a = true → head_not p b = true → span p (a +:+ b) = (a, b).
Proof.
  induction a as [|c a IH]; intros Ha Hb.
  - rewrite append_nil_l. destruct b as [|d b]; [done|]. simpl in *.
    by rewrite (proj1 (negb_true_iff _) Hb).
  - rewrite append_cons. simpl in *. apply andb_prop in Ha as [-> Ha].
    by rewrite IH.
Qed.

Lemma all_chars_append p a b : all_chars p (a +:+ b) = all_chars p a && all_chars p b.
Proof.
  induction a as [|c a IH]; [done|]. rewrite append_cons. simpl. by rewrite IH, andb_assoc.
Qed.

Lemma all_chars_impl (p p' : ascii → bool) s :
  (∀ c, p c = true → p' c = true) → all_chars p s = true → all_chars p' s = true.
Proof.
  intros Hp. induction s as [|c s IH]; simpl; [done|].
  intros [Hc Hs]%andb_prop. by rewrite (Hp c Hc), IH.
Qed.

Lemma zero_char_digit c : is_zero_char c = true → is_digit c = true.
Proof. unfold is_zero_char. by intros ->%Ascii.eqb_eq. Qed.

Lemma digits_val_from_zeros s :
  all_chars is_zero_char s = true → Strconv.digits_val_from 0 s = Some 0.
Proof.
  induction s as [|c s IH]; simpl; [done|]. intros [Hc Hs]%andb_prop.
  rewrite (zero_char_digit c Hc). apply Ascii.eqb_eq in Hc as ->. auto.
Qed.

Lemma is_digit_bound c : is_digit c = true → 0 ≤ digit_val c ≤ 9.
Proof. unfold is_digit, digit_val, in_range. lia. Qed.

Lemma digits_val_from_bound acc s :
  all_chars is_digit s = true → 0 ≤ acc →
  ∃ v, Strconv.digits_val_from acc s = Some v ∧ 0 ≤ v ∧
       v < (acc + 1) * 10 ^ Z.of_nat (String.length s).
Proof.
  revert acc. induction s as [|c s IH]; intros acc Hs Ha.
  - exists acc. split; [done|]. change (10 ^ Z.of_nat (String.length "")) with 1. lia.
  - simpl in Hs. apply andb_prop in Hs as [Hc Hs]. pose proof (is_digit_bound c Hc).
    destruct (IH (10 * acc + digit_val c)) as (v & Hv & H0 & Hb); [done|lia|].
    exists v. split_and!; [simpl; by rewrite Hc|done|].
    change (String.length (String c s)) with (S (String.length s)).
    rewrite Nat2Z.inj_succ, Z.pow_succ_r by lia.
    assert (0 < 10 ^ Z.of_nat (String.length s)) by (apply Z.pow_pos_nonneg; lia). nia.
Qed.

Lemma digits_val_of_from s :
  s ≠ "" → Strconv.digits_val s = Strconv.digits_val_from 0 s.
Proof. by destruct s. Qed.

(** ** The value of a quantity, and the number a text stands for *)

(** In billionths: every quantity the parser builds is a whole number of them. *)
Definition q_nanos (q : Quantity) : Z :=
  match q_d q with
  | None => value (q_i q) * 10 ^ (scale (q_i q) - Nano)
  | Some d => Unscaled d * 10 ^ (- Nano - Scale d)
  end.

(** The digits of the text as one number. *)
Definition digits_of (sc : scanned) : Z :=
  default 0 (Strconv.digits_val_from 0 (num sc +:+ denom sc)).

Definition ceil_div (a b : Z) : Z := if a mod b =? 0 then a / b else a / b + 1.

(** The reference: the number rounded away from zero to a billionth, and
    capped when its suffix is binary.  [n] is the number the digits form,
    [k] how many of them are behind the point. *)
Definition ref_nanos (neg : bool) (n k base exponent : Z) (f : Format) : Z :=
  let m :=
    if base =? 10 then
      let e := exponent - k - Nano in
      if 0 <=? e then n * 10 ^ e else ceil_div n (10 ^ (- e))
    else ceil_div (n * 2 ^ exponent * 10 ^ (- Nano)) (10 ^ k) in
  let m := if bool_decide (f = BinarySI) then Z.min m (mostPositive * 10 ^ (- Nano)) else m in
  if neg then - m else m.

(** ** Lemmas on the readers of numbers *)
Lemma digit_not_sign c : is_digit c = true → is_sign c = false.
Proof.
  intros Hc. unfold is_sign. destruct (Ascii.eqb_spec c "-"%char) as [->|]; [done|].
  by destruct (Ascii.eqb_spec c "+"%char) as [->|].
Qed.

Lemma split_sign_none s :
  head_not is_sign s = true → split_sign s = (false, "", s).
Proof.
  destruct s as [|c s]; [done|]. unfold head_not, is_sign, split_sign.
  rewrite negb_orb. intros [Hm Hp]%andb_prop.
  by rewrite (proj1 (negb_true_iff _) Hm), (proj1 (negb_true_iff _) Hp).
Qed.

Lemma split_sign_spec s neg sgn r :
  split_sign s = (neg, sgn, r) →
  s = sgn +:+ r ∧
  ∀ r', (sgn = "" → head_not is_sign r' = true) → split_sign (sgn +:+ r') = (neg, sgn, r').
Proof.
  destruct s as [|c s]; simpl.
  { intros [= <- <- <-]. split; [done|]. intros r' H. by apply split_sign_none, H. }
  destruct (Ascii.eqb_spec c "-"%char) as [->|].
  { intros [= <- <- <-]. split; [done|]. by intros r' _. }
  destruct (Ascii.eqb_spec c "+"%char) as [->|].
  { intros [= <- <- <-]. split; [done|]. by intros r' _. }
  intros [= <- <- <-]. split; [done|]. intros r' H. by apply split_sign_none, H.
Qed.

Lemma ParseInt_digits s :
  all_chars is_digit s = true → s ≠ "" → (String.length s ≤ 18)%nat →
  ∃ v, Strconv.digits_val_from 0 s = Some v ∧ ParseInt s = Some v ∧ 0 ≤ v < 10 ^ 18.
Proof.
  intros Hs Hne Hl. destruct (digits_val_from_bound 0 s Hs ltac:(lia)) as (v & Hv & H0 & Hb).
  assert (10 ^ Z.of_nat (String.length s) ≤ 10 ^ 18) as Hle
    by (apply Z.pow_le_mono_r; lia).
  exists v. split_and!; [done| |lia|lia].
  unfold ParseInt. rewrite split_sign_none.
  - rewrite digits_val_of_from, Hv by done. simpl.
    assert (in_range mostNegative mostPositive v = true) as ->; [|done].
    unfold in_range, mostNegative, mostPositive. lia.
  - destruct s as [|c s]; [done|]. simpl in *. apply andb_prop in Hs as [Hc _].
    by rewrite digit_not_sign.
Qed.

(** The decimal reader on a sign, digits, and digits behind a point. *)
Lemma dec_SetString_digits neg sgn ip fp (dot : bool) v :
  (∀ r', (sgn = "" → head_not is_sign r' = true) → split_sign (sgn +:+ r') = (neg, sgn, r')) →
  all_chars is_digit ip = true → all_chars is_digit fp = true →
  (dot = false → fp = "") → ip +:+ fp ≠ "" →
  Strconv.digits_val_from 0 (ip +:+ fp) = Some v →
  dec_SetString (sgn +:+ ip +:+ (if dot then "." +:+ fp else "")) =
    Some (MkDec (if neg then - v else v) (Z.of_nat (String.length fp))).
Proof.
  intros Hsgn Hip Hfp Hdot Hne Hv. unfold dec_SetString. rewrite Hsgn.
  - assert (span is_digit (ip +:+ (if dot then "." +:+ fp else "")) =
      (ip, if dot then "." +:+ fp else "")) as ->.
    { apply span_app; [done|]. by destruct dot. }
    destruct dot.
    + change ("." +:+ fp) with (String "."%char fp). simpl.
      assert (span is_digit fp = (fp, "")) as ->
        by (rewrite <-(append_nil_r fp) at 1; by apply span_app). simpl.
      by rewrite digits_val_of_from, Hv by done.
    + rewrite (Hdot eq_refl) in *. simpl. by rewrite digits_val_of_from, Hv by done.
  - intros _. destruct ip as [|c ip].
    + destruct dot; [done|]. rewrite Hdot in Hne by done. done.
    + rewrite append_cons. simpl in *. apply andb_prop in Hip as [Hc _].
      by rewrite digit_not_sign.
Qed.

(** ** What the scanner finds *)
Definition has_digits (sc : scanned) : bool :=
  match dec_SetString (svalue sc) with Some _ => true | None => false end.

Definition scan_ok (sc : scanned) : Prop :=
  all_chars is_digit (num sc) = true ∧ num sc ≠ "" ∧
  all_chars is_digit (denom sc) = true ∧
  Strconv.digits_val_from 0 (num sc +:+ denom sc) = Some (digits_of sc) ∧
  0 ≤ digits_of sc ∧
  (has_digits sc = true → dec_SetString (svalue sc) =
    Some (MkDec (if positive sc then digits_of sc else - digits_of sc)
            (Z.of_nat (String.length (denom sc))))).

Lemma digits_of_eq sc v :
  Strconv.digits_val_from 0 (num sc +:+ denom sc) = Some v → digits_of sc = v.
Proof. unfold digits_of. by intros ->. Qed.

(** The record the scanner builds from its pieces satisfies [scan_ok]. *)
Lemma scan_ok_pieces neg sgn zs n d (dot : bool) r4 :
  (∀ r', (sgn = "" → head_not is_sign r' = true) → split_sign (sgn +:+ r') = (neg, sgn, r')) →
  all_chars is_zero_char zs = true → all_chars is_digit n = true →
  all_chars is_digit d = true → (dot = false → d = "") →
  scan_ok (Scanned (negb neg) (sgn +:+ (zs +:+ n) +:+ (if dot then "." +:+ d else ""))
    (if bool_decide (n = "") then "0" else n) d r4).
Proof.
  intros Hsgn Hz Hn Hd Hdot. set (n' := if bool_decide (n = "") then "0" else n).
  assert (all_chars is_digit n' = true) as Hn'.
  { unfold n'. by case_bool_decide. }
  assert (all_chars is_digit (zs +:+ n) = true) as Hzn.
  { rewrite all_chars_append, Hn, (all_chars_impl _ _ _ zero_char_digit Hz). done. }
  assert (all_chars is_digit (n' +:+ d) = true) as Hnd by by rewrite all_chars_append, Hn', Hd.
  destruct (digits_val_from_bound 0 _ Hnd ltac:(lia)) as (v & Hv & H0 & _).
  assert (Strconv.digits_val_from 0 ((zs +:+ n) +:+ d) = Some v) as Hv'.
  { rewrite <-Hv. unfold n'. rewrite append_assoc, Strconv.digits_val_from_append.
    rewrite digits_val_from_zeros by done. simpl. by case_bool_decide as E; [rewrite E|]. }
  unfold scan_ok, has_digits; simpl. rewrite (digits_of_eq _ v) by done.
  split_and!; [done| |done..|].
  { unfold n'. by case_bool_decide. }
  destruct (decide ((zs +:+ n) +:+ d = "")) as [He|Hne].
  - assert (zs +:+ n = "" ∧ d = "") as [Hzn0 ->].
    { destruct (zs +:+ n); [by rewrite append_nil_l in He|done]. }
    rewrite Hzn0. unfold dec_SetString.
    rewrite Hsgn by by destruct dot. by destruct dot.
  - intros _. rewrite (dec_SetString_digits neg) with (v := v) by done.
    by destruct neg.
Qed.

Lemma parseQuantityString_ok str sc : parseQuantityString str = inl sc → scan_ok sc.
Proof.
  unfold parseQuantityString. destruct (split_sign str) as [[neg sgn] r1] eqn:Hs.
  apply split_sign_spec in Hs as [-> Hsgn].
  pose proof (span_spec is_zero_char r1) as (Hr1 & Hz & Hz').
  destruct (span is_zero_char r1) as [zs r2]. simpl in *. subst r1.
  destruct r2 as [|c2 r2].
  { intros [= <-]. by destruct neg. }
  remember (String c2 r2) as r2' eqn:Hr2.
  pose proof (span_spec is_digit r2') as (Hr2' & Hn & Hn').
  destruct (span is_digit r2') as [n r3]. simpl in *.
  destruct r3 as [|c r3].
  { intros [= <-]. rewrite append_nil_r in Hr2'. subst r2'.
    assert (bool_decide (n = "") = false) as Hne by (apply bool_decide_eq_false; by rewrite <-Hr2').
    pose proof (scan_ok_pieces neg sgn zs n "" false "" Hsgn Hz Hn eq_refl (λ _, eq_refl)) as H.
    rewrite Hne, append_nil_r in H. by rewrite Hr2'. }
  destruct (Ascii.eqb_spec c "."%char) as [->|Hc].
  - pose proof (span_spec is_digit r3) as (_ & Hd & _).
    destruct (span is_digit r3) as [d r4]. simpl in *.
    destruct (scan_suffix r4); [|done]. intros [= <-].
    pose proof (scan_ok_pieces neg sgn zs n d true r4 Hsgn Hz Hn Hd ltac:(done)) as H.
    by rewrite !append_assoc in *.
  - destruct (scan_suffix _); [|done]. intros [= <-].
    pose proof (scan_ok_pieces neg sgn zs n "" false (String c r3) Hsgn Hz Hn eq_refl
      (λ _, eq_refl)) as H.
    by rewrite append_nil_r in H.
Qed.

(** ** Arithmetic lemmas *)
Lemma int64Multiply_sound a b c :
  mostNegative ≤ a ≤ mostPositive → mostNegative ≤ b ≤ mostPositive →
  int64Multiply a b = Some c → c = a * b ∧ mostNegative ≤ c ≤ mostPositive.
Proof.
  intros Ha Hb. unfold int64Multiply. pose proof (wrap64_range (a * b)) as Hw.
  assert (∃ k, wrap64 (a * b) = a * b - k * 2 ^ 64) as [k Hk].
  { exists ((a * b + 2 ^ (64 - 1)) / 2 ^ 64). unfold wrap64, wrap.
    pose proof (Z.div_mod (a * b + 2 ^ (64 - 1)) (2 ^ 64) ltac:(lia)). lia. }
  unfold mostNegative, mostPositive in *.
  destruct ((a =? 0) || (b =? 0) || (a =? 1) || (b =? 1)) eqn:Htriv.
  { intros [= <-]. split; [|done]. apply wrap_small; [lia|]. change (2 ^ (64 - 1)) with (2 ^ 63).
    rewrite !orb_true_iff, !Z.eqb_eq in Htriv.
    clear Hw Hk. destruct Htriv as [[[->| ->]| ->]| ->]; lia. }
  destruct ((a =? - 2 ^ 63) || (b =? - 2 ^ 63)) eqn:Hmin; [done|]. cbv zeta.
  destruct (Z.eqb_spec (Z.quot (wrap64 (a * b)) b) a) as [Hq|];[|done]. intros [= <-]. split; [|done].
  apply orb_false_iff in Htriv as [[[??]%orb_false_iff ?]%orb_false_iff ?].
  apply orb_false_iff in Hmin as [??]. rewrite Z.eqb_neq in *.
  pose proof (Z.quot_rem' (wrap64 (a * b)) b) as Hqr.
  pose proof (Z.rem_bound_abs (wrap64 (a * b)) b ltac:(lia)) as Hr.
  rewrite Hq in Hqr. assert (k = 0) by lia. lia.
Qed.

Lemma ceil_div_exact a b : 0 < b → ceil_div (a * b) b = a.
Proof. intros Hb. unfold ceil_div. by rewrite Z.mod_mul, Z.div_mul by lia. Qed.

Lemma ceil_div_cancel a b c : 0 < b → 0 < c → ceil_div (a * c) (b * c) = ceil_div a b.
Proof.
  intros Hb Hc. unfold ceil_div. rewrite Z.div_mul_cancel_r, Z.mul_mod_distr_r by lia.
  destruct (Z.eqb_spec (a mod b) 0) as [->|]; [by rewrite Z.mul_0_l|].
  by destruct (Z.eqb_spec (a mod b * c) 0); [nia|].
Qed.

Lemma dec_RoundUp_nanos u s :
  dec_RoundUp (MkDec u s) 9 =
    MkDec (if 0 <=? 9 - s then u * 10 ^ (9 - s) else ceil_div u (10 ^ (- (9 - s)))) 9.
Proof.
  unfold dec_RoundUp; simpl. destruct (Z.gtb_spec (9 - s) 0) as [H|H].
  - by rewrite (proj2 (Z.leb_le 0 (9 - s))) by lia.
  - destruct (Z.leb_spec 0 (9 - s)); [|done].
    assert (9 - s = 0) as -> by lia. change (10 ^ (- 0)) with 1.
    rewrite Z.mod_1_r, Z.div_1_r, Z.eqb_refl. f_equal. lia.
Qed.

(** Rounding the product with a power of two, the way the slow path does. *)
Lemma round_binary n k e :
  0 ≤ n → 0 ≤ k → 0 ≤ e →
  (if 0 <=? 9 - k then n * 2 ^ e * 10 ^ (9 - k)
   else ceil_div (n * 2 ^ e) (10 ^ (- (9 - k)))) =
  ceil_div (n * 2 ^ e * 10 ^ 9) (10 ^ k).
Proof.
  intros Hn Hk He. destruct (Z.leb_spec 0 (9 - k)).
  - replace (10 ^ 9) with (10 ^ (9 - k) * 10 ^ k).
    + rewrite Z.mul_assoc, ceil_div_exact; [done|]. apply Z.pow_pos_nonneg; lia.
    + rewrite <-Z.pow_add_r by lia. f_equal. lia.
  - replace (10 ^ k) with (10 ^ (- (9 - k)) * 10 ^ 9).
    + rewrite ceil_div_cancel; [done| |lia]. apply Z.pow_pos_nonneg; lia.
    + rewrite <-Z.pow_add_r by lia. f_equal. lia.
Qed.

(** What a suffix stands for, read without any bound: a prefix of the SI, a
    binary prefix of the IEC, or a decimal exponent of any size. *)
Inductive stands_for : string → Z → Z → Format → Prop :=
| stands_si s e :
    (s, e) ∈ [("n", -9); ("u", -6); ("m", -3); ("", 0); ("k", 3); ("M", 6); ("G", 9);
              ("T", 12); ("P", 15); ("E", 18)] →
    stands_for s 10 e DecimalSI
| stands_iec s e :
    (s, e) ∈ [("Ki", 10); ("Mi", 20); ("Gi", 30); ("Ti", 40); ("Pi", 50); ("Ei", 60)] →
    stands_for s 2 e BinarySI
| stands_exponent c sign ds v :
    c = "e"%char ∨ c = "E"%char → sign ∈ [""; "+"; "-"] →
    Strconv.digits_val ds = Some v →
    stands_for (String c (sign +:+ ds)) 10 (if bool_decide (sign = "-") then - v else v)
      DecimalExponent.

(** The sizes the int32 arithmetic of the parser is meant for. *)
Definition sane (sc : scanned) (exponent : Z) : Prop :=
  - 2 ^ 30 < exponent < 2 ^ 30 ∧
  Z.of_nat (String.length (num sc)) + Z.of_nat (String.length (denom sc)) < 2 ^ 30.

Definition suffix_ok (base exponent : Z) (f : Format) : Prop :=
  (base = 10 ∧ f ≠ BinarySI) ∨ (base = 2 ∧ f = BinarySI ∧ 0 ≤ exponent ≤ 60).

Lemma interpret_ok s base exponent f :
  interpret s = Some (base, exponent, f) → suffix_ok base exponent f.
Proof.
  unfold interpret, suffix_ok. destruct (decSuffixes !! s) eqn:Hd.
  { intros [= <- <- <-]. by left. }
  destruct (binSuffixes !! s) as [e|] eqn:Hb.
  { intros [= <- <- <-]. right. do 2 (split; [done|]).
    apply elem_of_list_to_map_2 in Hb. set_unfold.
    repeat (destruct Hb as [Hb|Hb]; [simplify_eq; lia|]). by simplify_eq. }
  repeat case_match; try done. destruct (ParseInt _); simpl; [|done].
  intros [= <- <- <-]. by left.
Qed.

Lemma wrap32_small z : - 2 ^ 31 ≤ z < 2 ^ 31 → wrap32 z = z.
Proof. intros Hz. by apply wrap_small. Qed.

Lemma all_chars_digits s : all_chars is_digit s = Strconv.all_digits s.
Proof. induction s as [|c s IH]; simpl; [done|]. by rewrite IH. Qed.

Lemma digits_val_head ds v :
  Strconv.digits_val ds = Some v → ds ≠ "" ∧ head_not is_sign ds = true ∧ 0 ≤ v.
Proof.
  intros Hv. destruct ds as [|c ds]; [done|].
  assert (all_chars is_digit (String c ds) = true) as Hd.
  { rewrite all_chars_digits. by eapply Strconv.digits_val_from_digits. }
  destruct (digits_val_from_bound 0 _ Hd ltac:(lia)) as (v' & Hv' & ? & _).
  unfold Strconv.digits_val in Hv. rewrite Hv' in Hv. injection Hv as <-.
  split_and!; [done| |done]. simpl in *. apply andb_prop in Hd as [Hc _].
  by rewrite digit_not_sign.
Qed.

(** A signed exponent that is not too large is read as it stands. *)
Lemma ParseInt_signed sign ds v :
  sign ∈ [""; "+"; "-"] → Strconv.digits_val ds = Some v → v < 2 ^ 30 →
  ParseInt (sign +:+ ds) = Some (if bool_decide (sign = "-") then - v else v).
Proof.
  intros Hsign Hv Hlt. pose proof (digits_val_head _ _ Hv) as (_ & Hh & H0).
  assert (split_sign (sign +:+ ds) = (bool_decide (sign = "-"), sign, ds)) as Hs.
  { set_unfold in Hsign. destruct Hsign as [->|[->|[->|[]]]]; [|done..].
    by rewrite append_nil_l, split_sign_none. }
  unfold ParseInt. rewrite Hs, Hv. cbn -[in_range].
  replace (in_range _ _ _) with true; [done|]. symmetry.
  unfold in_range, mostNegative, mostPositive. case_bool_decide; lia.
Qed.

(** A suffix is interpreted as what it stands for, if its exponent is no
    larger than an int32 takes. *)
Lemma interpret_stands s base e f :
  stands_for s base e f → - 2 ^ 30 < e < 2 ^ 30 → interpret s = Some (base, e, f).
Proof.
  intros [s' e' Hs|s' e' Hs|c sign ds v Hc Hsign Hv] He.
  1, 2: set_unfold; repeat (destruct Hs as [Hs|Hs]; [simplify_eq; by vm_compute|]); done.
  assert (v < 2 ^ 30) as Hlt by (case_bool_decide; lia).
  pose proof (digits_val_head _ _ Hv) as (Hne & Hh & _).
  assert (∃ c' r, sign +:+ ds = String c' r ∧ (is_sign c' || is_digit c') = true) as (c' & r & Hr & Hc').
  { pose proof Hv as Hv'. set_unfold in Hsign. destruct Hsign as [->|[->|[->|[]]]]; [|by do 2 eexists..].
    destruct ds as [|c' r]; [done|]. exists c', r. split; [done|].
    unfold Strconv.digits_val in Hv'. simpl in Hv'.
    destruct (is_digit c') eqn:Hd'; [by rewrite orb_true_r|done]. }
  pose proof (ParseInt_signed _ _ _ Hsign Hv Hlt) as HP. rewrite Hr in *.
  unfold interpret.
  destruct (decSuffixes !! _) eqn:Hd.
  { apply elem_of_list_to_map_2 in Hd. set_unfold.
    repeat (destruct Hd as [Hd|Hd]; [by simplify_eq|]). done. }
  destruct (binSuffixes !! _) eqn:Hb.
  { apply elem_of_list_to_map_2 in Hb. set_unfold.
    repeat (destruct Hb as [Hb|Hb]; [by simplify_eq|]). done. }
  replace (Ascii.eqb c "E"%char || Ascii.eqb c "e"%char) with true by by destruct Hc as [-> | ->].
  rewrite HP. simpl. by rewrite wrap32_small by (case_bool_decide; lia).
Qed.

(** ** Both paths compute the reference *)
Section paths.
Context (str : string) (sc : scanned) (base exponent : Z) (f : Format).
Context (Hok : scan_ok sc) (Hsane : sane sc exponent) (Hsuf : suffix_ok base exponent f).

Let n := digits_of sc.
Let k := Z.of_nat (String.length (denom sc)).
Let ref := ref_nanos (negb (positive sc)) n k base exponent f.

Lemma shifted_ParseInt :
  Z.of_nat (String.length (num sc)) + k ≤ 18 →
  ParseInt (num sc +:+ denom sc) = Some n ∧ 0 ≤ n < 10 ^ 18.
Proof.
  destruct Hok as (Hn & Hne & Hd & Hv & _). intros Hl.
  destruct (ParseInt_digits (num sc +:+ denom sc)) as (v & Hv' & HP & Hb).
  - by rewrite all_chars_append, Hn, Hd.
  - by destruct (num sc).
  - rewrite length_append. lia.
  - rewrite Hv in Hv'. injection Hv' as <-. done.
Qed.

(** The decimal fast path. *)
Lemma parse_fast_decimal r :
  base = 10 → f ≠ BinarySI → parse_fast str sc exponent f = Some r →
  ∃ q, r = inl q ∧ q_nanos q = ref.
Proof.
  intros Hb Hf. unfold parse_fast. destruct Hsane as [He Hl].
  assert (fast_params exponent f (num sc) (denom sc) =
    (18 - (Z.of_nat (String.length (num sc)) + k), exponent, 1)) as ->.
  { unfold fast_params. destruct f; [|done|];
      unfold maxInt64Factors; by rewrite Nat2Z.inj_add, (wrap32_small (_ + _)), wrap32_small by lia. }
  destruct (Z.leb_spec 0 (18 - (Z.of_nat (String.length (num sc)) + k))) as [Hp|]; [|done].
  fold k. rewrite (wrap32_small k), wrap32_small by lia.
  destruct (Z.leb_spec Nano (exponent - k)) as [Hs|]; [|done].
  destruct shifted_ParseInt as [-> Hn]; [lia|].
  assert (int64Multiply n 1 = Some n) as ->.
  { unfold int64Multiply. rewrite (Z.eqb_refl 1), !orb_true_r, Z.mul_1_r.
    f_equal. apply wrap_small; lia. }
  intros [= <-]. eexists; split; [done|]. unfold q_nanos, ref, ref_nanos. simpl.
  rewrite Hb, bool_decide_eq_false_2 by done. simpl.
  rewrite (proj2 (Z.leb_le 0 (exponent - k - Nano))) by lia.
  destruct (positive sc); simpl; [done|].
  unfold wrap64. rewrite wrap_small by lia. lia.
Qed.

(** The binary fast path. *)
Lemma parse_fast_binary r :
  base = 2 → f = BinarySI → 0 ≤ exponent ≤ 60 →
  parse_fast str sc exponent f = Some r → ∃ q, r = inl q ∧ q_nanos q = ref.
Proof.
  intros Hb Hf He. unfold parse_fast, fast_params. destruct Hsane as [_ Hl].
  rewrite Hf, (proj2 (Z.leb_le 0 exponent)) by lia. simpl.
  case_bool_decide as Hd; [|done].
  assert (k = 0) as Hk by by (unfold k; rewrite Hd). fold k. rewrite Hk.
  assert (0 ≤ Z.quot (exponent * 3) 10 ≤ 18) as Hq.
  { split; [apply Z.quot_pos; lia|apply Z.quot_le_upper_bound; lia]. }
  rewrite (wrap32_small (Z.of_nat _)), (wrap32_small (_ - 1)) by lia.
  destruct (Z.leb_spec 0 (15 - Z.of_nat (String.length (num sc)) -
    Z.quot (exponent * 3) 10 - 1)) as [Hp|]; [|done]. simpl.
  destruct shifted_ParseInt as [-> Hn]; [lia|].
  assert (wrap64 (Z.shiftl 1 exponent) = 2 ^ exponent) as ->.
  { rewrite Z.shiftl_1_l. apply wrap_small; [lia|].
    pose proof (Z.pow_le_mono_r 2 exponent 60 ltac:(lia) ltac:(lia)).
    pose proof (Z.pow_pos_nonneg 2 exponent ltac:(lia) ltac:(lia)). lia. }
  pose proof (Z.pow_le_mono_r 2 exponent 60 ltac:(lia) ltac:(lia)) as Hp60.
  pose proof (Z.pow_pos_nonneg 2 exponent ltac:(lia) ltac:(lia)) as Hp0.
  destruct (int64Multiply n (2 ^ exponent)) as [c|] eqn:Hm; [|done].
  apply int64Multiply_sound in Hm as [-> Hc];
    [|unfold mostNegative, mostPositive; lia..].
  intros [= <-]. eexists; split; [done|]. unfold q_nanos, ref, ref_nanos. simpl.
  rewrite Hb, Hf, Hk, bool_decide_eq_true_2 by done. simpl.
  unfold Nano. change (wrap32 (0 - wrap32 0) - -9) with (- -9).
  rewrite <-(Z.mul_1_r (n * 2 ^ exponent * 10 ^ (- -9))), (ceil_div_exact _ 1) by lia.
  unfold mostNegative, mostPositive in *.
  assert (0 ≤ n * 2 ^ exponent) by nia.
  rewrite Z.min_l by lia. destruct (positive sc); simpl; [done|].
  unfold wrap64. rewrite wrap_small by lia. lia.
Qed.

Lemma parse_fast_ok r :
  parse_fast str sc exponent f = Some r → ∃ q, r = inl q ∧ q_nanos q = ref.
Proof.
  destruct Hsuf as [[Hb Hf]|(Hb & Hf & He)];
    [by apply parse_fast_decimal|by apply parse_fast_binary].
Qed.

(** The amount of the slow path before its sign is restored. *)
Let amount0 : Dec :=
  if base =? 10 then MkDec n (wrap32 (k + wrap32 (- exponent)))
  else MkDec (n * 2 ^ exponent) k.

Lemma round_amount :
  n ≠ 0 →
  dec_RoundUp amount0 9 =
    MkDec (if base =? 10 then
             if 0 <=? exponent - k - Nano then n * 10 ^ (exponent - k - Nano)
             else ceil_div n (10 ^ (- (exponent - k - Nano)))
           else ceil_div (n * 2 ^ exponent * 10 ^ (- Nano)) (10 ^ k)) 9.
Proof.
  intros Hn0. destruct Hsane as [He Hl]. unfold amount0.
  destruct Hsuf as [[Hb Hf]|(Hb & Hf & He')]; rewrite Hb; simpl.
  - rewrite (wrap32_small (- exponent)), wrap32_small, dec_RoundUp_nanos by lia.
    unfold Nano. by replace (9 - (k + - exponent)) with (exponent - k - -9) by lia.
  - rewrite dec_RoundUp_nanos. f_equal. apply round_binary; [|lia..].
    by destruct Hok as (_ & _ & _ & _ & ? & _).
Qed.

Definition dec_nanos (d : Dec) : Z := Unscaled d * 10 ^ (- Nano - Scale d).

Lemma slow_magnitude_zero s : dec_nanos (slow_magnitude f (MkDec 0 s)).1 = 0.
Proof.
  unfold slow_magnitude. simpl. unfold dec_ltb at 1. simpl.
  destruct (bool_decide _); simpl; [|done]. rewrite Z.mul_0_l.
  destruct (Z.ltb_spec (mostPositive * 10 ^ (Z.max 0 s - 0)) 0) as [H|_]; [|done].
  pose proof (Z.pow_nonneg 10 (Z.max 0 s - 0) ltac:(lia)). unfold mostPositive in H. lia.
Qed.

Lemma slow_magnitude_nanos :
  n ≠ 0 → 0 ≤ n →
  dec_nanos (slow_magnitude f amount0).1 = ref_nanos false n k base exponent f.
Proof.
  intros Hn Hn0. unfold slow_magnitude. change (wrap32 (- Nano)) with 9.
  assert ((Unscaled amount0 =? 0) = false) as ->.
  { apply Z.eqb_neq. unfold amount0. destruct (Z.eqb_spec base 10); simpl; [done|].
    destruct Hsuf as [[Hb Hf]|(Hb & Hf & He')]; [done|].
    pose proof (Z.pow_pos_nonneg 2 exponent ltac:(lia) ltac:(lia)). nia. }
  rewrite round_amount by done. unfold ref_nanos. cbv zeta.
  set (m := if base =? 10 then _ else _).
  unfold dec_ltb, maxAllowed; simpl. change (0 `max` 9 - 0) with (- Nano).
  change (10 ^ (0 `max` 9 - 9)) with 1. rewrite Z.mul_1_r.
  destruct (bool_decide (f = BinarySI)); simpl.
  - destruct (Z.ltb_spec (mostPositive * 10 ^ (- Nano)) m); unfold dec_nanos; simpl.
    + change (10 ^ (- Nano - 0)) with (10 ^ (- Nano)). rewrite Z.min_r by lia. done.
    + change (10 ^ (- Nano - 9)) with 1. rewrite Z.min_l by lia. lia.
  - unfold dec_nanos. simpl. change (10 ^ (- Nano - 9)) with 1. lia.
Qed.

(** The slow path, for a text with digits. *)
Lemma parse_slow_ok :
  has_digits sc = true →
  ∃ q, parse_slow sc base exponent f = inl q ∧ q_nanos q = ref.
Proof.
  intros Hd. destruct Hok as (_ & _ & _ & _ & Hn0 & Hdec).
  unfold parse_slow. rewrite (Hdec Hd). fold n in Hn0 |- *. fold k. cbv zeta.
  set (am := if base =? 10 then _ else _).
  assert (am = MkDec (if positive sc then Unscaled amount0 else - Unscaled amount0)
    (Scale amount0)) as ->.
  { unfold am, amount0. destruct (base =? 10), (positive sc); simpl; try done.
    f_equal. lia. }
  assert (amount0 = MkDec (Unscaled amount0) (Scale amount0)) as Ha by by destruct amount0.
  destruct (Z.eq_dec n 0) as [Hz|Hnz].
  - assert (Unscaled amount0 = 0) as ->.
    { unfold amount0. destruct (base =? 10); simpl; [done|]. by rewrite Hz. }
    replace (if positive sc then 0 else - 0) with 0 by by destruct (positive sc).
    cbn [Unscaled Scale]. change (Z.sgn 0 =? -1) with false. cbv iota.
    pose proof (slow_magnitude_zero (Scale amount0)) as H0.
    destruct (slow_magnitude f _) as [d f']. eexists; split; [done|].
    unfold q_nanos, dec_nanos in *. cbn [q_d fst] in *. rewrite H0.
    unfold ref, ref_nanos. rewrite Hz, !Z.mul_0_l. unfold ceil_div.
    rewrite !Zmod_0_l, !Zdiv_0_l, Z.eqb_refl.
    destruct (base =? 10); [destruct (0 <=? exponent - k - Nano)|];
      destruct (bool_decide _), (positive sc); done.
  - assert (0 < Unscaled amount0) as Hpos.
    { unfold amount0. destruct (Z.eqb_spec base 10); simpl; [lia|].
      destruct Hsuf as [[? _]|(_ & _ & He')]; [done|].
      pose proof (Z.pow_pos_nonneg 2 exponent ltac:(lia) ltac:(lia)). nia. }
    pose proof (slow_magnitude_nanos Hnz Hn0) as Hm.
    destruct (positive sc) eqn:Hp; cbn [Unscaled Scale].
    + rewrite Z.sgn_pos by done. change (1 =? -1) with false. cbv iota. rewrite <-Ha.
      destruct (slow_magnitude f amount0) as [d f']. eexists; split; [done|]. exact Hm.
    + rewrite Z.sgn_neg by lia. change (-1 =? -1) with true. cbv iota.
      rewrite Z.opp_involutive, <-Ha.
      destruct (slow_magnitude f amount0) as [d f']. eexists; split; [done|].
      unfold q_nanos, ref, dec_nanos in *. cbn [q_d fst Unscaled Scale] in *.
      by rewrite Z.mul_opp_l, Hm.
Qed.
End paths.

(** ** Properties *)

Lemma ParseQuantity_scanned str sc base exponent f :
  str ≠ "" → str ≠ "0" →
  parseQuantityString str = inl sc → interpret (suffix sc) = Some (base, exponent, f) →
  ParseQuantity str =
    match parse_fast str sc exponent f with
    | Some r => r
    | None => parse_slow sc base exponent f
    end.
Proof.
  intros H1 H2 Hs Hi. unfold ParseQuantity. rewrite !bool_decide_eq_false_2 by done.
  by rewrite Hs, Hi.
Qed.

Lemma ParseQuantity_scanned_ok str sc base exponent f :
  parseQuantityString str = inl sc → interpret (suffix sc) = Some (base, exponent, f) →
  sane sc exponent → str ≠ "" → has_digits sc = true →
  ∃ q, ParseQuantity str = inl q ∧
    q_nanos q = ref_nanos (negb (positive sc)) (digits_of sc)
      (Z.of_nat (String.length (denom sc))) base exponent f.
Proof.
  intros Hs Hi Hsane Hne Hd.
  destruct (decide (str = "0")) as [->|Hz].
  { vm_compute in Hs. injection Hs as <-. vm_compute in Hi. injection Hi as <- <- <-.
    by eexists. }
  rewrite (ParseQuantity_scanned _ sc base exponent f) by done.
  pose proof (parseQuantityString_ok _ _ Hs) as Hok.
  pose proof (interpret_ok _ _ _ _ Hi) as Hsuf.
  destruct (parse_fast str sc exponent f) eqn:Hf; [|by apply parse_slow_ok].
  destruct (parse_fast_ok _ _ _ _ _ Hok Hsane Hsuf _ Hf) as (q & -> & Hq). eauto.
Qed.

(** C33: A text that the scanner splits and that has a digit, with a suffix of
    the SI or the IEC or a decimal exponent, parses as long as the exponent,
    as written, and the number of digits are less than 2^30: whichever of the
    int64 fast path and the decimal slow path the parser takes, the quantity is
    the number the text stands for, rounded away from zero to a billionth and
    capped when the suffix is binary.  (A larger exponent can be cut to 32
    bits: 1e4294967296 is read as 1.) *)
Theorem ParseQuantity_exact str sc base exponent f :
  parseQuantityString str = inl sc → stands_for (suffix sc) base exponent f →
  sane sc exponent → str ≠ "" → has_digits sc = true →
  ∃ q, ParseQuantity str = inl q ∧
    q_nanos q = ref_nanos (negb (positive sc)) (digits_of sc)
      (Z.of_nat (String.length (denom sc))) base exponent f.
Proof.
  intros Hs Hsuf Hsane. apply ParseQuantity_scanned_ok; [done| |done].
  by apply interpret_stands, Hsane.
Qed.

Lemma ParseQuantity_exact_witness :
  ∃ q, ParseQuantity "-1.5Gi" = inl q ∧ q_nanos q = - 1610612736 * 10 ^ 9.
Proof.
  apply (ParseQuantity_exact "-1.5Gi" (Scanned false "-1.5" "1" "5" "Gi") 2 30 BinarySI);
    [vm_compute; reflexivity|apply stands_iec; set_solver|
     split; vm_compute; split; congruence|done|vm_compute; reflexivity].
Defined.

(** Beyond the bound: an exponent of 2^32 is no exponent. *)
Example exponent_cut :
  ParseQuantity "1e4294967296" =
  inl (MkQuantity (Int64Amount 1 0) None "1e4294967296" DecimalExponent).
Proof. vm_compute. reflexivity. Qed.

(** A text of digits alone is scanned as one number with no suffix. *)
Lemma parseQuantityString_digits s v :
  s ≠ "" → all_chars is_digit s = true → Strconv.digits_val_from 0 s = Some v →
  ∃ sc, parseQuantityString s = inl sc ∧ positive sc = true ∧ denom sc = "" ∧
    suffix sc = "" ∧ digits_of sc = v ∧ has_digits sc = true ∧
    (String.length (num sc) ≤ String.length s)%nat.
Proof.
  intros Hne Hs Hv. unfold parseQuantityString. rewrite split_sign_none.
  2:{ destruct s as [|c s]; [done|]. simpl in *. apply andb_prop in Hs as [Hc _].
      by rewrite digit_not_sign. }
  pose proof (span_spec is_zero_char s) as (Hspan & Hz & Hz').
  destruct (span is_zero_char s) as [zs r] eqn:Hsp. simpl in *.
  rewrite Hspan, Strconv.digits_val_from_append, (digits_val_from_zeros zs) in Hv by done.
  simpl in Hv. destruct r as [|c r].
  - eexists. split_and!; [done..| | |]; [|done|destruct s; simpl; [done|lia]].
    by injection Hv as <-.
  - assert (all_chars is_digit (String c r) = true) as Hr.
    { rewrite Hspan, all_chars_append in Hs. by apply andb_prop in Hs as [_ Hs]. }
    assert (span is_digit (String c r) = (String c r, "")) as ->.
    { rewrite <-(append_nil_r (String c r)) at 1. by apply span_app. }
    eexists. split; [done|]. do 3 (split; [done|]). split_and!.
    + apply digits_of_eq. simpl num. simpl denom. by rewrite append_nil_r.
    + unfold has_digits. simpl svalue.
      pose proof (dec_SetString_digits false "" s "" false v) as H.
      rewrite !append_nil_r, append_nil_l in H. rewrite H; try done.
      * intros r' Hr'. apply split_sign_none. auto.
      * rewrite Hspan, Strconv.digits_val_from_append, (digits_val_from_zeros zs) by done. done.
    + simpl num. rewrite Hspan, length_append. lia.
Qed.

Lemma itoa_all_chars n : 0 ≤ n → all_chars is_digit (Strconv.itoa n) = true.
Proof. intros Hn. rewrite all_chars_digits. by apply Strconv.itoa_digits. Qed.

(** Printing a number and parsing it as a quantity gives the number back. *)
Lemma ParseQuantity_itoa n :
  0 ≤ n < 2 ^ 32 → ∃ q, ParseQuantity (Strconv.itoa n) = inl q ∧ q_nanos q = n * 10 ^ 9.
Proof.
  intros Hn. pose proof (Strconv.itoa_nonempty n) as Hne.
  pose proof (Strconv.digits_val_itoa n ltac:(lia)) as Hv.
  rewrite digits_val_of_from in Hv by done.
  destruct (parseQuantityString_digits _ n Hne (itoa_all_chars n ltac:(lia)) Hv)
    as (sc & Hsc & Hp & Hd & Hsuf & Hn' & Hhas & Hlen).
  assert (String.length (Strconv.itoa n) ≤ 10)%nat as Hl
    by (apply (Strconv.itoa_length n 9); lia).
  destruct (ParseQuantity_scanned_ok (Strconv.itoa n) sc 10 0 DecimalSI) as (q & Hq & Hnan);
    [done|by rewrite Hsuf| |done|done|].
  - split; [lia|]. rewrite Hd. simpl. lia.
  - exists q. split; [done|]. rewrite Hnan, Hp, Hd, Hn'. done.
Qed.

(** C37: every uint32, printed in decimal, is a quantity of that many units:
    the CPU request of a machine can never make [MustParse] panic. *)
Theorem MustParse_uint32 n :
  0 ≤ n < 2 ^ 32 → ∃ q, MustParse (Strconv.itoa n) = Ret q ∧ q_nanos q = n * 10 ^ 9.
Proof.
  intros Hn. destruct (ParseQuantity_itoa n Hn) as (q & Hq & Hv).
  exists q. unfold MustParse. by rewrite Hq.
Qed.

Lemma MustParse_uint32_witness :
  ∃ q, MustParse (Strconv.itoa (2 ^ 32 - 1)) = Ret q ∧ q_nanos q = 4294967295 * 10 ^ 9.
Proof. apply MustParse_uint32. lia. Defined.
