(* ===== verification/ApiTypes.v ===== *)
(** * The API objects the provider reads and writes

    One module per Go package: [Meta] (k8s.io/apimachinery meta/v1), [Core]
    (k8s.io/api/core/v1), [CDI] (the DataVolume of the containerized data
    importer), [KV] (kubevirt.io/client-go/api/v1), [Mapi]
    (machine-api-operator, machine/v1beta1) and [Provider]
    (pkg/apis/kubevirtprovider/v1alpha1).  A field the provider neither reads
    nor writes is left out.  A pointer is an [option], a string or a
    [[]byte] a [string], a map a [gomap] when nil and empty differ for the
    code, times and durations are [Z] nanoseconds. *)

From S2P Require Import Prelude GoStd GoErrors Quantity.

Abbreviation bytes := string.

(** [runtime.RawExtension]: its raw bytes. *)
Record RawExtension := MkRawExtension { Raw : bytes }.

Module Meta.
Record TypeMeta := MkTypeMeta { Kind : string; APIVersion : string }.

Record OwnerReference := MkOwnerReference {
  OwnerKind : string; OwnerName : string; OwnerUID : string }.

Record ObjectMeta := MkObjectMeta {
  Name : string;
  Namespace : string;
  UID : string;
  ResourceVersion : string;
  CreationTimestamp : Z;
  DeletionTimestamp : option Z;
  Labels : gomap string;
  Annotations : gomap string;
  OwnerReferences : list OwnerReference;
  Finalizers : list string;
  ClusterName : string
}.

(** The zero values. *)
Definition noType : TypeMeta := MkTypeMeta "" "".
Definition empty : ObjectMeta := MkObjectMeta "" "" "" "" 0 None None None [] [] "".

Definition set_Labels (l : gomap string) (m : ObjectMeta) : ObjectMeta :=
  MkObjectMeta (Name m) (Namespace m) (UID m) (ResourceVersion m) (CreationTimestamp m)
    (DeletionTimestamp m) l (Annotations m) (OwnerReferences m) (Finalizers m) (ClusterName m).
Definition set_Annotations (a : gomap string) (m : ObjectMeta) : ObjectMeta :=
  MkObjectMeta (Name m) (Namespace m) (UID m) (ResourceVersion m) (CreationTimestamp m)
    (DeletionTimestamp m) (Labels m) a (OwnerReferences m) (Finalizers m) (ClusterName m).
Definition set_ResourceVersion (v : string) (m : ObjectMeta) : ObjectMeta :=
  MkObjectMeta (Name m) (Namespace m) (UID m) v (CreationTimestamp m)
    (DeletionTimestamp m) (Labels m) (Annotations m) (OwnerReferences m) (Finalizers m)
    (ClusterName m).

Definition set_Finalizers (f : list string) (m : ObjectMeta) : ObjectMeta :=
  MkObjectMeta (Name m) (Namespace m) (UID m) (ResourceVersion m) (CreationTimestamp m)
    (DeletionTimestamp m) (Labels m) (Annotations m) (OwnerReferences m) f (ClusterName m).

Record CreateOptions := MkCreateOptions { DryRun : list string }.
Record UpdateOptions := MkUpdateOptions { UDryRun : list string }.
Record GetOptions := MkGetOptions { GResourceVersion : string }.
Record ListOptions := MkListOptions { LabelSelector : string; FieldSelector : string }.
Record DeleteOptions := MkDeleteOptions { GracePeriodSeconds : option Z }.

Record GroupVersionResource := MkGVR { Group : string; Version : string; Resource : string }.

#[global] Instance GroupVersionResource_eq_dec : EqDecision GroupVersionResource.
Proof. solve_decision. Defined.
End Meta.

Module Core.
Abbreviation ResourceList := (gmap string Quantity).
Definition ResourceCPU := "cpu".
Definition ResourceMemory := "memory".
Definition ResourceStorage := "storage".

Definition ReadWriteOnce := "ReadWriteOnce".
Definition ReadOnlyMany := "ReadOnlyMany".
Definition ReadWriteMany := "ReadWriteMany".

Record PersistentVolumeClaimSpec := MkPVCSpec {
  AccessModes : list string;
  Requests : ResourceList;
  StorageClassName : option string
}.

Record Secret := MkSecret { SecretMeta : Meta.ObjectMeta; SecretData : gomap bytes }.
Record ConfigMap := MkConfigMap { ConfigMapMeta : Meta.ObjectMeta; ConfigMapData : gomap string }.

Definition NodeInternalIP := "InternalIP".
Definition NodeInternalDNS := "InternalDNS".
Record NodeAddress := MkNodeAddress { AddressType : string; Address : string }.

Record NodeCondition := MkNodeCondition { NodeCondType : string; NodeCondStatus : string }.
Record Node := MkNode {
  NodeMeta : Meta.ObjectMeta; NodeProviderID : string; NodeConditions : list NodeCondition }.
Definition set_NodeProviderID (p : string) (n : Node) : Node :=
  MkNode (NodeMeta n) p (NodeConditions n).

Definition EventTypeNormal := "Normal".
Definition EventTypeWarning := "Warning".

#[global] Instance NodeAddress_eq_dec : EqDecision NodeAddress.
Proof. solve_decision. Defined.
End Core.

Module CDI.
Definition SchemeGroupVersion := "cdi.kubevirt.io/v1alpha1".
Record DataVolumeSourcePVC := MkSourcePVC { PVCNamespace : string; PVCName : string }.
Record DataVolumeSpec := MkDataVolumeSpec {
  SourcePVC : option DataVolumeSourcePVC;
  PVC : option Core.PersistentVolumeClaimSpec
}.
Record DataVolume := MkDataVolume {
  DVType : Meta.TypeMeta; DVMeta : Meta.ObjectMeta; DVSpec : DataVolumeSpec }.
End CDI.

Module KV.
Definition GroupName := "kubevirt.io".
Definition ApiLatestVersion := "v1alpha3".
Definition RunStrategyAlways := "Always".

(** [InterfaceBindingMethod]: the two methods the provider sets. *)
Record InterfaceBindingMethod := MkBinding { Bridge : bool; SRIOV : bool }.
Record Interface := MkInterface {
  InterfaceName : string; Binding : InterfaceBindingMethod }.
Record Disk := MkDisk { DiskName : string; DiskBus : option string }.
Record Devices := MkDevices { Disks : list Disk; Interfaces : list Interface }.
Record DomainSpec := MkDomainSpec {
  Requests : Core.ResourceList;
  MachineType : string;
  DomainDevices : Devices
}.
(** [VolumeSource]: a data volume by name, or cloud-init data in a secret. *)
Inductive VolumeSource :=
  | VSDataVolume (name : string)
  | VSCloudInitConfigDrive (secret : string).
Record Volume := MkVolume { VolumeName : string; Source : VolumeSource }.
Record Network := MkNetwork { NetName : string; Multus : option string }.

Record VirtualMachineInstanceSpec := MkVMISpec {
  Domain : DomainSpec;
  TerminationGracePeriodSeconds : option Z;
  Volumes : list Volume;
  Networks : list Network
}.
Record VirtualMachineInstanceTemplateSpec := MkTemplate {
  TemplateMeta : Meta.ObjectMeta; TemplateSpec : VirtualMachineInstanceSpec }.

Record VirtualMachineSpec := MkVMSpec {
  RunStrategy : option string;
  Template : option VirtualMachineInstanceTemplateSpec;
  DataVolumeTemplates : list CDI.DataVolume
}.

(** The times are nanoseconds since 1970, [Rfc3339.zero] when unset. *)
Record VirtualMachineCondition := MkVMCondition {
  CondType : string; CondStatus : string;
  CondLastProbeTime : Z; CondLastTransitionTime : Z;
  CondReason : string; CondMessage : string }.
Record VirtualMachineStateChangeRequest := MkStateChange {
  Action : string; ActionData : gomap string; ActionUID : option string }.
Record VirtualMachineStatus := MkVMStatus {
  Created : bool;
  Ready : bool;
  Conditions : list VirtualMachineCondition;
  StateChangeRequests : list VirtualMachineStateChangeRequest
}.
Definition noStatus : VirtualMachineStatus := MkVMStatus false false [] [].

Record VirtualMachine := MkVM {
  VMType : Meta.TypeMeta;
  VMMeta : Meta.ObjectMeta;
  VMSpec : VirtualMachineSpec;
  VMStatus : VirtualMachineStatus
}.
Record VirtualMachineInstance := MkVMI {
  VMIType : Meta.TypeMeta; VMIMeta : Meta.ObjectMeta }.

Definition vm_Name (vm : VirtualMachine) : string := Meta.Name (VMMeta vm).
Definition vm_Namespace (vm : VirtualMachine) : string := Meta.Namespace (VMMeta vm).
Definition vm_ResourceVersion (vm : VirtualMachine) : string :=
  Meta.ResourceVersion (VMMeta vm).
Definition set_ResourceVersion (v : string) (vm : VirtualMachine) : VirtualMachine :=
  MkVM (VMType vm) (Meta.set_ResourceVersion v (VMMeta vm)) (VMSpec vm) (VMStatus vm).

(** [var vm kubevirtapiv1.VirtualMachine] and its VMI counterpart. *)
Definition zeroVM : VirtualMachine :=
  MkVM Meta.noType Meta.empty (MkVMSpec None None []) noStatus.
Definition zeroVMI : VirtualMachineInstance := MkVMI Meta.noType Meta.empty.
End KV.

Module Mapi.
Definition MachineFinalizer := "machine.machine.openshift.io".
Definition MachineClusterIDLabel := "machine.openshift.io/cluster-api-cluster".
Definition MachineInstanceStateAnnotationName := "machine.openshift.io/instance-state".
Definition MachineInstanceTypeLabelName := "machine.openshift.io/instance-type".

Record MachineSpec := MkMachineSpec {
  ProviderSpecValue : option RawExtension;
  ProviderID : option string
}.
Record Condition := MkCondition {
  CondType : string; CondStatus : string; CondSeverity : string;
  CondLastTransitionTime : Z; CondReason : string; CondMessage : string }.
Record MachineStatus := MkMachineStatus {
  NodeRef : option string;
  LastUpdated : option Z;
  ErrorReason : option string;
  ErrorMessage : option string;
  ProviderStatus : option RawExtension;
  Addresses : list Core.NodeAddress;
  Phase : option string;
  Conditions : list Condition
}.
Record Machine := MkMachine {
  MachineMeta : Meta.ObjectMeta; Spec : MachineSpec; Status : MachineStatus }.

Definition GetName (m : Machine) : string := Meta.Name (MachineMeta m).
Definition GetNamespace (m : Machine) : string := Meta.Namespace (MachineMeta m).

Definition set_Labels (l : gomap string) (m : Machine) : Machine :=
  MkMachine (Meta.set_Labels l (MachineMeta m)) (Spec m) (Status m).
Definition set_Annotations (a : gomap string) (m : Machine) : Machine :=
  MkMachine (Meta.set_Annotations a (MachineMeta m)) (Spec m) (Status m).
Definition set_ProviderID (p : option string) (m : Machine) : Machine :=
  MkMachine (MachineMeta m) (MkMachineSpec (ProviderSpecValue (Spec m)) p) (Status m).
Definition set_Finalizers (f : list string) (m : Machine) : Machine :=
  MkMachine (Meta.set_Finalizers f (MachineMeta m)) (Spec m) (Status m).
Definition set_Status (s : MachineStatus) (m : Machine) : Machine :=
  MkMachine (MachineMeta m) (Spec m) s.
Definition with_ProviderStatus (r : option RawExtension) (s : MachineStatus)
    : MachineStatus :=
  MkMachineStatus (NodeRef s) (LastUpdated s) (ErrorReason s) (ErrorMessage s) r
    (Addresses s) (Phase s) (Conditions s).
Definition with_Addresses (a : list Core.NodeAddress) (s : MachineStatus)
    : MachineStatus :=
  MkMachineStatus (NodeRef s) (LastUpdated s) (ErrorReason s) (ErrorMessage s)
    (ProviderStatus s) a (Phase s) (Conditions s).

Definition with_Conditions (c : list Condition) (s : MachineStatus) : MachineStatus :=
  MkMachineStatus (NodeRef s) (LastUpdated s) (ErrorReason s) (ErrorMessage s)
    (ProviderStatus s) (Addresses s) (Phase s) c.
Definition set_Conditions (c : list Condition) (m : Machine) : Machine :=
  set_Status (with_Conditions c (Status m)) m.

#[global] Instance RawExtension_eq_dec : EqDecision RawExtension.
Proof. solve_decision. Defined.
#[global] Instance Condition_eq_dec : EqDecision Condition.
Proof. solve_decision. Defined.
#[global] Instance MachineStatus_eq_dec : EqDecision MachineStatus.
Proof. solve_decision. Defined.
#[global] Instance MachineSpec_eq_dec : EqDecision MachineSpec.
Proof. solve_decision. Defined.
#[global] Instance OwnerReference_eq_dec : EqDecision Meta.OwnerReference.
Proof. solve_decision. Defined.
#[global] Instance ObjectMeta_eq_dec : EqDecision Meta.ObjectMeta.
Proof. solve_decision. Defined.
#[global] Instance Machine_eq_dec : EqDecision Machine.
Proof. solve_decision. Defined.
End Mapi.

Module Provider.
Record KubevirtMachineProviderSpec := MkProviderSpec {
  TypeMeta : Meta.TypeMeta;
  SourcePvcName : string;
  CredentialsSecretName : string;
  RequestedMemory : string;
  RequestedCPU : Z;
  RequestedStorage : string;
  StorageClassName : string;
  IgnitionSecretName : string;
  NetworkName : string;
  InterfaceBindingMethod : string;
  PersistentVolumeAccessMode : string
}.
Definition zeroSpec : KubevirtMachineProviderSpec :=
  MkProviderSpec Meta.noType "" "" "" 0 "" "" "" "" "" "".

(** [RequestedCPU] is a uint32. *)
Definition wf_spec (s : KubevirtMachineProviderSpec) : Prop :=
  0 ≤ RequestedCPU s < 2 ^ 32.

Record KubevirtMachineProviderStatus := MkProviderStatus {
  StatusTypeMeta : Meta.TypeMeta;
  VirtualMachineStatus : KV.VirtualMachineStatus
}.
End Provider.
