(* ===== verification/Json.v ===== *)
(** * JSON ([encoding/json])

    The decoder into [interface{}] and the encoder of the Go standard library,
    as far as the provider uses them: the ignition user data is decoded,
    edited and encoded again, the cloud provider configuration is decoded
    into a [map[string]string], and the provider spec and status are encoded.
    Text is a sequence of bytes; numbers are float64, kept as a sign, a
    mantissa and a binary exponent. *)

From S2P Require Import Prelude GoStd GoErrors.
From Stdlib Require Import Ascii.

(** ** float64

    [F64 neg m e] is [m * 2^e], with its sign; zero has a sign too. *)
Module Float.
Record float64 := F64 { neg : bool; mant : Z; expo : Z }.

#[global] Instance float64_eq_dec : EqDecision float64.
Proof. solve_decision. Defined.

(** The float64 nearest to [n / d], ties to even; [None] beyond the range. *)
Definition nearest (n d : Z) : option (Z * Z) :=
  if n =? 0 then Some (0, 0)
  else
    let at_exp e := (n * 2 ^ Z.max 0 (- e), d * 2 ^ Z.max 0 e) in
    let e1 := Z.max (Z.log2 n - Z.log2 d - 53) (-1074) in
    let '(a1, b1) := at_exp e1 in
    let e := if 2 ^ 53 <=? a1 / b1 then e1 + 1 else e1 in
    let '(a, b) := at_exp e in
    let q := a / b in
    let r := a mod b in
    let q := if (b <? 2 * r) || ((b =? 2 * r) && Z.odd q) then q + 1 else q in
    let '(q, e) := if q =? 2 ^ 53 then (2 ^ 52, e + 1) else (q, e) in
    if q =? 0 then Some (0, 0) else if 971 <? e then None else Some (q, e).

(** [strconv.ParseFloat] of the digits [m] with the decimal exponent [e]. *)
Definition of_decimal (neg : bool) (m e : Z) : option float64 :=
  '(q, x) ← nearest (m * 10 ^ Z.max 0 e) (10 ^ Z.max 0 (- e));
  Some (F64 neg q x).

(** The number as a fraction. *)
Definition frac (m e : Z) : Z * Z := (m * 2 ^ Z.max 0 e, 2 ^ Z.max 0 (- e)).

(** The decimal point position [k]: [10^(k-1) <= n/d < 10^k]. *)
Fixpoint adjust (fuel : nat) (n d k : Z) : Z :=
  match fuel with
  | O => k
  | S fuel =>
      let pow j := (10 ^ Z.max 0 j, 10 ^ Z.max 0 (- j)) in
      let '(hn, hd) := pow k in
      let '(ln, ld) := pow (k - 1) in
      if hn * d <=? n * hd then adjust fuel n d (k + 1)
      else if n * ld <? ln * d then adjust fuel n d (k - 1) else k
  end.
Definition point (n d : Z) : Z :=
  adjust 4 n d ((Z.log2 n - Z.log2 d) * 30103 / 100000 + 1).

(** The shortest digits that read back as the number, from [p] digits on:
    the digits as an integer and their count. *)
Fixpoint shortest_from (fuel : nat) (p : Z) (m e k : Z) : Z * Z * Z :=
  let '(n, d) := frac m e in
  let s := p - k in
  let '(a, b) := (n * 10 ^ Z.max 0 s, d * 10 ^ Z.max 0 (- s)) in
  let down := a / b in
  let up := down + 1 in
  let back x := bool_decide (nearest (x * 10 ^ Z.max 0 (- s)) (10 ^ Z.max 0 s) = Some (m, e)) in
  let r := a mod b in
  let near_up := (b <? 2 * r) || ((b =? 2 * r) && Z.odd down) in
  match fuel with
  | O => (down, p, k)
  | S fuel =>
      let pick :=
        if back down then
          if back up && near_up then Some up else Some down
        else if back up then Some up else None in
      match pick with
      | Some x => if x =? 10 ^ p then (1, 1, k + 1) else (x, p, k)
      | None => shortest_from fuel (p + 1) m e k
      end
  end.
Definition shortest (m e : Z) : Z * Z * Z :=
  let '(n, d) := frac m e in shortest_from 17 1 m e (point n d).

Fixpoint zeros (n : nat) : string :=
  match n with O => "" | S n => String "0"%char (zeros n) end.

Fixpoint split_at (n : nat) (s : string) : string * string :=
  match n, s with
  | S n, String c s => let '(a, b) := split_at n s in (String c a, b)
  | _, _ => ("", s)
  end.

(** The format ['f'], with the point behind [k] digits. *)
Definition fmt_f (digits : string) (p k : Z) : string :=
  if k <=? 0 then "0." +:+ zeros (Z.to_nat (- k)) +:+ digits
  else if p <=? k then digits +:+ zeros (Z.to_nat (k - p))
  else let '(a, b) := split_at (Z.to_nat k) digits in a +:+ "." +:+ b.

(** The format ['e'], a one-digit negative exponent without its zero. *)
Definition fmt_e (digits : string) (k : Z) : string :=
  let '(a, b) := split_at 1 digits in
  let x := k - 1 in
  let frac := match b with EmptyString => "" | _ => "." +:+ b end in
  let ex :=
    if x <? 0 then "e-" +:+ Strconv.itoa (- x)
    else "e+" +:+ (if x <? 10 then "0" else "") +:+ Strconv.itoa x in
  a +:+ frac +:+ ex.

(** The text [json.Marshal] gives a float64. *)
Definition format (f : float64) : string :=
  let sign := if neg f then "-" else "" in
  if mant f =? 0 then sign +:+ "0"
  else
    let '(n, d) := frac (mant f) (expo f) in
    let '(digits, p, k) := shortest (mant f) (expo f) in
    let ds := Strconv.itoa digits in
    let small := n * 10 ^ 6 <? d in
    let large := d * 10 ^ 21 <=? n in
    sign +:+ (if small || large then fmt_e ds k else fmt_f ds p k).
End Float.

(** ** Values

    The dynamic value of an [interface{}]: what the decoder builds, and the
    two kinds of Go value the provider puts into a decoded tree.  A
    [map[string]interface{}] is the list of its entries, sorted by key and
    without duplicates ([obj_set] keeps it so). *)
Inductive any :=
  | ANil
  | ABool (b : bool)
  | AFloat (f : Float.float64)
  | AInt (z : Z)
  | AString (s : string)
  | ASlice (l : list any)
  | AMapSlice (l : list any)
  | AMap (m : list (string * any)).

Definition obj := list (string * any).

(** Strings in the order of their bytes. *)
Fixpoint str_compare (s t : string) : comparison :=
  match s, t with
  | EmptyString, EmptyString => Eq
  | EmptyString, String _ _ => Lt
  | String _ _, EmptyString => Gt
  | String a s, String b t =>
      match byte_of a ?= byte_of b with Eq => str_compare s t | c => c end
  end.

Fixpoint obj_get (k : string) (m : obj) : option any :=
  match m with
  | [] => None
  | (k', v) :: m => if bool_decide (k = k') then Some v else obj_get k m
  end.

Fixpoint obj_set (k : string) (v : any) (m : obj) : obj :=
  match m with
  | [] => [(k, v)]
  | (k', v') :: r =>
      match str_compare k k' with
      | Eq => (k, v) :: r
      | Lt => (k, v) :: m
      | Gt => (k', v') :: obj_set k v r
      end
  end.

Lemma byte_of_inj a b : byte_of a = byte_of b → a = b.
Proof.
  unfold byte_of. intros H%N2Z.inj. rewrite <-(ascii_N_embedding a), <-(ascii_N_embedding b).
  by f_equal.
Qed.

Lemma str_compare_eq s t : str_compare s t = Eq ↔ s = t.
Proof.
  split.
  - revert t. induction s as [|a s IH]; intros [|b t]; simpl; try done.
    destruct (Z.compare_spec (byte_of a) (byte_of b)) as [->%byte_of_inj| |]; try done.
    by intros ->%IH.
  - intros <-. induction s; simpl; [done|]. by rewrite Z.compare_refl.
Qed.

Lemma str_compare_antisym s t : str_compare t s = CompOpp (str_compare s t).
Proof.
  revert t. induction s as [|a s IH]; intros [|b t]; simpl; try done.
  rewrite (Z.compare_antisym (byte_of a)). destruct (byte_of a ?= byte_of b); simpl; auto.
Qed.

Lemma str_compare_gt s t : str_compare s t = Gt ↔ str_compare t s = Lt.
Proof. rewrite (str_compare_antisym s t). by destruct (str_compare s t). Qed.

Lemma str_compare_trans s t u :
  str_compare s t = Lt → str_compare t u = Lt → str_compare s u = Lt.
Proof.
  revert t u. induction s as [|a s IH]; intros [|b t] [|c u]; simpl; try done.
  destruct (Z.compare_spec (byte_of a) (byte_of b)) as [Hab|Hab|Hab];
    destruct (Z.compare_spec (byte_of b) (byte_of c)) as [Hbc|Hbc|Hbc]; try done; intros H1 H2.
  - rewrite Hab, Hbc, Z.compare_refl. eauto.
  - by rewrite (proj2 (Z.compare_lt_iff _ _)) by lia.
  - by rewrite (proj2 (Z.compare_lt_iff _ _)) by lia.
  - by rewrite (proj2 (Z.compare_lt_iff _ _)) by lia.
Qed.

Lemma obj_get_set k v m : obj_get k (obj_set k v m) = Some v.
Proof.
  induction m as [|[k' v'] m IH]; simpl; [by rewrite bool_decide_eq_true_2|].
  destruct (str_compare k k') eqn:Hc; simpl; rewrite ?bool_decide_eq_true_2 by done; try done.
  rewrite bool_decide_eq_false_2; [done|]. intros H%str_compare_eq. congruence.
Qed.

Lemma obj_get_set_ne k k' v m : k ≠ k' → obj_get k (obj_set k' v m) = obj_get k m.
Proof.
  intros Hne. induction m as [|[k1 v1] m IH]; simpl; [by rewrite bool_decide_eq_false_2|].
  destruct (str_compare k' k1) eqn:Hc; simpl.
  - apply str_compare_eq in Hc as ->. by rewrite !bool_decide_eq_false_2 by done.
  - by rewrite (bool_decide_eq_false_2 (k = k')) by done.
  - by rewrite IH.
Qed.

(** ** Encoding *)
Definition hex_digit (z : Z) : ascii :=
  if z <? 10 then chr (48 + z) else chr (87 + z).

(** A byte of ASCII inside a string, HTML characters escaped. *)
Definition encode_byte (c : ascii) : string :=
  let b := byte_of c in
  if Ascii.eqb c "\"%char then "\\"
  else if b =? 34 then String "\"%char (String c "")
  else if b =? 10 then "\n"
  else if b =? 13 then "\r"
  else if b =? 9 then "\t"
  else if (b <? 32) || (b =? 60) || (b =? 62) || (b =? 38) then
    "\u00" +:+ String (hex_digit (b / 16)) (String (hex_digit (b mod 16)) "")
  else String c "".

(** A rune of several bytes: the two line separators are escaped. *)
Definition encode_rune (r : string) : string :=
  if bool_decide (map byte_of (String.list_ascii_of_string r) = [0xE2; 0x80; 0xA8])
  then "\u2028"
  else if bool_decide (map byte_of (String.list_ascii_of_string r) = [0xE2; 0x80; 0xA9])
  then "\u2029"
  else r.

Fixpoint encode_string_go (fuel : nat) (s : string) : string :=
  match fuel with
  | O => ""
  | S fuel =>
      match s with
      | EmptyString => ""
      | String c r =>
          if byte_of c <? 128 then encode_byte c +:+ encode_string_go fuel r
          else match Utf8.decode_rune s with
               | Some (rune, rest) => encode_rune rune +:+ encode_string_go fuel rest
               | None => "\ufffd" +:+ encode_string_go fuel r
               end
      end
  end.

Definition quote : string := String (chr 34) "".

(** A string literal; one step of fuel for each byte. *)
Definition encode_string (s : string) : string :=
  quote +:+ encode_string_go (String.length s) s +:+ quote.

Fixpoint join (sep : string) (l : list string) : string :=
  match l with
  | [] => ""
  | [x] => x
  | x :: l => x +:+ sep +:+ join sep l
  end.

Definition encode_int (z : Z) : string :=
  if z <? 0 then "-" +:+ Strconv.itoa (- z) else Strconv.itoa z.

(** [json.Marshal] of a value; it cannot fail on these. *)
Fixpoint encode (v : any) : string :=
  match v with
  | ANil => "null"
  | ABool b => if b then "true" else "false"
  | AFloat f => Float.format f
  | AInt z => encode_int z
  | AString s => encode_string s
  | ASlice l | AMapSlice l => "[" +:+ join "," (map encode l) +:+ "]"
  | AMap m =>
      "{" +:+ join "," (map (λ kv, encode_string kv.1 +:+ ":" +:+ encode kv.2) m) +:+ "}"
  end.

(** ** Decoding *)
Definition is_space (c : ascii) : bool :=
  let b := byte_of c in (b =? 32) || (b =? 9) || (b =? 10) || (b =? 13).

Fixpoint skip_space (s : string) : string :=
  match s with
  | String c r => if is_space c then skip_space r else s
  | EmptyString => s
  end.

Fixpoint strip_prefix (p s : string) : option string :=
  match p, s with
  | EmptyString, _ => Some s
  | String a p, String b s => if Ascii.eqb a b then strip_prefix p s else None
  | String _ _, EmptyString => None
  end.

Definition hex_val (c : ascii) : option Z :=
  let b := byte_of c in
  if in_range 48 57 b then Some (b - 48)
  else if in_range 97 102 b then Some (b - 87)
  else if in_range 65 70 b then Some (b - 55)
  else None.

(** Four hexadecimal digits. *)
Definition hex4 (s : string) : option (Z * string) :=
  match s with
  | String a (String b (String c (String d r))) =>
      x ← hex_val a; y ← hex_val b; z ← hex_val c; w ← hex_val d;
      Some (((x * 16 + y) * 16 + z) * 16 + w, r)
  | _ => None
  end.

(** [utf8.EncodeRune]; a surrogate or a number out of range is U+FFFD. *)
Definition encode_utf8 (r : Z) : string :=
  let cont x := chr (0x80 + x mod 64) in
  if r <? 0x80 then String (chr r) ""
  else if r <? 0x800 then String (chr (0xC0 + r / 64)) (String (cont r) "")
  else if in_range 0xD800 0xDFFF r || (0x10FFFF <? r) then Utf8.rune_error
  else if r <? 0x10000 then
    String (chr (0xE0 + r / 4096)) (String (cont (r / 64)) (String (cont r) ""))
  else
    String (chr (0xF0 + r / 262144)) (String (cont (r / 4096))
      (String (cont (r / 64)) (String (cont r) ""))).

(** After [\u] and its four digits: a surrogate pair takes the next escape
    with it, a surrogate alone is U+FFFD. *)
Definition unescape_u (u : Z) (r : string) : string * string :=
  if in_range 0xD800 0xDFFF u then
    match strip_prefix "\u" r ≫= hex4 with
    | Some (v, r') =>
        if (u <? 0xDC00) && in_range 0xDC00 0xDFFF v then
          (encode_utf8 ((u - 0xD800) * 1024 + (v - 0xDC00) + 0x10000), r')
        else (Utf8.rune_error, r)
    | None => (Utf8.rune_error, r)
    end
  else (encode_utf8 u, r).

(** One element of a string literal behind its backslash. *)
Definition unescape (s : string) : option (string * string) :=
  match s with
  | EmptyString => None
  | String c r =>
      let b := byte_of c in
      if (b =? 34) || (b =? 92) || (b =? 47) then Some (String c "", r)
      else if b =? 98 then Some (String (chr 8) "", r)
      else if b =? 102 then Some (String (chr 12) "", r)
      else if b =? 110 then Some (String (chr 10) "", r)
      else if b =? 114 then Some (String (chr 13) "", r)
      else if b =? 116 then Some (String (chr 9) "", r)
      else if b =? 117 then '(u, r') ← hex4 r; Some (unescape_u u r')
      else None
  end.

(** The rest of a string literal, behind its opening quote. *)
Fixpoint decode_string_go (fuel : nat) (s : string) : option (string * string) :=
  match fuel with
  | O => None
  | S fuel =>
      match s with
      | EmptyString => None
      | String c r =>
          let b := byte_of c in
          if b =? 34 then Some ("", r)
          else if b =? 92 then
            '(x, r) ← unescape r; '(t, r) ← decode_string_go fuel r; Some (x +:+ t, r)
          else if b <? 32 then None
          else if b <? 128 then '(t, r) ← decode_string_go fuel r; Some (String c t, r)
          else
            let '(x, r) := default (Utf8.rune_error, r) (Utf8.decode_rune s) in
            '(t, r) ← decode_string_go fuel r; Some (x +:+ t, r)
      end
  end.

(** A string literal. *)
Definition decode_string (s : string) : option (string * string) :=
  match s with
  | String c r =>
      if byte_of c =? 34 then decode_string_go (S (String.length r)) r else None
  | EmptyString => None
  end.

Fixpoint take_digits (s : string) : string * string :=
  match s with
  | String c r => if is_digit c then let '(a, b) := take_digits r in (String c a, b) else ("", s)
  | EmptyString => ("", "")
  end.

(** A number literal: its text, sign, digits, fraction digits and exponent. *)
Record number := MkNumber {
  n_lit : string; n_neg : bool; n_int : string; n_frac : string; n_exp : option Z }.

Definition scan_int (s : string) : option (string * string) :=
  match take_digits s with
  | (EmptyString, _) => None
  | (String c (String _ _), _) as r => if Ascii.eqb c "0"%char then None else Some r
  | r => Some r
  end.

Definition scan_frac (s : string) : option (string * string) :=
  match s with
  | String c r =>
      if Ascii.eqb c "."%char then
        match take_digits r with (EmptyString, _) => None | d => Some d end
      else Some ("", s)
  | EmptyString => Some ("", s)
  end.

Definition scan_exp (s : string) : option (option Z * string) :=
  match s with
  | String c r =>
      if Ascii.eqb c "e"%char || Ascii.eqb c "E"%char then
        let '(neg, r) :=
          match r with
          | String d r' => if Ascii.eqb d "-"%char then (true, r')
                           else if Ascii.eqb d "+"%char then (false, r') else (false, r)
          | EmptyString => (false, r)
          end in
        match take_digits r with
        | (EmptyString, _) => None
        | (ds, r) =>
            let v := default 0 (Strconv.digits_val ds) in
            Some (Some (if neg : bool then - v else v), r)
        end
      else Some (None, s)
  | EmptyString => Some (None, s)
  end.

(** What a scanner consumed of [s] when it left [r]. *)
Definition consumed (s r : string) : string :=
  String.substring 0 (String.length s - String.length r) s.

Definition decode_number (s : string) : option (number * string) :=
  let '(neg, r) :=
    match s with
    | String c r => if Ascii.eqb c "-"%char then (true, r) else (false, s)
    | EmptyString => (false, s)
    end in
  '(i, r) ← scan_int r; '(f, r) ← scan_frac r; '(e, r) ← scan_exp r;
  Some (MkNumber (consumed s r) neg i f e, r).

(** [strconv.ParseFloat] of a literal: [None] out of range. *)
Definition number_float (n : number) : option Float.float64 :=
  let m := default 0 (Strconv.digits_val (n_int n +:+ n_frac n)) in
  Float.of_decimal (n_neg n) m
    (default 0 (n_exp n) - Z.of_nat (String.length (n_frac n))).

(** [strconv.ParseUint] of a literal, for an integer type of [w] bits. *)
Definition number_uint (w : Z) (n : number) : option Z :=
  match n_neg n, n_frac n, n_exp n with
  | false, EmptyString, None =>
      let v := default 0 (Strconv.digits_val (n_int n)) in
      if v <? 2 ^ w then Some v else None
  | _, _, _ => None
  end.

(** The syntax tree of a document: number literals and repeated keys are kept,
    the Go type a value is decoded into decides what becomes of them. *)
Inductive json :=
  | JNull
  | JBool (b : bool)
  | JNumber (n : number)
  | JString (s : string)
  | JArray (l : list json)
  | JObject (m : list (string * json)).

Definition maxNestingDepth : nat := 10000.

(** One pass of the scanner checks the whole document first, and a value is
    only stored when the document is valid. *)
Fixpoint decode_value (fuel depth : nat) (s : string) : option (json * string) :=
  match fuel with
  | O => None
  | S fuel =>
      match s with
      | EmptyString => None
      | String c r =>
          if Ascii.eqb c "{"%char then
            match depth with
            | O => None
            | S depth =>
                let r := skip_space r in
                match strip_prefix "}" r with
                | Some r => Some (JObject [], r)
                | None => '(m, r) ← decode_members fuel depth r; Some (JObject m, r)
                end
            end
          else if Ascii.eqb c "["%char then
            match depth with
            | O => None
            | S depth =>
                let r := skip_space r in
                match strip_prefix "]" r with
                | Some r => Some (JArray [], r)
                | None => '(l, r) ← decode_elements fuel depth r; Some (JArray l, r)
                end
            end
          else if byte_of c =? 34 then '(x, r) ← decode_string s; Some (JString x, r)
          else if Ascii.eqb c "t"%char then r ← strip_prefix "true" s; Some (JBool true, r)
          else if Ascii.eqb c "f"%char then r ← strip_prefix "false" s; Some (JBool false, r)
          else if Ascii.eqb c "n"%char then r ← strip_prefix "null" s; Some (JNull, r)
          else '(n, r) ← decode_number s; Some (JNumber n, r)
      end
  end
with decode_elements (fuel depth : nat) (s : string) : option (list json * string) :=
  match fuel with
  | O => None
  | S fuel =>
      '(v, r) ← decode_value fuel depth s;
      let r := skip_space r in
      match strip_prefix "]" r with
      | Some r => Some ([v], r)
      | None =>
          r ← strip_prefix "," r;
          '(l, r) ← decode_elements fuel depth (skip_space r); Some (v :: l, r)
      end
  end
with decode_members (fuel depth : nat) (s : string)
    : option (list (string * json) * string) :=
  match fuel with
  | O => None
  | S fuel =>
      '(k, r) ← decode_string s;
      r ← strip_prefix ":" (skip_space r);
      '(v, r) ← decode_value fuel depth (skip_space r);
      let r := skip_space r in
      match strip_prefix "}" r with
      | Some r => Some ([(k, v)], r)
      | None =>
          r ← strip_prefix "," r;
          '(m, r) ← decode_members fuel depth (skip_space r); Some ((k, v) :: m, r)
      end
  end.

(** The fuel of a text: [decode_elements] and [decode_members] call
    [decode_value] before they consume a byte, so two steps for each byte. *)
Definition text_fuel (s : string) : nat := S (2 * String.length s).

(** A whole document: spaces, a value, spaces. *)
Definition decode_document (s : string) : option json :=
  '(v, r) ← decode_value (text_fuel s) maxNestingDepth (skip_space s);
  match skip_space r with
  | EmptyString => Some v
  | String _ _ => None
  end.

(** ** Values into [interface{}]

    A number out of range of float64 leaves a nil behind, and an error that
    the decoder reports once it has stored everything; the flag is false. *)
Fixpoint to_any (v : json) : any * bool :=
  match v with
  | JNull => (ANil, true)
  | JBool b => (ABool b, true)
  | JNumber n =>
      match number_float n with Some f => (AFloat f, true) | None => (ANil, false) end
  | JString s => (AString s, true)
  | JArray l =>
      let vs := map to_any l in (ASlice vs.*1, forallb snd vs)
  | JObject m =>
      let vs := map (λ kv, (kv.1, to_any kv.2)) m in
      (AMap (foldl (λ acc kv, obj_set kv.1 kv.2.1 acc) [] vs), forallb (λ kv, kv.2.2) vs)
  end.

(** ** Values into [map[string]string]

    [None] when the decoder reports an error; [Some None] is the nil map a
    [null] leaves.  A [null] for an element stores the empty string. *)
Definition to_string_elem (v : json) : option string :=
  match v with JString s => Some s | JNull => Some "" | _ => None end.

Definition Unmarshal_string_map (s : string) : option (gomap string) :=
  v ← decode_document s;
  match v with
  | JNull => Some None
  | JObject m =>
      kvs ← mapM (λ kv, x ← to_string_elem kv.2; Some (kv.1, x)) m;
      Some (Some (map_range_entries kvs ∅))
  | _ => None
  end.

(** What a decoded object holds under a key is one of its decoded members. *)
Lemma obj_get_to_any k v (m : list (string * json)) o :
  (to_any (JObject m)).1 = AMap o → obj_get k o = Some v →
  ∃ x, (k, x) ∈ m ∧ v = (to_any x).1.
Proof.
  simpl. intros [= <-]. change (@nil (string * any)) with (@nil (string * any)).
  assert (∀ acc, obj_get k (foldl (λ acc kv, obj_set kv.1 kv.2.1 acc) acc
            (map (λ kv : string * json, (kv.1, to_any kv.2)) m)) = Some v →
          (∃ x, (k, x) ∈ m ∧ v = (to_any x).1) ∨ obj_get k acc = Some v) as Hgen.
  { induction m as [|[k' x] m IH]; intros acc; simpl; [by right|].
    intros [(y & Hin & ->)|H]%IH; [left; exists y; split; [by right|done]|].
    destruct (decide (k = k')) as [->|Hne].
    - rewrite obj_get_set in H. injection H as <-. left. exists x. split; [by left|done].
    - rewrite obj_get_set_ne in H by done. by right. }
  intros [H|H]%Hgen; [done|discriminate].
Qed.

(** ** Fuel

    Every scanner gives back less text than it was given, so the fuel of a
    text is enough for it: more changes nothing. *)
Abbreviation len s := (String.length s).

Lemma skip_space_length s : (len (skip_space s) ≤ len s)%nat.
Proof. induction s as [|c s IH]; simpl; [done|]. destruct (is_space c); simpl; lia. Qed.

Lemma strip_prefix_length p s r : strip_prefix p s = Some r → len s = (len p + len r)%nat.
Proof.
  revert s. induction p as [|a p IH]; intros s; simpl; [by intros [= ->]|].
  destruct s as [|b s]; [done|]. destruct (Ascii.eqb a b); [|done]. intros H%IH. simpl. lia.
Qed.

Lemma hex4_length s u r : hex4 s = Some (u, r) → len s = (4 + len r)%nat.
Proof.
  destruct s as [|a [|b [|c [|d s]]]]; simpl; try done.
  destruct (hex_val a), (hex_val b), (hex_val c), (hex_val d); simpl; try done. by intros [= _ ->].
Qed.

Lemma unescape_u_length u s : (len (unescape_u u s).2 ≤ len s)%nat.
Proof.
  unfold unescape_u. destruct (in_range _ _ u); [|done].
  destruct (strip_prefix "\u" s) as [t|] eqn:Ht; simpl; [|done].
  apply strip_prefix_length in Ht. simpl in Ht.
  destruct (hex4 t) as [[v r]|] eqn:Hh; simpl; [|done]. apply hex4_length in Hh.
  destruct (_ && _); simpl; lia.
Qed.

Lemma unescape_length s x r : unescape s = Some (x, r) → (len r < len s)%nat.
Proof.
  destruct s as [|c s]; simpl; [done|].
  repeat (case_match; [intros [= _ <-]; lia|]).
  case_match; [|done]. destruct (hex4 s) as [[u t]|] eqn:Hh; simpl; [|done].
  apply hex4_length in Hh. pose proof (unescape_u_length u t).
  destruct (unescape_u u t). intros [= _ <-]. simpl in *. lia.
Qed.

(** The rune at the head of a text of at least one byte. *)
Lemma rune_length c s x r :
  default (Utf8.rune_error, s) (Utf8.decode_rune (String c s)) = (x, r) → (len r ≤ len s)%nat.
Proof.
  destruct (Utf8.decode_rune (String c s)) as [[v t]|] eqn:Hd; simpl; intros [= _ <-]; [|done].
  apply Fmt.decode_rune_length in Hd. simpl in Hd. lia.
Qed.

Lemma decode_string_go_length f s x r : decode_string_go f s = Some (x, r) → (len r < len s)%nat.
Proof.
  revert s x r. induction f as [|f IH]; intros s x r; simpl; [done|].
  destruct s as [|c s]; [done|]. case_match; [intros [= _ <-]; simpl; lia|].
  case_match.
  { destruct (unescape s) as [[y t]|] eqn:Hu; simpl; [|done]. apply unescape_length in Hu.
    destruct (decode_string_go f t) as [[z w]|] eqn:Hd; simpl; [|done]. apply IH in Hd.
    intros [= _ <-]. lia. }
  case_match; [done|]. case_match.
  { destruct (decode_string_go f s) as [[z w]|] eqn:Hd; simpl; [|done]. apply IH in Hd.
    intros [= _ <-]. lia. }
  destruct (default _ _) as [y t] eqn:Hr. apply rune_length in Hr.
  destruct (decode_string_go f t) as [[z w]|] eqn:Hd; simpl; [|done]. apply IH in Hd.
  intros [= _ <-]. lia.
Qed.

Lemma decode_string_go_fuel f1 f2 s :
  (len s < f1)%nat → (len s < f2)%nat → decode_string_go f1 s = decode_string_go f2 s.
Proof.
  revert f2 s. induction f1 as [|f1 IH]; intros [|f2] s H1 H2; try lia. simpl.
  destruct s as [|c s]; [done|]. simpl in H1, H2. case_match; [done|]. case_match.
  { destruct (unescape s) as [[y t]|] eqn:Hu; simpl; [|done]. apply unescape_length in Hu.
    by rewrite (IH f2 t) by lia. }
  case_match; [done|]. case_match; [by rewrite (IH f2 s) by lia|].
  destruct (default _ _) as [y t] eqn:Hr. apply rune_length in Hr. by rewrite (IH f2 t) by lia.
Qed.

Lemma decode_string_length s x r : decode_string s = Some (x, r) → (len r < len s)%nat.
Proof.
  destruct s as [|c s]; [done|]. unfold decode_string. case_match; [|done].
  intros Hd%decode_string_go_length. simpl. lia.
Qed.

Lemma take_digits_length s a b : take_digits s = (a, b) → len s = (len a + len b)%nat.
Proof.
  revert a b. induction s as [|c s IH]; intros a b; simpl; [by intros [= <- <-]|].
  destruct (is_digit c); [|by intros [= <- <-]].
  destruct (take_digits s) as [a' b']. intros [= <- <-]. simpl. by rewrite (IH a' b').
Qed.

Lemma scan_int_length s i r : scan_int s = Some (i, r) → (len r < len s)%nat.
Proof.
  unfold scan_int. destruct (take_digits s) as [[|c [|d a]] b] eqn:Hd; [done|..];
    apply take_digits_length in Hd; simpl in Hd; [intros [= _ <-]; lia|].
  destruct (Ascii.eqb _ _); [done|]. intros [= _ <-]. lia.
Qed.

Lemma scan_frac_length s i r : scan_frac s = Some (i, r) → (len r ≤ len s)%nat.
Proof.
  unfold scan_frac. destruct s as [|c s]; [by intros [= _ <-]|].
  destruct (Ascii.eqb _ _); [|by intros [= _ <-]].
  destruct (take_digits s) as [[|d a] b] eqn:Hd; [done|]. apply take_digits_length in Hd.
  intros [= _ <-]. simpl in *. lia.
Qed.

Lemma scan_exp_length s i r : scan_exp s = Some (i, r) → (len r ≤ len s)%nat.
Proof.
  unfold scan_exp. destruct s as [|c s]; [by intros [= _ <-]|].
  destruct (_ || _); [|by intros [= _ <-]].
  assert (∃ b t, (match s with
      | String d r' => if Ascii.eqb d "-"%char then (true, r')
                       else if Ascii.eqb d "+"%char then (false, r') else (false, s)
      | EmptyString => (false, s)
      end) = (b, t) ∧ (len t ≤ len s)%nat) as (b & t & -> & Ht).
  { destruct s as [|d s]; [by do 2 eexists|].
    destruct (Ascii.eqb d "-"%char); [by do 2 eexists; split; [done|simpl; lia]|].
    destruct (Ascii.eqb d "+"%char); do 2 eexists; (split; [done|simpl; lia]). }
  destruct (take_digits t) as [[|d a] b'] eqn:Hd; [done|]. apply take_digits_length in Hd.
  intros [= _ <-]. simpl in *. lia.
Qed.

Lemma decode_number_length s n r : decode_number s = Some (n, r) → (len r < len s)%nat.
Proof.
  unfold decode_number.
  assert (∃ b t, (match s with
      | String c r => if Ascii.eqb c "-"%char then (true, r) else (false, s)
      | EmptyString => (false, s)
      end) = (b, t) ∧ (len t ≤ len s)%nat) as (b & t & -> & Ht).
  { destruct s as [|c s]; [by do 2 eexists|].
    destruct (Ascii.eqb c "-"%char); do 2 eexists; (split; [done|simpl; lia]). }
  destruct (scan_int t) as [[i t1]|] eqn:H1; simpl; [|done]. apply scan_int_length in H1.
  destruct (scan_frac t1) as [[f t2]|] eqn:H2; simpl; [|done]. apply scan_frac_length in H2.
  destruct (scan_exp t2) as [[e t3]|] eqn:H3; simpl; [|done]. apply scan_exp_length in H3.
  intros [= _ <-]. lia.
Qed.

(** A value, and the rest of an array or object, take a byte at least. *)
Lemma decode_length f :
  (∀ d s v r, decode_value f d s = Some (v, r) → (len r < len s)%nat) ∧
  (∀ d s v r, decode_elements f d s = Some (v, r) → (len r < len s)%nat) ∧
  (∀ d s v r, decode_members f d s = Some (v, r) → (len r < len s)%nat).
Proof.
  induction f as [|f (IHv & IHe & IHm)]; [done|]. split_and!.
  - intros d s v r. cbn [decode_value decode_elements decode_members]. destruct s as [|c s]; [done|]. case_match.
    { destruct d as [|d]; [done|]. pose proof (skip_space_length s) as Hsp.
      destruct (strip_prefix "}" (skip_space s)) as [t|] eqn:Hp.
      { apply strip_prefix_length in Hp. intros [= <- <-]. simpl in *. lia. }
      destruct (decode_members f d (skip_space s)) as [[m t]|] eqn:Hm; cbn [mbind option_bind]; [|done].
      apply IHm in Hm. intros [= <- <-]. simpl in *. lia. }
    case_match.
    { destruct d as [|d]; [done|]. pose proof (skip_space_length s) as Hsp.
      destruct (strip_prefix "]" (skip_space s)) as [t|] eqn:Hp.
      { apply strip_prefix_length in Hp. intros [= <- <-]. simpl in *. lia. }
      destruct (decode_elements f d (skip_space s)) as [[m t]|] eqn:Hm; cbn [mbind option_bind]; [|done].
      apply IHe in Hm. intros [= <- <-]. simpl in *. lia. }
    case_match.
    { destruct (decode_string (String c s)) as [[x t]|] eqn:Hd; cbn [mbind option_bind]; [|done].
      apply decode_string_length in Hd. intros [= <- <-]. done. }
    do 3 (case_match;
      [destruct (strip_prefix _ (String c s)) as [t|] eqn:Hp; cbn [mbind option_bind]; [|done];
       apply strip_prefix_length in Hp; intros [= <- <-]; simpl in *; lia|]).
    destruct (decode_number (String c s)) as [[x t]|] eqn:Hd; cbn [mbind option_bind]; [|done].
    apply decode_number_length in Hd. by intros [= <- <-].
  - intros d s v r. cbn [decode_value decode_elements decode_members]. destruct (decode_value f d s) as [[x t]|] eqn:Hx; cbn [mbind option_bind]; [|done].
    apply IHv in Hx. pose proof (skip_space_length t).
    destruct (strip_prefix "]" (skip_space t)) as [u|] eqn:Hp.
    { apply strip_prefix_length in Hp. intros [= <- <-]. simpl in *. lia. }
    destruct (strip_prefix "," (skip_space t)) as [u|] eqn:Hq; cbn [mbind option_bind]; [|done].
    apply strip_prefix_length in Hq. pose proof (skip_space_length u).
    destruct (decode_elements f d (skip_space u)) as [[l w]|] eqn:Hl; cbn [mbind option_bind]; [|done].
    apply IHe in Hl. intros [= <- <-]. simpl in *. lia.
  - intros d s v r. cbn [decode_value decode_elements decode_members]. destruct (decode_string s) as [[k a]|] eqn:Hk; cbn [mbind option_bind]; [|done].
    apply decode_string_length in Hk. pose proof (skip_space_length a).
    destruct (strip_prefix ":" (skip_space a)) as [b|] eqn:Hb; cbn [mbind option_bind]; [|done].
    apply strip_prefix_length in Hb. pose proof (skip_space_length b).
    destruct (decode_value f d (skip_space b)) as [[x t]|] eqn:Hx; cbn [mbind option_bind]; [|done].
    apply IHv in Hx. pose proof (skip_space_length t).
    destruct (strip_prefix "}" (skip_space t)) as [u|] eqn:Hp.
    { apply strip_prefix_length in Hp. intros [= <- <-]. simpl in *. lia. }
    destruct (strip_prefix "," (skip_space t)) as [u|] eqn:Hq; cbn [mbind option_bind]; [|done].
    apply strip_prefix_length in Hq. pose proof (skip_space_length u).
    destruct (decode_members f d (skip_space u)) as [[l w]|] eqn:Hl; cbn [mbind option_bind]; [|done].
    apply IHm in Hl. intros [= <- <-]. simpl in *. lia.
Qed.

Lemma decode_value_length f d s v r : decode_value f d s = Some (v, r) → (len r < len s)%nat.
Proof. apply decode_length. Qed.

(** More fuel than [text_fuel] changes nothing. *)
Lemma decode_fuel f1 :
  (∀ f2 d s, (2 * len s < f1)%nat → (2 * len s < f2)%nat →
     decode_value f1 d s = decode_value f2 d s) ∧
  (∀ f2 d s, (2 * len s + 1 < f1)%nat → (2 * len s + 1 < f2)%nat →
     decode_elements f1 d s = decode_elements f2 d s) ∧
  (∀ f2 d s, (2 * len s + 1 < f1)%nat → (2 * len s + 1 < f2)%nat →
     decode_members f1 d s = decode_members f2 d s).
Proof.
  induction f1 as [|f1 (IHv & IHe & IHm)]; [split_and!; intros; lia|].
  split_and!; intros [|f2] d s H1 H2; try lia;
    cbn [decode_value decode_elements decode_members].
  - destruct s as [|c s]; [done|]. simpl in H1, H2. pose proof (skip_space_length s).
    case_match.
    { destruct d as [|d]; [done|]. case_match; [done|].
      by rewrite (IHm f2 d (skip_space s)) by lia. }
    case_match; [|done]. destruct d as [|d]; [done|]. case_match; [done|].
    by rewrite (IHe f2 d (skip_space s)) by lia.
  - rewrite (IHv f2 d s) by lia.
    destruct (decode_value f2 d s) as [[x t]|] eqn:Hx; cbn [mbind option_bind]; [|done].
    apply decode_value_length in Hx. pose proof (skip_space_length t). case_match; [done|].
    destruct (strip_prefix "," (skip_space t)) as [u|] eqn:Hq; cbn [mbind option_bind]; [|done].
    apply strip_prefix_length in Hq. pose proof (skip_space_length u).
    by rewrite (IHe f2 d (skip_space u)) by lia.
  - destruct (decode_string s) as [[k a]|] eqn:Hk; cbn [mbind option_bind]; [|done].
    apply decode_string_length in Hk. pose proof (skip_space_length a).
    destruct (strip_prefix ":" (skip_space a)) as [b|] eqn:Hb; cbn [mbind option_bind]; [|done].
    apply strip_prefix_length in Hb. pose proof (skip_space_length b).
    rewrite (IHv f2 d (skip_space b)) by lia.
    destruct (decode_value f2 d (skip_space b)) as [[x t]|] eqn:Hx; cbn [mbind option_bind]; [|done].
    apply decode_value_length in Hx. pose proof (skip_space_length t). case_match; [done|].
    destruct (strip_prefix "," (skip_space t)) as [u|] eqn:Hq; cbn [mbind option_bind]; [|done].
    apply strip_prefix_length in Hq. pose proof (skip_space_length u).
    by rewrite (IHm f2 d (skip_space u)) by lia.
Qed.

Lemma decode_document_fuel f s :
  (text_fuel s ≤ f)%nat →
  decode_document s =
    ('(v, r) ← decode_value f maxNestingDepth (skip_space s);
     match skip_space r with EmptyString => Some v | String _ _ => None end).
Proof.
  intros Hf. unfold decode_document. pose proof (skip_space_length s). unfold text_fuel in *.
  by rewrite (proj1 (decode_fuel (S (2 * len s))) f _ (skip_space s)) by lia.
Qed.

(** The encoder of strings: a byte for each step. *)
Lemma encode_string_go_fuel f1 f2 s :
  (len s ≤ f1)%nat → (len s ≤ f2)%nat → encode_string_go f1 s = encode_string_go f2 s.
Proof.
  revert f2 s. induction f1 as [|f1 IH]; intros [|f2] [|c s] H1 H2; cbn [len] in *; try lia;
    cbn [encode_string_go]; try done.
  destruct (byte_of c <? 128); [f_equal; apply IH; lia|].
  destruct (Utf8.decode_rune (String c s)) as [[v t]|] eqn:Hd; f_equal; apply IH; try lia;
    apply Fmt.decode_rune_length in Hd; simpl in Hd; lia.
Qed.
