(* ===== verification/Floats.v ===== *)
(** * float64 (package strconv): the digits that are printed are read back

    The functions of [Json.Float] are compared with the real numbers they
    approximate: reading a number is rounding it, the decimal point is where
    it belongs, and among the shortest digits that read back as a float64
    some are found with seventeen digits at most. *)

From S2P Require Import Prelude GoStd GoErrors Json.
From Stdlib Require Import Reals Lra.
#[local] Open Scope Z_scope.

(** ** Powers, with exponents of either sign *)
Definition bp (b e : Z) : R := powerRZ (IZR b) e.

Section powers.
Context (b : Z) (Hb : 1 < b).

Lemma base_pos : (0 < IZR b)%R.
Proof. apply IZR_lt. lia. Qed.

Lemma bp_pos e : (0 < bp b e)%R.
Proof. apply powerRZ_lt, base_pos. Qed.

Lemma bp_add e e' : bp b (e + e') = (bp b e * bp b e')%R.
Proof. apply powerRZ_add. pose proof base_pos. lra. Qed.

Lemma bp_neg e : bp b (- e) = (/ bp b e)%R.
Proof. apply powerRZ_neg'. Qed.

Lemma bp_0 : bp b 0 = 1%R.
Proof. apply powerRZ_O. Qed.

Lemma bp_nonneg e : 0 ≤ e → bp b e = IZR (b ^ e).
Proof.
  intros He. rewrite <-(Z2Nat.id e He). rewrite <-pow_IZR. symmetry. apply pow_powerRZ.
Qed.

Lemma bp_succ e : bp b (e + 1) = (IZR b * bp b e)%R.
Proof. rewrite bp_add, (bp_nonneg 1), Z.pow_1_r by lia. lra. Qed.

Lemma bp_lt e e' : e < e' → (bp b e < bp b e')%R.
Proof.
  intros He. replace e' with (e + (e' - e)) by lia. rewrite bp_add, (bp_nonneg (e' - e)) by lia.
  assert (1 < IZR (b ^ (e' - e)))%R by (apply IZR_lt, Z.pow_gt_1; lia).
  pose proof (bp_pos e). nra.
Qed.

Lemma bp_le e e' : e ≤ e' → (bp b e <= bp b e')%R.
Proof. intros [?%bp_lt|<-]%Z.le_lteq; lra. Qed.

Lemma bp_lt_inv e e' : (bp b e < bp b e')%R → e < e'.
Proof. intros He. apply Z.nle_gt. intros ?%bp_le. lra. Qed.

(** The two integers the code computes for a power. *)
Lemma bp_split e : bp b e = (IZR (b ^ Z.max 0 e) / IZR (b ^ Z.max 0 (- e)))%R.
Proof.
  destruct (Z.le_ge_cases 0 e).
  - rewrite (Z.max_r 0 e), (Z.max_l 0 (- e)), Z.pow_0_r, <-bp_nonneg by lia. lra.
  - rewrite (Z.max_l 0 e), (Z.max_r 0 (- e)), Z.pow_0_r by lia.
    rewrite <-(bp_nonneg (- e)), bp_neg by lia. rewrite Rdiv_1_l, Rinv_inv. done.
Qed.

Lemma bp_scale e : (bp b e * IZR (b ^ Z.max 0 (- e)) = IZR (b ^ Z.max 0 e))%R.
Proof.
  rewrite bp_split. field. apply not_0_IZR, Z.pow_nonzero; lia.
Qed.
End powers.

Lemma pow_IZR_pos b e : 1 < b → (0 < IZR (b ^ Z.max 0 e))%R.
Proof. intros Hb. apply IZR_lt, Z.pow_pos_nonneg; lia. Qed.

Lemma two : 1 < 2. Proof. done. Qed.
Lemma ten : 1 < 10. Proof. done. Qed.
#[local] Hint Resolve two ten : core.

(** A fraction and its value. *)
Definition ratio (n d : Z) : R := (IZR n / IZR d)%R.

Lemma ratio_pos n d : 0 < n → 0 < d → (0 < ratio n d)%R.
Proof. intros ?%IZR_lt ?%IZR_lt. by apply Rdiv_lt_0_compat. Qed.

Lemma ratio_lt n d n' d' : 0 < d → 0 < d' → n * d' < n' * d ↔ (ratio n d < ratio n' d')%R.
Proof.
  intros Hd Hd'. apply IZR_lt in Hd as Hd1, Hd' as Hd1'.
  assert (ratio n d = (IZR (n * d') / (IZR d * IZR d'))%R) as ->
    by (unfold ratio; rewrite mult_IZR; field; lra).
  assert (ratio n' d' = (IZR (n' * d) / (IZR d * IZR d'))%R) as ->
    by (unfold ratio; rewrite mult_IZR; field; lra).
  assert (0 < IZR d * IZR d')%R as Hp by by apply Rmult_lt_0_compat.
  split.
  - intros ?%IZR_lt. apply Rmult_lt_compat_r; [by apply Rinv_0_lt_compat|done].
  - intros Hlt. apply lt_IZR. apply (Rmult_lt_reg_r (/ (IZR d * IZR d'))); [by apply Rinv_0_lt_compat|done].
Qed.

Lemma ratio_le n d n' d' : 0 < d → 0 < d' → n * d' ≤ n' * d ↔ (ratio n d <= ratio n' d')%R.
Proof.
  intros Hd Hd'. pose proof (ratio_lt n' d' n d Hd' Hd) as Hlt. split.
  - intros Hle. apply Rnot_lt_le. intros ?%Hlt. lia.
  - intros Hle. apply Z.nlt_ge. intros ?%Hlt. lra.
Qed.

(** Scaled by a power, as the code scales it. *)
Lemma ratio_scale b n d e : 1 < b → 0 < d →
  ratio (n * b ^ Z.max 0 (- e)) (d * b ^ Z.max 0 e) = (ratio n d * bp b (- e))%R.
Proof.
  intros Hb Hd. rewrite (bp_split b), Z.opp_involutive. unfold ratio. rewrite !mult_IZR.
  apply IZR_lt in Hd. pose proof (pow_IZR_pos b e Hb). pose proof (pow_IZR_pos b (- e) Hb).
  field. lra.
Qed.

(** The quotient and the remainder. *)
Lemma quotient a b :
  0 < b → (IZR (a / b) <= ratio a b < IZR (a / b) + 1)%R ∧
  (ratio a b - IZR (a / b))%R = (IZR (a mod b) / IZR b)%R.
Proof.
  intros Hb. pose proof (Z.div_mod a b). pose proof (Z.mod_pos_bound a b Hb) as [H1 H2].
  apply IZR_lt in Hb as Hb'. apply IZR_le in H1. apply IZR_lt in H2.
  assert (ratio a b - IZR (a / b) = IZR (a mod b) / IZR b)%R as He.
  { assert (IZR a = IZR b * IZR (a / b) + IZR (a mod b))%R as Ha
      by (rewrite <-mult_IZR, <-plus_IZR; f_equal; lia).
    unfold ratio. rewrite Ha. field. lra. }
  assert (0 <= IZR (a mod b) / IZR b)%R.
  { apply Rmult_le_pos; [done|]. left. by apply Rinv_0_lt_compat. }
  assert (IZR (a mod b) / IZR b < 1)%R.
  { apply (Rmult_lt_reg_r (IZR b)); [done|]. unfold Rdiv.
    rewrite Rmult_assoc, Rinv_l by lra. lra. }
  split; [lra|done].
Qed.

(** ** Reading: rounding to the nearest, ties to even *)

(** The exponent of a number: its mantissa has 53 bits, or less at the lower
    end of the range. *)
Definition binade (x : R) (e : Z) : Prop :=
  -1074 ≤ e ∧ (x < bp 2 (53 + e))%R ∧ (e = -1074 ∨ (bp 2 (52 + e) <= x)%R).

Definition rounds (y : R) (q : Z) : Prop :=
  (- / 2 < y - IZR q < / 2)%R ∨
  ((y - IZR q = / 2 ∨ y - IZR q = - / 2)%R ∧ Z.even q = true).

Lemma binade_unique x e e' : binade x e → binade x e' → e = e'.
Proof.
  assert (∀ e e', binade x e → binade x e' → e ≤ e') as Hle.
  { intros e1 e2 (_ & _ & H1) (He2 & H2 & _). destruct H1 as [->|H1]; [done|].
    assert (52 + e1 < 53 + e2); [|lia]. apply (bp_lt_inv 2 two). lra. }
  intros He He'. apply Z.le_antisymm; by apply Hle.
Qed.

Lemma rounds_unique y q q' : rounds y q → rounds y q' → q = q'.
Proof.
  intros Hq Hq'.
  assert (- 1 <= IZR q - IZR q' <= 1)%R as [H1 H2] by (destruct Hq, Hq'; lra).
  rewrite <-minus_IZR in H1, H2. apply le_IZR in H1, H2.
  assert (q = q' ∨ q = q' + 1 ∨ q' = q + 1) as [?|[->| ->]] by lia; [done|exfalso..].
  - unfold rounds in Hq. rewrite plus_IZR, Z.even_add in Hq.
    destruct Hq as [?|[? Hq]], Hq' as [?|[? Hq']]; [lra..|]. by rewrite Hq' in Hq.
  - unfold rounds in Hq'. rewrite plus_IZR, Z.even_add in Hq'.
    destruct Hq as [?|[? Hq]], Hq' as [?|[? Hq']]; [lra..|]. by rewrite Hq in Hq'.
Qed.

Lemma rounds_code a b :
  0 < b →
  rounds (ratio a b)
    (if (b <? 2 * (a mod b)) || ((b =? 2 * (a mod b)) && Z.odd (a / b))
     then a / b + 1 else a / b).
Proof.
  intros Hb. destruct (quotient a b Hb) as [Hq Hr]. apply IZR_lt in Hb as Hb'.
  assert (ratio a b - IZR (a / b) - / 2 =
          (IZR (2 * (a mod b)) - IZR b) / (2 * IZR b))%R as Hhalf.
  { rewrite Hr, mult_IZR. field. lra. }
  assert (0 < / (2 * IZR b))%R as Hinv by (apply Rinv_0_lt_compat; lra).
  unfold rounds. destruct (Z.ltb_spec b (2 * (a mod b))) as [Hlt|Hge]; simpl.
  - left. rewrite plus_IZR. apply IZR_lt in Hlt.
    assert (0 < ratio a b - IZR (a / b) - / 2)%R; [|lra].
    rewrite Hhalf. apply Rmult_lt_0_compat; lra.
  - destruct (Z.eqb_spec b (2 * (a mod b))) as [Heq|Hne]; simpl.
    + assert (ratio a b - IZR (a / b) - / 2 = 0)%R as Htie.
      { rewrite Hhalf, <-Heq. unfold Rdiv. lra. }
      rewrite <-Z.negb_even. destruct (Z.even (a / b)) eqn:He; simpl.
      * right. split; [lra|done].
      * right. split; [rewrite plus_IZR; lra|]. by rewrite Z.even_add, He.
    + left. assert (2 * (a mod b) < b) as Hlt%IZR_lt by lia.
      assert (ratio a b - IZR (a / b) - / 2 < 0)%R; [|lra].
      rewrite Hhalf. apply Rmult_neg_pos; lra.
Qed.

(** What is left to do with a rounded mantissa. *)
Definition finish (q e : Z) : option (Z * Z) :=
  let '(q, e) := if q =? 2 ^ 53 then (2 ^ 52, e + 1) else (q, e) in
  if q =? 0 then Some (0, 0) else if 971 <? e then None else Some (q, e).

(** The logarithms bound the fraction. *)
Lemma ratio_log2 n d :
  0 < n → 0 < d →
  (bp 2 (Z.log2 n - Z.log2 d - 1) < ratio n d < bp 2 (Z.log2 n - Z.log2 d + 1))%R.
Proof.
  intros Hn Hd.
  assert (∀ m, 0 < m → (bp 2 (Z.log2 m) <= IZR m < bp 2 (Z.log2 m + 1))%R) as Hlog.
  { intros m Hm. pose proof (Z.log2_nonneg m). pose proof (Z.log2_spec m Hm) as [H1 H2].
    rewrite !bp_nonneg by lia. split; [by apply IZR_le|by apply IZR_lt]. }
  destruct (Hlog n Hn) as [Hn1 Hn2], (Hlog d Hd) as [Hd1 Hd2]. apply IZR_lt in Hd as Hd'.
  replace (Z.log2 n - Z.log2 d - 1) with (Z.log2 n + - (Z.log2 d + 1)) by lia.
  replace (Z.log2 n - Z.log2 d + 1) with ((Z.log2 n + 1) + - Z.log2 d) by lia.
  rewrite (bp_add 2 two (Z.log2 n) (- (Z.log2 d + 1))).
  rewrite (bp_add 2 two (Z.log2 n + 1) (- Z.log2 d)), !bp_neg. pose proof (bp_pos 2 two) as Hp. unfold ratio, Rdiv. split.
  - apply Rlt_le_trans with (bp 2 (Z.log2 n) * / IZR d)%R.
    + apply Rmult_lt_compat_l; [done|]. apply Rinv_lt_contravar; [|done].
      by apply Rmult_lt_0_compat.
    + apply Rmult_le_compat_r; [by apply Rlt_le, Rinv_0_lt_compat|done].
  - apply Rlt_le_trans with (bp 2 (Z.log2 n + 1) * / IZR d)%R.
    + apply Rmult_lt_compat_r; [by apply Rinv_0_lt_compat|done].
    + apply Rmult_le_compat_l; [by apply Rlt_le|]. by apply Rinv_le_contravar.
Qed.

Lemma ratio_at n d e :
  0 < d → ratio (n * 2 ^ Z.max 0 (- e)) (d * 2 ^ Z.max 0 e) = (ratio n d * bp 2 (- e))%R.
Proof. by apply ratio_scale. Qed.

Lemma shift_lt x e k : (x < bp 2 (k + e) ↔ x * bp 2 (- e) < bp 2 k)%R.
Proof.
  rewrite (bp_add 2 two), bp_neg. pose proof (bp_pos 2 two e) as He. split; intros Hx.
  - apply (Rmult_lt_reg_r (bp 2 e)); [done|]. rewrite Rmult_assoc, Rinv_l by lra. lra.
  - apply (Rmult_lt_reg_r (/ bp 2 e)); [by apply Rinv_0_lt_compat|].
    rewrite (Rmult_assoc (bp 2 k)), Rinv_r by lra. lra.
Qed.

Lemma shift_le x e k : (bp 2 (k + e) <= x ↔ bp 2 k <= x * bp 2 (- e))%R.
Proof.
  pose proof (shift_lt x e k) as [H1 H2]. split; intros Hx; apply Rnot_lt_le; intros Hlt.
  - apply H2 in Hlt. lra.
  - apply H1 in Hlt. lra.
Qed.

Definition at_exp (n d e : Z) : Z * Z := (n * 2 ^ Z.max 0 (- e), d * 2 ^ Z.max 0 e).

Lemma at_exp_pos d e : 0 < d → 0 < d * 2 ^ Z.max 0 e.
Proof. intros Hd. apply Z.mul_pos_pos; [done|]. apply Z.pow_pos_nonneg; lia. Qed.

(** The exponent the code finds. *)
Lemma exponent_found n d :
  0 < n → 0 < d →
  let e1 := Z.max (Z.log2 n - Z.log2 d - 53) (-1074) in
  let '(a1, b1) := at_exp n d e1 in
  binade (ratio n d) (if 2 ^ 53 <=? a1 / b1 then e1 + 1 else e1).
Proof.
  intros Hn Hd. pose proof (ratio_log2 n d Hn Hd) as [Hlo Hhi].
  set (L := Z.log2 n - Z.log2 d) in *. set (x := ratio n d) in *.
  cbv zeta. set (e1 := Z.max (L - 53) (-1074)). unfold at_exp.
  set (b := d * 2 ^ Z.max 0 e1). pose proof (at_exp_pos d e1 Hd) as Hb. fold b in Hb.
  destruct (quotient (n * 2 ^ Z.max 0 (- e1)) b Hb) as [[Hq1 Hq2] _].
  unfold b in Hq1, Hq2. rewrite ratio_at in Hq1, Hq2 by done. fold b x in Hq1, Hq2.
  unfold binade. destruct (Z.leb_spec (2 ^ 53) (n * 2 ^ Z.max 0 (- e1) / b)) as [Hge|Hlt].
  - apply IZR_le in Hge. rewrite <-bp_nonneg in Hge by lia. split; [lia|]. split.
    + eapply Rlt_le_trans; [exact Hhi|]. apply bp_le; [done|lia].
    + right. replace (52 + (e1 + 1)) with (53 + e1) by lia. apply shift_le. lra.
  - assert (n * 2 ^ Z.max 0 (- e1) / b + 1 ≤ 2 ^ 53) as Hle%IZR_le by lia.
    rewrite plus_IZR, <-bp_nonneg in Hle by lia. split; [lia|]. split.
    + apply shift_lt. lra.
    + destruct (Z.max_spec (L - 53) (-1074)) as [[_ He]|[_ He]]; fold e1 in He; [by left|].
      right. rewrite He. eapply Rlt_le, Rle_lt_trans; [|exact Hlo].
      apply bp_le; [done|lia].
Qed.

(** Reading rounds the fraction in its binade. *)
Lemma nearest_spec n d :
  0 < n → 0 < d →
  ∃ q e, binade (ratio n d) e ∧ rounds (ratio n d * bp 2 (- e)) q ∧
    Float.nearest n d = finish q e.
Proof.
  intros Hn Hd. pose proof (exponent_found n d Hn Hd) as He. cbv zeta in He.
  unfold Float.nearest. rewrite (proj2 (Z.eqb_neq n 0)) by lia. cbv zeta.
  unfold at_exp in He.
  set (e1 := Z.max (Z.log2 n - Z.log2 d - 53) (-1074)) in *.
  set (e := if 2 ^ 53 <=? _ then e1 + 1 else e1) in *.
  pose proof (rounds_code (n * 2 ^ Z.max 0 (- e)) _ (at_exp_pos d e Hd)) as Hr.
  rewrite ratio_at in Hr by done. by do 2 eexists.
Qed.

Lemma nearest_det n d q e :
  0 < n → 0 < d → binade (ratio n d) e → rounds (ratio n d * bp 2 (- e)) q →
  Float.nearest n d = finish q e.
Proof.
  intros Hn Hd He Hq. destruct (nearest_spec n d Hn Hd) as (q' & e' & He' & Hq' & ->).
  rewrite (binade_unique _ _ _ He He') in *. by rewrite (rounds_unique _ _ _ Hq Hq').
Qed.

(** Only the value of the fraction matters. *)
Lemma nearest_ratio n d n' d' :
  0 < n → 0 < d → 0 < n' → 0 < d' → ratio n d = ratio n' d' →
  Float.nearest n d = Float.nearest n' d'.
Proof.
  intros Hn Hd Hn' Hd' Heq. destruct (nearest_spec n' d' Hn' Hd') as (q & e & He & Hq & ->).
  apply nearest_det; by rewrite ?Heq.
Qed.

(** ** The float64 values *)
Definition canonical_float (m e : Z) : bool :=
  (m =? 0) && (e =? 0) ||
  (0 <? m) && (m <? 2 ^ 53) && (-1074 <=? e) && (e <=? 971) && ((e =? -1074) || (2 ^ 52 <=? m)).

Lemma canonical_pos m e :
  canonical_float m e = true → m ≠ 0 →
  0 < m < 2 ^ 53 ∧ -1074 ≤ e ≤ 971 ∧ (e = -1074 ∨ 2 ^ 52 ≤ m).
Proof.
  unfold canonical_float. lia.
Qed.

Lemma canonical_intro m e :
  0 < m < 2 ^ 53 → -1074 ≤ e ≤ 971 → (e = -1074 ∨ 2 ^ 52 ≤ m) → canonical_float m e = true.
Proof.
  unfold canonical_float. lia.
Qed.

Lemma bp_52 : bp 2 52 = IZR (2 ^ 52). Proof. by apply bp_nonneg. Qed.
Lemma bp_53 : bp 2 53 = IZR (2 ^ 53). Proof. by apply bp_nonneg. Qed.

(** Reading gives float64 values. *)
Lemma nearest_canonical n d q e :
  0 ≤ n → 0 < d → Float.nearest n d = Some (q, e) → canonical_float q e = true.
Proof.
  intros Hn Hd. destruct (decide (n = 0)) as [->|Hn0]; [by intros [= <- <-]|].
  destruct (nearest_spec n d) as (q' & e' & (He & Hhi & Hlo) & Hq & ->); [lia|done|].
  apply shift_lt in Hhi. set (y := (ratio n d * bp 2 (- e'))%R) in *.
  assert (0 < y)%R as Hy by (apply Rmult_lt_0_compat; [apply ratio_pos; lia|by apply bp_pos]).
  rewrite bp_53 in Hhi.
  assert (y - / 2 <= IZR q' <= y + / 2)%R as [H1 H2] by (destruct Hq; lra).
  assert (-1 < q') as H3 by (apply lt_IZR; lra).
  assert (q' < 2 ^ 53 + 1) as H4 by (apply lt_IZR; rewrite plus_IZR; lra).
  assert (e' = -1074 ∨ 2 ^ 52 - 1 < q') as H5.
  { destruct Hlo as [?|Hlo%shift_le]; [by left|right]. fold y in Hlo. rewrite bp_52 in Hlo.
    apply lt_IZR. rewrite minus_IZR. lra. }
  unfold finish. destruct (Z.eqb_spec q' (2 ^ 53)) as [->|Hne].
  - destruct (Z.ltb_spec 971 (e' + 1)); [done|]. intros [= <- <-].
    apply canonical_intro; lia.
  - destruct (Z.eqb_spec q' 0) as [->|?]; [by intros [= <- <-]|].
    destruct (Z.ltb_spec 971 e'); [done|]. intros [= <- <-]. apply canonical_intro; lia.
Qed.

(** What is near enough to a float64 is read as it: half way to the next one
    above, and half way to the one below, which is nearer below a power of
    two. *)
Lemma nearest_back n d m e :
  0 < n → 0 < d → canonical_float m e = true → m ≠ 0 →
  let y := (ratio n d * bp 2 (- e))%R in
  (IZR m - / 2 < y < IZR m + / 2)%R →
  (m = 2 ^ 52 → (IZR m - / 4 < y)%R) →
  Float.nearest n d = Some (m, e).
Proof.
  intros Hn Hd Hc Hm y [H1 H2] H3.
  destruct (canonical_pos m e Hc Hm) as ([Hm1 Hm2] & [He1 He2] & Hlow).
  assert (IZR m <= IZR (2 ^ 53) - 1)%R as Hm3
    by (rewrite <-minus_IZR; apply IZR_le; lia).
  destruct (Rle_lt_dec (bp 2 52) y) as [Hy|Hy].
  2: destruct (decide (e = -1074)) as [He|He].
  1-2: rewrite (nearest_det n d m e); [|done..| |].
  1,4: unfold finish; rewrite (proj2 (Z.eqb_neq m (2 ^ 53))), (proj2 (Z.eqb_neq m 0)) by lia;
    by rewrite (proj2 (Z.ltb_ge 971 e)) by lia.
  1,3: split; [done|split; [apply shift_lt; rewrite bp_53; fold y; lra|]];
    first [by left|right; by apply shift_le].
  1-2: left; fold y; lra.
  (* just below a power of two *)
  rewrite bp_52 in Hy.
  assert (m = 2 ^ 52) as Hpow.
  { destruct Hlow as [?|Hlow]; [done|]. apply Z.le_antisymm; [|done].
    assert (m < 2 ^ 52 + 1); [|lia]. apply lt_IZR. rewrite plus_IZR. lra. }
  specialize (H3 Hpow).
  assert (ratio n d * bp 2 (- (e - 1)) = 2 * y)%R as Hy2.
  { replace (- (e - 1)) with (- e + 1) by lia. rewrite bp_succ by done. unfold y. lra. }
  assert (IZR (2 ^ 53) = 2 * IZR (2 ^ 52))%R as H53 by (rewrite <-mult_IZR; done).
  rewrite Hpow in H3. rewrite (nearest_det n d (2 ^ 53) (e - 1)); [|done..| |].
  - unfold finish. rewrite Z.eqb_refl, Hpow, (proj2 (Z.ltb_ge 971 (e - 1 + 1))) by lia.
    simpl. f_equal. f_equal. lia.
  - split; [lia|split].
    + apply shift_lt. rewrite Hy2, bp_53. lra.
    + right. apply shift_le. rewrite Hy2, bp_52.
      assert (1 < IZR (2 ^ 52))%R by (apply IZR_lt; done). lra.
  - left. rewrite Hy2. lra.
Qed.

(** ** The decimal point *)
Lemma bp_ratio b e : bp b e = ratio (b ^ Z.max 0 e) (b ^ Z.max 0 (- e)).
Proof. apply bp_split. Qed.

Lemma pow_max_pos b e : 1 < b → 0 < b ^ Z.max 0 e.
Proof. intros. apply Z.pow_pos_nonneg; lia. Qed.
#[local] Hint Resolve pow_max_pos : core.

Lemma bp_le_ratio b e n d : 1 < b → 0 < d →
  b ^ Z.max 0 e * d ≤ n * b ^ Z.max 0 (- e) ↔ (bp b e <= ratio n d)%R.
Proof. intros. rewrite bp_ratio. apply ratio_le; auto. Qed.

Lemma bp_gt_ratio b e n d : 1 < b → 0 < d →
  n * b ^ Z.max 0 (- e) < b ^ Z.max 0 e * d ↔ (ratio n d < bp b e)%R.
Proof. intros. rewrite bp_ratio. apply ratio_lt; auto. Qed.

(** The number has [k] digits before the point. *)
Definition point_at (x : R) (k : Z) : Prop := (bp 10 (k - 1) <= x < bp 10 k)%R.

Lemma adjust_ok fuel n d k k' :
  0 < d → point_at (ratio n d) k' → Z.abs (k - k') ≤ Z.of_nat fuel →
  Float.adjust fuel n d k = k'.
Proof.
  intros Hd [Hlo Hhi]. revert k. induction fuel as [|fuel IH]; intros k Hk; [simpl; lia|].
  cbn [Float.adjust]. destruct (Z.leb_spec (10 ^ Z.max 0 k * d) (n * 10 ^ Z.max 0 (- k))) as [H1|H1].
  - apply bp_le_ratio in H1; [|done..].
    assert (k < k') by (apply (bp_lt_inv 10 ten); lra). apply IH. lia.
  - apply bp_gt_ratio in H1; [|done..].
    assert (k' - 1 < k) by (apply (bp_lt_inv 10 ten); lra).
    destruct (Z.ltb_spec (n * 10 ^ Z.max 0 (- (k - 1))) (10 ^ Z.max 0 (k - 1) * d)) as [H2|H2].
    + apply bp_gt_ratio in H2; [|done..].
      assert (k' - 1 < k - 1) by (apply (bp_lt_inv 10 ten); lra). apply IH. lia.
    + apply bp_le_ratio in H2; [|done..].
      assert (k - 1 < k') by (apply (bp_lt_inv 10 ten); lra). lia.
Qed.

(** The estimate from the binary logarithm is off by one at most, over the
    range of float64. *)
Definition estimate (l : Z) : Z := l * 30103 / 100000 + 1.

(** log 2 is between 59/196 and 28/93, in decimal. *)
Lemma pow10_le_pow2 j i : 0 ≤ j → 196 * j ≤ 59 * i → 10 ^ j ≤ 2 ^ i.
Proof.
  intros Hj Hi. apply (Z.pow_le_mono_l_iff _ _ 59); [by apply Z.pow_nonneg..|done|].
  rewrite <-!Z.pow_mul_r, (Z.mul_comm j), (Z.mul_comm i), (Z.pow_mul_r 10) by lia.
  trans ((2 ^ 196) ^ j).
  - apply Z.pow_le_mono_l. split; [lia|]. by vm_compute.
  - rewrite <-Z.pow_mul_r by lia. apply Z.pow_le_mono_r; lia.
Qed.

Lemma pow2_le_pow10 i j : 0 ≤ i → 28 * i ≤ 93 * j → 2 ^ i ≤ 10 ^ j.
Proof.
  intros Hi Hj. apply (Z.pow_le_mono_l_iff _ _ 93); [by apply Z.pow_nonneg..|done|].
  rewrite <-!Z.pow_mul_r, (Z.mul_comm i), (Z.mul_comm j), (Z.pow_mul_r 2) by lia.
  trans ((10 ^ 28) ^ i).
  - apply Z.pow_le_mono_l. split; [lia|]. by vm_compute.
  - rewrite <-Z.pow_mul_r by lia. apply Z.pow_le_mono_r; lia.
Qed.

Lemma bp10_le_bp2 j i : 196 * j ≤ 59 * i → 28 * - i ≤ 93 * - j → (bp 10 j <= bp 2 i)%R.
Proof.
  intros H1 H2. destruct (Z.le_ge_cases 0 j).
  - rewrite !bp_nonneg by lia. apply IZR_le, pow10_le_pow2; lia.
  - destruct (Z.le_ge_cases 0 i).
    { trans (bp 10 0); [by apply bp_le|]. rewrite bp_0, <-(bp_0 2). by apply bp_le. }
    rewrite <-(Z.opp_involutive i), <-(Z.opp_involutive j), (bp_neg 2), (bp_neg 10).
    apply Rinv_le_contravar; [by apply bp_pos|]. rewrite !bp_nonneg by lia.
    apply IZR_le, pow2_le_pow10; lia.
Qed.

Lemma bp2_le_bp10 i j : 28 * i ≤ 93 * j → 196 * - j ≤ 59 * - i → (bp 2 i <= bp 10 j)%R.
Proof.
  intros H1 H2. assert (bp 10 (- j) <= bp 2 (- i))%R as Hle by (apply bp10_le_bp2; lia).
  apply Rinv_le_contravar in Hle; [|by apply bp_pos].
  by rewrite <-!bp_neg, !Z.opp_involutive in Hle.
Qed.

Lemma estimate_bounds l :
  -1074 ≤ l ≤ 1023 →
  (bp 10 (estimate l - 2) <= bp 2 (l - 1) ∧ bp 2 (l + 1) <= bp 10 (estimate l + 1))%R.
Proof.
  unfold estimate. intros Hl. pose proof (Z.div_mod (l * 30103) 100000 ltac:(done)).
  pose proof (Z.mod_pos_bound (l * 30103) 100000 ltac:(done)).
  split; [apply bp10_le_bp2|apply bp2_le_bp10]; lia.
Qed.

Lemma point_ok n d :
  0 < n → 0 < d → -1074 ≤ Z.log2 n - Z.log2 d ≤ 1023 → point_at (ratio n d) (Float.point n d).
Proof.
  intros Hn Hd Hl. destruct (ratio_log2 n d Hn Hd) as [Hlo Hhi].
  destruct (estimate_bounds _ Hl) as [H1 H2].
  set (k := estimate (Z.log2 n - Z.log2 d)) in *.
  assert (∃ k', point_at (ratio n d) k' ∧ Z.abs (k - k') ≤ Z.of_nat 4) as (k' & Hk' & Habs).
  { destruct (Rlt_le_dec (ratio n d) (bp 10 (k - 1))) as [?|?];
      [exists (k - 1); unfold point_at; replace (k - 1 - 1) with (k - 2) by lia; split; [lra|lia]|].
    destruct (Rlt_le_dec (ratio n d) (bp 10 k)) as [?|?]; [exists k; split; [done|lia]|].
    exists (k + 1). unfold point_at. replace (k + 1 - 1) with k by lia. split; [lra|lia]. }
  unfold Float.point. change (_ * 30103 / 100000 + 1) with k. by rewrite (adjust_ok 4 _ _ _ k').
Qed.

(** ** Float64 values as fractions *)
Lemma frac_ratio m e n d : Float.frac m e = (n, d) → ratio n d = (IZR m * bp 2 e)%R.
Proof.
  intros [= <- <-]. rewrite bp_ratio. unfold ratio. rewrite mult_IZR. unfold Rdiv. lra.
Qed.

Lemma frac_pos m e n d : 0 < m → Float.frac m e = (n, d) → 0 < n ∧ 0 < d.
Proof. intros Hm [= <- <-]. split; [apply Z.mul_pos_pos|]; auto. Qed.

Lemma frac_log2 m e n d :
  0 < m → Float.frac m e = (n, d) → Z.log2 n - Z.log2 d = Z.log2 m + e.
Proof.
  intros Hm [= <- <-]. rewrite Z.log2_mul_pow2, Z.log2_pow2 by lia. lia.
Qed.

Lemma float_point m e n d :
  canonical_float m e = true → m ≠ 0 → Float.frac m e = (n, d) →
  point_at (IZR m * bp 2 e)%R (Float.point n d).
Proof.
  intros Hc Hm Hf. destruct (canonical_pos m e Hc Hm) as (Hm' & He & _).
  rewrite <-(frac_ratio m e n d Hf). destruct (frac_pos m e n d) as [Hn Hd]; [lia|done|].
  apply point_ok; [done..|]. rewrite (frac_log2 m e n d) by (done || lia).
  pose proof (Z.log2_nonneg m). assert (Z.log2 m < 53) by (apply Z.log2_lt_pow2; lia). lia.
Qed.

(** ** The shortest digits *)
Section shortest.
Context (m e : Z) (Hc : canonical_float m e = true) (Hm : m ≠ 0).
Let v : R := (IZR m * bp 2 e)%R.

(** The digits [x], with the point [k - p] places behind them, are read back. *)
Definition reads (x p k : Z) : Prop :=
  Float.nearest (x * 10 ^ Z.max 0 (- (p - k))) (10 ^ Z.max 0 (p - k)) = Some (m, e).

(** [x] has [p] digits and reads back. *)
Definition digits_ok (x p k : Z) : Prop := 0 < p ∧ 10 ^ (p - 1) ≤ x < 10 ^ p ∧ reads x p k.

Lemma decimal_ratio x p k :
  ratio (x * 10 ^ Z.max 0 (- (p - k))) (10 ^ Z.max 0 (p - k)) = (IZR x * bp 10 (k - p))%R.
Proof.
  replace (k - p) with (- (p - k)) by lia. rewrite (bp_ratio 10), Z.opp_involutive.
  unfold ratio. rewrite mult_IZR. unfold Rdiv. lra.
Qed.

Lemma v_pos : (0 < v)%R.
Proof.
  destruct (canonical_pos m e Hc Hm) as ([?%IZR_lt _] & _).
  apply Rmult_lt_0_compat; [done|by apply bp_pos].
Qed.

(** Seventeen digits are enough: the decimal next to the number is nearer to
    it than any other float64. *)
Lemma seventeen_near x k :
  point_at v k → (- / 2 <= IZR x - v * bp 10 (17 - k) <= / 2)%R →
  let w := (IZR m * (/ 2 * / IZR (10 ^ 16)))%R in
  (- w <= IZR x * bp 10 (k - 17) * bp 2 (- e) - IZR m <= w)%R.
Proof.
  intros [Hk _] Hnear w. pose proof v_pos as Hv.
  set (t := (IZR x - v * bp 10 (17 - k))%R) in *.
  set (s := (bp 10 (k - 17) * bp 2 (- e))%R).
  assert (0 < s)%R as Hs by (apply Rmult_lt_0_compat; by apply bp_pos).
  assert (bp 10 (k - 17) * bp 10 (17 - k) = 1)%R as H10
    by (rewrite <-bp_add by done; replace (k - 17 + (17 - k)) with 0 by lia; apply bp_0).
  assert (bp 2 e * bp 2 (- e) = 1)%R as H2
    by (rewrite <-bp_add by done; replace (e + - e) with 0 by lia; apply bp_0).
  assert (IZR x * bp 10 (k - 17) * bp 2 (- e) - IZR m = t * s)%R as ->.
  { unfold t, s, v. transitivity (IZR x * bp 10 (k - 17) * bp 2 (- e) -
      IZR m * (bp 2 e * bp 2 (- e)) * (bp 10 (k - 17) * bp 10 (17 - k)))%R;
      [rewrite H10, H2|]; ring. }
  assert (s <= IZR m * / IZR (10 ^ 16))%R as Hsm.
  { assert (bp 10 (k - 17) = bp 10 (k - 1) * / IZR (10 ^ 16))%R as H17.
    { replace (k - 17) with (k - 1 + - (16)) by lia.
      by rewrite (bp_add 10), bp_neg, (bp_nonneg 10 16). }
    unfold s. rewrite H17.
    transitivity (v * / IZR (10 ^ 16) * bp 2 (- e))%R.
    - apply Rmult_le_compat_r; [by apply Rlt_le, bp_pos|].
      apply Rmult_le_compat_r; [|done]. apply Rlt_le, Rinv_0_lt_compat, IZR_lt. done.
    - unfold v. right. transitivity (IZR m * / IZR (10 ^ 16) * (bp 2 e * bp 2 (- e)))%R;
        [ring|rewrite H2; ring]. }
  unfold w. nra.
Qed.

Lemma seventeen_read x k :
  0 < x → point_at v k → (- / 2 <= IZR x - v * bp 10 (17 - k) <= / 2)%R → reads x 17 k.
Proof.
  intros Hx Hk Hnear. destruct (canonical_pos m e Hc Hm) as ([Hm0 Hm1] & _ & _).
  assert (IZR m <= IZR (2 ^ 53 - 1))%R as Hm1' by (apply IZR_le; lia).
  pose proof (seventeen_near x k Hk Hnear) as Hy. cbv zeta in Hy.
  change (10 ^ 16) with 10000000000000000 in Hy.
  change (2 ^ 53 - 1) with 9007199254740991 in Hm1'.
  apply nearest_back; [apply Z.mul_pos_pos; auto|auto|done|done|..]; rewrite decimal_ratio.
  - lra.
  - intros ->. change (2 ^ 52) with 4503599627370496 in *. lra.
Qed.

(** *** The search *)
Lemma scaled_v n d s :
  Float.frac m e = (n, d) →
  ratio (n * 10 ^ Z.max 0 s) (d * 10 ^ Z.max 0 (- s)) = (v * bp 10 s)%R.
Proof.
  intros Hf. assert (0 < m) by (destruct (canonical_pos m e Hc Hm); lia).
  destruct (frac_pos m e n d) as [_ Hd]; [done|done|].
  pose proof (ratio_scale 10 n d (- s) ten Hd) as Hr. rewrite Z.opp_involutive in Hr.
  rewrite Hr. unfold v. by rewrite (frac_ratio m e n d).
Qed.

(** The integers around the scaled number. *)
Lemma around n d p k :
  Float.frac m e = (n, d) → point_at v k → 0 < p →
  let down := n * 10 ^ Z.max 0 (p - k) / (d * 10 ^ Z.max 0 (- (p - k))) in
  10 ^ (p - 1) ≤ down < 10 ^ p ∧ (IZR down <= v * bp 10 (p - k) < IZR down + 1)%R.
Proof.
  intros Hf [Hlo Hhi] Hp down. assert (0 < m) by (destruct (canonical_pos m e Hc Hm); lia).
  destruct (frac_pos m e n d) as [_ Hd]; [done|done|].
  destruct (quotient (n * 10 ^ Z.max 0 (p - k)) (d * 10 ^ Z.max 0 (- (p - k)))) as [Hq _];
    [apply Z.mul_pos_pos; auto|]. fold down in Hq. rewrite (scaled_v n d) in Hq by done.
  pose proof (bp_pos 10 ten (p - k)) as Hs.
  assert (bp 10 (p - 1) <= v * bp 10 (p - k))%R as H1.
  { replace (p - 1) with (k - 1 + (p - k)) by lia. rewrite (bp_add 10) by done.
    apply Rmult_le_compat_r; lra. }
  assert (v * bp 10 (p - k) < bp 10 p)%R as H2.
  { replace p with (k + (p - k)) at 2 by lia. rewrite (bp_add 10) by done.
    by apply Rmult_lt_compat_r. }
  rewrite (bp_nonneg 10 (p - 1)) in H1 by lia. rewrite (bp_nonneg 10 p) in H2 by lia.
  split; [|done]. split.
  - assert (10 ^ (p - 1) < down + 1); [|lia]. apply lt_IZR. rewrite plus_IZR. lra.
  - apply lt_IZR. lra.
Qed.

(** Digits that carry over to the next power of ten. *)
Lemma carried_ok p k : 0 < p → reads (10 ^ p) p k → digits_ok 1 1 (k + 1).
Proof.
  intros Hp Hr. split; [done|split; [done|]]. unfold reads in *. rewrite <-Hr.
  apply nearest_ratio; [apply Z.mul_pos_pos; auto|auto|apply Z.mul_pos_pos; auto|auto|].
  { apply Z.pow_pos_nonneg; lia. }
  rewrite !decimal_ratio, <-bp_nonneg, <-(bp_add 10) by (done || lia).
  replace (p + (k - p)) with k by lia. replace (k + 1 - 1) with k by lia. lra.
Qed.

Lemma shortest_from_ok fuel p k :
  (1 ≤ fuel)%nat → 0 < p → p + Z.of_nat fuel = 18 → point_at v k →
  let '(x, p', k') := Float.shortest_from fuel p m e k in digits_ok x p' k'.
Proof.
  intros Hfuel Hp Hsum Hk. revert p Hfuel Hp Hsum.
  induction fuel as [|fuel IH]; intros p Hfuel Hp Hsum; [lia|]. cbn [Float.shortest_from].
  destruct (Float.frac m e) as [n d] eqn:Hf.
  destruct (around n d p k Hf Hk Hp) as [Hdown Hy]. cbv zeta in *.
  set (down := n * 10 ^ Z.max 0 (p - k) / (d * 10 ^ Z.max 0 (- (p - k)))) in *.
  set (near := (_ <? _) || _). fold (reads down p k) (reads (down + 1) p k).
  set (pick := if bool_decide (reads down p k) then _ else _).
  assert (∀ x, pick = Some x → reads x p k ∧ 10 ^ (p - 1) ≤ x ≤ 10 ^ p) as Hpick.
  { intros x. unfold pick. repeat case_bool_decide; repeat case_match; intros [= <-]; split; done || lia. }
  destruct pick as [x|] eqn:Hx.
  - destruct (Hpick x eq_refl) as [Hr Hb]. destruct (Z.eqb_spec x (10 ^ p)) as [->|Hne].
    + by apply carried_ok with p.
    + split; [done|]. split; [lia|done].
  - assert (p ≠ 17) as Hp17; [|apply IH; lia]. intros ->.
    assert (¬ reads down 17 k ∧ ¬ reads (down + 1) 17 k) as [Hn1 Hn2].
    { unfold pick in Hx. repeat case_bool_decide; by repeat case_match. }
    assert (0 < down) by lia.
    destruct (Rle_lt_dec (v * bp 10 (17 - k) - IZR down) (/ 2)).
    + apply Hn1, seventeen_read; [done..|lra].
    + apply Hn2, seventeen_read; [lia|done|rewrite plus_IZR; lra].
Qed.

(** What is found are digits of the number that read back. *)
Lemma shortest_ok :
  let '(x, p, k) := Float.shortest m e in digits_ok x p k.
Proof.
  unfold Float.shortest. destruct (Float.frac m e) as [n d] eqn:Hf.
  apply shortest_from_ok; [lia|done|done|]. by apply float_point.
Qed.
End shortest.
