(* ===== verification/JsonText.v ===== *)
(** * JSON text: what the encoder prints, the decoder reads

    The encoder and the decoder of [Json] are inverse to each other: a value
    that is printed is read back as the same tree, strings with their invalid
    UTF-8 replaced.  The other direction is a typing of what the decoder
    builds: strings are valid UTF-8, objects are sorted by key without
    duplicates, and the nesting is bounded. *)

From S2P Require Import Prelude GoStd GoErrors Json.
From Stdlib Require Import Ascii.

(** ** Valid UTF-8 *)

(** The encoding of one rune: it is decoded as itself whatever follows. *)
Definition is_rune (r : string) : Prop := ∀ t, Utf8.decode_rune (r +:+ t) = Some (r, t).

Inductive utf8 : string → Prop :=
  | utf8_nil : utf8 ""
  | utf8_rune r s : is_rune r → utf8 s → utf8 (r +:+ s).

Lemma conts_split n s a r :
  Utf8.conts n s = Some (a, r) → s = a +:+ r ∧ ∀ t, Utf8.conts n (a +:+ t) = Some (a, t).
Proof.
  revert s a. induction n as [|n IH]; intros s a; simpl; [by intros [= <- <-]|].
  destruct s as [|c s]; [done|]. destruct (in_range _ _ _) eqn:Hc; [|done].
  destruct (Utf8.conts n s) as [[a' r']|] eqn:Hs; simpl; [|done]. intros [= <- <-].
  apply IH in Hs as [-> Hall]. split; [done|]. intros t. rewrite append_cons, Hc, Hall. done.
Qed.

Lemma decode_rune_split s r t : Utf8.decode_rune s = Some (r, t) → s = r +:+ t ∧ is_rune r.
Proof.
  destruct s as [|c s]; [done|]. unfold is_rune. cbn [Utf8.decode_rune].
  destruct (byte_of c <? 0x80) eqn:Hc.
  { intros [= <- <-]. split; [done|]. intros u. rewrite append_cons, append_nil_l. simpl. by rewrite Hc. }
  destruct (Utf8.first_byte (byte_of c)) as [[[lo hi] n]|] eqn:Hf; simpl; [|done].
  destruct s as [|d s]; [done|]. destruct (in_range lo hi _) eqn:Hd; [|done].
  destruct (Utf8.conts _ s) as [[a r']|] eqn:Ha; simpl; [|done]. intros [= <- <-].
  apply conts_split in Ha as [-> Hall]. split; [done|]. intros u.
  rewrite !append_cons. cbn [Utf8.decode_rune]. rewrite Hc, Hf. simpl. rewrite Hd, Hall. done.
Qed.

Lemma rune_nonempty r : is_rune r → ∃ c s, r = String c s.
Proof. intros Hr. specialize (Hr ""). destruct r as [|c s]; [done|eauto]. Qed.

Lemma ascii_rune c : (byte_of c <? 128) = true → is_rune (String c "").
Proof. intros Hc t. rewrite append_cons. simpl. by rewrite Hc. Qed.

Lemma rune_error_rune : is_rune Utf8.rune_error.
Proof. intros t. reflexivity. Qed.

Lemma utf8_app s t : utf8 s → utf8 t → utf8 (s +:+ t).
Proof. induction 1 as [|r s Hr Hs IH]; intros Ht; [done|]. rewrite append_assoc. constructor; auto. Qed.

Lemma utf8_one r : is_rune r → utf8 r.
Proof. intros Hr. rewrite <-(append_nil_r r). by repeat constructor. Qed.

(** A string with every byte that starts no rune replaced by U+FFFD. *)
Fixpoint coerce_go (fuel : nat) (s : string) : string :=
  match fuel with
  | O => ""
  | S fuel =>
      match s with
      | EmptyString => ""
      | String c r =>
          match Utf8.decode_rune s with
          | Some (rune, rest) => rune +:+ coerce_go fuel rest
          | None => Utf8.rune_error +:+ coerce_go fuel r
          end
      end
  end.
Definition coerce_utf8 (s : string) : string := coerce_go (String.length s) s.

Lemma coerce_go_utf8 f s : utf8 (coerce_go f s).
Proof.
  revert s. induction f as [|f IH]; intros [|c s]; cbn [coerce_go]; [constructor..|].
  destruct (Utf8.decode_rune (String c s)) as [[r t]|] eqn:Hd.
  - apply decode_rune_split in Hd as [_ Hr]. by constructor.
  - constructor; [apply rune_error_rune|done].
Qed.

Lemma coerce_go_id f s : utf8 s → (len s ≤ f)%nat → coerce_go f s = s.
Proof.
  revert s. induction f as [|f IH]; intros s Hs Hf.
  - destruct s; [done|simpl in Hf; lia].
  - destruct Hs as [|r s Hr Hs]; [done|]. destruct (rune_nonempty r Hr) as (c & r' & ->).
    rewrite length_append in Hf. rewrite append_cons at 1. cbn [coerce_go].
    rewrite <-append_cons, Hr, IH by (done || (simpl in Hf; lia)). done.
Qed.

(** Valid strings are the ones that stay as they are. *)
Lemma coerce_utf8_id s : coerce_utf8 s = s ↔ utf8 s.
Proof.
  split; [intros <-; apply coerce_go_utf8|]. intros Hs. by apply coerce_go_id.
Qed.

#[global] Instance utf8_dec s : Decision (utf8 s).
Proof. refine (cast_if (decide (coerce_utf8 s = s))); by rewrite <-coerce_utf8_id. Defined.

Lemma utf8_ascii s : (∀ c, char_in c s = true → (byte_of c <? 128) = true) → utf8 s.
Proof.
  induction s as [|c s IH]; intros Hs; [constructor|].
  change (String c s) with (String c "" +:+ s). constructor.
  - apply ascii_rune, Hs. simpl. by rewrite Ascii.eqb_refl.
  - apply IH. intros d Hd. apply Hs. simpl. by rewrite Hd, orb_true_r.
Qed.

(** ** String literals *)

(** A byte is printed as it is, or as an escape that stands for it. *)
Lemma encode_byte_cases c :
  (byte_of c <? 128) = true →
  (encode_byte c = String c "" ∧
     (byte_of c =? 34) = false ∧ (byte_of c =? 92) = false ∧ (byte_of c <? 32) = false) ∨
  (∃ e, encode_byte c = String "\"%char e ∧ ∀ t, unescape (e +:+ t) = Some (String c "", t)).
Proof.
  destruct c as [[] [] [] [] [] [] [] []]; intros Hc; try discriminate Hc; clear Hc;
    first [left; split_and!; vm_compute; reflexivity
          |right; eexists; split; [vm_compute; reflexivity|intros t; vm_compute; reflexivity]].
Qed.

Lemma decode_encode_byte c t f :
  (byte_of c <? 128) = true →
  decode_string_go (S f) (encode_byte c +:+ t) =
    ('(x, r) ← decode_string_go f t; Some (String c x, r)).
Proof.
  intros Hc. destruct (encode_byte_cases c Hc) as [(-> & H1 & H2 & H3)|(e & -> & He)].
  - rewrite append_cons, append_nil_l. cbn [decode_string_go]. by rewrite H1, H2, H3, Hc.
  - rewrite append_cons. cbn [decode_string_go]. rewrite He. done.
Qed.

(** A rune of several bytes. *)
Lemma decode_rune_step r t f :
  is_rune r → ¬ (∃ c, r = String c "") →
  decode_string_go (S f) (r +:+ t) =
    ('(x, u) ← decode_string_go f t; Some (r +:+ x, u)).
Proof.
  intros Hr Hlong. destruct (rune_nonempty r Hr) as (c & r' & ->).
  pose proof (Hr t) as Ht. rewrite append_cons in *. cbn [decode_string_go].
  assert ((byte_of c <? 128) = false) as Hc.
  { destruct (byte_of c <? 128) eqn:E; [|done]. destruct Hlong. exists c.
    specialize (Hr ""). rewrite append_nil_r in Hr. simpl in Hr. rewrite E in Hr.
    by injection Hr as <-. }
  assert ((byte_of c =? 34) = false ∧ (byte_of c =? 92) = false ∧ (byte_of c <? 32) = false)
    as (-> & -> & ->) by lia.
  rewrite Hc, Ht. done.
Qed.

Lemma list_ascii_inj s t :
  String.list_ascii_of_string s = String.list_ascii_of_string t → s = t.
Proof.
  intros H. rewrite <-(String.string_of_list_ascii_of_string s), H.
  apply String.string_of_list_ascii_of_string.
Qed.

Lemma bytes_inj s t :
  map byte_of (String.list_ascii_of_string s) = map byte_of (String.list_ascii_of_string t) → s = t.
Proof.
  intros H. apply list_ascii_inj. revert H. generalize (String.list_ascii_of_string s).
  generalize (String.list_ascii_of_string t). intros l1 l2. revert l1.
  induction l2 as [|a l2 IH]; intros [|b l1]; try done. simpl.
  intros [= ->%byte_of_inj H]. f_equal. auto.
Qed.

Lemma decode_encode_rune r t f :
  is_rune r → ¬ (∃ c, r = String c "") →
  decode_string_go (S f) (encode_rune r +:+ t) =
    ('(x, u) ← decode_string_go f t; Some (r +:+ x, u)).
Proof.
  intros Hr Hlong. unfold encode_rune. case_bool_decide as H1; [|case_bool_decide as H2].
  - assert (r = encode_utf8 0x2028) as -> by (apply bytes_inj; rewrite H1; reflexivity). reflexivity.
  - assert (r = encode_utf8 0x2029) as -> by (apply bytes_inj; rewrite H2; reflexivity). reflexivity.
  - by apply decode_rune_step.
Qed.

Lemma decode_encode_error t f :
  decode_string_go (S f) ("\ufffd" +:+ t) =
    ('(x, u) ← decode_string_go f t; Some (Utf8.rune_error +:+ x, u)).
Proof. reflexivity. Qed.

Lemma rune_long c s r t :
  (byte_of c <? 128) = false → Utf8.decode_rune (String c s) = Some (r, t) →
  ¬ (∃ c', r = String c' "").
Proof.
  intros Hc [Hs Hr]%decode_rune_split [c' ->]. rewrite append_cons in Hs. injection Hs as <- _.
  specialize (Hr ""). rewrite append_nil_r in Hr. simpl in Hr. rewrite Hc in Hr.
  by destruct (Utf8.first_byte (byte_of c)) as [[[lo hi] n]|].
Qed.

Lemma decode_encode_string_go n s rest F :
  (len s ≤ n)%nat → (len (encode_string_go n s +:+ String (chr 34) rest) < F)%nat →
  decode_string_go F (encode_string_go n s +:+ String (chr 34) rest) =
    Some (coerce_go n s, rest).
Proof.
  revert s F. induction n as [|n IH]; intros s F Hn HF; (destruct F as [|F]; [lia|]).
  { destruct s; [done|simpl in Hn; lia]. }
  destruct s as [|c s]; [done|]. cbn [encode_string_go coerce_go] in *.
  rewrite length_append in HF. cbn [len] in Hn, HF.
  destruct (byte_of c <? 128) eqn:Hc.
  - rewrite append_assoc, decode_encode_byte by done.
    assert (1 ≤ len (encode_byte c))%nat as Hlen.
    { destruct (encode_byte_cases c Hc) as [(-> & _)|(e & -> & _)]; simpl; lia. }
    rewrite IH; [|lia|rewrite length_append in *; cbn [len]; lia].
    cbn [mbind option_bind Utf8.decode_rune]. by rewrite Hc.
  - destruct (Utf8.decode_rune (String c s)) as [[r t]|] eqn:Hd.
    + pose proof (Fmt.decode_rune_length _ _ _ Hd) as Ht. cbn [len] in Ht.
      pose proof (rune_long _ _ _ _ Hc Hd) as Hlong.
      apply decode_rune_split in Hd as [_ Hr].
      assert (1 ≤ len (encode_rune r))%nat as Hlen.
      { unfold encode_rune. destruct (rune_nonempty r Hr) as (c' & r' & ->).
        repeat case_bool_decide; simpl; lia. }
      rewrite append_assoc, decode_encode_rune by done.
      rewrite IH; [done|lia|rewrite length_append in *; cbn [len]; lia].
    + rewrite append_assoc, decode_encode_error.
      rewrite IH; [done|lia|rewrite length_append in *; cbn [len] in *; lia].
Qed.

(** A literal is read back, whatever follows it. *)
Lemma decode_encode_string s rest :
  decode_string (encode_string s +:+ rest) = Some (coerce_utf8 s, rest).
Proof.
  unfold encode_string, quote. rewrite !append_assoc, !append_cons, !append_nil_l.
  apply decode_encode_string_go; [done|lia].
Qed.

(** The decoder makes valid strings only. *)
Lemma byte_of_chr z : 0 ≤ z < 256 → byte_of (chr z) = z.
Proof.
  intros Hz. unfold byte_of, chr. rewrite N_ascii_embedding; [rewrite Z2N.id; lia|].
  apply N2Z.inj_lt. rewrite Z2N.id; simpl; lia.
Qed.

Lemma cont_byte x : in_range 0x80 0xBF (byte_of (chr (0x80 + x mod 64))) = true.
Proof.
  pose proof (Z.mod_pos_bound x 64 ltac:(lia)). rewrite byte_of_chr by lia. unfold in_range. lia.
Qed.

Lemma second_byte lo hi x :
  0x80 ≤ lo → hi ≤ 0xBF → lo ≤ 0x80 + x mod 64 ≤ hi →
  in_range lo hi (byte_of (chr (0x80 + x mod 64))) = true.
Proof. intros Hlo Hhi Hx. rewrite byte_of_chr by lia. unfold in_range. lia. Qed.

(** The first bytes of runes of three and of four bytes, and the second. *)
Lemma first_byte_3 q m :
  0 ≤ q < 16 → 0 ≤ m < 64 → (q = 0 → 32 ≤ m) → (q = 13 → m < 32) →
  ∃ lo hi, Utf8.first_byte (0xE0 + q) = Some (lo, hi, 2%nat) ∧
    lo ≤ 0x80 + m ≤ hi ∧ 0x80 ≤ lo ∧ hi ≤ 0xBF.
Proof.
  intros Hq Hm H0 H13. unfold Utf8.first_byte, in_range.
  replace (0xE0 + q <=? 0xDF) with false by lia. rewrite andb_false_r.
  destruct (Z.eqb_spec (0xE0 + q) 0xE0); [exists 0xA0, 0xBF; split; [done|lia]|].
  destruct (Z.eqb_spec (0xE0 + q) 0xED); [exists 0x80, 0x9F; split; [done|lia]|].
  replace (_ && _) with true by lia. exists 0x80, 0xBF. split; [done|lia].
Qed.
Lemma first_byte_4 q m :
  0 ≤ q < 5 → 0 ≤ m < 64 → (q = 0 → 16 ≤ m) → (q = 4 → m < 16) →
  ∃ lo hi, Utf8.first_byte (0xF0 + q) = Some (lo, hi, 3%nat) ∧
    lo ≤ 0x80 + m ≤ hi ∧ 0x80 ≤ lo ∧ hi ≤ 0xBF.
Proof.
  intros Hq Hm H0 H4. unfold Utf8.first_byte, in_range.
  replace (0xF0 + q <=? 0xDF) with false by lia. replace (0xF0 + q =? 0xE0) with false by lia.
  replace (0xF0 + q =? 0xED) with false by lia. replace (0xF0 + q <=? 0xEF) with false by lia.
  rewrite !andb_false_r.
  destruct (Z.eqb_spec (0xF0 + q) 0xF0); [exists 0x90, 0xBF; split; [done|lia]|].
  destruct (Z.leb_spec (0xF0 + q) 0xF3).
  - replace (0xF1 <=? 0xF0 + q) with true by lia. exists 0x80, 0xBF. split; [done|lia].
  - rewrite andb_false_r. replace (0xF0 + q =? 0xF4) with true by lia.
    exists 0x80, 0x8F. split; [done|lia].
Qed.

Lemma div_64 u k : 0 < k → u / k = 64 * (u / (k * 64)) + (u / k) mod 64 ∧ 0 ≤ (u / k) mod 64 < 64.
Proof.
  intros Hk. split; [|apply Z.mod_pos_bound; lia]. rewrite <-Z.div_div by lia. apply Z.div_mod. lia.
Qed.

(** A first byte and the bytes it asks for make a rune. *)
Lemma rune_bytes c lo hi n d a :
  (byte_of c <? 0x80) = false → Utf8.first_byte (byte_of c) = Some (lo, hi, n) →
  in_range lo hi (byte_of d) = true → (∀ t, Utf8.conts (Nat.pred n) (a +:+ t) = Some (a, t)) →
  is_rune (String c (String d a)).
Proof.
  intros Hc Hf Hd Ha t. rewrite !append_cons. cbn [Utf8.decode_rune]. by rewrite Hc, Hf; simpl; rewrite Hd, Ha.
Qed.

Lemma encode_utf8_rune u : 0 ≤ u → is_rune (encode_utf8 u).
Proof.
  intros Hu. unfold encode_utf8.
  destruct (Z.ltb_spec u 0x80).
  { apply ascii_rune. rewrite byte_of_chr by lia. lia. }
  destruct (Z.ltb_spec u 0x800).
  { assert (2 ≤ u / 64 < 32) by (split; [apply Z.div_le_lower_bound|apply Z.div_lt_upper_bound]; lia).
    eapply rune_bytes with (n := 1%nat); [rewrite byte_of_chr by lia; lia| |apply cont_byte|done].
    rewrite byte_of_chr by lia. unfold Utf8.first_byte, in_range.
    by replace (_ && _) with true by lia. }
  destruct (in_range 0xD800 0xDFFF u || (0x10FFFF <? u)) eqn:Hs; [apply rune_error_rune|].
  unfold in_range in Hs.
  pose proof (Z.div_mod u 64 ltac:(lia)). pose proof (Z.mod_pos_bound u 64 ltac:(lia)).
  pose proof (Z.div_mod u 4096 ltac:(lia)). pose proof (Z.mod_pos_bound u 4096 ltac:(lia)).
  destruct (Z.ltb_spec u 0x10000).
  - destruct (div_64 u 64 ltac:(lia)) as [Hd Hm]. change (64 * 64) with 4096 in Hd.
    destruct (first_byte_3 (u / 4096) ((u / 64) mod 64)) as (lo & hi & Hf & ? & ? & ?); [lia..|].
    eapply rune_bytes;
      [rewrite byte_of_chr by lia; lia|rewrite byte_of_chr by lia; exact Hf|by eapply second_byte|].
    intros t. rewrite append_cons, append_nil_l. simpl. by rewrite cont_byte.
  - destruct (div_64 u 4096 ltac:(lia)) as [Hd Hm]. change (4096 * 64) with 262144 in Hd.
    destruct (first_byte_4 (u / 262144) ((u / 4096) mod 64)) as (lo & hi & Hf & ? & ? & ?); [lia..|].
    eapply rune_bytes;
      [rewrite byte_of_chr by lia; lia|rewrite byte_of_chr by lia; exact Hf|by eapply second_byte|].
    intros t. rewrite !append_cons, append_nil_l. simpl. by rewrite !cont_byte.
Qed.

Lemma hex_val_nonneg c x : hex_val c = Some x → 0 ≤ x < 16.
Proof. unfold hex_val, in_range. repeat case_match; intros [= <-]; lia. Qed.

Lemma hex4_nonneg s u r : hex4 s = Some (u, r) → 0 ≤ u.
Proof.
  destruct s as [|a [|b [|c [|d s]]]]; simpl; try done.
  destruct (hex_val a) eqn:Ha, (hex_val b) eqn:Hb, (hex_val c) eqn:Hc, (hex_val d) eqn:Hd;
    simpl; try done. intros [= <- _].
  apply hex_val_nonneg in Ha, Hb, Hc, Hd. lia.
Qed.

Lemma unescape_rune s x r : unescape s = Some (x, r) → is_rune x.
Proof.
  destruct s as [|c s]; simpl; [done|].
  destruct (_ || _) eqn:Hq; [intros [= <- _]; apply ascii_rune; lia|].
  do 5 (case_match; [intros [= <- _]; by apply ascii_rune|]). case_match; [|done].
  destruct (hex4 s) as [[u t]|] eqn:Hu; simpl; [|done]. apply hex4_nonneg in Hu.
  unfold unescape_u. destruct (in_range 0xD800 0xDFFF u) eqn:Hs.
  - destruct (strip_prefix "\u" t ≫= hex4) as [[v t']|] eqn:Hv;
      [|intros [= <- _]; apply rune_error_rune].
    destruct (_ && _) eqn:Hp; [|intros [= <- _]; apply rune_error_rune].
    intros [= <- _]. unfold in_range in *. apply encode_utf8_rune. lia.
  - intros [= <- _]. by apply encode_utf8_rune.
Qed.

Lemma decode_string_go_utf8 f s x r : decode_string_go f s = Some (x, r) → utf8 x.
Proof.
  revert s x r. induction f as [|f IH]; intros s x r; simpl; [done|].
  destruct s as [|c s]; [done|]. case_match; [intros [= <- _]; constructor|]. case_match.
  { destruct (unescape s) as [[y t]|] eqn:Hu; simpl; [|done].
    destruct (decode_string_go f t) as [[z w]|] eqn:Hd; simpl; [|done].
    intros [= <- _]. constructor; [by eapply unescape_rune|by eapply IH]. }
  case_match; [done|]. destruct (byte_of c <? 128) eqn:Hc.
  { destruct (decode_string_go f s) as [[z w]|] eqn:Hd; simpl; [|done]. intros [= <- _].
    change (String c z) with (String c "" +:+ z). constructor; [by apply ascii_rune|by eapply IH]. }
  destruct (default _ _) as [y t] eqn:Hr.
  destruct (decode_string_go f t) as [[z w]|] eqn:Hd; simpl; [|done]. intros [= <- _].
  constructor; [|by eapply IH].
  destruct (Utf8.decode_rune (String c s)) as [[v u]|] eqn:Hv; simpl in Hr; injection Hr as <- <-.
  - by apply decode_rune_split in Hv as [_ ?].
  - apply rune_error_rune.
Qed.

Lemma decode_string_utf8 s x r : decode_string s = Some (x, r) → utf8 x.
Proof.
  destruct s as [|c s]; [done|]. unfold decode_string. case_match; [|done].
  apply decode_string_go_utf8.
Qed.

(** ** Number literals *)

(** What may follow a number: it does not go on. *)
Definition num_stop (s : string) : bool :=
  match s with
  | EmptyString => true
  | String c _ =>
      negb (is_digit c) && negb (Ascii.eqb c "."%char) &&
      negb (Ascii.eqb c "e"%char || Ascii.eqb c "E"%char)
  end.

Section number_app.
Context (rest : string) (Hstop : num_stop rest = true).

Lemma take_digits_app s a b :
  take_digits s = (a, b) → take_digits (s +:+ rest) = (a, b +:+ rest).
Proof.
  revert a b. induction s as [|c s IH]; intros a b.
  - intros [= <- <-]. rewrite append_nil_l. destruct rest as [|c r]; [done|]. simpl in *.
    by destruct (is_digit c).
  - rewrite append_cons. simpl. destruct (is_digit c); [|by intros [= <- <-]].
    destruct (take_digits s) as [a' b']. intros [= <- <-]. by rewrite (IH a' b').
Qed.

Lemma scan_int_app s i r :
  scan_int s = Some (i, r) → scan_int (s +:+ rest) = Some (i, r +:+ rest).
Proof.
  unfold scan_int. destruct (take_digits s) as [a b] eqn:Hd. rewrite (take_digits_app _ _ _ Hd).
  destruct a as [|c [|d a]]; [done|by intros [= <- <-]|].
  destruct (Ascii.eqb _ _); [done|]. by intros [= <- <-].
Qed.

Lemma scan_frac_app s i r :
  scan_frac s = Some (i, r) → scan_frac (s +:+ rest) = Some (i, r +:+ rest).
Proof.
  destruct s as [|c s].
  - intros [= <- <-]. rewrite append_nil_l. destruct rest as [|c r']; [done|]. simpl in *.
    by destruct (Ascii.eqb c "."%char); rewrite ?andb_false_r in Hstop.
  - rewrite append_cons. simpl. destruct (Ascii.eqb _ _); [|by intros [= <- <-]].
    destruct (take_digits s) as [a b] eqn:Hd. rewrite (take_digits_app _ _ _ Hd).
    destruct a; [done|]. by intros [= <- <-].
Qed.

Lemma scan_exp_app s e r :
  scan_exp s = Some (e, r) → scan_exp (s +:+ rest) = Some (e, r +:+ rest).
Proof.
  destruct s as [|c s].
  - intros [= <- <-]. rewrite append_nil_l. destruct rest as [|c r']; [done|]. simpl in *.
    by destruct (_ || _); rewrite ?andb_false_r in Hstop.
  - rewrite append_cons. cbn [scan_exp]. destruct (_ || _); [|by intros [= <- <-]].
    assert (∀ (neg : bool) t,
      match take_digits t with
      | (EmptyString, _) => None
      | (ds, r) => Some (Some (if neg then - default 0 (Strconv.digits_val ds)
                               else default 0 (Strconv.digits_val ds)), r)
      end = Some (e, r) →
      match take_digits (t +:+ rest) with
      | (EmptyString, _) => None
      | (ds, r) => Some (Some (if neg then - default 0 (Strconv.digits_val ds)
                               else default 0 (Strconv.digits_val ds)), r)
      end = Some (e, r +:+ rest)) as Hdigits.
    { intros neg t. destruct (take_digits t) as [a b] eqn:Hd. rewrite (take_digits_app _ _ _ Hd).
      destruct a; [done|]. by intros [= <- <-]. }
    destruct s as [|d s].
    { done. }
    rewrite append_cons. destruct (Ascii.eqb d "-"%char); [apply (Hdigits true)|].
    destruct (Ascii.eqb d "+"%char); [apply (Hdigits false)|].
    rewrite <-append_cons. apply (Hdigits false).
Qed.

Lemma substring_app s t : String.substring 0 (len s) (s +:+ t) = s.
Proof. induction s as [|c s IH]; [by destruct t|]. rewrite append_cons. simpl. by rewrite IH. Qed.

Lemma consumed_all s : consumed s "" = s.
Proof.
  unfold consumed. change (String.length "") with O. rewrite Nat.sub_0_r.
  pose proof (substring_app s "") as Hs. by rewrite append_nil_r in Hs.
Qed.

Lemma decode_number_app s n :
  decode_number s = Some (n, "") → decode_number (s +:+ rest) = Some (n, rest).
Proof.
  unfold decode_number. intros Hs.
  set (sign := λ s, match s with
    | String c r => if Ascii.eqb c "-"%char then (true, r) else (false, s)
    | EmptyString => (false, s)
    end).
  change (match s with
    | String c r => if Ascii.eqb c "-"%char then (true, r) else (false, s)
    | EmptyString => (false, s)
    end) with (sign s) in Hs.
  change (match s +:+ rest with
    | String c r => if Ascii.eqb c "-"%char then (true, r) else (false, s +:+ rest)
    | EmptyString => (false, s +:+ rest)
    end) with (sign (s +:+ rest)).
  destruct s as [|c s0] eqn:Es; [done|]. rewrite <-Es in *.
  assert (sign (s +:+ rest) = ((sign s).1, (sign s).2 +:+ rest)) as ->.
  { rewrite Es, append_cons. simpl. by destruct (Ascii.eqb c "-"%char). }
  destruct (sign s) as [neg r]. cbn [fst snd].
  destruct (scan_int r) as [[i r1]|] eqn:H1; simpl in Hs; [|done].
  rewrite (scan_int_app _ _ _ H1). simpl.
  destruct (scan_frac r1) as [[f r2]|] eqn:H2; simpl in Hs; [|done].
  rewrite (scan_frac_app _ _ _ H2). simpl.
  destruct (scan_exp r2) as [[e r3]|] eqn:H3; simpl in Hs; [|done].
  rewrite (scan_exp_app _ _ _ H3). simpl.
  injection Hs as <- ->. rewrite append_nil_l. do 3 f_equal.
  rewrite consumed_all. unfold consumed. rewrite length_append.
  replace (len s + len rest - len rest)%nat with (len s) by lia. apply substring_app.
Qed.
End number_app.

Lemma decode_number_head s n r :
  decode_number s = Some (n, r) → ∃ c t, s = String c t ∧ (c = "-"%char ∨ is_digit c = true).
Proof.
  destruct s as [|c s]; [done|]. unfold decode_number. intros Hs. exists c, s. split; [done|].
  destruct (Ascii.eqb_spec c "-"%char); [by left|]. right.
  unfold scan_int in Hs. simpl in Hs. by destruct (is_digit c).
Qed.

(** ** Integers *)
Lemma take_digits_all s : Strconv.all_digits s = true → take_digits s = (s, "").
Proof.
  induction s as [|c s IH]; simpl; [done|]. intros [-> Hs]%andb_prop. by rewrite IH.
Qed.

Lemma scan_itoa n : 0 ≤ n → scan_int (Strconv.itoa n) = Some (Strconv.itoa n, "").
Proof.
  intros Hn. unfold scan_int. rewrite take_digits_all by (by apply Strconv.itoa_digits).
  destruct (Strconv.itoa n) as [|c [|d s]] eqn:Hi; [by apply Strconv.itoa_nonempty in Hi|done|].
  by rewrite (Strconv.itoa_no_leading_zero _ _ _ _ Hn Hi).
Qed.

Definition int_number (z : Z) : number :=
  MkNumber (encode_int z) (z <? 0) (Strconv.itoa (Z.abs z)) "" None.

Lemma decode_encode_int z : decode_number (encode_int z) = Some (int_number z, "").
Proof.
  unfold int_number, decode_number. destruct (Z.ltb_spec z 0) as [Hz|Hz]; unfold encode_int.
  - rewrite (proj2 (Z.ltb_lt z 0) Hz), append_cons, append_nil_l.
    change (Ascii.eqb "-"%char "-"%char) with true. cbv iota.
    rewrite Z.abs_neq, scan_itoa by lia.
    cbn [mbind option_bind scan_frac scan_exp]. by rewrite consumed_all.
  - rewrite (proj2 (Z.ltb_ge z 0) Hz), Z.abs_eq by lia.
    assert (match Strconv.itoa z with
      | String c r => if Ascii.eqb c "-"%char then (true, r) else (false, Strconv.itoa z)
      | EmptyString => (false, Strconv.itoa z)
      end = (false, Strconv.itoa z)) as ->.
    { pose proof (Strconv.itoa_digits z Hz) as Hd. destruct (Strconv.itoa z) as [|c s]; [done|].
      simpl in Hd. destruct (Ascii.eqb_spec c "-"%char) as [->|]; [done|done]. }
    rewrite scan_itoa by lia.
    cbn [mbind option_bind scan_frac scan_exp]. by rewrite consumed_all.
Qed.

(** ** Values *)

(** A float64 is printed as a number that is read back as it. *)
Definition float_prints (f : Float.float64) : bool :=
  match decode_number (Float.format f) with
  | Some (n, EmptyString) => bool_decide (number_float n = Some f)
  | _ => false
  end.

Fixpoint floats_print (v : any) : bool :=
  match v with
  | AFloat f => float_prints f
  | ASlice l | AMapSlice l => forallb floats_print l
  | AMap m => forallb (λ kv, floats_print kv.2) m
  | _ => true
  end.

(** How deep values are nested. *)
Fixpoint height (v : any) : nat :=
  match v with
  | ASlice l | AMapSlice l => S (max_list_with height l)
  | AMap m => S (max_list_with (λ kv, height kv.2) m)
  | _ => O
  end.

(** The tree of the text a value is printed as. *)
Fixpoint tree (v : any) : json :=
  match v with
  | ANil => JNull
  | ABool b => JBool b
  | AFloat f => match decode_number (Float.format f) with Some (n, _) => JNumber n | None => JNull end
  | AInt z => JNumber (int_number z)
  | AString s => JString (coerce_utf8 s)
  | ASlice l | AMapSlice l => JArray (map tree l)
  | AMap m => JObject (map (λ kv, (coerce_utf8 kv.1, tree kv.2)) m)
  end.

(** Induction that reaches the elements of lists. *)
Section any_ind.
Context (P : any → Prop).
Context (Hnil : P ANil) (Hbool : ∀ b, P (ABool b)) (Hfloat : ∀ f, P (AFloat f)).
Context (Hint : ∀ z, P (AInt z)) (Hstring : ∀ s, P (AString s)).
Context (Hslice : ∀ l, Forall P l → P (ASlice l)).
Context (Hmaps : ∀ l, Forall P l → P (AMapSlice l)).
Context (Hmap : ∀ m, Forall (λ kv, P kv.2) m → P (AMap m)).

Fixpoint any_ind' (v : any) : P v :=
  let list_rect' := fix go l : Forall P l :=
    match l with [] => @List.Forall_nil _ P | x :: l => @List.Forall_cons _ P x l (any_ind' x) (go l) end in
  match v with
  | ANil => Hnil
  | ABool b => Hbool b
  | AFloat f => Hfloat f
  | AInt z => Hint z
  | AString s => Hstring s
  | ASlice l => Hslice l (list_rect' l)
  | AMapSlice l => Hmaps l (list_rect' l)
  | AMap m => Hmap m
      ((fix go (m : list (string * any)) : Forall (λ kv, P kv.2) m :=
          match m with
          | [] => @List.Forall_nil _ (λ kv, P kv.2)
          | x :: m => @List.Forall_cons _ (λ kv, P kv.2) x m (any_ind' x.2) (go m)
          end) m)
  end.
End any_ind.

(** The first byte of a value: it is no space and closes nothing. *)
Definition value_start (c : ascii) : bool :=
  negb (is_space c) && negb (Ascii.eqb c "]"%char) && negb (Ascii.eqb c "}"%char).

Lemma number_start c : c = "-"%char ∨ is_digit c = true → value_start c = true.
Proof.
  intros [->|Hc]; [done|]. unfold value_start, is_space.
  unfold is_digit, in_range in Hc.
  destruct (Ascii.eqb_spec c "]"%char) as [->|]; [done|].
  destruct (Ascii.eqb_spec c "}"%char) as [->|]; [done|]. lia.
Qed.

Lemma float_prints_number f :
  float_prints f = true →
  ∃ n, decode_number (Float.format f) = Some (n, "") ∧ number_float n = Some f.
Proof.
  unfold float_prints. destruct (decode_number _) as [[n []]|]; try done.
  intros ?%bool_decide_eq_true. eauto.
Qed.

Lemma encode_start v :
  floats_print v = true → ∃ c s, encode v = String c s ∧ value_start c = true.
Proof.
  intros Hv. destruct v as [|[]|f|z|s|l|l|m]; try by do 2 eexists.
  - destruct (float_prints_number f Hv) as (n & Hn & _).
    apply decode_number_head in Hn as (c & t & Hc & Hd). exists c, t. split; [done|].
    by apply number_start.
  - destruct (decode_number_head _ _ _ (decode_encode_int z)) as (c & t & Hc & Hd).
    exists c, t. split; [done|]. by apply number_start.
Qed.

Lemma skip_start c s : value_start c = true → skip_space (String c s) = String c s.
Proof. unfold value_start. intros Hc. simpl. by destruct (is_space c). Qed.

Lemma strip_start c s :
  value_start c = true →
  strip_prefix "]" (String c s) = None ∧ strip_prefix "}" (String c s) = None.
Proof.
  unfold value_start. rewrite !(Ascii.eqb_sym c). simpl. intros Hc.
  destruct (Ascii.eqb "]"%char c), (Ascii.eqb "}"%char c); rewrite ?andb_false_r in Hc; done.
Qed.

(** A value whose text is read back, at any depth that is enough. *)
Definition reads_back (v : any) : Prop :=
  ∀ F D rest, (height v ≤ D)%nat → num_stop rest = true →
    (2 * len (encode v +:+ rest) < F)%nat →
    decode_value F D (encode v +:+ rest) = Some (tree v, rest).

Lemma number_reads_back t n F D rest :
  decode_number t = Some (n, "") → num_stop rest = true → (0 < F)%nat →
  decode_value F D (t +:+ rest) = Some (JNumber n, rest).
Proof.
  intros Hn Hstop HF. destruct F as [|F]; [lia|].
  pose proof (decode_number_app rest Hstop t n Hn) as Happ.
  destruct (decode_number_head _ _ _ Hn) as (c & s & -> & Hc). rewrite append_cons in *.
  cbn [decode_value].
  assert (Ascii.eqb c "{"%char = false ∧ Ascii.eqb c "["%char = false ∧
          (byte_of c =? 34) = false ∧ Ascii.eqb c "t"%char = false ∧
          Ascii.eqb c "f"%char = false ∧ Ascii.eqb c "n"%char = false)
    as (-> & -> & -> & -> & -> & ->); [|by rewrite Happ].
  destruct Hc as [->|Hc]; [done|]. unfold is_digit, in_range in Hc.
  split_and!; try (match goal with |- Ascii.eqb c ?d = false =>
    destruct (Ascii.eqb_spec c d) as [->|]; done end). lia.
Qed.

Lemma join_cons sep x l : ∃ t, join sep (x :: l) = x +:+ t.
Proof. destruct l; eexists; [symmetry; apply append_nil_r|done]. Qed.

(** The elements of an array and its closing bracket. *)
Lemma elements_read_back l F D rest :
  l ≠ [] → Forall reads_back l → forallb floats_print l = true →
  (max_list_with height l ≤ D)%nat →
  (2 * len (join "," (map encode l) +:+ "]" +:+ rest) + 1 < F)%nat →
  decode_elements F D (join "," (map encode l) +:+ "]" +:+ rest) = Some (map tree l, rest).
Proof.
  intros Hne Hall. revert F. induction Hall as [|v l Hv Hall IH]; [done|]. clear Hne.
  intros F [Hfv Hfl]%andb_prop HD HF. destruct F as [|F]; [lia|]. simpl in HD.
  destruct l as [|w l].
  - cbn [map join decode_elements] in *. rewrite Hv by (done || lia).
    cbn [mbind option_bind]. rewrite append_cons, append_nil_l. done.
  - assert (join "," (map encode (v :: w :: l)) +:+ "]" +:+ rest =
            encode v +:+ "," +:+ join "," (map encode (w :: l)) +:+ "]" +:+ rest) as Hj
      by (cbn [map join]; by rewrite !append_assoc).
    rewrite Hj in *. cbn [decode_elements]. rewrite Hv by (done || lia).
    cbn [mbind option_bind]. rewrite append_cons, append_nil_l.
    change (skip_space (String "," ?s)) with (String "," s).
    change (strip_prefix "]" (String "," ?s)) with (@None string).
    change (strip_prefix "," (String "," ?s)) with (Some s). cbn [mbind option_bind].
    destruct (encode_start w) as (c & t & Hw & Hc); [by apply andb_prop in Hfl as [? _]|].
    assert (∃ u, join "," (map encode (w :: l)) +:+ "]" +:+ rest = String c u) as [u Hu].
    { cbn [map]. destruct (join_cons "," (encode w) (map encode l)) as [t' ->].
      rewrite Hw. eexists. by rewrite !append_cons. }
    rewrite Hu, skip_start, <-Hu by done. rewrite !length_append in HF. cbn [len] in HF.
    rewrite IH; [done|done|done|simpl in *; lia|]. rewrite !length_append. cbn [len]. lia.
Qed.

Definition member_text (kv : string * any) : string := encode_string kv.1 +:+ ":" +:+ encode kv.2.
Definition member_tree (kv : string * any) : string * json := (coerce_utf8 kv.1, tree kv.2).

Lemma member_start kv u : ∃ s, member_text kv +:+ u = String (chr 34) s.
Proof. unfold member_text, encode_string, quote. eexists. by rewrite !append_cons. Qed.

(** A member up to its value: key, colon. *)
Lemma key_read_back kv u :
  floats_print kv.2 = true →
  ∃ r, decode_string (member_text kv +:+ u) = Some (coerce_utf8 kv.1, r) ∧
    (strip_prefix ":" (skip_space r) = Some (encode kv.2 +:+ u)) ∧
    skip_space (encode kv.2 +:+ u) = encode kv.2 +:+ u.
Proof.
  intros Hv. unfold member_text. rewrite !append_assoc. eexists.
  split; [apply decode_encode_string|]. split; [by rewrite append_cons, append_nil_l|].
  destruct (encode_start _ Hv) as (c & s & -> & Hc). rewrite append_cons. by apply skip_start.
Qed.

Lemma members_read_back m F D rest :
  m ≠ [] → Forall (λ kv, reads_back kv.2) m → forallb (λ kv, floats_print kv.2) m = true →
  (max_list_with (λ kv, height kv.2) m ≤ D)%nat →
  (2 * len (join "," (map member_text m) +:+ "}" +:+ rest) + 1 < F)%nat →
  decode_members F D (join "," (map member_text m) +:+ "}" +:+ rest) =
    Some (map member_tree m, rest).
Proof.
  intros Hne Hall. revert F. induction Hall as [|kv m Hkv Hall IH]; [done|]. clear Hne.
  intros F [Hfv Hfm]%andb_prop HD HF. destruct F as [|F]; [lia|]. simpl in HD.
  destruct m as [|kw m].
  - cbn [map join decode_members] in *.
    destruct (key_read_back kv ("}" +:+ rest) Hfv) as (r & -> & Hr & Hs).
    cbn [mbind option_bind]. rewrite Hr. cbn [mbind option_bind]. rewrite Hs.
    unfold member_text in HF. rewrite !length_append in HF.
    rewrite Hkv; [|lia|done|rewrite !length_append; lia].
    cbn [mbind option_bind]. by rewrite append_cons, append_nil_l.
  - assert (join "," (map member_text (kv :: kw :: m)) +:+ "}" +:+ rest =
            member_text kv +:+ "," +:+ join "," (map member_text (kw :: m)) +:+ "}" +:+ rest) as Hj
      by (cbn [map join]; by rewrite !append_assoc).
    rewrite Hj in *. cbn [decode_members].
    destruct (key_read_back kv ("," +:+ join "," (map member_text (kw :: m)) +:+ "}" +:+ rest) Hfv)
      as (r & -> & Hr & Hs).
    cbn [mbind option_bind]. rewrite Hr. cbn [mbind option_bind]. rewrite Hs.
    assert (len (encode kv.2) < len (member_text kv))%nat
      by (unfold member_text; rewrite !length_append; simpl; lia).
    rewrite length_append in HF.
    rewrite Hkv; [|lia|done|rewrite !length_append in *; lia].
    cbn [mbind option_bind]. rewrite append_cons, append_nil_l.
    change (skip_space (String "," ?s)) with (String "," s).
    change (strip_prefix "}" (String "," ?s)) with (@None string).
    change (strip_prefix "," (String "," ?s)) with (Some s). cbn [mbind option_bind].
    assert (∃ u, join "," (map member_text (kw :: m)) +:+ "}" +:+ rest = String (chr 34) u) as [u Hu].
    { cbn [map]. destruct (join_cons "," (member_text kw) (map member_text m)) as [t ->].
      rewrite append_assoc. apply member_start. }
    rewrite Hu, skip_start, <-Hu by done. rewrite !length_append in HF. cbn [len] in HF.
    rewrite IH; [done|done|done|simpl in *; lia|]. rewrite !length_append. cbn [len]. lia.
Qed.

Lemma array_reads_back l F D rest :
  Forall reads_back l → forallb floats_print l = true →
  (S (max_list_with height l) ≤ D)%nat →
  (2 * len (("[" +:+ join "," (map encode l) +:+ "]") +:+ rest) < F)%nat →
  decode_value F D (("[" +:+ join "," (map encode l) +:+ "]") +:+ rest) =
    Some (JArray (map tree l), rest).
Proof.
  intros Hall Hfl HD HF. rewrite !append_assoc, !append_cons, !append_nil_l in *.
  destruct F as [|F]; [lia|]. cbn [len] in HF. cbn [decode_value].
  change (Ascii.eqb "[" "{") with false. change (Ascii.eqb "[" "[") with true. cbv iota.
  destruct D as [|D]; [lia|]. destruct l as [|v l]; [by rewrite append_nil_l|].
  destruct (encode_start v) as (c & t & Hv & Hc); [by apply andb_prop in Hfl as [? _]|].
  assert (∃ u, join "," (map encode (v :: l)) +:+ String "]" rest = String c u) as [u Hu].
  { cbn [map]. destruct (join_cons "," (encode v) (map encode l)) as [t' ->].
    rewrite Hv. eexists. by rewrite !append_cons. }
  rewrite Hu, skip_start by done. destruct (strip_start c u Hc) as [-> _]. rewrite <-Hu.
  change (String "]" rest) with ("]" +:+ rest).
  rewrite elements_read_back; [done|done|done|done|lia|].
  rewrite !length_append in *. cbn [len] in *. lia.
Qed.

Lemma object_reads_back m F D rest :
  Forall (λ kv, reads_back kv.2) m → forallb (λ kv, floats_print kv.2) m = true →
  (S (max_list_with (λ kv, height kv.2) m) ≤ D)%nat →
  (2 * len (("{" +:+ join "," (map member_text m) +:+ "}") +:+ rest) < F)%nat →
  decode_value F D (("{" +:+ join "," (map member_text m) +:+ "}") +:+ rest) =
    Some (JObject (map member_tree m), rest).
Proof.
  intros Hall Hfl HD HF. rewrite !append_assoc, !append_cons, !append_nil_l in *.
  destruct F as [|F]; [lia|]. cbn [len] in HF. cbn [decode_value].
  change (Ascii.eqb "{" "{") with true. cbv iota.
  destruct D as [|D]; [lia|]. destruct m as [|kv m]; [by rewrite append_nil_l|].
  assert (∃ u, join "," (map member_text (kv :: m)) +:+ String "}" rest = String (chr 34) u) as [u Hu].
  { cbn [map]. destruct (join_cons "," (member_text kv) (map member_text m)) as [t ->].
    rewrite append_assoc. apply member_start. }
  rewrite Hu, skip_start by done. destruct (strip_start (chr 34) u) as [_ ->]; [done|]. rewrite <-Hu.
  change (String "}" rest) with ("}" +:+ rest).
  rewrite members_read_back; [done|done|done|done|lia|].
  rewrite !length_append in *. cbn [len] in *. lia.
Qed.

Lemma Forall_forallb {A} (P : A → Prop) (f : A → bool) l :
  Forall (λ x, f x = true → P x) l → forallb f l = true → Forall P l.
Proof. induction 1; [by constructor|]. intros [? ?]%andb_prop. constructor; auto. Qed.

(** Every value is read back. *)
Lemma all_read_back v : floats_print v = true → reads_back v.
Proof.
  induction v as [|b|f|z|s|l IH|l IH|m IH] using any_ind'; intros Hfl F D rest HD Hstop HF;
    cbn [encode tree height floats_print] in *.
  - destruct F; [lia|reflexivity].
  - destruct F; [lia|]. by destruct b.
  - destruct (float_prints_number f Hfl) as (n & Hn & _). rewrite Hn.
    apply number_reads_back; [done|done|lia].
  - apply number_reads_back; [apply decode_encode_int|done|lia].
  - destruct F as [|F]; [lia|]. pose proof (decode_encode_string s rest) as Hs.
    unfold encode_string at 1, quote in Hs. unfold encode_string at 1, quote.
    rewrite !append_assoc, append_cons in *. cbn [decode_value].
    change (Ascii.eqb (chr 34) ?d) with false. change (byte_of (chr 34) =? 34) with true. cbv iota.
    by rewrite Hs.
  - apply array_reads_back; [by apply Forall_forallb with floats_print|done..].
  - apply array_reads_back; [by apply Forall_forallb with floats_print|done..].
  - apply object_reads_back; [by apply Forall_forallb with (λ kv, floats_print kv.2)|done..].
Qed.

(** The text of a value is a document, the one of its tree. *)
Lemma decode_document_encode v :
  floats_print v = true → (height v ≤ maxNestingDepth)%nat →
  decode_document (encode v) = Some (tree v).
Proof.
  intros Hfl Hh. unfold decode_document. destruct (encode_start v Hfl) as (c & s & He & Hc).
  rewrite He, skip_start, <-He by done.
  pose proof (all_read_back v Hfl (text_fuel (encode v)) maxNestingDepth "" Hh eq_refl) as Hr.
  rewrite append_nil_r in Hr. unfold text_fuel in *. rewrite Hr by lia. done.
Qed.
