(* ===== verification/FloatText.v ===== *)
(** * float64 as JSON text: what the encoder prints is read back

    The digits [Floats] finds, in either of the two formats, are a number
    literal of JSON that [encoding/json] reads as the float64 it was printed
    for: every float64 survives. *)

From S2P Require Import Prelude GoStd GoErrors Json Floats JsonText.
From Stdlib Require Import Ascii.

#[local] Abbreviation len := String.length.

(** ** Digits *)
Lemma digits_val_padding acc n :
  Strconv.digits_val_from acc (Float.zeros n) = Some (acc * 10 ^ Z.of_nat n).
Proof.
  revert acc. induction n as [|n IH]; intros acc; [simpl; f_equal; lia|].
  cbn [Float.zeros Strconv.digits_val_from]. change (is_digit "0"%char) with true. cbv iota.
  rewrite IH, Nat2Z.inj_succ, Z.pow_succ_r by lia. f_equal.
  change (digit_val "0"%char) with 0. lia.
Qed.

Lemma digits_val_ne s : s ≠ "" → Strconv.digits_val s = Strconv.digits_val_from 0 s.
Proof. by destruct s. Qed.

Lemma itoa_from x : 0 ≤ x → Strconv.digits_val_from 0 (Strconv.itoa x) = Some x.
Proof.
  intros Hx. rewrite <-digits_val_ne by apply Strconv.itoa_nonempty. by apply Strconv.digits_val_itoa.
Qed.

Lemma all_digits_app s t :
  Strconv.all_digits (s +:+ t) = Strconv.all_digits s && Strconv.all_digits t.
Proof.
  induction s as [|c s IH]; [done|]. rewrite append_cons. simpl. by rewrite IH, andb_assoc.
Qed.

Lemma all_digits_zeros n : Strconv.all_digits (Float.zeros n) = true.
Proof. by induction n. Qed.

Lemma length_zeros n : len (Float.zeros n) = n.
Proof. induction n as [|n IH]; [done|]. simpl. by rewrite IH. Qed.

Lemma split_at_app n s :
  let '(a, b) := Float.split_at n s in s = a +:+ b ∧ len a = (n `min` len s)%nat.
Proof.
  revert s. induction n as [|n IH]; intros [|c s]; [done..|]. cbn [Float.split_at].
  specialize (IH s). destruct (Float.split_at n s) as [a b]. destruct IH as [-> Hl].
  rewrite append_cons. split; [done|]. simpl. by rewrite Hl.
Qed.

(** The number of digits of a number. *)
Lemma itoa_length_exact x p :
  0 < p → 10 ^ (p - 1) ≤ x < 10 ^ p → Z.of_nat (len (Strconv.itoa x)) = p.
Proof.
  intros Hp [Hlo Hhi]. assert (0 < 10 ^ (p - 1)) by (apply Z.pow_pos_nonneg; lia).
  destruct (Strconv.digits_val_bounds (Strconv.itoa x) x) as [Hb _].
  { apply Strconv.digits_val_itoa. lia. }
  { intros c d r Hr. apply (Strconv.itoa_no_leading_zero x c d r); [lia|done]. }
  assert (p - 1 < Z.of_nat (len (Strconv.itoa x))) by (apply (Z.pow_lt_mono_r_iff 10); lia).
  assert (len (Strconv.itoa x) ≤ S (Z.to_nat (p - 1)))%nat; [|lia].
  apply Strconv.itoa_length. rewrite Nat2Z.inj_succ, Z2Nat.id by lia.
  replace (Z.succ (p - 1)) with p by lia. lia.
Qed.

(** ** Literals *)

(** What may follow digits. *)
Definition digit_stop (s : string) : bool :=
  match s with EmptyString => true | String c _ => negb (is_digit c) end.

Lemma take_digits_stop a t :
  Strconv.all_digits a = true → digit_stop t = true → take_digits (a +:+ t) = (a, t).
Proof.
  intros Ha Ht. induction a as [|c a IH].
  - rewrite append_nil_l. destruct t as [|c t]; [done|]. simpl in *. by destruct (is_digit c).
  - rewrite append_cons. simpl in *. apply andb_prop in Ha as [-> Ha]. by rewrite IH.
Qed.

(** Digits with neither sign nor needless zero. *)
Definition int_digits (i : string) : Prop :=
  Strconv.all_digits i = true ∧ i ≠ "" ∧ Strconv.no_leading_zero i.

Definition frac_text (f : string) : string :=
  match f with EmptyString => "" | _ => "." +:+ f end.

Lemma scan_int_stop i t :
  int_digits i → digit_stop t = true → scan_int (i +:+ t) = Some (i, t).
Proof.
  intros (Hd & Hne & Hz) Ht. unfold scan_int. rewrite take_digits_stop by done.
  destruct i as [|c [|d i]]; [done..|]. by rewrite (Hz c d i eq_refl).
Qed.

Lemma scan_frac_stop f t :
  Strconv.all_digits f = true → digit_stop t = true →
  (∀ c r, t = String c r → Ascii.eqb c "."%char = false) →
  scan_frac (frac_text f +:+ t) = Some (f, t).
Proof.
  intros Hf Ht Hdot. destruct f as [|c f].
  - cbn [frac_text]. rewrite append_nil_l. unfold scan_frac. destruct t as [|c t]; [done|].
    by rewrite (Hdot c t eq_refl).
  - cbn [frac_text]. rewrite append_assoc. change ("." +:+ ?x) with (String "." x).
    cbn [scan_frac]. change (Ascii.eqb "."%char "."%char) with true. cbv iota.
    by rewrite take_digits_stop.
Qed.

(** The text of an exponent. *)
Definition exponent_text (t : string) (ex : option Z) : Prop :=
  scan_exp t = Some (ex, "") ∧
  match t with EmptyString => True | String c _ => c = "e"%char end.

Lemma decode_literal (neg : bool) i f t ex :
  int_digits i → Strconv.all_digits f = true → exponent_text t ex →
  ∃ n, decode_number ((if neg then "-" else "") +:+ i +:+ frac_text f +:+ t) = Some (n, "") ∧
    n_neg n = neg ∧ n_int n = i ∧ n_frac n = f ∧ n_exp n = ex.
Proof.
  intros Hi Hf [Ht He].
  assert (digit_stop t = true ∧ ∀ c r, t = String c r → Ascii.eqb c "."%char = false) as [Hs Hdot].
  { destruct t as [|c t]; [done|]. subst c. split; [done|]. by intros c r [= <- <-]. }
  assert (digit_stop (frac_text f +:+ t) = true) as Hs' by by destruct f.
  assert (scan_int (i +:+ frac_text f +:+ t) = Some (i, frac_text f +:+ t)) as H1
    by by apply scan_int_stop.
  assert (scan_frac (frac_text f +:+ t) = Some (f, t)) as H2 by by apply scan_frac_stop.
  unfold decode_number. set (s := i +:+ frac_text f +:+ t) in *.
  destruct neg.
  - change ("-" +:+ s) with (String "-" s). cbv beta iota.
    change (Ascii.eqb "-"%char "-"%char) with true. cbv beta iota.
    rewrite H1. cbn [mbind option_bind]. rewrite H2. cbn [mbind option_bind]. rewrite Ht.
    cbn [mbind option_bind]. by eexists.
  - rewrite append_nil_l.
    assert (match s with
      | String c r => if Ascii.eqb c "-"%char then (true, r) else (false, s)
      | EmptyString => (false, s)
      end = (false, s)) as ->.
    { destruct Hi as (Hd & Hne & _). unfold s. destruct i as [|c i]; [done|]. rewrite append_cons.
      destruct (Ascii.eqb_spec c "-"%char) as [->|]; done. }
    rewrite H1. cbn [mbind option_bind]. rewrite H2. cbn [mbind option_bind]. rewrite Ht.
    cbn [mbind option_bind]. by eexists.
Qed.

(** ** The two formats *)
Lemma exponent_none : exponent_text "" None.
Proof. by split. Qed.

Definition exponent (x : Z) : string :=
  if x <? 0 then "e-" +:+ Strconv.itoa (- x)
  else "e+" +:+ (if x <? 10 then "0" else "") +:+ Strconv.itoa x.

Lemma scan_exp_digits (neg : bool) ds v :
  Strconv.all_digits ds = true → ds ≠ "" → Strconv.digits_val_from 0 ds = Some v →
  exponent_text (String "e" (String (if neg then "-" else "+")%char ds))
    (Some (if neg then - v else v)).
Proof.
  intros Hd Hne Hv. split; [|done]. cbn [scan_exp].
  change (Ascii.eqb "e"%char "e"%char || Ascii.eqb "e"%char "E"%char) with true. cbv iota.
  pose proof (take_digits_stop ds "" Hd eq_refl) as Ht. rewrite append_nil_r in Ht.
  rewrite <-digits_val_ne in Hv by done.
  destruct neg; cbv beta iota;
    [change (Ascii.eqb "-"%char "-"%char) with true
    |change (Ascii.eqb "+"%char "-"%char) with false; change (Ascii.eqb "+"%char "+"%char) with true];
    cbv beta iota; rewrite Ht, Hv; by destruct ds.
Qed.

Lemma exponent_some x : exponent_text (exponent x) (Some x).
Proof.
  unfold exponent. destruct (Z.ltb_spec x 0).
  - change ("e-" +:+ ?s) with (String "e" (String "-" s)).
    pose proof (scan_exp_digits true (Strconv.itoa (- x)) (- x)) as Hs. cbv iota in Hs.
    rewrite Z.opp_involutive in Hs. apply Hs.
    + apply Strconv.itoa_digits. lia.
    + apply Strconv.itoa_nonempty.
    + apply itoa_from. lia.
  - change ("e+" +:+ ?s) with (String "e" (String "+" s)).
    apply (scan_exp_digits false).
    + rewrite all_digits_app, Strconv.itoa_digits by done. by destruct (x <? 10).
    + pose proof (Strconv.itoa_nonempty x). by destruct (x <? 10).
    + rewrite Strconv.digits_val_from_append.
      assert (Strconv.digits_val_from 0 (if x <? 10 then "0" else "") = Some 0) as ->
        by by destruct (x <? 10).
      by apply itoa_from.
Qed.

Section formats.
Context (neg : bool) (m e x p k : Z) (Hok : digits_ok m e x p k).
Let ds : string := Strconv.itoa x.
Let sign : string := if neg then "-" else "".

(** The text is a literal of the float64. *)
Definition prints (s : string) : Prop :=
  ∃ n, decode_number (sign +:+ s) = Some (n, "") ∧ number_float n = Some (Float.F64 neg m e).

Lemma x_pos : 0 < x.
Proof. destruct Hok as (Hp & [Hx _] & _). eapply Z.lt_le_trans; [|done]. apply Z.pow_pos_nonneg; lia. Qed.

Lemma ds_digits : int_digits ds.
Proof.
  pose proof x_pos. split; [apply Strconv.itoa_digits; lia|]. split; [apply Strconv.itoa_nonempty|].
  intros c d r Hr. apply (Strconv.itoa_no_leading_zero x c d r); [lia|done].
Qed.

Lemma ds_length : Z.of_nat (len ds) = p.
Proof. destruct Hok as (Hp & Hx & _). by apply itoa_length_exact. Qed.

Lemma ds_value : Strconv.digits_val_from 0 ds = Some x.
Proof. apply itoa_from. pose proof x_pos. lia. Qed.

Lemma digits_read : Float.of_decimal neg x (k - p) = Some (Float.F64 neg m e).
Proof.
  destruct Hok as (_ & _ & Hr). unfold reads in Hr. unfold Float.of_decimal.
  replace (k - p) with (- (p - k)) by lia. by rewrite Z.opp_involutive, Hr.
Qed.

(** A literal with the right digits and the right exponent. *)
Lemma literal_prints i f t ex v y :
  int_digits i → Strconv.all_digits f = true → exponent_text t ex →
  Strconv.digits_val_from 0 (i +:+ f) = Some v → default 0 ex - Z.of_nat (len f) = y →
  Float.of_decimal neg v y = Some (Float.F64 neg m e) →
  prints (i +:+ frac_text f +:+ t).
Proof.
  intros Hi Hf Ht Hv Hy Hr. destruct (decode_literal neg i f t ex Hi Hf Ht) as (n & Hn & H1 & H2 & H3 & H4).
  exists n. split; [done|]. unfold number_float. rewrite H1, H2, H3, H4, digits_val_ne.
  - rewrite Hv. cbn [default from_option id]. by rewrite Hy.
  - destruct Hi as (_ & Hne & _). by destruct i.
Qed.

Lemma zero_digits : int_digits "0".
Proof. split; [done|split; [done|]]. by intros c d r. Qed.

Lemma all_digits_split a b : ds = a +:+ b → Strconv.all_digits a = true ∧ Strconv.all_digits b = true.
Proof.
  intros Hs. destruct ds_digits as [Hd _]. rewrite Hs, all_digits_app in Hd.
  by apply andb_prop in Hd.
Qed.

(** The first digits of the number. *)
Lemma first_digits a b : ds = a +:+ b → (0 < len a)%nat → int_digits a.
Proof.
  intros Hs Hl. destruct (all_digits_split a b Hs). split; [done|]. split; [by intros ->; simpl in Hl; lia|].
  intros c d r ->. destruct ds_digits as (_ & _ & Hz). apply (Hz c d (r +:+ b)).
  by rewrite Hs, !append_cons.
Qed.

Lemma fmt_f_prints : prints (Float.fmt_f ds p k).
Proof.
  pose proof ds_length as Hl. destruct Hok as (Hp & _ & _). pose proof ds_digits as Hds.
  unfold Float.fmt_f. destruct (Z.leb_spec k 0) as [Hk|Hk]; [|destruct (Z.leb_spec p k) as [Hpk|Hpk]].
  - set (f := Float.zeros (Z.to_nat (- k)) +:+ ds).
    assert ("0." +:+ f = "0" +:+ frac_text f +:+ "") as ->.
    { assert (f ≠ "") by (unfold f; destruct Hds as (_ & Hne & _); by destruct (Float.zeros _)).
      rewrite append_nil_r. by destruct f. }
    apply (literal_prints "0" f "" None x (k - p)).
    + apply zero_digits.
    + unfold f. by rewrite all_digits_app, all_digits_zeros, (proj1 Hds).
    + apply exponent_none.
    + unfold f. rewrite Strconv.digits_val_from_append. simpl (Strconv.digits_val_from 0 "0").
      cbn [mbind option_bind]. rewrite Strconv.digits_val_from_append, digits_val_padding.
      cbn [mbind option_bind]. apply ds_value.
    + unfold f. rewrite length_append, length_zeros. cbn [default from_option]. lia.
    + apply digits_read.
  - assert (ds +:+ Float.zeros (Z.to_nat (k - p)) =
            (ds +:+ Float.zeros (Z.to_nat (k - p))) +:+ frac_text "" +:+ "") as ->
      by (cbn [frac_text]; by rewrite append_nil_l, append_nil_r).
    apply (literal_prints _ "" "" None (x * 10 ^ (k - p)) 0).
    + destruct Hds as (Hd & Hne & Hz). split; [by rewrite all_digits_app, Hd, all_digits_zeros|].
      split; [by destruct ds|]. intros c d r Hr.
      destruct ds as [|c' [|d' s]] eqn:Es; [done| |].
      * rewrite append_cons, append_nil_l in Hr. injection Hr as <- _.
        destruct (Ascii.eqb_spec c' "0"%char) as [->|]; [|done]. pose proof ds_value as Hv.
        rewrite Es in Hv. change (Some 0 = Some x) in Hv. injection Hv as Hv.
        pose proof x_pos. lia.
      * rewrite !append_cons in Hr. injection Hr as <- <- _. by eapply Hz.
    + done.
    + apply exponent_none.
    + rewrite append_nil_r, Strconv.digits_val_from_append, ds_value. cbn [mbind option_bind].
      rewrite digits_val_padding, Z2Nat.id by lia. done.
    + done.
    + rewrite <-digits_read. unfold Float.of_decimal.
      rewrite (Z.max_r 0 (k - p)), (Z.max_l 0 (- (k - p))) by lia. by rewrite Z.mul_1_r.
  - pose proof (split_at_app (Z.to_nat k) ds) as Hs.
    destruct (Float.split_at (Z.to_nat k) ds) as [a b]. destruct Hs as [Hs Ha].
    assert (Z.of_nat (len b) = p - k) as Hb.
    { rewrite Nat.min_l in Ha by lia. rewrite Hs, length_append in Hl. lia. }
    assert (a +:+ "." +:+ b = a +:+ frac_text b +:+ "") as ->
      by (rewrite append_nil_r; destruct b; [simpl in Hb; lia|done]).
    apply (literal_prints a b "" None x (k - p)).
    + apply (first_digits a b Hs). lia.
    + apply (all_digits_split a b Hs).
    + apply exponent_none.
    + rewrite <-Hs. apply ds_value.
    + cbn [default from_option]. lia.
    + apply digits_read.
Qed.

Lemma fmt_e_prints : prints (Float.fmt_e ds k).
Proof.
  pose proof ds_length as Hl. destruct Hok as (Hp & _ & _). unfold Float.fmt_e.
  pose proof (split_at_app 1 ds) as Hs. destruct (Float.split_at 1 ds) as [a b].
  destruct Hs as [Hs Ha].
  assert (len a = 1%nat ∧ Z.of_nat (len b) = p - 1) as [Ha1 Hb].
  { rewrite Hs, length_append in Hl, Ha. lia. }
  change (prints (a +:+ frac_text b +:+ exponent (k - 1))).
  apply (literal_prints a b _ (Some (k - 1)) x (k - p)).
  - apply (first_digits a b Hs). lia.
  - apply (all_digits_split a b Hs).
  - apply exponent_some.
  - rewrite <-Hs. apply ds_value.
  - cbn [default from_option id]. lia.
  - apply digits_read.
Qed.
End formats.

(** Every float64 is printed as a number that is read back as it. *)
Lemma float_read_back f :
  canonical_float (Float.mant f) (Float.expo f) = true → float_prints f = true.
Proof.
  destruct f as [neg m e]. cbn [Float.mant Float.expo]. intros Hc.
  assert (∀ s n, decode_number s = Some (n, "") → number_float n = Some (Float.F64 neg m e) →
    Float.format (Float.F64 neg m e) = s → float_prints (Float.F64 neg m e) = true) as Hprints.
  { intros s n Hd Hn Hs. unfold float_prints. rewrite Hs, Hd. by apply bool_decide_eq_true. }
  destruct (decide (m = 0)) as [->|Hm].
  - assert (e = 0) as -> by (unfold canonical_float in Hc; lia).
    by destruct neg; vm_compute.
  - pose proof (shortest_ok m e Hc Hm) as Hok. unfold Float.format in Hprints.
    cbn [Float.mant Float.expo Float.neg] in Hprints.
    rewrite (proj2 (Z.eqb_neq m 0)) in Hprints by done.
    destruct (Float.frac m e) as [n d]. destruct (Float.shortest m e) as [[x p] k].
    destruct (_ || _) in Hprints.
    + destruct (fmt_e_prints neg m e x p k Hok) as (l & Hd & Hn). by eapply Hprints.
    + destruct (fmt_f_prints neg m e x p k Hok) as (l & Hd & Hn). by eapply Hprints.
Qed.

(** What is read is a float64. *)
Lemma number_float_canonical n f :
  number_float n = Some f → canonical_float (Float.mant f) (Float.expo f) = true.
Proof.
  unfold number_float, Float.of_decimal.
  destruct (Float.nearest _ _) as [[q e]|] eqn:Hq; cbn [mbind option_bind]; [|done].
  intros [= <-]. cbn [Float.mant Float.expo]. eapply nearest_canonical, Hq.
  - apply Z.mul_nonneg_nonneg; [|apply Z.pow_nonneg; lia].
    destruct (Strconv.digits_val _) as [v|] eqn:Hv; [|done]. cbn [default from_option id].
    destruct (n_int n +:+ n_frac n) as [|c s]; [done|].
    destruct (Strconv.digits_val_from_split _ _ _ Hv) as (u & _ & -> & Hu). lia.
  - apply Z.pow_pos_nonneg; lia.
Qed.
