(* ===== verification/Times.v ===== *)
(** * Times in JSON (the package time, [metav1.Time])

    A time is printed in UTC in the layout RFC 3339, to the second, and read
    with [time.Parse] in the same layout.  The zero time is printed as null.
    The calendar, the printer and the parser, and that the parser reads what
    the printer wrote.  A time is an instant, in nanoseconds since 1970; the
    location it is shown in is left out. *)

From S2P Require Import Prelude GoStd GoErrors Json JsonText FloatText.
From Stdlib Require Import Ascii.

#[local] Abbreviation len := String.length.

Module Rfc3339.
Definition second : Z := 10 ^ 9.

(** The zero [time.Time] is the first of January of the year 1. *)
Definition zero : Z := -62135596800 * second.

(** ** The calendar *)

(** Year, month and day of the day [z] after 1970-01-01. *)
Definition civil_from_days (z : Z) : Z * Z * Z :=
  let z := z + 719468 in
  let era := z / 146097 in
  let doe := z mod 146097 in
  let yoe := (doe - doe / 1460 + doe / 36524 - doe / 146096) / 365 in
  let doy := doe - (365 * yoe + yoe / 4 - yoe / 100) in
  let mp := (5 * doy + 2) / 153 in
  let d := doy - (153 * mp + 2) / 5 + 1 in
  let m := if mp <? 10 then mp + 3 else mp - 9 in
  let y := yoe + era * 400 + (if m <=? 2 then 1 else 0) in
  (y, m, d).

(** [isLeap], [daysBefore] and [daysIn] of the package time. *)
Definition isLeap (y : Z) : bool := (y mod 4 =? 0) && (negb (y mod 100 =? 0) || (y mod 400 =? 0)).
Definition daysBefore (m : Z) : Z :=
  nth (Z.to_nat m) [0; 31; 59; 90; 120; 151; 181; 212; 243; 273; 304; 334; 365] 0.
Definition daysIn (m y : Z) : Z :=
  if (m =? 2) && isLeap y then 29 else daysBefore m - daysBefore (m - 1).

(** The day of a date, as [time.Date] counts it. *)
Definition days_from_civil (y m d : Z) : Z :=
  365 * (y - 1) + (y - 1) / 4 - (y - 1) / 100 + (y - 1) / 400
  + daysBefore (m - 1) + (if isLeap y && (3 <=? m) then 1 else 0) + (d - 1) - 719162.

(** ** Printing *)
Definition padded (w : nat) (z : Z) : string :=
  let s := Strconv.itoa z in Float.zeros (w - String.length s) +:+ s.

(** The layout RFC3339 of the time [t], in UTC. *)
Definition format (t : Z) : string :=
  let u := t / second in
  let '(y, m, d) := civil_from_days (u / 86400) in
  let s := u mod 86400 in
  padded 4 y +:+ "-" +:+ padded 2 m +:+ "-" +:+ padded 2 d +:+ "T"
  +:+ padded 2 (s / 3600) +:+ ":" +:+ padded 2 (s / 60 mod 60)
  +:+ ":" +:+ padded 2 (s mod 60) +:+ "Z".

(** [metav1.Time.MarshalJSON]. *)
Definition marshal (t : Z) : any := if t =? zero then ANil else AString (format t).

(** ** Parsing

    [time.Parse] with the layout RFC3339, element by element; [None] is an
    error.  It admits an hour of one digit and a fraction of a second. *)
Definition getnum (fixed : bool) (s : string) : option (Z * string) :=
  match s with
  | String a r =>
      if is_digit a then
        match r with
        | String b r' =>
            if is_digit b then Some (10 * digit_val a + digit_val b, r')
            else if fixed then None else Some (digit_val a, r)
        | EmptyString => if fixed then None else Some (digit_val a, r)
        end
      else None
  | EmptyString => None
  end.

Definition getyear (s : string) : option (Z * string) :=
  match s with
  | String a (String b (String c (String d r))) =>
      y ← Strconv.digits_val (String a (String b (String c (String d "")))); Some (y, r)
  | _ => None
  end.

Definition ranged (lo hi : Z) (n : option (Z * string)) : option (Z * string) :=
  '(z, r) ← n; if in_range lo hi z then Some (z, r) else None.

(** [parseNanoseconds]: digits beyond the ninth are not scaled down. *)
Definition fraction (s : string) : option (Z * string) :=
  match s with
  | String c (String d _ as r) =>
      if Ascii.eqb c "."%char && is_digit d then
        let '(ds, r) := take_digits r in
        let v := default 0 (Strconv.digits_val ds) in
        if v <? second then Some (v * 10 ^ Z.max 0 (9 - Z.of_nat (len ds)), r) else None
      else Some (0, s)
  | _ => Some (0, s)
  end.

(** [atoi]: a sign, and digits, of which there may be none. *)
Definition atoi (s : string) : option Z :=
  let '(neg, r) :=
    match s with
    | String c r => if Ascii.eqb c "-"%char then (true, r)
                    else if Ascii.eqb c "+"%char then (false, r) else (false, s)
    | EmptyString => (false, s)
    end in
  v ← match r with EmptyString => Some 0 | _ => Strconv.digits_val r end;
  Some (if neg : bool then - v else v).

(** The offset from UTC in seconds. *)
Definition zone (s : string) : option (Z * string) :=
  match s with
  | String c r =>
      if Ascii.eqb c "Z"%char then Some (0, r)
      else
        match r with
        | String h (String h' (String colon (String m (String m' r)))) =>
            if Ascii.eqb colon ":"%char then
              hr ← atoi (String h (String h' ""));
              mm ← atoi (String m (String m' ""));
              let off := (hr * 60 + mm) * 60 in
              if Ascii.eqb c "+"%char then Some (off, r)
              else if Ascii.eqb c "-"%char then Some (- off, r) else None
            else None
        | _ => None
        end
  | EmptyString => None
  end.

Definition parse (s : string) : option Z :=
  '(y, r) ← getyear s; r ← strip_prefix "-" r;
  '(m, r) ← ranged 1 12 (getnum true r); r ← strip_prefix "-" r;
  '(d, r) ← getnum true r; r ← strip_prefix "T" r;
  '(h, r) ← ranged 0 23 (getnum false r); r ← strip_prefix ":" r;
  '(mi, r) ← ranged 0 59 (getnum true r); r ← strip_prefix ":" r;
  '(s, r) ← ranged 0 59 (getnum true r);
  '(ns, r) ← fraction r;
  '(off, r) ← zone r;
  match r with
  | EmptyString =>
      if in_range 1 (daysIn m y) d then
        Some ((days_from_civil y m d * 86400 + h * 3600 + mi * 60 + s - off) * second + ns)
      else None
  | String _ _ => None
  end.

(** The instants [format] writes with a year of four digits. *)
Definition four_digit_year (t : Z) : Prop := -62167219200 * second ≤ t < 253402300800 * second.

(** The instant to the second. *)
Definition truncate (t : Z) : Z := t - t mod second.

Example format_epoch : format 0 = "1970-01-01T00:00:00Z".
Proof. reflexivity. Qed.
Example format_leap : format (1582934399 * second) = "2020-02-28T23:59:59Z".
Proof. reflexivity. Qed.
Example format_leap' : format ((1582934399 + 1) * second + 5) = "2020-02-29T00:00:00Z".
Proof. reflexivity. Qed.
Example format_zero : format zero = "0001-01-01T00:00:00Z".
Proof. reflexivity. Qed.
Example parse_offset : parse "2020-02-29T1:00:00.25+01:00" = Some (1582934400 * second + 250000000).
Proof. reflexivity. Qed.
Example parse_no_leap : parse "2021-02-29T01:00:00Z" = None.
Proof. reflexivity. Qed.
Example parse_range : parse "2021-02-28T24:00:00Z" = None.
Proof. reflexivity. Qed.
Example parse_year_0 : parse "0000-01-01T00:00:00Z" = Some (-62167219200 * second).
Proof. reflexivity. Qed.
Example parse_year_9999 : parse "9999-12-31T23:59:59Z" = Some (253402300799 * second).
Proof. reflexivity. Qed.

(** ** The calendar is right *)

(** The cycle of 400 years: the year and the day of the year of a day. *)
Lemma year_of_era doe :
  0 ≤ doe < 146097 →
  let yoe := (doe - doe / 1460 + doe / 36524 - doe / 146096) / 365 in
  let doy := doe - (365 * yoe + yoe / 4 - yoe / 100) in
  0 ≤ yoe < 400 ∧ 0 ≤ doy ≤ 365 ∧
  (doy = 365 → (yoe + 1) mod 4 = 0 ∧ ((yoe + 1) mod 100 ≠ 0 ∨ (yoe + 1) mod 400 = 0)).
Proof. intros Hd yoe doy. unfold yoe, doy. Z.to_euclidean_division_equations. lia. Qed.

(** The date of a day, from the year of the cycle and the day of that year,
    which starts in March. *)
Definition march_date (era yoe doy : Z) : Z * Z * Z :=
  let mp := (5 * doy + 2) / 153 in
  let m := if mp <? 10 then mp + 3 else mp - 9 in
  (yoe + era * 400 + (if m <=? 2 then 1 else 0), m, doy - (153 * mp + 2) / 5 + 1).

Lemma month_of_year doy :
  0 ≤ doy ≤ 365 → let mp := (5 * doy + 2) / 153 in
  0 ≤ mp ≤ 11 ∧ (153 * mp + 2) / 5 ≤ doy < (153 * (mp + 1) + 2) / 5.
Proof. intros Hd mp. unfold mp. Z.to_euclidean_division_equations. lia. Qed.

Lemma isLeap_spec y :
  isLeap y = true ↔ y mod 4 = 0 ∧ (y mod 100 ≠ 0 ∨ y mod 400 = 0).
Proof.
  unfold isLeap. rewrite andb_true_iff, orb_true_iff, negb_true_iff, !Z.eqb_eq, Z.eqb_neq. done.
Qed.

(** Leap days up to a year. *)
Definition leap_days (y : Z) : Z := y / 4 - y / 100 + y / 400.

Lemma leap_days_step y : leap_days y = leap_days (y - 1) + (if isLeap y then 1 else 0).
Proof.
  unfold leap_days. destruct (isLeap y) eqn:Hl;
    [apply isLeap_spec in Hl|apply not_true_iff_false in Hl; rewrite isLeap_spec in Hl];
    Z.to_euclidean_division_equations; lia.
Qed.

Lemma leap_days_era era yoe :
  0 ≤ yoe < 400 → leap_days (yoe + era * 400) = yoe / 4 - yoe / 100 + era * 97.
Proof. intros Hy. unfold leap_days. Z.to_euclidean_division_equations. lia. Qed.

Lemma days_from_civil_leap y m d :
  days_from_civil y m d =
    365 * (y - 1) + daysBefore (m - 1) + d - 719163
    + (if 3 <=? m then leap_days y else leap_days (y - 1)).
Proof.
  rewrite (leap_days_step y). unfold days_from_civil, leap_days.
  destruct (3 <=? m), (isLeap y); simpl; lia.
Qed.

(** A case of the proof for each month, with the tables evaluated. *)
Ltac each_month mp :=
  let Hmp := fresh in
  assert (mp = 0 ∨ mp = 1 ∨ mp = 2 ∨ mp = 3 ∨ mp = 4 ∨ mp = 5 ∨ mp = 6 ∨ mp = 7 ∨ mp = 8
    ∨ mp = 9 ∨ mp = 10 ∨ mp = 11) as Hmp by lia;
  destruct_or! Hmp; subst mp;
  repeat match goal with
    | |- context [daysBefore ?e] =>
        let v := eval vm_compute in (daysBefore e) in change (daysBefore e) with v
    | |- context [?a <=? ?b] =>
        let v := eval vm_compute in (a <=? b) in change (a <=? b) with v
    | |- context [?a <? ?b] =>
        let v := eval vm_compute in (a <? b) in change (a <? b) with v
    | |- context [(153 * ?k + 2) / 5] =>
        let v := eval vm_compute in ((153 * k + 2) / 5) in change ((153 * k + 2) / 5) with v
    | |- context [?a =? ?b] =>
        let v := eval vm_compute in (a =? b) in change (a =? b) with v
    end; cbv iota; cbn [andb].

Lemma march_date_days era yoe doy y m d :
  0 ≤ yoe < 400 → 0 ≤ doy ≤ 365 →
  march_date era yoe doy = (y, m, d) →
  (doy = 365 → isLeap (yoe + era * 400 + 1) = true) →
  days_from_civil y m d + 719468 = era * 146097 + (365 * yoe + yoe / 4 - yoe / 100) + doy ∧
  1 ≤ m ≤ 12 ∧ 1 ≤ d ≤ daysIn m y.
Proof.
  intros Hyoe Hdoy [= <- <- <-] Hleap. destruct (month_of_year doy Hdoy) as [Hmp Hd].
  revert Hmp Hd. generalize ((5 * doy + 2) / 153). intros mp Hmp Hd.
  rewrite days_from_civil_leap. unfold daysIn.
  pose proof (leap_days_era era yoe Hyoe) as Hera.
  revert Hd. each_month mp; intros Hd;
    rewrite ?Z.add_0_r, ?Z.add_simpl_r, ?Hera;
    try (destruct (isLeap _); [|assert (doy ≠ 365) by (intros ?; discriminate Hleap; done)]); lia.
Qed.

(** Counting the days to a date that has been computed from a day gives the
    day, and the date is one of the calendar. *)
Lemma civil_days z y m d :
  civil_from_days z = (y, m, d) →
  days_from_civil y m d = z ∧ 1 ≤ m ≤ 12 ∧ 1 ≤ d ≤ daysIn m y.
Proof.
  intros Hz. pose proof (Z.mod_pos_bound (z + 719468) 146097 ltac:(lia)) as Hdoe.
  pose proof (Z.div_mod (z + 719468) 146097 ltac:(lia)) as Hera.
  destruct (year_of_era _ Hdoe) as (Hyoe & Hdoy & Hl).
  unfold civil_from_days in Hz. cbv zeta in Hz, Hyoe, Hdoy, Hl.
  set (doe := (z + 719468) mod 146097) in *. set (era := (z + 719468) / 146097) in *.
  set (yoe := (doe - doe / 1460 + doe / 36524 - doe / 146096) / 365) in *.
  set (doy := doe - (365 * yoe + yoe / 4 - yoe / 100)) in *.
  destruct (march_date_days era yoe doy y m d Hyoe Hdoy Hz) as (Hdays & Hm & Hd).
  { intros Heq. apply isLeap_spec. destruct (Hl Heq) as [H4 H100].
    replace (yoe + era * 400 + 1) with (yoe + 1 + era * 4 * 100) by lia. split.
    - replace (yoe + 1 + era * 4 * 100) with (yoe + 1 + era * 100 * 4) by lia. by rewrite Z_mod_plus_full.
    - rewrite Z_mod_plus_full. replace (yoe + 1 + era * 4 * 100) with (yoe + 1 + era * 400) by lia.
      by rewrite Z_mod_plus_full. }
  split_and!; try done; lia.
Qed.

(** The years of four digits. *)
Lemma civil_year z y m d :
  civil_from_days z = (y, m, d) → -719528 ≤ z < 2932897 → 0 ≤ y ≤ 9999.
Proof.
  intros Hz Hr. destruct (civil_days z y m d Hz) as (Hdays & Hm & Hd).
  rewrite days_from_civil_leap in Hdays. unfold leap_days in Hdays.
  assert (1 ≤ daysBefore (m - 1) + d ≤ 365 ∧ (m ≤ 2 → daysBefore (m - 1) + d ≤ 60)) as Hb.
  { unfold daysIn in Hd. assert (∃ mp, m = mp + 1 ∧ 0 ≤ mp ≤ 11) as (mp & -> & Hmp) by (exists (m - 1); lia).
    clear -Hd Hmp. revert Hd. each_month mp; destruct (isLeap y); intros; lia. }
  destruct (Z.leb_spec 3 m); Z.to_euclidean_division_equations; lia.
Qed.

(** ** What is printed is parsed *)
Lemma padded_spec w z :
  (0 < w)%nat → 0 ≤ z < 10 ^ Z.of_nat w →
  len (padded w z) = w ∧ Strconv.digits_val_from 0 (padded w z) = Some z.
Proof.
  intros Hw Hz. destruct w as [|w]; [lia|]. pose proof (Strconv.itoa_length z w Hz) as Hl.
  unfold padded. split; [rewrite length_append, length_zeros; lia|].
  rewrite (Strconv.digits_val_from_append 0 (Float.zeros _)), digits_val_padding by apply all_digits_zeros.
  simpl. by rewrite itoa_from by lia.
Qed.

Lemma getnum_padded fixed z r :
  0 ≤ z < 100 → getnum fixed (padded 2 z +:+ r) = Some (z, r).
Proof.
  intros Hz. destruct (padded_spec 2 z) as [Hl Hv]; [lia|done|].
  destruct (padded 2 z) as [|a [|b [|]]]; try done. rewrite !append_cons, append_nil_l. simpl in *.
  destruct (is_digit a); [|done]. destruct (is_digit b); [|done]. injection Hv as <-. f_equal.
Qed.

Lemma getyear_padded z r : 0 ≤ z < 10000 → getyear (padded 4 z +:+ r) = Some (z, r).
Proof.
  intros Hz. destruct (padded_spec 4 z) as [Hl Hv]; [lia|done|].
  destruct (padded 4 z) as [|a [|b [|c [|d [|]]]]]; try done. rewrite !append_cons, append_nil_l.
  unfold getyear. by rewrite digits_val_ne, Hv.
Qed.

Lemma ranged_padded lo hi fixed z r :
  lo ≤ z ≤ hi → 0 ≤ lo → hi < 100 → ranged lo hi (getnum fixed (padded 2 z +:+ r)) = Some (z, r).
Proof.
  intros Hz Hlo Hhi. rewrite getnum_padded by lia. simpl. unfold in_range.
  by rewrite (proj2 (Z.leb_le lo z)), (proj2 (Z.leb_le z hi)) by lia.
Qed.

Lemma strip_one c r : strip_prefix (String c "") (String c "" +:+ r) = Some r.
Proof. rewrite append_cons, append_nil_l. simpl. by rewrite Ascii.eqb_refl. Qed.

(** An instant of four-digit years, printed and parsed, loses what it has
    below the second. *)
Lemma parse_format t : four_digit_year t → parse (format t) = Some (truncate t).
Proof.
  unfold four_digit_year. intros Ht. unfold format.
  assert (0 < second) by (unfold second; lia).
  assert (-62167219200 ≤ t / second < 253402300800) as Hu.
  { split; [apply Z.div_le_lower_bound|apply Z.div_lt_upper_bound]; lia. }
  set (u := t / second) in *.
  destruct (civil_from_days (u / 86400)) as [[y m] d] eqn:Hc.
  destruct (civil_days _ _ _ _ Hc) as (Hdays & Hm & Hd).
  assert (0 ≤ y ≤ 9999) by (eapply civil_year; [done|]; Z.to_euclidean_division_equations; lia).
  assert (daysIn m y ≤ 31) as H31.
  { unfold daysIn. assert (∃ mp, m = mp + 1 ∧ 0 ≤ mp ≤ 11) as (mp & -> & Hmp) by (exists (m - 1); lia).
    clear -Hmp. each_month mp; destruct (isLeap y); lia. }
  pose proof (Z.mod_pos_bound u 86400 ltac:(lia)) as Hs.
  pose proof (Z.div_mod u 86400 ltac:(lia)) as Hu'. set (s := u mod 86400) in *.
  assert (0 ≤ s / 3600 ≤ 23) by (Z.to_euclidean_division_equations; lia).
  assert (0 ≤ s / 60 mod 60 ≤ 59) by (Z.to_euclidean_division_equations; lia).
  assert (0 ≤ s mod 60 ≤ 59) by (Z.to_euclidean_division_equations; lia).
  unfold parse. rewrite getyear_padded by lia.
  repeat first
    [progress cbn [mbind option_bind]|rewrite strip_one
    |rewrite ranged_padded by lia|rewrite getnum_padded by lia].
  change (fraction "Z") with (Some (0, "Z")). cbn [mbind option_bind].
  change (zone "Z") with (Some (0, "")). cbn [mbind option_bind].
  unfold in_range. rewrite (proj2 (Z.leb_le 1 d)), (proj2 (Z.leb_le d _)) by lia. simpl. f_equal.
  rewrite Hdays. unfold truncate. pose proof (Z.div_mod t second ltac:(lia)) as Ht'.
  assert (s = s / 3600 * 3600 + s / 60 mod 60 * 60 + s mod 60)
    by (Z.to_euclidean_division_equations; lia).
  fold u in Ht'. nia.
Qed.

(** The text is ASCII. *)
Lemma padded_utf8 w z : utf8 (padded w z).
Proof.
  assert (∀ f n acc, Strconv.all_digits acc = true → Strconv.all_digits (Strconv.dec_go f n acc) = true) as Hgo.
  { induction f as [|f IH]; intros n acc Hacc; [done|]. cbn [Strconv.dec_go].
    assert (Strconv.all_digits (String (Strconv.digit (n mod 10)) acc) = true) as Hacc'.
    { cbn [Strconv.all_digits]. rewrite Hacc, andb_true_r.
      apply Strconv.digit_is_digit, Z.mod_pos_bound. lia. }
    destruct (n <? 10); auto. }
  apply utf8_ascii.
  assert (Strconv.all_digits (padded w z) = true) as Hall.
  { unfold padded. rewrite all_digits_app, all_digits_zeros. by apply Hgo. }
  intros c. induction (padded w z) as [|d s IH]; [done|]. cbn in Hall |- *.
  apply andb_prop in Hall as [Hd Hs]. intros [->%Ascii.eqb_eq|Hc]%orb_prop; [|auto].
  unfold is_digit, in_range in Hd. apply andb_prop in Hd as [_ Hd%Z.leb_le]. apply Z.ltb_lt. lia.
Qed.

Lemma format_utf8 t : utf8 (format t).
Proof.
  unfold format. destruct (civil_from_days _) as [[y m] d].
  assert (utf8 "-" ∧ utf8 ":" ∧ utf8 "T" ∧ utf8 "Z") as (? & ? & ? & ?)
    by (split_and!; by apply (bool_decide_unpack _); vm_compute).
  repeat (apply utf8_app; [first [assumption|apply padded_utf8]|]). assumption.
Qed.

(** The zero time is printed as null; within the second after it, it is read
    back as itself. *)
Lemma marshal_cases t :
  (t = zero ∧ marshal t = ANil) ∨ (t ≠ zero ∧ marshal t = AString (format t)).
Proof. unfold marshal. destruct (Z.eqb_spec t zero); auto. Qed.

Lemma four_digit_zero : four_digit_year zero ∧ truncate zero = zero.
Proof. split; [split; vm_compute; congruence|reflexivity]. Qed.
End Rfc3339.
