(* ===== verification/JsonStruct.v ===== *)
(** * JSON into Go structs ([json.Unmarshal])

    The decoder as it fills a struct: how a key finds its field, what each
    type of field takes, which error is kept.  A value of the wrong type is
    remembered as an error and decoding goes on; an error of an [UnmarshalJSON]
    method stops it.  Members that go into different fields can come in any
    order. *)

From S2P Require Import Prelude GoStd GoErrors Json JsonText Times.
From Stdlib Require Import Ascii.

(** ** Errors *)
Definition json_kind (v : json) : string :=
  match v with
  | JNull => "null" | JBool _ => "bool" | JNumber _ => "number"
  | JString _ => "string" | JArray _ => "array" | JObject _ => "object"
  end.

(** [decodeState.errorContext]: the innermost struct and the path of fields
    from the outermost; nothing outside of structs. *)
Definition context : Type := option (string * list string).

(** [*json.UnmarshalTypeError]. *)
Definition type_error (ctx : context) (what type : string) : goerror :=
  ErrorString ("json: cannot unmarshal " +:+ what
    +:+ match ctx with
        | Some (struct, path) => " into Go struct field " +:+ struct +:+ "." +:+ join "." path
        | None => " into Go value"
        end
    +:+ " of type " +:+ type).

(** [saveError]: the first error stays. *)
Definition saveError (ctx : context) (what type : string) (saved : option goerror)
    : option goerror :=
  match saved with Some e => Some e | None => Some (type_error ctx what type) end.

(** The decoder of a place in memory: it takes the value the place has and
    the saved error, and gives both back, or the error it stops with. *)
Definition decoder (A : Type) : Type :=
  context → json → A → option goerror → result (A * option goerror).

(** The wording of [time.Parse] for a text that it rejects. *)
Class TimeErrors := { parse_error : string → goerror }.

(** ** Values of basic types

    A [null] leaves booleans, numbers, strings and structs as they are. *)
Definition decode_string_value (type : string) : decoder string := λ ctx v x saved,
  match v with
  | JNull => inl (x, saved)
  | JString y => inl (y, saved)
  | v => inl (x, saveError ctx (json_kind v) type saved)
  end.

Definition decode_bool : decoder bool := λ ctx v x saved,
  match v with
  | JNull => inl (x, saved)
  | JBool y => inl (y, saved)
  | v => inl (x, saveError ctx (json_kind v) "bool" saved)
  end.

Definition decode_uint32 : decoder Z := λ ctx v x saved,
  match v with
  | JNull => inl (x, saved)
  | JNumber n =>
      match number_uint 32 n with
      | Some z => inl (z, saved)
      | None => inl (x, saveError ctx ("number " +:+ n_lit n) "uint32" saved)
      end
  | v => inl (x, saveError ctx (json_kind v) "uint32" saved)
  end.

(** A pointer to a string type: [null] makes it nil. *)
Definition decode_pointer (type : string) : decoder (option string) := λ ctx v p saved,
  match v with
  | JNull => inl (None, saved)
  | v =>
      match decode_string_value type ctx v (default "" p) saved with
      | inl (x, saved) => inl (Some x, saved)
      | inr e => inr e
      end
  end.

(** [metav1.Time.UnmarshalJSON]. *)
Definition decode_time `{!TimeErrors} : decoder Z := λ ctx v t saved,
  match v with
  | JNull => inl (Rfc3339.zero, saved)
  | JString s =>
      match Rfc3339.parse s with
      | Some t => inl (t, saved)
      | None => inr (parse_error s)
      end
  | v => inr (type_error ctx (json_kind v) "string")
  end.

(** A [map[string]string]: entries are added to the map that is there.  A
    value that does not fit is an empty string. *)
Definition decode_entry (ctx : context) (acc : gmap string string * option goerror)
    (kv : string * json) : gmap string string * option goerror :=
  match kv.2 with
  | JNull => (<[kv.1:=""]> acc.1, acc.2)
  | JString x => (<[kv.1:=x]> acc.1, acc.2)
  | v => (<[kv.1:=""]> acc.1, saveError ctx (json_kind v) "string" acc.2)
  end.
Definition decode_map : decoder (gomap string) := λ ctx v m saved,
  match v with
  | JNull => inl (None, saved)
  | JObject l =>
      let '(m, saved) := foldl (decode_entry ctx) (default ∅ m, saved) l in inl (Some m, saved)
  | v => inl (m, saveError ctx (json_kind v) "map[string]string" saved)
  end.

(** ** Slices

    A slice is filled in place: its elements, and those its array has behind
    them from an earlier and longer value, are decoded over; only an array
    that is too short is replaced.  The second list is what the array has
    behind the slice. *)
Section slice.
Context {A : Type} (zero : A) (elem : decoder A) (type : string).

Fixpoint fill (ctx : context) (l : list json) (array : list A) (saved : option goerror)
    : result (list A * list A * option goerror) :=
  match l with
  | [] => inl ([], array, saved)
  | v :: l =>
      match elem ctx v (default zero (head array)) saved with
      | inr e => inr e
      | inl (x, saved) =>
          match fill ctx l (tail array) saved with
          | inr e => inr e
          | inl (xs, rest, saved) => inl (x :: xs, rest, saved)
          end
      end
  end.

Definition decode_slice : decoder (list A * list A) := λ ctx v s saved,
  match v with
  | JNull | JArray [] => inl (([], []), saved)
  | JArray l => fill ctx l (s.1 ++ s.2) saved
  | v => inl (s, saveError ctx (json_kind v) type saved)
  end.
End slice.

(** ** Structs

    A key selects the field it names, exactly or up to case; other keys are
    skipped. *)
Definition upper (c : ascii) : Z := Z.land (byte_of c) 0xDF.

(** [equalFoldRight]: letters up to case, and the two letters beyond ASCII
    that fold to [s] and [k]. *)
Fixpoint equal_fold (name key : string) : bool :=
  match name with
  | EmptyString => match key with EmptyString => true | _ => false end
  | String a name =>
      match key with
      | EmptyString => false
      | String b rest =>
          if byte_of b <? 128 then
            (Ascii.eqb a b || (in_range 65 90 (upper a) && (upper a =? upper b)))
            && equal_fold name rest
          else
            match map byte_of (String.list_ascii_of_string (String.substring 0 3 key)) with
            | [0xE2; 0x84; 0xAA] =>
                (upper a =? 75) && equal_fold name (String.substring 3 (String.length key - 3) key)
            | [0xC5; 0xBF; _] | [0xC5; 0xBF] =>
                (upper a =? 83) && equal_fold name (String.substring 2 (String.length key - 2) key)
            | _ => false
            end
      end
  end.

(** The decoder of a field, inside of its struct. *)
Definition field {S A} (get : S → A) (set : A → S → S) (d : decoder A) : decoder S :=
  λ ctx v s saved,
    match d ctx v (get s) saved with
    | inl (x, saved) => inl (set x s, saved)
    | inr e => inr e
    end.

(** A struct type: its package, its name, and its fields in the order the
    decoder tries them. *)
Record gostruct (S : Type) := MkStruct {
  st_package : string; st_name : string; st_fields : list (string * decoder S) }.
Arguments MkStruct {S}.
Arguments st_package {S}.
Arguments st_name {S}.
Arguments st_fields {S}.

Section struct.
Context {S : Type} (t : gostruct S).
Implicit Types (s : S) (m : list (string * json)).

Definition find_field (key : string) : option (string * decoder S) :=
  match List.find (λ nf, bool_decide (nf.1 = key)) (st_fields t) with
  | Some nf => Some nf
  | None => List.find (λ nf, equal_fold nf.1 key) (st_fields t)
  end.

Definition decode_member (path : list string) (acc : result (S * option goerror))
    (kv : string * json) : result (S * option goerror) :=
  match acc with
  | inr e => inr e
  | inl (s, saved) =>
      match find_field kv.1 with
      | None => inl (s, saved)
      | Some (name, f) => f (Some (st_name t, path ++ [name])) kv.2 s saved
      end
  end.

Definition decode_struct : decoder S := λ ctx v s saved,
  match v with
  | JNull => inl (s, saved)
  | JObject m =>
      let path := match ctx with Some (_, path) => path | None => [] end in
      foldl (decode_member path) (inl (s, saved)) m
  | v => inl (s, saveError ctx (json_kind v) (st_package t +:+ "." +:+ st_name t) saved)
  end.
End struct.

(** [json.Unmarshal] into a struct that is there, or its first error. *)
Definition unmarshal {S} (t : gostruct S) (s : S) (v : json) : result S :=
  match decode_struct t None v s None with
  | inl (s, None) => inl s
  | inl (_, Some e) => inr e
  | inr e => inr e
  end.

(** ** Documents up to the order of members

    A library that reads a document and prints it again may move the members
    of its objects, at any depth. *)
Inductive reordered : json → json → Prop :=
  | reordered_null : reordered JNull JNull
  | reordered_bool b : reordered (JBool b) (JBool b)
  | reordered_number n : reordered (JNumber n) (JNumber n)
  | reordered_string s : reordered (JString s) (JString s)
  | reordered_array l l' : Forall2 reordered l l' → reordered (JArray l) (JArray l')
  | reordered_object m m1 m' :
      m ≡ₚ m1 → Forall2 (λ kv kv', kv.1 = kv'.1 ∧ reordered kv.2 kv'.2) m1 m' →
      reordered (JObject m) (JObject m').

(** An induction on trees that reaches the values in arrays and objects. *)
Section json_ind.
Context (P : json → Prop) (Hnull : P JNull) (Hbool : ∀ b, P (JBool b))
  (Hnumber : ∀ n, P (JNumber n)) (Hstring : ∀ s, P (JString s))
  (Harray : ∀ l, Forall P l → P (JArray l))
  (Hobject : ∀ m, Forall (λ kv, P kv.2) m → P (JObject m)).

Fixpoint json_ind' (v : json) : P v :=
  match v with
  | JNull => Hnull
  | JBool b => Hbool b
  | JNumber n => Hnumber n
  | JString s => Hstring s
  | JArray l =>
      Harray l ((fix go l : Forall P l :=
        match l with
        | [] => List.Forall_nil _
        | v :: l => List.Forall_cons _ _ _ (json_ind' v) (go l)
        end) l)
  | JObject m =>
      Hobject m ((fix go m : Forall (λ kv, P kv.2) m :=
        match m with
        | [] => List.Forall_nil _
        | kv :: m => List.Forall_cons _ kv _ (json_ind' kv.2) (go m)
        end) m)
  end.
End json_ind.

#[export] Instance reordered_refl : Reflexive reordered.
Proof.
  intros v. induction v as [| | | |l IH|m IH] using json_ind'; [by constructor..| |].
  - constructor. by apply Forall_Forall2_diag.
  - eapply reordered_object; [done|]. apply Forall_Forall2_diag. eapply Forall_impl; [exact IH|]. auto.
Qed.

(** Only the outermost object may have moved its members. *)
Lemma reordered_top m m' : m ≡ₚ m' → reordered (JObject m) (JObject m').
Proof.
  intros Hm. eapply reordered_object; [exact Hm|]. apply Forall_Forall2_diag, Forall_true.
  intros kv. by split.
Qed.

(** ** Members that do not meet

    What a member does to a struct that is ready for it, in whatever order
    its value's own members come. *)
Record put (S : Type) := MkPut {
  p_member : string * json; p_ready : S → Prop; p_set : S → S }.
Arguments MkPut {S}.
Arguments p_member {S}.
Arguments p_ready {S}.
Arguments p_set {S}.

(** A member whose value goes into its field whatever is there. *)
Definition always {S} (kv : string * json) (g : S → S) : put S := MkPut kv (λ _, True) g.

(** A string that is left out when it is empty. *)
Definition string_put {S} (k : string) (set : string → S → S) (v : string) : list (put S) :=
  if bool_decide (v = "") then [] else [always (k, JString (coerce_utf8 v)) (set (coerce_utf8 v))].

Section puts.
Context {S : Type} (t : gostruct S).
Implicit Types (s : S) (p q : put S) (ps : list (put S)).

Definition stores p : Prop :=
  ∃ f, find_field t (p_member p).1 = Some ((p_member p).1, f) ∧
    ∀ v, reordered (p_member p).2 v → ∀ ctx s saved, p_ready p s →
      f ctx v s saved = inl (p_set p s, saved).

Definition independent p q : Prop :=
  (∀ s, p_set p (p_set q s) = p_set q (p_set p s)) ∧
  (∀ s, p_ready p s → p_ready p (p_set q s)) ∧ (∀ s, p_ready q s → p_ready q (p_set p s)).

#[global] Instance independent_sym : Symmetric independent.
Proof. intros p q (Hc & Hp & Hq). by split_and!. Qed.

Lemma pairs_permutation ps ps' :
  ps ≡ₚ ps' → ForallOrdPairs independent ps → ForallOrdPairs independent ps'.
Proof.
  induction 1 as [|p ps ps' Hp IH|p q ps|ps1 ps2 ps3 _ IH1 _ IH2]; auto.
  - inversion_clear 1 as [|? ? Hall Hps]. constructor; [|auto]. by rewrite <-Hp.
  - inversion_clear 1 as [|? ? Hall Hps]. inversion_clear Hps as [|? ? Hall' Hps'].
    inversion_clear Hall as [|? ? Hqp Hall'']. constructor; [|by constructor]. by constructor; [symmetry|].
Qed.

Lemma pairs_sublist ps ps' :
  ps `sublist_of` ps' → ForallOrdPairs independent ps' → ForallOrdPairs independent ps.
Proof.
  induction 1 as [|p ps ps' Hs IH|p ps ps' Hs IH]; inversion_clear 1 as [|? ? Hall Hps].
  - constructor.
  - constructor; [|auto].
    rewrite Forall_forall in *. intros q Hq. by eapply Hall, elem_of_sublist.
  - auto.
Qed.

Definition put_all ps s : S := foldl (λ s p, p_set p s) s ps.

Lemma put_all_permutation ps ps' s :
  ps ≡ₚ ps' → ForallOrdPairs independent ps → put_all ps s = put_all ps' s.
Proof.
  intros Hp. revert s. unfold put_all.
  induction Hp as [|p ps ps' Hp IH|p q ps|ps1 ps2 ps3 Hp1 IH1 Hp2 IH2]; intros s Hps; simpl.
  - done.
  - inversion_clear Hps as [|? ? Hall Hps']. auto.
  - inversion_clear Hps as [|? ? Hall Hps']. inversion_clear Hall as [|? ? (Hc & _ & _) Hall'].
    by rewrite Hc.
  - rewrite IH1 by done. by apply IH2, (pairs_permutation ps1).
Qed.

(** The members of a document, in the order of the puts. *)
Lemma decode_members_puts path ps m s saved :
  Forall stores ps → ForallOrdPairs independent ps → Forall (λ p, p_ready p s) ps →
  Forall2 (λ kv kv', kv.1 = kv'.1 ∧ reordered kv.2 kv'.2) (map p_member ps) m →
  foldl (decode_member t path) (inl (s, saved)) m = inl (put_all ps s, saved).
Proof.
  revert m s. induction ps as [|p ps IH]; intros m s Hst Hind Hready Hm.
  { by inversion Hm. }
  simpl in Hm. apply Forall2_cons_inv_l in Hm as ([k v] & m' & (Hk & Hv) & Hm' & ->).
  apply Forall_cons in Hst as [(f & Hf & Hput) Hst]. apply Forall_cons in Hready as [Hp Hready].
  inversion_clear Hind as [|? ? Hall Hind']. simpl in Hk, Hv. simpl.
  rewrite <-Hk, Hf, (Hput v) by done. apply IH; [done..| |done].
  rewrite Forall_forall in Hall, Hready |- *. intros q Hq.
  destruct (Hall q Hq) as (_ & _ & Hr). auto.
Qed.

(** A struct is read alike from all documents that differ in the order of
    the members. *)
Lemma decode_struct_puts ps v ctx s saved :
  Forall stores ps → ForallOrdPairs independent ps → Forall (λ p, p_ready p s) ps →
  reordered (JObject (map p_member ps)) v →
  decode_struct t ctx v s saved = inl (put_all ps s, saved).
Proof.
  intros Hst Hind Hready Hv. inversion Hv as [| | | | |m m1 m' Hp Hm]; subst. simpl.
  apply Permutation_sym, Permutation_map_inv in Hp as (ps' & -> & Hp).
  rewrite (put_all_permutation ps ps') by done. apply decode_members_puts; [..|exact Hm].
  - by rewrite <-Hp.
  - by eapply pairs_permutation.
  - by rewrite <-Hp.
Qed.

(** A field that takes one value of its type from anywhere. *)
Lemma stores_always {A} k (get : S → A) (set : A → S → S) (d : decoder A) v x :
  find_field t k = Some (k, field get set d) →
  (∀ v', reordered v v' → ∀ ctx y saved, d ctx v' y saved = inl (x, saved)) →
  stores (always (k, v) (set x)).
Proof.
  intros Hk Hd. exists (field get set d). split; [done|]. simpl. intros v' Hv ctx s saved _.
  unfold field. by rewrite (Hd v').
Qed.

Lemma string_put_ready k set v s : Forall (λ p, p_ready p s) (string_put k set v).
Proof. unfold string_put. case_bool_decide; by repeat constructor. Qed.

Lemma decode_string_reordered type x v :
  reordered (JString x) v → ∀ ctx y saved, decode_string_value type ctx v y saved = inl (x, saved).
Proof. by inversion 1. Qed.

Lemma stores_string_put k type (get : S → string) set v :
  find_field t k = Some (k, field get set (decode_string_value type)) →
  Forall stores (string_put k set v).
Proof.
  intros Hk. unfold string_put. case_bool_decide; constructor; [|constructor].
  eapply stores_always; [done|]. apply decode_string_reordered.
Qed.
End puts.

(** ** Writing structs

    [json.Marshal] prints the fields of a struct in the order of its
    declaration and leaves out the empty fields tagged [omitempty]. *)
Definition omitempty (k v : string) : obj :=
  if bool_decide (v = "") then [] else [(k, AString v)].

Section write.
Context {S : Type}.
Implicit Types (s : S) (set : string → S → S).

Lemma string_put_members k set v :
  coerce_utf8 k = k → map p_member (string_put k set v) = map member_tree (omitempty k v).
Proof.
  intros Hk. unfold string_put, omitempty. case_bool_decide; [done|].
  unfold member_tree; simpl. by rewrite Hk.
Qed.

Lemma put_all_string k set v s :
  set "" s = s → put_all (string_put k set v) s = set (coerce_utf8 v) s.
Proof.
  intros Hs. unfold string_put. case_bool_decide as Hv; [|done]. rewrite Hv. simpl.
  change (coerce_utf8 "") with "". by rewrite Hs.
Qed.

Lemma put_all_app (ps qs : list (put S)) s : put_all (ps ++ qs) s = put_all qs (put_all ps s).
Proof. apply foldl_app. Qed.

(** Fewer puts: what is left out is one of the empty fields. *)
Lemma string_put_sublist k set v :
  string_put k set v `sublist_of` [always (k, JString (coerce_utf8 v)) (set (coerce_utf8 v))].
Proof. unfold string_put. case_bool_decide; [apply sublist_nil_l|done]. Qed.
End write.

(** The puts of a struct, from the innermost on. *)
Ltac put_strings :=
  repeat match goal with
    | |- context [put_all (string_put ?k ?set ?v) ?s] =>
        rewrite (put_all_string k set v s) by reflexivity
    end.

(** An array with nothing behind it is filled with new elements. *)
Lemma fill_fresh {A B} (zero : A) (elem : decoder A) (doc : B → json) (f : B → A) l l' ctx saved :
  Forall2 reordered (map doc l) l' →
  (∀ x v, x ∈ l → reordered (doc x) v → ∀ ctx saved, elem ctx v zero saved = inl (f x, saved)) →
  fill zero elem ctx l' [] saved = inl (map f l, [], saved).
Proof.
  revert l' saved. induction l as [|x l IH]; intros l' saved Hl Helem.
  { by inversion Hl. }
  simpl in Hl. apply Forall2_cons_inv_l in Hl as (v & l1 & Hv & Hl & ->). simpl.
  rewrite (Helem x v) by (done || by left). rewrite IH; [done..|].
  intros y w Hy. apply Helem. by right.
Qed.

(** The documents of a list, a slice that was empty before. *)
Lemma decode_slice_fresh {A B} (zero : A) (elem : decoder A) (doc : B → json) (f : B → A) type
    l v ctx saved :
  reordered (JArray (map doc l)) v →
  (∀ x v, x ∈ l → reordered (doc x) v → ∀ ctx saved, elem ctx v zero saved = inl (f x, saved)) →
  decode_slice zero elem type ctx v ([], []) saved = inl (map f l, [], saved).
Proof.
  intros Hv Helem. inversion Hv as [| | | |l0 l' Hl|]; subst.
  destruct l' as [|w l']; [by destruct l; inversion Hl|]. cbn [decode_slice fst snd app].
  by apply (fill_fresh zero elem doc f).
Qed.
