(* ===== verification/JsonTypes.v ===== *)
(** * The values the JSON decoder builds

    What [json.Unmarshal] can put into an [interface{}]: strings of valid
    UTF-8, objects sorted by key without duplicates, floats for numbers, all
    nested at most as deep as the decoder goes.  On these values encoding and
    decoding are inverse to each other. *)

From S2P Require Import Prelude GoStd GoErrors Json Floats JsonText FloatText.
From Stdlib Require Import Ascii.

(** ** Sorted objects *)
Definition key_below (k : string) (m : obj) : bool :=
  match m with [] => true | (k', _) :: _ => bool_decide (str_compare k k' = Lt) end.

Fixpoint obj_sorted (m : obj) : bool :=
  match m with [] => true | (k, _) :: r => key_below k r && obj_sorted r end.

Lemma key_below_set k k' v m :
  str_compare k k' = Lt → key_below k m = true → key_below k (obj_set k' v m) = true.
Proof.
  intros Hk Hm. destruct m as [|[k1 v1] m]; simpl; [by apply bool_decide_eq_true|].
  destruct (str_compare k' k1); simpl; [by apply bool_decide_eq_true|by apply bool_decide_eq_true|done].
Qed.

Lemma obj_set_sorted k v m : obj_sorted m = true → obj_sorted (obj_set k v m) = true.
Proof.
  induction m as [|[k' v'] m IH]; [done|]. simpl. intros [Hb Hs]%andb_prop.
  destruct (str_compare k k') eqn:Hk; simpl.
  - apply str_compare_eq in Hk as ->. by rewrite Hb, Hs.
  - by rewrite bool_decide_eq_true_2, Hb, Hs by done.
  - apply str_compare_gt in Hk. by rewrite key_below_set, IH by done.
Qed.

(** Keys in order are appended. *)
Lemma obj_set_last k v m :
  obj_sorted m = true → Forall (λ kv, str_compare kv.1 k = Lt) m → obj_set k v m = m ++ [(k, v)].
Proof.
  intros _. induction 1 as [|[k' v'] m Hk Hall IH]; [done|]. simpl in *.
  apply str_compare_gt in Hk. rewrite Hk. by rewrite IH.
Qed.

Lemma obj_sorted_below k v m :
  obj_sorted ((k, v) :: m) = true → Forall (λ kv, str_compare k kv.1 = Lt) m.
Proof.
  revert k v. induction m as [|[k' v'] m IH]; intros k v; [constructor|]. simpl.
  intros (Hb%bool_decide_eq_true & Hs)%andb_prop. constructor; [done|].
  eapply Forall_impl; [by eapply (IH k' v')|]. intros kv. by apply str_compare_trans.
Qed.

(** The entries of a sorted object, set one after the other, are the object. *)
Lemma obj_set_all acc m :
  obj_sorted (acc ++ m) = true → obj_sorted acc = true →
  foldl (λ acc kv, obj_set kv.1 kv.2 acc) acc m = acc ++ m.
Proof.
  revert acc. induction m as [|[k v] m IH]; intros acc Hs Ha; [by rewrite app_nil_r|].
  assert (Forall (λ kv, str_compare kv.1 k = Lt) acc) as Hbelow.
  { clear IH Ha. induction acc as [|[k' v'] acc IHa]; [constructor|].
    assert (obj_sorted (acc ++ (k, v) :: m) = true) as Hs' by (simpl in Hs; by apply andb_prop in Hs as [_ ?]).
    constructor; [|auto]. apply (obj_sorted_below k' v') in Hs.
    rewrite Forall_app in Hs. destruct Hs as [_ Hs]. by inversion Hs. }
  simpl. rewrite (obj_set_last k v acc) by done. change ((k, v) :: m) with ([(k, v)] ++ m) in *.
  rewrite app_assoc in *. apply IH; [done|].
  assert (∀ l1 l2, obj_sorted (l1 ++ l2) = true → obj_sorted l1 = true) as Hpre; [|by eapply Hpre].
  clear. induction l1 as [|[k v] [|[k' v'] l1] IH]; intros l2; [done|done|].
  simpl. intros [Hb Hs]%andb_prop. apply IH in Hs. simpl in Hs. by rewrite Hb, Hs.
Qed.

(** ** Types *)

(** Objects are sorted, their keys valid. *)
Fixpoint canonical (v : any) : bool :=
  match v with
  | ASlice l | AMapSlice l => forallb canonical l
  | AMap m => obj_sorted m && forallb (λ kv, bool_decide (utf8 kv.1) && canonical kv.2) m
  | _ => true
  end.

(** Values of the types the decoder chooses, their strings valid and their
    numbers float64. *)
Fixpoint decoder_type (v : any) : bool :=
  match v with
  | AFloat f => canonical_float (Float.mant f) (Float.expo f)
  | AString s => bool_decide (utf8 s)
  | AInt _ | AMapSlice _ => false
  | ASlice l => forallb decoder_type l
  | AMap m => forallb (λ kv, decoder_type kv.2) m
  | _ => true
  end.

(** The value of these types that a value is printed as. *)
Fixpoint norm (v : any) : any :=
  match v with
  | AInt z => match number_float (int_number z) with Some f => AFloat f | None => ANil end
  | AString s => AString (coerce_utf8 s)
  | ASlice l | AMapSlice l => ASlice (map norm l)
  | AMap m => AMap (map (λ kv, (kv.1, norm kv.2)) m)
  | v => v
  end.

Lemma norm_id v : decoder_type v = true → norm v = v.
Proof.
  induction v as [|b|f|z|s|l IH|l IH|m IH] using any_ind'; try done; cbn [decoder_type norm]; intros Hv.
  - f_equal. apply coerce_utf8_id. by apply bool_decide_eq_true in Hv.
  - f_equal. pose proof (Forall_forallb _ _ _ IH Hv) as Hall. clear IH Hv.
    induction Hall; [done|]. simpl. by f_equal.
  - f_equal. pose proof (Forall_forallb _ (λ kv, decoder_type kv.2) _ IH Hv) as Hall. clear IH Hv.
    induction Hall as [|[k v] m Hk Hall IH]; [done|]. simpl in *. by rewrite Hk, IH.
Qed.

Lemma obj_sorted_map (f : any → any) m :
  obj_sorted (map (λ kv, (kv.1, f kv.2)) m) = obj_sorted m.
Proof. induction m as [|[k v] [|[k' v'] m] IH]; [done..|]. simpl in *. by rewrite IH. Qed.

(** Their numbers are read back. *)
Lemma decoder_type_prints v : decoder_type v = true → floats_print v = true.
Proof.
  induction v as [|b|f|z|s|l IH|l IH|m IH] using any_ind'; try done;
    cbn [decoder_type floats_print]; intros Hv.
  - by apply float_read_back.
  - pose proof (Forall_forallb _ _ _ IH Hv) as Hall. rewrite Forall_forall in Hall.
    apply forallb_forall. intros x Hx%list_elem_of_In. auto.
  - pose proof (Forall_forallb _ (λ kv, decoder_type kv.2) _ IH Hv) as Hall.
    rewrite Forall_forall in Hall. apply forallb_forall. intros x Hx%list_elem_of_In. auto.
Qed.

(** Decoding the text of a value gives the value, in the decoder's types. *)
Lemma to_any_tree v :
  canonical v = true → floats_print v = true → (to_any (tree v)).1 = norm v.
Proof.
  induction v as [|b|f|z|s|l IH|l IH|m IH] using any_ind'; try done;
    cbn [canonical floats_print tree norm]; intros Hc Hf.
  - destruct (float_prints_number f Hf) as (n & -> & Hn). simpl. by rewrite Hn.
  - cbn [to_any]. by destruct (number_float (int_number z)).
  - simpl. f_equal. revert Hc Hf. induction IH as [|v l Hv Hall IH]; [done|]. simpl.
    intros [? ?]%andb_prop [? ?]%andb_prop. rewrite Hv by done. f_equal. auto.
  - simpl. f_equal. revert Hc Hf. induction IH as [|v l Hv Hall IH]; [done|]. simpl.
    intros [? ?]%andb_prop [? ?]%andb_prop. rewrite Hv by done. f_equal. auto.
  - apply andb_prop in Hc as [Hs Hc]. simpl. f_equal.
    set (m' := map (λ kv, (kv.1, norm kv.2)) m).
    transitivity (foldl (λ acc kv, obj_set kv.1 kv.2 acc) [] m').
    + unfold m'. clear m' Hs. generalize (@nil (string * any)). revert Hc Hf.
      induction IH as [|[k v] m Hv Hall IH]; [done|]. simpl in *.
      intros [[Hk%bool_decide_eq_true%coerce_utf8_id Hcv]%andb_prop Hcm]%andb_prop
        [Hfv Hfm]%andb_prop acc. rewrite Hk, Hv by done. by apply IH.
    + rewrite obj_set_all; [done|..|done]. unfold m'. simpl. by rewrite obj_sorted_map.
Qed.

(** ** What the decoder gives *)

(** The strings of a tree are valid, and it is at most [d] deep. *)
Fixpoint json_ok (d : nat) (v : json) {struct v} : Prop :=
  match v with
  | JString s => utf8 s
  | JArray l =>
      match d with O => False | S d => foldr (λ x P, json_ok d x ∧ P) True l end
  | JObject m =>
      match d with
      | O => False
      | S d => foldr (λ kv P, (utf8 kv.1 ∧ json_ok d kv.2) ∧ P) True m
      end
  | _ => True
  end.

Lemma decode_ok f :
  (∀ d s v r, decode_value f d s = Some (v, r) → json_ok d v) ∧
  (∀ d s l r, decode_elements f d s = Some (l, r) → foldr (λ x P, json_ok d x ∧ P) True l) ∧
  (∀ d s m r, decode_members f d s = Some (m, r) →
     foldr (λ kv P, (utf8 kv.1 ∧ json_ok d kv.2) ∧ P) True m).
Proof.
  induction f as [|f (IHv & IHe & IHm)]; [done|]. split_and!.
  - intros d s v r. cbn [decode_value]. destruct s as [|c s]; [done|]. case_match.
    { destruct d as [|d]; [done|]. case_match; [by intros [= <- _]|].
      destruct (decode_members f d (skip_space s)) as [[m t]|] eqn:Hm; cbn [mbind option_bind]; [|done].
      intros [= <- _]. by eapply IHm. }
    case_match.
    { destruct d as [|d]; [done|]. case_match; [by intros [= <- _]|].
      destruct (decode_elements f d (skip_space s)) as [[m t]|] eqn:Hm; cbn [mbind option_bind]; [|done].
      intros [= <- _]. by eapply IHe. }
    case_match.
    { destruct (decode_string (String c s)) as [[x t]|] eqn:Hd; cbn [mbind option_bind]; [|done].
      intros [= <- _]. by eapply decode_string_utf8. }
    do 3 (case_match;
      [destruct (strip_prefix _ (String c s)) as [t|] eqn:Hp; cbn [mbind option_bind]; [|done];
       by intros [= <- _]|]).
    destruct (decode_number (String c s)) as [[x t]|] eqn:Hd; cbn [mbind option_bind]; [|done].
    by intros [= <- _].
  - intros d s l r. cbn [decode_elements].
    destruct (decode_value f d s) as [[x t]|] eqn:Hx; cbn [mbind option_bind]; [|done].
    apply IHv in Hx. case_match; [by intros [= <- _]|].
    destruct (strip_prefix "," (skip_space t)) as [u|] eqn:Hq; cbn [mbind option_bind]; [|done].
    destruct (decode_elements f d (skip_space u)) as [[l' w]|] eqn:Hl; cbn [mbind option_bind]; [|done].
    apply IHe in Hl. by intros [= <- _].
  - intros d s m r. cbn [decode_members].
    destruct (decode_string s) as [[k a]|] eqn:Hk; cbn [mbind option_bind]; [|done].
    apply decode_string_utf8 in Hk.
    destruct (strip_prefix ":" (skip_space a)) as [b|] eqn:Hb; cbn [mbind option_bind]; [|done].
    destruct (decode_value f d (skip_space b)) as [[x t]|] eqn:Hx; cbn [mbind option_bind]; [|done].
    apply IHv in Hx. case_match; [by intros [= <- _]|].
    destruct (strip_prefix "," (skip_space t)) as [u|] eqn:Hq; cbn [mbind option_bind]; [|done].
    destruct (decode_members f d (skip_space u)) as [[l w]|] eqn:Hl; cbn [mbind option_bind]; [|done].
    apply IHm in Hl. by intros [= <- _].
Qed.

(** A typed value: what the decoder may build, within a depth. *)
Definition typed (d : nat) (v : any) : Prop :=
  canonical v = true ∧ decoder_type v = true ∧ (height v ≤ d)%nat.

(** The part of it that concerns the entries of an object. *)
Definition entries_typed (d : nat) (m : obj) : Prop :=
  obj_sorted m = true ∧ Forall (λ kv, utf8 kv.1 ∧ typed d kv.2) m.

Lemma typed_map d m : typed (S d) (AMap m) ↔ entries_typed d m.
Proof.
  unfold entries_typed, typed. cbn [canonical decoder_type height]. split.
  - intros ([Hs Hc]%andb_prop & Ht & Hh). split; [done|]. clear Hs. revert Hc Ht Hh.
    intros Hc Ht Hh%le_S_n. revert Hc Ht Hh. induction m as [|[k v] m IH]; [constructor|].
    cbn [forallb max_list_with fst snd].
    intros [[?%bool_decide_eq_true ?]%andb_prop ?]%andb_prop [? ?]%andb_prop Hh.
    constructor; [split_and!; cbn [fst snd]; [done..|lia]|]. apply IH; [done..|lia].
  - intros [Hs Hall]. rewrite Hs. cbn [andb]. clear Hs.
    induction Hall as [|[k v] m (Hk & Hc & Ht & Hh) Hall (IHc & IHt & IHh)]; simpl in *.
    + split_and!; [done..|lia].
    + rewrite bool_decide_eq_true_2, Hc, IHc, Ht, IHt by done. split_and!; [done..|lia].
Qed.

Lemma typed_slice d l : typed (S d) (ASlice l) ↔ Forall (typed d) l.
Proof.
  unfold typed. cbn [canonical decoder_type height]. split.
  - intros (Hc & Ht & Hh%le_S_n). revert Hc Ht Hh. induction l as [|v l IH]; [constructor|].
    cbn [forallb max_list_with]. intros [? ?]%andb_prop [? ?]%andb_prop Hh.
    constructor; [split_and!; [done..|lia]|]. apply IH; [done..|lia].
  - induction 1 as [|v l (Hc & Ht & Hh) Hall (IHc & IHt & IHh)]; simpl in *.
    + split_and!; [done..|lia].
    + rewrite Hc, IHc, Ht, IHt. split_and!; [done..|lia].
Qed.

Lemma obj_set_entries d k v m :
  entries_typed d m → utf8 k → typed d v → entries_typed d (obj_set k v m).
Proof.
  intros [Hs Hall] Hk Hv. split; [by apply obj_set_sorted|]. clear Hs.
  induction Hall as [|[k' v'] m [Hk' Hv'] Hall IH]; simpl.
  - by apply Forall_singleton.
  - by destruct (str_compare k k'); rewrite ?Forall_cons.
Qed.

Lemma obj_set_map (f : any → any) k v m :
  map (λ kv, (kv.1, f kv.2)) (obj_set k v m) = obj_set k (f v) (map (λ kv, (kv.1, f kv.2)) m).
Proof.
  induction m as [|[k' v'] m IH]; simpl; [done|]. destruct (str_compare k k'); simpl; by f_equal.
Qed.

(** What [m[k] = v] does to the measures of an object. *)
Lemma obj_set_forallb p k v m :
  forallb p m = true → p (k, v) = true → forallb p (obj_set k v m) = true.
Proof.
  intros Hm Hv. induction m as [|[k' v'] m IH]; simpl in *; [by rewrite Hv|].
  apply andb_prop in Hm as [Hk' Hm].
  destruct (str_compare k k'); simpl; rewrite ?Hv, ?Hk', ?Hm; simpl; auto.
Qed.

Lemma obj_set_height k v m :
  (max_list_with (λ kv, height kv.2) (obj_set k v m) ≤
   Nat.max (height v) (max_list_with (λ kv, height kv.2) m))%nat.
Proof.
  induction m as [|[k' v'] m IH]; simpl; [lia|]. destruct (str_compare k k'); simpl; lia.
Qed.

Lemma obj_get_measures p k v m :
  obj_get k m = Some v → forallb p m = true →
  p (k, v) = true ∧ (height v ≤ max_list_with (λ kv, height kv.2) m)%nat.
Proof.
  induction m as [|[k' v'] m IH]; simpl; [done|]. intros Hk [Hp Hm]%andb_prop.
  case_bool_decide; [injection Hk as <-; subst; split; [done|lia]|].
  destruct (IH Hk Hm). split; [done|lia].
Qed.

Lemma obj_get_entries d k v m : entries_typed d m → obj_get k m = Some v → typed d v.
Proof.
  intros [_ Hall]. induction Hall as [|[k' v'] m [Hk' Hv'] Hall IH]; simpl; [done|].
  case_bool_decide; [by intros [= <-]|done].
Qed.

Lemma to_any_typed v d : json_ok d v → typed d (to_any v).1.
Proof.
  revert v. induction d as [|d IH]; intros [|b|n|s|l|m]; simpl; try done;
    try (destruct (number_float n) as [f|] eqn:Hf; [apply number_float_canonical in Hf|];
         repeat split; simpl; done || lia);
    try (intros Hs; repeat split; [by apply bool_decide_eq_true|simpl; lia]);
    try (by intros _; repeat split; simpl; lia).
  - intros Hl. apply typed_slice. revert Hl. induction l as [|x l IHl]; simpl; [constructor|].
    intros [Hx Hl]. constructor; auto.
  - intros Hm. apply typed_map.
    assert (∀ acc, entries_typed d acc →
      entries_typed d (foldl (λ acc kv, obj_set kv.1 kv.2.1 acc) acc
        (map (λ kv : string * json, (kv.1, to_any kv.2)) m))) as Hgen; [|by apply Hgen].
    induction m as [|[k x] m IHm]; intros acc Hacc; simpl in *; [done|].
    destruct Hm as [[Hk Hx] Hm]. apply IHm; [done|]. apply obj_set_entries; auto.
Qed.

Lemma decode_document_typed s v :
  decode_document s = Some v → typed maxNestingDepth (to_any v).1.
Proof.
  unfold decode_document. intros Hs.
  destruct (decode_value _ _ _) as [[x r]|] eqn:Hd; simpl in Hs; [|done].
  apply to_any_typed. destruct (skip_space r); [|done]. injection Hs as <-.
  by apply (proj1 (decode_ok _)) in Hd.
Qed.

(** ** The round trip *)

(** Encoding and decoding are inverse: the text of a value is decoded as the
    value, for every value of the types the decoder builds. *)
Lemma encode_decode (v : any) (Hv : typed maxNestingDepth v) :
  fst ∘ to_any <$> decode_document (encode v) = Some v.
Proof.
  destruct Hv as (Hc & Ht & Hh). apply decoder_type_prints in Ht as Hf.
  rewrite decode_document_encode by done. simpl. by rewrite to_any_tree, norm_id.
Qed.

(** A document with every kind of value, spaces and escapes. *)
Definition example_document : string :=
  ticks "{ 'b': [1, -2.5e3, null, true], 'a': {'x': '\u00e9\n', 'b': {}}, 'b': [0.1] }".
Definition example_value : any := default ANil (fst ∘ to_any <$> decode_document example_document).

Example example_printed :
  encode example_value =
  ticks "{'a':{'b':{},'x':'" +:+ encode_utf8 0xE9 +:+ ticks "\n'},'b':[0.1]}".
Proof. vm_compute. reflexivity. Qed.

Example example_read_back :
  fst ∘ to_any <$> decode_document (encode example_value) = Some example_value.
Proof.
  apply encode_decode.
  split; [vm_compute; reflexivity|]. split; [vm_compute; reflexivity|].
  apply Nat.leb_le. vm_compute. reflexivity.
Qed.
