(* ===== verification/UserData.v ===== *)
(** * The ignition user data ([addHostnameToUserData] in pkg/kubevirt/kubevirt.go)

    The user data of a machine is an ignition document.  Before it goes into
    the secret of the virtual machine, a file with the host name is added to
    its list of files.  The function decodes the document into a
    [map[string]interface{}], ignores the decoder's error, and reaches the
    list through type assertions that panic. *)

From S2P Require Import Prelude GoStd GoErrors Json JsonText JsonTypes.

(** [json.Unmarshal(src, &dataMap)] with its error dropped: the map stays nil
    unless the document is an object. *)
Definition unmarshal_map (src : string) : option obj :=
  match fst ∘ to_any <$> decode_document src with
  | Some (AMap m) => Some m
  | _ => None
  end.

(** The dynamic type a failed assertion names. *)
Definition type_name (v : any) : string :=
  match v with
  | ANil => "nil"
  | ABool _ => "bool"
  | AFloat _ => "float64"
  | AInt _ => "int"
  | AString _ => "string"
  | ASlice _ => "[]interface {}"
  | AMapSlice _ => "[]map[string]interface {}"
  | AMap _ => "map[string]interface {}"
  end.

Definition assertion_panic {A} (v : any) (want : string) : outcome A :=
  Panic ("interface conversion: interface {} is " +:+ type_name v +:+ ", not " +:+ want).

(** [v.(map[string]interface{})] and [v.([]map[string]interface{})]. *)
Definition assert_map (v : any) : outcome obj :=
  match v with
  | AMap m => Ret m
  | _ => assertion_panic v "map[string]interface {}"
  end.
Definition assert_map_slice (v : any) : outcome (list any) :=
  match v with
  | AMapSlice l => Ret l
  | _ => assertion_panic v "[]map[string]interface {}"
  end.

(** [if _, ok := m[k]; !ok { m[k] = v }]. *)
Definition set_default (k : string) (v : any) (m : obj) : obj :=
  match obj_get k m with Some _ => m | None => obj_set k v m end.

Definition newFile (hostname : string) : any :=
  AMap [("contents", AMap [("source", AString ("data:," +:+ hostname))]);
        ("filesystem", AString "root");
        ("mode", AInt 420);
        ("path", AString "/etc/hostname")].

(** The edit of the decoded map.  [storage] is the map inside [dataMap], so
    what is assigned to it is seen through [dataMap]. *)
Definition add_hostname_file (dataMap : obj) (hostname : string) : outcome obj :=
  let dataMap := set_default "storage" (AMap []) dataMap in
  storage ← assert_map (default ANil (obj_get "storage" dataMap));
  let storage := set_default "files" (AMapSlice []) storage in
  files ← assert_map_slice (default ANil (obj_get "files" storage));
  let storage := obj_set "files" (AMapSlice (files ++ [newFile hostname])) storage in
  mret (obj_set "storage" (AMap storage) dataMap).

(** [addHostnameToUserData]; reading a nil map finds nothing, so a nil
    [dataMap] panics at the assignment of its storage.  Encoding a decoded
    tree does not fail. *)
Definition addHostnameToUserData (src : string) (hostname : string) : outcome (result string) :=
  match unmarshal_map src with
  | None => Panic "assignment to entry in nil map"
  | Some dataMap =>
      m ← add_hostname_file dataMap hostname;
      mret (inl (encode (AMap m)))
  end.

(** ** What the function does *)

(** The documents it accepts: an object whose storage, if it has one, is an
    object without files. *)
Definition acceptable (dataMap : obj) : bool :=
  match obj_get "storage" dataMap with
  | None => true
  | Some (AMap storage) => match obj_get "files" storage with None => true | Some _ => false end
  | Some _ => false
  end.

Definition storage_of (dataMap : obj) : obj :=
  match obj_get "storage" dataMap with Some (AMap storage) => storage | _ => [] end.

(** The edited document. *)
Definition with_hostname_file (dataMap : obj) (hostname : string) : obj :=
  obj_set "storage"
    (AMap (obj_set "files" (AMapSlice [newFile hostname]) (storage_of dataMap)))
    dataMap.

Lemma obj_set_set k v v' m : obj_set k v (obj_set k v' m) = obj_set k v m.
Proof.
  induction m as [|[k' x] m IH]; simpl; [by rewrite (proj2 (str_compare_eq k k))|].
  destruct (str_compare k k') eqn:Hc; simpl.
  - by rewrite (proj2 (str_compare_eq k k)).
  - by rewrite (proj2 (str_compare_eq k k)).
  - by rewrite Hc, IH.
Qed.

Lemma set_default_get k v m :
  obj_get k (set_default k v m) = Some (default v (obj_get k m)).
Proof. unfold set_default. destruct (obj_get k m) eqn:E; simpl; [done|apply obj_get_set]. Qed.

Lemma set_default_set k v v' m : obj_set k v (set_default k v' m) = obj_set k v m.
Proof. unfold set_default. destruct (obj_get k m); [done|apply obj_set_set]. Qed.

(** The decoder never builds the slice type the function asserts. *)
Lemma decoded_not_map_slice x l : (to_any x).1 ≠ AMapSlice l.
Proof. destruct x as [| |n| | |]; simpl; try done. by destruct (number_float n). Qed.

Lemma unmarshal_map_tree src m :
  unmarshal_map src = Some m → ∃ ms, (to_any (JObject ms)).1 = AMap m.
Proof.
  unfold unmarshal_map. destruct (decode_document src) as [[| |n| | |ms]|]; simpl; try done.
  - by destruct (number_float n).
  - intros [= <-]. by exists ms.
Qed.

Lemma stored_files_not_map_slice src m st f l :
  unmarshal_map src = Some m → obj_get "storage" m = Some (AMap st) →
  obj_get "files" st = Some f → f ≠ AMapSlice l.
Proof.
  intros [ms Hm]%unmarshal_map_tree Hs Hf.
  destruct (obj_get_to_any _ _ _ _ Hm Hs) as (x & _ & Hx).
  destruct x as [| |n| | |ms']; try done; [by simpl in Hx; destruct (number_float n)|].
  destruct (obj_get_to_any _ _ _ _ (eq_sym Hx) Hf) as (y & _ & ->).
  apply decoded_not_map_slice.
Qed.

Lemma add_hostname_file_ok m h :
  acceptable m = true → add_hostname_file m h = Ret (with_hostname_file m h).
Proof.
  unfold acceptable, with_hostname_file, storage_of, add_hostname_file. intros Ha.
  rewrite set_default_get. simpl.
  destruct (obj_get "storage" m) as [[]|] eqn:Hs; simpl in *; try done.
  - rewrite set_default_get. simpl. destruct (obj_get "files" m0); simpl in *; [done|].
    by rewrite !set_default_set.
  - by rewrite set_default_set.
Qed.

Lemma add_hostname_file_panic src m h :
  unmarshal_map src = Some m → acceptable m = false →
  ∃ msg, add_hostname_file m h = Panic msg.
Proof.
  unfold acceptable, add_hostname_file. intros Hm Ha. rewrite set_default_get. simpl.
  destruct (obj_get "storage" m) as [[]|] eqn:Hs; simpl in *; eauto; [|done].
  rewrite set_default_get. simpl. destruct (obj_get "files" m0) as [f|] eqn:Hf; [|done].
  destruct f; simpl; eauto. by destruct (stored_files_not_map_slice _ _ _ _ l Hm Hs Hf).
Qed.

Lemma unmarshal_typed src m : unmarshal_map src = Some m → typed maxNestingDepth (AMap m).
Proof.
  unfold unmarshal_map. destruct (decode_document src) as [d|] eqn:Hd; [|done].
  apply decode_document_typed in Hd. simpl. destruct (to_any d).1; try done.
  by intros [= ->].
Qed.

(** A text that decodes into a map whose storage, if it has one, is an
    object without files. *)
Definition accepted (src : string) : bool :=
  if unmarshal_map src is Some m then acceptable m else false.

(** C20: On the texts it accepts [addHostnameToUserData] returns a document,
    and on all the others it panics, so that it never returns an error: it
    panics on text that does not decode into a map, on a storage entry that
    is not an object, and on a storage that already lists files. *)
Theorem addHostname_returns_iff (src hostname : string) :
  if accepted src
  then ∃ doc, addHostnameToUserData src hostname = Ret (inl doc)
  else ∃ msg, addHostnameToUserData src hostname = Panic msg.
Proof.
  unfold addHostnameToUserData, accepted. destruct (unmarshal_map src) as [m|] eqn:Hm; [|by eauto].
  destruct (acceptable m) eqn:Ha; [rewrite add_hostname_file_ok by done; by eauto|].
  destruct (add_hostname_file_panic _ _ hostname Hm Ha) as [msg ->]. by eauto.
Qed.

(** On an accepted document the result is the JSON of that document with
    one change: its storage lists the host name file, and every other entry
    of the document and of its storage is the one that was decoded. *)
Lemma addHostname_result (src hostname : string) (m : obj)
    (Hm : unmarshal_map src = Some m) (Ha : acceptable m = true) :
  ∃ m', addHostnameToUserData src hostname = Ret (inl (encode (AMap m'))) ∧
    (∀ k, k ≠ "storage" → obj_get k m' = obj_get k m) ∧
    ∃ st', obj_get "storage" m' = Some (AMap st') ∧
      obj_get "files" st' = Some (AMapSlice [newFile hostname]) ∧
      ∀ k, k ≠ "files" → obj_get k st' = obj_get k (storage_of m).
Proof.
  exists (with_hostname_file m hostname).
  unfold addHostnameToUserData. rewrite Hm, add_hostname_file_ok by done.
  unfold with_hostname_file. split; [done|]. split; [by intros k ?; rewrite obj_get_set_ne|].
  eexists. split; [apply obj_get_set|]. split; [apply obj_get_set|].
  intros k ?. by rewrite obj_get_set_ne.
Qed.

(** ** The text that comes out *)

(** The entry for the host name, as the decoder reads it: the mode is a
    float, the host name valid UTF-8. *)
Definition file_420 : any := AFloat (Float.F64 false 7388718138654720 (-44)).
Definition hostname_entry (hostname : string) : any :=
  AMap [("contents", AMap [("source", AString (coerce_utf8 ("data:," +:+ hostname)))]);
        ("filesystem", AString "root");
        ("mode", file_420);
        ("path", AString "/etc/hostname")].

Lemma newFile_tree hostname : (to_any (tree (newFile hostname))).1 = hostname_entry hostname.
Proof. reflexivity. Qed.

Lemma newFile_prints hostname :
  canonical (newFile hostname) = true ∧ floats_print (newFile hostname) = true ∧
  height (newFile hostname) = 2%nat.
Proof.
  split_and!; [|done..]. cbn [newFile canonical].
  repeat rewrite bool_decide_eq_true_2 by (apply coerce_utf8_id; reflexivity). done.
Qed.

(** A document is printable when it is read back, up to the types of its
    values. *)
Definition printable (d : nat) (v : any) : Prop :=
  canonical v = true ∧ floats_print v = true ∧ (height v ≤ d)%nat.

Lemma printable_set d k v m :
  printable (S d) (AMap m) → printable d v → utf8 k → printable (S d) (AMap (obj_set k v m)).
Proof.
  unfold printable. cbn [canonical floats_print height].
  intros ([Hs Hc]%andb_prop & Hf & Hh) (Hcv & Hfv & Hhv) Hk. split_and!.
  - rewrite obj_set_sorted by done. apply obj_set_forallb; [done|].
    cbn [fst snd]. by rewrite bool_decide_eq_true_2, Hcv.
  - by apply obj_set_forallb.
  - pose proof (obj_set_height k v m). lia.
Qed.

Lemma printable_get d k v m : printable (S d) (AMap m) → obj_get k m = Some v → printable d v.
Proof.
  unfold printable. cbn [canonical floats_print height].
  intros ([Hs Hc]%andb_prop & Hf & Hh) Hk.
  destruct (obj_get_measures _ _ _ _ Hk Hc) as [[_ ?]%andb_prop ?].
  destruct (obj_get_measures _ _ _ _ Hk Hf). split_and!; [done..|lia].
Qed.

Lemma printable_decoded v :
  printable maxNestingDepth v → fst ∘ to_any <$> decode_document (encode v) = Some (norm v).
Proof.
  intros (Hc & Hf & Hh). rewrite decode_document_encode by done. simpl. by rewrite to_any_tree.
Qed.

Lemma storage_of_cases m :
  storage_of m = [] ∨ obj_get "storage" m = Some (AMap (storage_of m)).
Proof. unfold storage_of. destruct (obj_get "storage" m) as [[]|]; auto. Qed.

Lemma with_hostname_file_printable d m h :
  (5 ≤ d)%nat → printable d (AMap m) → printable d (AMap (with_hostname_file m h)).
Proof.
  intros Hd Hm. destruct d as [|[|[|[|[|d]]]]]; [lia..|].
  assert (∀ k, coerce_utf8 k = k → utf8 k) as Hk by apply coerce_utf8_id.
  apply printable_set; [done| |by apply Hk]. apply printable_set; [| |by apply Hk].
  - destruct (storage_of_cases m) as [->|Hs]; [|by eapply printable_get].
    split_and!; [done..|simpl; lia].
  - destruct (newFile_prints h) as (Hc & Hf & Hh). unfold printable.
    cbn [canonical floats_print height forallb max_list_with]. rewrite Hc, Hf, Hh.
    split_and!; [done..|lia].
Qed.

(** The document with the entry, as it is decoded. *)
Definition decoded_with_file (m : obj) (hostname : string) : obj :=
  obj_set "storage"
    (AMap (obj_set "files" (ASlice [hostname_entry hostname]) (storage_of m))) m.

Lemma norm_entries m : decoder_type (AMap m) = true → map (λ kv, (kv.1, norm kv.2)) m = m.
Proof. intros Hm%norm_id. by injection Hm. Qed.

Lemma norm_with_file m h :
  decoder_type (AMap m) = true → norm (AMap (with_hostname_file m h)) = AMap (decoded_with_file m h).
Proof.
  intros Hm. unfold with_hostname_file, decoded_with_file. cbn [norm].
  rewrite obj_set_map, (norm_entries m) by done. cbn [norm]. rewrite obj_set_map.
  rewrite (norm_entries (storage_of m)); [done|].
  destruct (storage_of_cases m) as [->|Hs]; [done|].
  destruct (obj_get_measures _ _ _ _ Hs Hm). done.
Qed.

(** C34: The text the function makes is read back as the document it was made
    from with the one change: its storage now lists the file with the host
    name, and everything else is as it was decoded before, its numbers
    included.  The function cannot be applied to its own result: it panics. *)
Theorem addHostname_decoded (src hostname : string) (m : obj)
    (Hm : unmarshal_map src = Some m) (Ha : acceptable m = true) :
  ∃ full, addHostnameToUserData src hostname = Ret (inl full) ∧
    unmarshal_map full = Some (decoded_with_file m hostname) ∧
    ∀ hostname', ∃ msg, addHostnameToUserData full hostname' = Panic msg.
Proof.
  destruct (unmarshal_typed src m Hm) as (Hc & Ht & Hh).
  apply decoder_type_prints in Ht as Hf.
  exists (encode (AMap (with_hostname_file m hostname))).
  assert (unmarshal_map (encode (AMap (with_hostname_file m hostname))) =
          Some (decoded_with_file m hostname)) as Hfull.
  { assert (5 ≤ maxNestingDepth)%nat by (apply Nat.leb_le; reflexivity).
    unfold unmarshal_map. rewrite printable_decoded by (by apply with_hostname_file_printable).
    by rewrite norm_with_file. }
  split; [|split; [done|]].
  - unfold addHostnameToUserData. by rewrite Hm, add_hostname_file_ok.
  - intros h. unfold addHostnameToUserData. rewrite Hfull.
    destruct (add_hostname_file_panic _ (decoded_with_file m hostname) h Hfull) as [msg ->]; [|by exists msg].
    unfold acceptable, decoded_with_file. by rewrite !obj_get_set.
Qed.

(** ** The document of the unit test *)
Section test.
Let q : string := quote.
Definition test_source : string :=
  "{" +:+ q +:+ "ignition" +:+ q +:+ ":{" +:+ q +:+ "config" +:+ q +:+ ":{" +:+ q +:+ "merge"
  +:+ q +:+ ":[{" +:+ q +:+ "source" +:+ q +:+ ":" +:+ q
  +:+ "https://192.168.123.15:22623/config/worker" +:+ q +:+ "}]}," +:+ q +:+ "version"
  +:+ q +:+ ":" +:+ q +:+ "3.1.0" +:+ q +:+ "}}".
Definition test_result : string :=
  "{" +:+ q +:+ "ignition" +:+ q +:+ ":{" +:+ q +:+ "config" +:+ q +:+ ":{" +:+ q +:+ "merge"
  +:+ q +:+ ":[{" +:+ q +:+ "source" +:+ q +:+ ":" +:+ q
  +:+ "https://192.168.123.15:22623/config/worker" +:+ q +:+ "}]}," +:+ q +:+ "version"
  +:+ q +:+ ":" +:+ q +:+ "3.1.0" +:+ q +:+ "}," +:+ q +:+ "storage" +:+ q +:+ ":{" +:+ q
  +:+ "files" +:+ q +:+ ":[{" +:+ q +:+ "contents" +:+ q +:+ ":{" +:+ q +:+ "source" +:+ q
  +:+ ":" +:+ q +:+ "data:,test-machine-name" +:+ q +:+ "}," +:+ q +:+ "filesystem" +:+ q
  +:+ ":" +:+ q +:+ "root" +:+ q +:+ "," +:+ q +:+ "mode" +:+ q +:+ ":420," +:+ q +:+ "path"
  +:+ q +:+ ":" +:+ q +:+ "/etc/hostname" +:+ q +:+ "}]}}".
End test.

Example addHostname_test :
  addHostnameToUserData test_source "test-machine-name" = Ret (inl test_result).
Proof. vm_compute. reflexivity. Qed.

Lemma addHostname_decoded_witness :
  let m := default [] (unmarshal_map test_source) in
  ∃ full, addHostnameToUserData test_source "test-machine-name" = Ret (inl full) ∧
    unmarshal_map full = Some (decoded_with_file m "test-machine-name") ∧
    ∀ hostname', ∃ msg, addHostnameToUserData full hostname' = Panic msg.
Proof. apply addHostname_decoded; vm_compute; reflexivity. Defined.
