(* ===== verification/ProviderConfig.v ===== *)
(** * The provider's API types (pkg/apis/kubevirtprovider/v1alpha1)

    A machine carries its configuration and its status as raw extensions.
    The configuration comes in as YAML and becomes a
    [KubevirtMachineProviderSpec]; the status goes out as JSON, and file
    [ProviderStatus] reads it.  The conversion of YAML to JSON is the YAML
    library's and a parameter; the JSON of either struct, written and read,
    is modelled down to the bytes. *)

From S2P Require Import Prelude GoStd GoErrors Json JsonText Times JsonStruct ApiTypes.
From Stdlib Require Import Ascii.

(** ** Structs as JSON

    The fields of each struct, in their order. *)
Definition type_meta_fields (t : Meta.TypeMeta) : obj :=
  omitempty "kind" (Meta.Kind t) ++ omitempty "apiVersion" (Meta.APIVersion t).

Definition spec_fields (s : Provider.KubevirtMachineProviderSpec) : obj :=
  type_meta_fields (Provider.TypeMeta s)
  ++ omitempty "sourcePvcName" (Provider.SourcePvcName s)
  ++ omitempty "credentialsSecretName" (Provider.CredentialsSecretName s)
  ++ omitempty "requestedMemory" (Provider.RequestedMemory s)
  ++ (if Provider.RequestedCPU s =? 0 then []
      else [("requestedCPU", AInt (Provider.RequestedCPU s))])
  ++ omitempty "requestedStorage" (Provider.RequestedStorage s)
  ++ omitempty "storageClassName" (Provider.StorageClassName s)
  ++ omitempty "ignitionSecretName" (Provider.IgnitionSecretName s)
  ++ omitempty "networkName" (Provider.NetworkName s)
  ++ omitempty "interfaceBindingMethod" (Provider.InterfaceBindingMethod s)
  ++ omitempty "persistentVolumeAccessMode" (Provider.PersistentVolumeAccessMode s).

Definition condition_fields (c : KV.VirtualMachineCondition) : obj :=
  [("type", AString (KV.CondType c));
   ("status", AString (KV.CondStatus c));
   ("lastProbeTime", Rfc3339.marshal (KV.CondLastProbeTime c));
   ("lastTransitionTime", Rfc3339.marshal (KV.CondLastTransitionTime c))]
  ++ omitempty "reason" (KV.CondReason c) ++ omitempty "message" (KV.CondMessage c).

(** The entries of a map, sorted by key. *)
Definition sorted_map (m : gmap string string) : obj :=
  foldr (λ kv acc, obj_set kv.1 (AString kv.2) acc) [] (map_to_list m).

Definition request_fields (r : KV.VirtualMachineStateChangeRequest) : obj :=
  [("action", AString (KV.Action r))]
  ++ (let m := default ∅ (KV.ActionData r) in
      if bool_decide (m = ∅) then [] else [("data", AMap (sorted_map m))])
  ++ match KV.ActionUID r with Some u => [("uid", AString u)] | None => [] end.

Definition vm_status_fields (s : KV.VirtualMachineStatus) : obj :=
  (if KV.Created s then [("created", ABool true)] else [])
  ++ (if KV.Ready s then [("ready", ABool true)] else [])
  ++ match KV.Conditions s with
     | [] => []
     | l => [("conditions", ASlice (map (AMap ∘ condition_fields) l))]
     end
  ++ match KV.StateChangeRequests s with
     | [] => []
     | l => [("stateChangeRequests", ASlice (map (AMap ∘ request_fields) l))]
     end.

(** The embedded status has no tag: its fields stand beside the type's. *)
Definition status_fields (s : Provider.KubevirtMachineProviderStatus) : obj :=
  type_meta_fields (Provider.StatusTypeMeta s)
  ++ vm_status_fields (Provider.VirtualMachineStatus s).

(** ** Writing raw extensions

    The argument is a pointer; encoding these structs does not fail. *)
Definition RawExtensionFromProviderSpec (spec : option Provider.KubevirtMachineProviderSpec)
    : result RawExtension :=
  match spec with
  | None => inl (MkRawExtension "")
  | Some s => inl (MkRawExtension (encode (AMap (spec_fields s))))
  end.

Definition RawExtensionFromProviderStatus
    (status : option Provider.KubevirtMachineProviderStatus) : result RawExtension :=
  match status with
  | None => inl (MkRawExtension "")
  | Some s => inl (MkRawExtension (encode (AMap (status_fields s))))
  end.

(** ** JSON into the provider spec *)
Section spec.
Import Provider.
Implicit Types (s : KubevirtMachineProviderSpec).

(** Assignment to a field. *)
Definition set_kind v '(MkProviderSpec t a b c d e f g h i j) :=
  MkProviderSpec (Meta.MkTypeMeta v (Meta.APIVersion t)) a b c d e f g h i j.
Definition set_apiVersion v '(MkProviderSpec t a b c d e f g h i j) :=
  MkProviderSpec (Meta.MkTypeMeta (Meta.Kind t) v) a b c d e f g h i j.
Definition set_sourcePvcName v '(MkProviderSpec t _ b c d e f g h i j) :=
  MkProviderSpec t v b c d e f g h i j.
Definition set_credentialsSecretName v '(MkProviderSpec t a _ c d e f g h i j) :=
  MkProviderSpec t a v c d e f g h i j.
Definition set_requestedMemory v '(MkProviderSpec t a b _ d e f g h i j) :=
  MkProviderSpec t a b v d e f g h i j.
Definition set_requestedCPU v '(MkProviderSpec t a b c _ e f g h i j) :=
  MkProviderSpec t a b c v e f g h i j.
Definition set_requestedStorage v '(MkProviderSpec t a b c d _ f g h i j) :=
  MkProviderSpec t a b c d v f g h i j.
Definition set_storageClassName v '(MkProviderSpec t a b c d e _ g h i j) :=
  MkProviderSpec t a b c d e v g h i j.
Definition set_ignitionSecretName v '(MkProviderSpec t a b c d e f _ h i j) :=
  MkProviderSpec t a b c d e f v h i j.
Definition set_networkName v '(MkProviderSpec t a b c d e f g _ i j) :=
  MkProviderSpec t a b c d e f g v i j.
Definition set_interfaceBindingMethod v '(MkProviderSpec t a b c d e f g h _ j) :=
  MkProviderSpec t a b c d e f g h v j.
Definition set_persistentVolumeAccessMode v '(MkProviderSpec t a b c d e f g h i _) :=
  MkProviderSpec t a b c d e f g h i v.

(** The type, its fields in the order the decoder tries them. *)
Definition spec_type : gostruct KubevirtMachineProviderSpec :=
  MkStruct "v1alpha1" "KubevirtMachineProviderSpec"
    [("kind", field (λ s, Meta.Kind (TypeMeta s)) set_kind (decode_string_value "string"));
     ("apiVersion",
        field (λ s, Meta.APIVersion (TypeMeta s)) set_apiVersion (decode_string_value "string"));
     ("sourcePvcName", field SourcePvcName set_sourcePvcName (decode_string_value "string"));
     ("credentialsSecretName",
        field CredentialsSecretName set_credentialsSecretName (decode_string_value "string"));
     ("requestedMemory", field RequestedMemory set_requestedMemory (decode_string_value "string"));
     ("requestedCPU", field RequestedCPU set_requestedCPU decode_uint32);
     ("requestedStorage",
        field RequestedStorage set_requestedStorage (decode_string_value "string"));
     ("storageClassName",
        field StorageClassName set_storageClassName (decode_string_value "string"));
     ("ignitionSecretName",
        field IgnitionSecretName set_ignitionSecretName (decode_string_value "string"));
     ("networkName", field NetworkName set_networkName (decode_string_value "string"));
     ("interfaceBindingMethod",
        field InterfaceBindingMethod set_interfaceBindingMethod (decode_string_value "string"));
     ("persistentVolumeAccessMode",
        field PersistentVolumeAccessMode set_persistentVolumeAccessMode
          (decode_string_value "string"))].

(** The document into [&spec], a pointer to a pointer to a new struct: a
    [null] makes the inner pointer nil. *)
Definition decode_spec (v : json) : result (option KubevirtMachineProviderSpec) :=
  match v with
  | JNull => inl None
  | v =>
      match unmarshal spec_type zeroSpec v with
      | inl s => inl (Some s)
      | inr e => inr e
      end
  end.
End spec.

(** ** Reading raw extensions

    [yamlToJSON] is the YAML library's: the document it prints, as its syntax
    tree, or its error.  It looks at the Go type that is to be filled, for
    scalars that go into strings. *)
Inductive target := TProviderSpec | TProviderStatus.

Class YamlLib := { yamlToJSON : target → bytes → result json }.

(** [yaml.Unmarshal] of a text, with what is done with the document. *)
Definition yaml_Unmarshal `{!YamlLib} {A} (t : target) (decode : json → result A) (y : bytes)
    : result A :=
  match yamlToJSON t y with
  | inr e => inr (ErrorString ("error converting YAML to JSON: " +:+ Error e))
  | inl doc =>
      match decode doc with
      | inr e =>
          inr (ErrorString ("error unmarshaling JSON: while decoding JSON: " +:+ Error e))
      | inl x => inl x
      end
  end.

Definition ProviderSpecFromRawExtension `{!YamlLib} (rawExtension : option RawExtension)
    : result (option Provider.KubevirtMachineProviderSpec) :=
  match rawExtension with
  | None => inl (Some Provider.zeroSpec)
  | Some r =>
      match yaml_Unmarshal TProviderSpec decode_spec (Raw r) with
      | inr err => inr (ErrorString ("error unmarshalling providerSpec: " +:+ Error err))
      | inl spec => inl spec
      end
  end.

(** A library that reads JSON only. *)
Definition json_yaml : YamlLib := {|
  yamlToJSON t b :=
    match b with
    | EmptyString => inl JNull
    | _ => match decode_document b with
           | Some d => inl d
           | None => inr (ErrorString "yaml: unmarshal errors")
           end
    end
|}.

(** JSON is YAML: a JSON document is read as itself, except that the library
    may print the members of its objects in another order. *)
Definition reads_json `{!YamlLib} (t : target) (b : bytes) : Prop :=
  ∀ d, decode_document b = Some d → ∃ d', yamlToJSON t b = inl d' ∧ reordered d d'.

Lemma json_yaml_reads t c b : @reads_json json_yaml t (String c b).
Proof. intros d Hd. exists d. split; [|done]. unfold yamlToJSON, json_yaml. by rewrite Hd. Qed.

(** What is decoded from what is written, whatever order the YAML library
    gives the members. *)
Lemma yaml_Unmarshal_encoded `{!YamlLib} {A} t (decode : json → result A) v x :
  floats_print v = true → (height v ≤ maxNestingDepth)%nat → reads_json t (encode v) →
  (∀ d, reordered (tree v) d → decode d = inl x) → yaml_Unmarshal t decode (encode v) = inl x.
Proof.
  intros Hf Hh Hyaml Hd. unfold yaml_Unmarshal.
  destruct (Hyaml _ (decode_document_encode v Hf Hh)) as (d & -> & Hr). by rewrite (Hd d).
Qed.

(** ** Round trip *)

(** Strings lose their invalid UTF-8 on the way. *)
Definition coerced (s : Provider.KubevirtMachineProviderSpec) : Provider.KubevirtMachineProviderSpec :=
  let 'Provider.MkProviderSpec t a b c d e f g h i j := s in
  Provider.MkProviderSpec
    (Meta.MkTypeMeta (coerce_utf8 (Meta.Kind t)) (coerce_utf8 (Meta.APIVersion t)))
    (coerce_utf8 a) (coerce_utf8 b) (coerce_utf8 c) d (coerce_utf8 e) (coerce_utf8 f)
    (coerce_utf8 g) (coerce_utf8 h) (coerce_utf8 i) (coerce_utf8 j).

(** The strings of a spec. *)
Definition spec_strings (s : Provider.KubevirtMachineProviderSpec) : list string :=
  let 'Provider.MkProviderSpec t a b c _ e f g h i j := s in
  [Meta.Kind t; Meta.APIVersion t; a; b; c; e; f; g; h; i; j].

Lemma coerced_id s : Forall utf8 (spec_strings s) → coerced s = s.
Proof.
  destruct s as [[] ? ? ? ? ? ? ? ? ? ?]. simpl. rewrite !Forall_cons. intros Hs.
  repeat match goal with Hx : _ ∧ _ |- _ => destruct Hx end.
  by do 11 rewrite (proj2 (coerce_utf8_id _)) by done.
Qed.

Section roundtrip.
Import Provider.
Implicit Types (s : KubevirtMachineProviderSpec).

Lemma number_uint_int z : 0 ≤ z < 2 ^ 32 → number_uint 32 (int_number z) = Some z.
Proof.
  intros Hz. unfold number_uint, int_number; simpl.
  rewrite (proj2 (Z.ltb_ge z 0)), Z.abs_eq, Strconv.digits_val_itoa by lia.
  cbv [default from_option id]. by rewrite (proj2 (Z.ltb_lt z _)) by apply Hz.
Qed.

Definition cpu_put (z : Z) : list (put KubevirtMachineProviderSpec) :=
  if z =? 0 then [] else [always ("requestedCPU", JNumber (int_number z)) (set_requestedCPU z)].

(** What the members of a spec do, in the order they are printed. *)
Definition spec_puts s : list (put KubevirtMachineProviderSpec) :=
  string_put "kind" set_kind (Meta.Kind (TypeMeta s))
  ++ string_put "apiVersion" set_apiVersion (Meta.APIVersion (TypeMeta s))
  ++ string_put "sourcePvcName" set_sourcePvcName (SourcePvcName s)
  ++ string_put "credentialsSecretName" set_credentialsSecretName (CredentialsSecretName s)
  ++ string_put "requestedMemory" set_requestedMemory (RequestedMemory s)
  ++ cpu_put (RequestedCPU s)
  ++ string_put "requestedStorage" set_requestedStorage (RequestedStorage s)
  ++ string_put "storageClassName" set_storageClassName (StorageClassName s)
  ++ string_put "ignitionSecretName" set_ignitionSecretName (IgnitionSecretName s)
  ++ string_put "networkName" set_networkName (NetworkName s)
  ++ string_put "interfaceBindingMethod" set_interfaceBindingMethod (InterfaceBindingMethod s)
  ++ string_put "persistentVolumeAccessMode" set_persistentVolumeAccessMode
       (PersistentVolumeAccessMode s).

Lemma spec_puts_members s : map p_member (spec_puts s) = map member_tree (spec_fields s).
Proof.
  unfold spec_puts, spec_fields, type_meta_fields. rewrite <-app_assoc, !map_app.
  rewrite !string_put_members by reflexivity. do 7 f_equal.
  unfold cpu_put. by destruct (RequestedCPU s =? 0).
Qed.

Lemma spec_puts_store s : wf_spec s → Forall (stores spec_type) (spec_puts s).
Proof.
  intros Hs. unfold spec_puts. rewrite !Forall_app.
  split_and!; try (eapply stores_string_put; reflexivity).
  unfold cpu_put. destruct (_ =? 0); constructor; [|constructor].
  eapply stores_always; [reflexivity|]. inversion 1; subst. intros ctx y saved. simpl.
  by rewrite number_uint_int.
Qed.

Lemma spec_puts_independent s : ForallOrdPairs independent (spec_puts s).
Proof.
  eapply pairs_sublist.
  { unfold spec_puts, cpu_put. repeat (apply sublist_app; [apply string_put_sublist|]).
    apply sublist_app; [|repeat (apply sublist_app; [apply string_put_sublist|]); apply string_put_sublist].
    instantiate (1 := [always ("requestedCPU", JNumber (int_number (RequestedCPU s)))
      (set_requestedCPU (RequestedCPU s))]).
    destruct (_ =? 0); [apply sublist_nil_l|done]. }
  repeat constructor; by intros [].
Qed.

Lemma spec_puts_all s : put_all (spec_puts s) zeroSpec = coerced s.
Proof.
  destruct s as [[kind version] a b c d e f g h i j]. unfold spec_puts; simpl.
  assert (∀ s', set_requestedCPU 0 s' = s' → put_all (cpu_put d) s' = set_requestedCPU d s') as Hcpu.
  { intros s' Hs. unfold cpu_put. destruct (Z.eqb_spec d 0) as [->|]; [by rewrite Hs|done]. }
  rewrite !put_all_app.
  put_strings. rewrite Hcpu by reflexivity. put_strings. reflexivity.
Qed.

Lemma decode_spec_fields s d :
  wf_spec s → reordered (JObject (map member_tree (spec_fields s))) d →
  decode_spec d = inl (Some (coerced s)).
Proof.
  intros Hs Hd. assert (∃ m, d = JObject m) as [m ->] by (inversion Hd; eauto).
  unfold decode_spec, unmarshal. rewrite (decode_struct_puts spec_type (spec_puts s)).
  - by rewrite spec_puts_all.
  - by apply spec_puts_store.
  - apply spec_puts_independent.
  - unfold spec_puts, cpu_put. rewrite !Forall_app.
    split_and!; first [apply string_put_ready|destruct (_ =? 0); by repeat constructor].
  - by rewrite spec_puts_members.
Qed.

(** What is written is read. *)
Lemma ProviderSpec_read `{!YamlLib} s :
  wf_spec s → reads_json TProviderSpec (encode (AMap (spec_fields s))) →
  ProviderSpecFromRawExtension (Some (MkRawExtension (encode (AMap (spec_fields s))))) =
    inl (Some (coerced s)).
Proof.
  intros Hs Hyaml. unfold ProviderSpecFromRawExtension. cbn [Raw].
  assert (Forall (λ kv : string * any, floats_print kv.2 = true ∧ height kv.2 = O) (spec_fields s)) as Hall.
  { unfold spec_fields, type_meta_fields, omitempty. rewrite !Forall_app.
    split_and!; (case_bool_decide || destruct (RequestedCPU s =? 0)); by repeat constructor. }
  rewrite (yaml_Unmarshal_encoded _ _ _ (Some (coerced s))); [done| | |exact Hyaml|].
  - cbn [floats_print]. apply forallb_forall. intros kv Hkv%list_elem_of_In.
    rewrite Forall_forall in Hall. by apply Hall.
  - cbn [height]. assert (max_list_with (λ kv : string * any, height kv.2) (spec_fields s) = O) as ->;
      [|apply Nat.leb_le; vm_compute; reflexivity].
    clear Hyaml. induction Hall as [|kv m [_ Hh] _ IH]; [done|]. simpl. by rewrite Hh, IH.
  - intros d. by apply decode_spec_fields.
Qed.
End roundtrip.

(** C35: A provider spec written to a raw extension is read back, byte for
    byte through the JSON text, whatever order the YAML library gives the
    members: each string with its invalid UTF-8 replaced, so the spec itself
    when its strings are valid, and the number of CPUs as it was. *)
Theorem provider_spec_roundtrip `{!YamlLib} (s : Provider.KubevirtMachineProviderSpec)
    (r : RawExtension)
    (Hcpu : Provider.wf_spec s)
    (Hyaml : reads_json TProviderSpec (encode (AMap (spec_fields s))))
    (Hr : RawExtensionFromProviderSpec (Some s) = inl r) :
  ProviderSpecFromRawExtension (Some r) = inl (Some (coerced s)) ∧
  (Forall utf8 (spec_strings s) → coerced s = s).
Proof.
  split; [|apply coerced_id]. unfold RawExtensionFromProviderSpec in Hr. injection Hr as <-.
  by apply ProviderSpec_read.
Qed.

Definition example_spec : Provider.KubevirtMachineProviderSpec :=
  Provider.MkProviderSpec Meta.noType "pvc" "" "4Gi" 4 "" "fast" "worker-user-data" "net" "SRIOV"
    "ReadWriteOnce".

(** A library that prints the members in the opposite order. *)
Definition reversing_yaml : YamlLib := {|
  yamlToJSON t b :=
    match @yamlToJSON json_yaml t b with
    | inl (JObject m) => inl (JObject (reverse m))
    | r => r
    end
|}.

Lemma reversing_yaml_reads t c b : @reads_json reversing_yaml t (String c b).
Proof.
  intros d Hd. destruct (json_yaml_reads t c b d Hd) as (d' & Hy & Hr).
  unfold yamlToJSON at 1, reversing_yaml. rewrite Hy. destruct Hr;
    (eexists; split; [reflexivity|]); try by constructor.
  eapply reordered_object; [|by apply Forall2_reverse]. by rewrite !reverse_Permutation.
Qed.

Lemma provider_spec_roundtrip_witness :
  @ProviderSpecFromRawExtension reversing_yaml
    (Some (MkRawExtension (encode (AMap (spec_fields example_spec))))) =
  inl (Some example_spec).
Proof.
  destruct (@provider_spec_roundtrip reversing_yaml example_spec
    (MkRawExtension (encode (AMap (spec_fields example_spec))))) as [Hr Hu];
    [split; vm_compute; congruence | apply reversing_yaml_reads | reflexivity |].
  rewrite Hu in Hr; [exact Hr|]. by apply (bool_decide_unpack _); vm_compute.
Defined.

(** The raw extension of a nil spec is read back as a nil spec, while a
    missing raw extension is read as the empty spec; no error is reported
    for either.  (An empty document is null to the YAML library.) *)
Lemma nil_spec_roundtrip `{!YamlLib} (r : RawExtension)
    (Hyaml : yamlToJSON TProviderSpec "" = inl JNull)
    (Hr : RawExtensionFromProviderSpec None = inl r) :
  ProviderSpecFromRawExtension (Some r) = inl None ∧
  ProviderSpecFromRawExtension None = inl (Some Provider.zeroSpec).
Proof.
  injection Hr as <-. unfold ProviderSpecFromRawExtension, yaml_Unmarshal; simpl. by rewrite Hyaml.
Qed.

Lemma nil_spec_roundtrip_witness :
  @ProviderSpecFromRawExtension json_yaml (Some (MkRawExtension "")) = inl None ∧
  @ProviderSpecFromRawExtension json_yaml None = inl (Some Provider.zeroSpec).
Proof. apply (@nil_spec_roundtrip json_yaml); reflexivity. Defined.
