(* ===== verification/ProviderStatus.v ===== *)
(** * Reading the provider status (pkg/apis/kubevirtprovider/v1alpha1)

    [ProviderStatusFromRawExtension] of register.go: the status a machine
    carries, with its conditions and state change requests, out of a raw
    extension.  What [RawExtensionFromProviderStatus] writes is read back. *)

From S2P Require Import Prelude GoStd GoErrors Json JsonText Times JsonStruct ApiTypes.
From S2P Require Import ProviderConfig.
From Stdlib Require Import Ascii.

(** ** The structs of the status *)
Section types.
Context `{!TimeErrors}.

Definition zeroCondition : KV.VirtualMachineCondition :=
  KV.MkVMCondition "" "" Rfc3339.zero Rfc3339.zero "" "".
Definition emptyRequest : KV.VirtualMachineStateChangeRequest := KV.MkStateChange "" None None.
Definition emptyStatus : Provider.KubevirtMachineProviderStatus :=
  Provider.MkProviderStatus Meta.noType KV.noStatus.

Import KV.

(** Assignment to a field of a condition. *)
Definition set_type v '(MkVMCondition _ s p t r m) := MkVMCondition v s p t r m.
Definition set_status v '(MkVMCondition c _ p t r m) := MkVMCondition c v p t r m.
Definition set_lastProbeTime v '(MkVMCondition c s _ t r m) := MkVMCondition c s v t r m.
Definition set_lastTransitionTime v '(MkVMCondition c s p _ r m) := MkVMCondition c s p v r m.
Definition set_reason v '(MkVMCondition c s p t _ m) := MkVMCondition c s p t v m.
Definition set_message v '(MkVMCondition c s p t r _) := MkVMCondition c s p t r v.

Definition condition_type : gostruct VirtualMachineCondition :=
  MkStruct "v1" "VirtualMachineCondition"
    [("type", field CondType set_type (decode_string_value "v1.VirtualMachineConditionType"));
     ("status", field CondStatus set_status (decode_string_value "v1.ConditionStatus"));
     ("lastProbeTime", field CondLastProbeTime set_lastProbeTime decode_time);
     ("lastTransitionTime", field CondLastTransitionTime set_lastTransitionTime decode_time);
     ("reason", field CondReason set_reason (decode_string_value "string"));
     ("message", field CondMessage set_message (decode_string_value "string"))].

(** And of a request. *)
Definition set_action v '(MkStateChange _ d u) := MkStateChange v d u.
Definition set_data v '(MkStateChange a _ u) := MkStateChange a v u.
Definition set_uid v '(MkStateChange a d _) := MkStateChange a d v.

Definition request_type : gostruct VirtualMachineStateChangeRequest :=
  MkStruct "v1" "VirtualMachineStateChangeRequest"
    [("action", field Action set_action (decode_string_value "v1.StateChangeRequestAction"));
     ("data", field ActionData set_data decode_map);
     ("uid", field ActionUID set_uid (decode_pointer "types.UID"))].

(** The status while it is read: with what the arrays of its two slices have
    behind them.  The fields of the embedded structs are its own. *)
Record reading := MkReading {
  r_type : Meta.TypeMeta;
  r_created : bool;
  r_ready : bool;
  r_conditions : list VirtualMachineCondition * list VirtualMachineCondition;
  r_requests : list VirtualMachineStateChangeRequest * list VirtualMachineStateChangeRequest
}.

Definition set_r_kind v '(MkReading t c r cs rs) :=
  MkReading (Meta.MkTypeMeta v (Meta.APIVersion t)) c r cs rs.
Definition set_r_apiVersion v '(MkReading t c r cs rs) :=
  MkReading (Meta.MkTypeMeta (Meta.Kind t) v) c r cs rs.
Definition set_r_created v '(MkReading t _ r cs rs) := MkReading t v r cs rs.
Definition set_r_ready v '(MkReading t c _ cs rs) := MkReading t c v cs rs.
Definition set_r_conditions v '(MkReading t c r _ rs) := MkReading t c r v rs.
Definition set_r_requests v '(MkReading t c r cs _) := MkReading t c r cs v.

Definition status_type : gostruct reading :=
  MkStruct "v1alpha1" "KubevirtMachineProviderStatus"
    [("kind", field (λ s, Meta.Kind (r_type s)) set_r_kind (decode_string_value "string"));
     ("apiVersion",
        field (λ s, Meta.APIVersion (r_type s)) set_r_apiVersion (decode_string_value "string"));
     ("created", field r_created set_r_created decode_bool);
     ("ready", field r_ready set_r_ready decode_bool);
     ("conditions",
        field r_conditions set_r_conditions
          (decode_slice zeroCondition (decode_struct condition_type) "[]v1.VirtualMachineCondition"));
     ("stateChangeRequests",
        field r_requests set_r_requests
          (decode_slice emptyRequest (decode_struct request_type)
             "[]v1.VirtualMachineStateChangeRequest"))].

Definition zeroReading : reading := MkReading Meta.noType false false ([], []) ([], []).

Definition status_of (s : reading) : Provider.KubevirtMachineProviderStatus :=
  Provider.MkProviderStatus (r_type s)
    (MkVMStatus (r_created s) (r_ready s) (r_conditions s).1 (r_requests s).1).

(** The document into a new status. *)
Definition decode_status (v : json) : result Provider.KubevirtMachineProviderStatus :=
  match unmarshal status_type zeroReading v with
  | inl s => inl (status_of s)
  | inr e => inr e
  end.

Definition ProviderStatusFromRawExtension `{!YamlLib} (rawExtension : option RawExtension)
    : result Provider.KubevirtMachineProviderStatus :=
  match rawExtension with
  | None => inl emptyStatus
  | Some r =>
      match yaml_Unmarshal TProviderStatus decode_status (Raw r) with
      | inr err => inr (ErrorString ("error unmarshalling providerStatus: " +:+ Error err))
      | inl providerStatus => inl providerStatus
      end
  end.
End types.

(** ** What becomes of a status on its way

    Times lose what they have below the second, and a map without entries is
    left out. *)
Definition condition_back (c : KV.VirtualMachineCondition) : KV.VirtualMachineCondition :=
  KV.MkVMCondition (KV.CondType c) (KV.CondStatus c)
    (Rfc3339.truncate (KV.CondLastProbeTime c)) (Rfc3339.truncate (KV.CondLastTransitionTime c))
    (KV.CondReason c) (KV.CondMessage c).

Definition request_back (r : KV.VirtualMachineStateChangeRequest)
    : KV.VirtualMachineStateChangeRequest :=
  KV.MkStateChange (KV.Action r)
    (if bool_decide (default ∅ (KV.ActionData r) = ∅) then None else KV.ActionData r)
    (KV.ActionUID r).

Definition status_back (s : Provider.KubevirtMachineProviderStatus)
    : Provider.KubevirtMachineProviderStatus :=
  let v := Provider.VirtualMachineStatus s in
  Provider.MkProviderStatus (Provider.StatusTypeMeta s)
    (KV.MkVMStatus (KV.Created v) (KV.Ready v) (map condition_back (KV.Conditions v))
       (map request_back (KV.StateChangeRequests v))).

(** What JSON can carry: texts of valid UTF-8, years of four digits. *)
Definition condition_ok (c : KV.VirtualMachineCondition) : Prop :=
  Forall utf8 [KV.CondType c; KV.CondStatus c; KV.CondReason c; KV.CondMessage c] ∧
  Forall Rfc3339.four_digit_year [KV.CondLastProbeTime c; KV.CondLastTransitionTime c].

Definition request_ok (r : KV.VirtualMachineStateChangeRequest) : Prop :=
  utf8 (KV.Action r) ∧ utf8 (default "" (KV.ActionUID r)) ∧
  Forall (λ kv, utf8 kv.1 ∧ utf8 kv.2) (map_to_list (default ∅ (KV.ActionData r))).

Definition status_ok (s : Provider.KubevirtMachineProviderStatus) : Prop :=
  Forall utf8 [Meta.Kind (Provider.StatusTypeMeta s); Meta.APIVersion (Provider.StatusTypeMeta s)] ∧
  Forall condition_ok (KV.Conditions (Provider.VirtualMachineStatus s)) ∧
  Forall request_ok (KV.StateChangeRequests (Provider.VirtualMachineStatus s)).

#[export] Instance status_ok_dec s : Decision (status_ok s).
Proof. unfold status_ok, condition_ok, request_ok, Rfc3339.four_digit_year. apply _. Defined.

(** ** The round trip *)
Section roundtrip.
Context `{!TimeErrors}.
Import KV.

Lemma coerced_text s : utf8 s → coerce_utf8 s = s.
Proof. apply coerce_utf8_id. Qed.

Lemma member_string k x : utf8 x → coerce_utf8 k = k → member_tree (k, AString x) = (k, JString x).
Proof. intros Hx Hk. unfold member_tree; simpl. by rewrite Hk, coerced_text. Qed.

(** *** Conditions *)
Lemma decode_time_back t v :
  Rfc3339.four_digit_year t → reordered (tree (Rfc3339.marshal t)) v →
  ∀ ctx y saved, decode_time ctx v y saved = inl (Rfc3339.truncate t, saved).
Proof.
  intros Ht. destruct (Rfc3339.marshal_cases t) as [[-> ->]|[_ ->]]; cbn [tree]; inversion 1; subst.
  - done.
  - intros ctx y saved. cbn [decode_time].
    by rewrite coerced_text, Rfc3339.parse_format by (apply Rfc3339.format_utf8 || done).
Qed.

Definition condition_puts (c : VirtualMachineCondition) : list (put VirtualMachineCondition) :=
  [always ("type", JString (CondType c)) (set_type (CondType c));
   always ("status", JString (CondStatus c)) (set_status (CondStatus c));
   always ("lastProbeTime", tree (Rfc3339.marshal (CondLastProbeTime c)))
     (set_lastProbeTime (Rfc3339.truncate (CondLastProbeTime c)));
   always ("lastTransitionTime", tree (Rfc3339.marshal (CondLastTransitionTime c)))
     (set_lastTransitionTime (Rfc3339.truncate (CondLastTransitionTime c)))]
  ++ string_put "reason" set_reason (CondReason c)
  ++ string_put "message" set_message (CondMessage c).

Lemma condition_read c v :
  condition_ok c → reordered (JObject (map member_tree (condition_fields c))) v →
  ∀ ctx saved, decode_struct condition_type ctx v zeroCondition saved = inl (condition_back c, saved).
Proof.
  intros [Htext Htimes] Hv ctx saved.
  rewrite !Forall_cons in Htext. rewrite !Forall_cons in Htimes. destruct Htext as (Ht & Hs & Hr & Hm & _).
  destruct Htimes as (Hp & Htr & _).
  rewrite (decode_struct_puts condition_type (condition_puts c)).
  - f_equal. f_equal. unfold condition_puts. rewrite !put_all_app. cbn [put_all foldl p_set always].
    destruct c; simpl in *. put_strings. unfold condition_back; simpl. by rewrite !coerced_text.
  - unfold condition_puts. rewrite !Forall_app, !Forall_cons, Forall_nil.
    split_and!; try done;
      first [eapply stores_string_put; reflexivity
            |eapply stores_always; [reflexivity|]; intros v';
             first [apply decode_string_reordered|by apply decode_time_back]].
  - eapply pairs_sublist; [apply sublist_app; [reflexivity|]; apply sublist_app; apply string_put_sublist|].
    repeat constructor; by intros [].
  - unfold condition_puts. rewrite !Forall_app.
    split_and!; first [apply string_put_ready|by repeat constructor].
  - unfold condition_puts, condition_fields in *. rewrite !map_app in *.
    rewrite !string_put_members by reflexivity. simpl in *. by rewrite !member_string in Hv.
Qed.

(** *** Requests *)

(** A key that is not there yet is one entry more. *)
Lemma obj_set_fresh k v m : k ∉ m.*1 → obj_set k v m ≡ₚ (k, v) :: m.
Proof.
  induction m as [|[k' v'] m IH]; [done|]. simpl. rewrite not_elem_of_cons. intros [Hne Hk].
  destruct (str_compare k k') eqn:Hc; [by apply str_compare_eq in Hc|done|].
  rewrite IH by done. constructor.
Qed.

Lemma sorted_map_entries m :
  sorted_map m ≡ₚ (prod_map id AString) <$> map_to_list m.
Proof.
  unfold sorted_map. pose proof (NoDup_fst_map_to_list m) as Hnd. revert Hnd.
  generalize (map_to_list m). intros l. induction l as [|[k v] l IH]; [done|]. simpl.
  rewrite NoDup_cons. intros [Hk Hnd]. rewrite obj_set_fresh; [by rewrite IH|].
  intros Hin. rewrite IH in Hin by done. apply Hk. rewrite <-list_fmap_compose in Hin.
  by erewrite list_fmap_ext in Hin; [exact Hin|intros ? []].
Qed.

Lemma decode_entries ctx es m saved :
  foldl (decode_entry ctx) (m, saved) ((prod_map id JString) <$> es) = (map_range_entries es m, saved).
Proof. revert m. induction es as [|[k v] es IH]; intros m; [done|]. simpl. apply IH. Qed.

(** Members whose values are strings only change places. *)
Lemma reordered_strings m v :
  reordered (JObject m) v → Forall (λ kv, ∃ x, kv.2 = JString x) m → ∃ m', v = JObject m' ∧ m ≡ₚ m'.
Proof.
  intros Hv Hm. inversion Hv as [| | | | |m0 m1 m' Hp Hr]; subst. exists m'. split; [done|].
  rewrite Hp. rewrite Hp in Hm. clear Hv Hp. induction Hr as [|[k x] [k' x'] m1 m' [Hk Hx] Hr IH]; [done|].
  simpl in *. inversion_clear Hm as [|? ? [y Hy] Hm']. simpl in Hy. subst. inversion Hx; subst.
  by rewrite IH.
Qed.

Lemma decode_map_back m v :
  Forall (λ kv, utf8 kv.1 ∧ utf8 kv.2) (map_to_list m) →
  reordered (JObject (map member_tree (sorted_map m))) v →
  ∀ ctx saved, decode_map ctx v None saved = inl (Some m, saved).
Proof.
  intros Hm Hv ctx saved.
  assert (map member_tree (sorted_map m) ≡ₚ (prod_map id JString) <$> map_to_list m) as Hp.
  { change (member_tree <$> sorted_map m ≡ₚ (prod_map id JString) <$> map_to_list m).
    rewrite sorted_map_entries, <-list_fmap_compose. apply reflexive_eq, Forall_fmap_ext_1.
    eapply Forall_impl; [exact Hm|]. intros [k x] [Hk Hx]. unfold member_tree; simpl.
    by rewrite !coerced_text. }
  destruct (reordered_strings _ _ Hv) as (m' & -> & Hm').
  { rewrite Hp. apply Forall_fmap, Forall_true. intros [k x]. by exists x. }
  rewrite Hp in Hm'. symmetry in Hm'. apply Permutation_map_inv in Hm' as (es & -> & Hes).
  unfold decode_map. simpl. rewrite (decode_entries ctx es ∅ saved).
  by rewrite (map_range_order m), map_union_empty.
Qed.

Definition request_puts (r : VirtualMachineStateChangeRequest)
    : list (put VirtualMachineStateChangeRequest) :=
  [always ("action", JString (Action r)) (set_action (Action r))]
  ++ (let m := default ∅ (ActionData r) in
      if bool_decide (m = ∅) then []
      else [MkPut ("data", JObject (map member_tree (sorted_map m))) (λ s, ActionData s = None)
              (set_data (Some m))])
  ++ match ActionUID r with
     | Some u => [always ("uid", JString u) (set_uid (Some u))]
     | None => []
     end.

Lemma request_read r v :
  request_ok r → reordered (JObject (map member_tree (request_fields r))) v →
  ∀ ctx saved, decode_struct request_type ctx v emptyRequest saved = inl (request_back r, saved).
Proof.
  intros (Ha & Hu & Hm) Hv ctx saved.
  rewrite (decode_struct_puts request_type (request_puts r)).
  - f_equal. f_equal. unfold request_puts, request_back. destruct r as [a [m|] [u|]]; simpl;
      by case_bool_decide.
  - unfold request_puts. rewrite !Forall_app, Forall_cons, Forall_nil. split_and!; try done.
    + eapply stores_always; [reflexivity|]. intros v'. apply decode_string_reordered.
    + cbv zeta. case_bool_decide; constructor; [|constructor].
      exists (field ActionData set_data decode_map). split; [reflexivity|].
      intros v' Hv' ctx' s saved' Hs. unfold field. simpl in Hs. rewrite Hs.
      by rewrite (decode_map_back (default ∅ (ActionData r))).
    + destruct (ActionUID r) as [u|]; constructor; [|constructor].
      eapply stores_always; [reflexivity|]. intros v'. by inversion 1.
  - unfold request_puts. destruct r as [a [m|] [u|]]; cbn; try case_bool_decide;
      repeat constructor; intros []; simpl; auto.
  - unfold request_puts. destruct r as [a [m|] [u|]]; cbn; try case_bool_decide; by repeat constructor.
  - unfold request_puts, request_fields in *. destruct r as [a [m|] [u|]]; cbn in *;
      (case_bool_decide || idtac); cbn in *; rewrite ?member_string in Hv by done; exact Hv.
Qed.

(** *** The status *)
Definition created_put (k : string) (set : bool → reading → reading) (b : bool)
    : list (put reading) :=
  if b then [always (k, JBool true) (set true)] else [].

Definition slice_put {A B} (k : string) (get : reading → list A * list A)
    (set : list A * list A → reading → reading) (doc : B → json) (back : B → A) (l : list B)
    : list (put reading) :=
  match l with
  | [] => []
  | _ => [MkPut (k, JArray (map doc l)) (λ s, get s = ([], [])) (set (map back l, []))]
  end.

Definition condition_doc (c : VirtualMachineCondition) : json :=
  JObject (map member_tree (condition_fields c)).
Definition request_doc (r : VirtualMachineStateChangeRequest) : json :=
  JObject (map member_tree (request_fields r)).

Definition status_puts (s : Provider.KubevirtMachineProviderStatus) : list (put reading) :=
  let v := Provider.VirtualMachineStatus s in
  string_put "kind" set_r_kind (Meta.Kind (Provider.StatusTypeMeta s))
  ++ string_put "apiVersion" set_r_apiVersion (Meta.APIVersion (Provider.StatusTypeMeta s))
  ++ created_put "created" set_r_created (Created v)
  ++ created_put "ready" set_r_ready (Ready v)
  ++ slice_put "conditions" r_conditions set_r_conditions condition_doc condition_back (Conditions v)
  ++ slice_put "stateChangeRequests" r_requests set_r_requests request_doc request_back
       (StateChangeRequests v).

Lemma status_puts_members s :
  status_ok s → map p_member (status_puts s) = map member_tree (status_fields s).
Proof.
  intros _. unfold status_puts, status_fields, type_meta_fields, vm_status_fields.
  rewrite <-!app_assoc, !map_app, !string_put_members by reflexivity. do 2 f_equal.
  assert (∀ {A} (f : A → obj) l, map (λ x, JObject (map member_tree (f x))) l
    = map tree (map (AMap ∘ f) l)) as Hdocs.
  { intros A f l. rewrite map_map. by apply map_ext. }
  f_equal; [by destruct (Created _)|]. f_equal; [by destruct (Ready _)|]. f_equal.
  - destruct (Conditions _) as [|c l]; [done|]. pose proof (Hdocs _ condition_fields (c :: l)) as Hd.
    apply (f_equal (λ l, [("conditions", JArray l)])) in Hd. exact Hd.
  - destruct (StateChangeRequests _) as [|c l]; [done|]. pose proof (Hdocs _ request_fields (c :: l)) as Hd.
    apply (f_equal (λ l, [("stateChangeRequests", JArray l)])) in Hd. exact Hd.
Qed.

Lemma stores_created k get set b :
  find_field status_type k = Some (k, field get set decode_bool) →
  Forall (stores status_type) (created_put k set b).
Proof.
  intros Hk. destruct b; constructor; [|constructor].
  eapply stores_always; [done|]. intros v'. by inversion 1.
Qed.

Lemma stores_slice {A B} k get set zero (elem : decoder A) (doc : B → json) back type l :
  find_field status_type k = Some (k, field get set (decode_slice zero elem type)) →
  (∀ x v, x ∈ l → reordered (doc x) v → ∀ ctx saved, elem ctx v zero saved = inl (back x, saved)) →
  Forall (stores status_type) (slice_put k get set doc back l).
Proof.
  intros Hk Helem. destruct l as [|x l]; constructor; [|constructor].
  exists (field get set (decode_slice zero elem type)). split; [done|].
  intros v Hv ctx s saved Hs. unfold field. simpl in Hs. rewrite Hs.
  by rewrite (decode_slice_fresh zero elem doc back type (x :: l)).
Qed.

Lemma status_puts_store s : status_ok s → Forall (stores status_type) (status_puts s).
Proof.
  intros (_ & Hc & Hr). unfold status_puts. rewrite !Forall_app.
  rewrite Forall_forall in Hc. rewrite Forall_forall in Hr.
  split_and!;
    first [eapply stores_string_put; reflexivity
          |eapply stores_created; reflexivity
          |eapply stores_slice; [reflexivity|]; intros x v Hx Hv;
           first [apply condition_read; by auto|apply request_read; by auto]].
Qed.

Lemma slice_put_sublist {A B} k get set (doc : B → json) (back : B → A) l :
  slice_put k get set doc back l `sublist_of`
    [MkPut (k, JArray (map doc l)) (λ s, get s = ([], [])) (set (map back l, []))].
Proof. destruct l; [apply sublist_nil_l|done]. Qed.

Lemma created_put_sublist k set b :
  created_put k set b `sublist_of` [always (k, JBool true) (set true)].
Proof. destruct b; [done|apply sublist_nil_l]. Qed.

Lemma status_puts_independent s : ForallOrdPairs independent (status_puts s).
Proof.
  eapply pairs_sublist.
  { unfold status_puts. repeat apply sublist_app;
      first [apply string_put_sublist|apply created_put_sublist|apply slice_put_sublist]. }
  repeat constructor; by intros [].
Qed.

Lemma status_puts_ready s : Forall (λ p, p_ready p zeroReading) (status_puts s).
Proof.
  unfold status_puts. rewrite !Forall_app.
  split_and!; try apply string_put_ready; unfold created_put, slice_put;
    case_match; by repeat constructor.
Qed.

Lemma status_puts_all s :
  status_ok s → status_of (put_all (status_puts s) zeroReading) = status_back s.
Proof.
  intros (Htext & _). rewrite !Forall_cons in Htext. destruct Htext as (Hk & Ha & _).
  destruct s as [[kind version] [c r cs rs]]. unfold status_puts; simpl in *.
  rewrite !put_all_app. put_strings. rewrite !coerced_text by done.
  by destruct c, r, cs, rs.
Qed.

Lemma decode_status_fields s d :
  status_ok s → reordered (JObject (map member_tree (status_fields s))) d →
  decode_status d = inl (status_back s).
Proof.
  intros Hs Hd. unfold decode_status, unmarshal.
  rewrite (decode_struct_puts status_type (status_puts s)).
  - by rewrite status_puts_all.
  - by apply status_puts_store.
  - apply status_puts_independent.
  - apply status_puts_ready.
  - by rewrite status_puts_members.
Qed.

(** *** The text *)

(** A status has no numbers, and it is four levels deep. *)
Definition shallow (n : nat) (v : any) : Prop := floats_print v = true ∧ (height v ≤ n)%nat.

Lemma shallow_map n (m : obj) : Forall (λ kv, shallow n kv.2) m → shallow (S n) (AMap m).
Proof.
  intros Hm. unfold shallow. cbn [floats_print height].
  induction Hm as [|kv m [Hf Hh] _ [IHf IHh]]; simpl; [split; [done|lia]|].
  rewrite Hf, IHf. split; [done|]. lia.
Qed.

Lemma shallow_slice n l : Forall (shallow n) l → shallow (S n) (ASlice l).
Proof.
  intros Hm. unfold shallow. cbn [floats_print height].
  induction Hm as [|v l [Hf Hh] _ [IHf IHh]]; simpl; [split; [done|lia]|].
  rewrite Hf, IHf. split; [done|]. lia.
Qed.

Lemma shallow_omitempty n k v : Forall (λ kv, shallow n kv.2) (omitempty k v).
Proof. unfold omitempty. case_bool_decide; repeat constructor; simpl; lia. Qed.

Lemma shallow_condition c : shallow 1 (AMap (condition_fields c)).
Proof.
  apply shallow_map. unfold condition_fields. rewrite !Forall_app.
  split_and!; try apply shallow_omitempty. rewrite !Forall_cons, Forall_nil.
  unfold Rfc3339.marshal. repeat case_match; split_and!; repeat constructor; simpl; lia.
Qed.

Lemma shallow_request r : shallow 2 (AMap (request_fields r)).
Proof.
  apply shallow_map. unfold request_fields. rewrite !Forall_app. split_and!.
  - repeat constructor; simpl; lia.
  - cbv zeta. case_bool_decide; constructor; [|constructor]. apply shallow_map.
    rewrite sorted_map_entries. apply Forall_fmap, Forall_true. intros [k v]. by repeat constructor.
  - case_match; repeat constructor; simpl; lia.
Qed.

Lemma shallow_status s : shallow 4 (AMap (status_fields s)).
Proof.
  assert (∀ n m v, (n ≤ m)%nat → shallow n v → shallow m v) as Hmono
    by (intros n m v Hnm [Hf Hh]; split; [done|lia]).
  apply shallow_map. unfold status_fields, type_meta_fields, vm_status_fields. rewrite !Forall_app.
  split_and!; try apply shallow_omitempty.
  - case_match; repeat constructor; simpl; lia.
  - case_match; repeat constructor; simpl; lia.
  - case_match; constructor; [|constructor]. apply shallow_slice, Forall_fmap, Forall_true.
    intros c. by eapply Hmono, shallow_condition; lia.
  - case_match; constructor; [|constructor]. apply shallow_slice, Forall_fmap, Forall_true.
    intros c. apply shallow_request.
Qed.

Lemma ProviderStatus_read `{!YamlLib} s :
  status_ok s → reads_json TProviderStatus (encode (AMap (status_fields s))) →
  ProviderStatusFromRawExtension (Some (MkRawExtension (encode (AMap (status_fields s))))) =
    inl (status_back s).
Proof.
  intros Hs Hyaml. unfold ProviderStatusFromRawExtension. cbn [Raw].
  destruct (shallow_status s) as [Hf Hh].
  rewrite (yaml_Unmarshal_encoded _ _ _ (status_back s)); [done|done| |done|].
  - etrans; [exact Hh|]. apply Nat.leb_le. vm_compute. reflexivity.
  - intros d. by apply decode_status_fields.
Qed.
End roundtrip.

(** C36: A provider status whose texts are valid UTF-8 and whose times have
    years of four digits, written to a raw extension, is read back through the
    JSON text without an error, in whatever order the YAML library gives the
    members of its objects: the same type, flags, conditions and requests,
    with the times cut to the second, and a map of request data without
    entries as no map.  Under these conditions nothing else changes. *)
Theorem provider_status_roundtrip `{!TimeErrors, !YamlLib}
    (s : Provider.KubevirtMachineProviderStatus) (r : RawExtension)
    (Hs : status_ok s)
    (Hyaml : reads_json TProviderStatus (encode (AMap (status_fields s))))
    (Hr : RawExtensionFromProviderStatus (Some s) = inl r) :
  ProviderStatusFromRawExtension (Some r) = inl (status_back s).
Proof.
  unfold RawExtensionFromProviderStatus in Hr. injection Hr as <-. by apply ProviderStatus_read.
Qed.

Definition example_status : Provider.KubevirtMachineProviderStatus :=
  Provider.MkProviderStatus (Meta.MkTypeMeta "KubevirtMachineProviderStatus" "v1")
    (KV.MkVMStatus true false
       [KV.MkVMCondition "Ready" "False" Rfc3339.zero (1582934399 * Rfc3339.second + 7)
          "GuestNotRunning" "";
        KV.MkVMCondition "Failure" "True" 0 0 "" "no node"]
       [KV.MkStateChange "Stop" (Some {["grace" := "0"; "by" := "user"]}) (Some "vmi-1");
        KV.MkStateChange "Start" (Some ∅) None]).

Definition example_errors : TimeErrors := {| parse_error s := ErrorString ("cannot parse " +:+ s) |}.

Lemma provider_status_roundtrip_witness :
  @ProviderStatusFromRawExtension example_errors reversing_yaml
    (Some (MkRawExtension (encode (AMap (status_fields example_status))))) =
  inl (status_back example_status).
Proof.
  apply (@provider_status_roundtrip example_errors reversing_yaml example_status);
    [ | apply reversing_yaml_reads | reflexivity ].
  by apply (bool_decide_unpack _); vm_compute.
Defined.

(** ** Behaviour on other documents *)
Section examples.
#[local] Existing Instance example_errors.
Definition read_text (s : string) : option (result Provider.KubevirtMachineProviderStatus) :=
  decode_status <$> decode_document (ticks s).
Definition types_and_reasons (s : string) : option (list (string * string)) :=
  match read_text s with
  | Some (inl st) =>
      Some (map (λ c, (KV.CondType c, KV.CondReason c))
        (KV.Conditions (Provider.VirtualMachineStatus st)))
  | _ => None
  end.
Definition error_text (s : string) : option string :=
  match read_text s with Some (inr e) => Some (Error e) | _ => None end.

(** A key that comes again is decoded over what is there, and a longer slice
    uncovers what the array still holds. *)
Example keys_again :
  types_and_reasons
    "{'conditions': [{'type':'a'}, {'type':'b','reason':'r'}], 'Conditions': [{'reason':'s'}],
      'CONDITIONS': [null, {'type':'c'}]}" = Some [("a", "s"); ("c", "r")].
Proof. vm_compute. reflexivity. Qed.
Example emptied_first :
  types_and_reasons "{'conditions': [{'type':'a'}], 'Conditions': [], 'CONDITIONS': [{}]}"
    = Some [("", "")].
Proof. vm_compute. reflexivity. Qed.
Example first_error_stays :
  error_text "{'created': 1, 'conditions': [{'status': []}]}"
    = Some "json: cannot unmarshal number into Go struct field KubevirtMachineProviderStatus.created of type bool".
Proof. vm_compute. reflexivity. Qed.
Example time_error_stops :
  error_text "{'created': 1, 'conditions': [{'lastProbeTime': '2021-02-29T00:00:00Z'}]}"
    = Some "cannot parse 2021-02-29T00:00:00Z".
Proof. vm_compute. reflexivity. Qed.
Example inner_error :
  error_text "{'stateChangeRequests': [{'data': {'k': true}}]}"
    = Some "json: cannot unmarshal bool into Go struct field VirtualMachineStateChangeRequest.stateChangeRequests.data of type string".
Proof. vm_compute. reflexivity. Qed.
End examples.
