(* ===== verification/DeepCopy.v ===== *)
(** * Deep copies (zz_generated.deepcopy.go of the provider's API types)

    Everywhere else a value is its own copy.  Here Go's memory is a heap, so
    that sharing is visible: structs that pointers point to, the arrays behind
    slices, maps and strings behind pointers are cells at locations.  The
    generated functions are modelled statement by statement, with those of
    kubevirt.io/client-go that they call, and a copy is proved to share no
    cell with its original. *)

From S2P Require Import Prelude GoStd Times ApiTypes ProviderConfig ProviderStatus.
From stdpp Require Import sets fin_map_dom.

Abbreviation loc := positive.

(** A slice: its array, where it starts and its length. *)
Record slice := MkSlice { s_array : loc; s_off : nat; s_len : nat }.

(** The structs with their pointers; nil is [None]. *)
Record request := MkRequest {
  r_Action : string; r_Data : option loc; r_UID : option loc }.
Record vm_status := MkVMS {
  v_Created : bool; v_Ready : bool;
  v_Conditions : option slice; v_StateChangeRequests : option slice }.
Record provider_status := MkPS { p_TypeMeta : Meta.TypeMeta; p_VirtualMachineStatus : vm_status }.

Inductive cell :=
  | CSpec (s : Provider.KubevirtMachineProviderSpec)
  | CStatus (s : provider_status)
  | CConditions (l : list KV.VirtualMachineCondition)
  | CRequests (l : list request)
  | CMap (m : gmap string string)
  | CUID (u : string).

Abbreviation heap := (gmap loc cell).

Definition as_spec (c : cell) := match c with CSpec s => Some s | _ => None end.
Definition as_status (c : cell) := match c with CStatus s => Some s | _ => None end.
Definition as_conditions (c : cell) := match c with CConditions l => Some l | _ => None end.
Definition as_requests (c : cell) := match c with CRequests l => Some l | _ => None end.
Definition as_map (c : cell) := match c with CMap m => Some m | _ => None end.
Definition as_uid (c : cell) := match c with CUID u => Some u | _ => None end.

(** ** Memory *)
Definition nil_pointer {A} : Go heap A :=
  go_panic "runtime error: invalid memory address or nil pointer dereference".

Definition load {A} (as_type : cell → option A) (l : loc) : Go heap A := λ h,
  match h !! l ≫= as_type with
  | Some a => (Ret a, h)
  | None => nil_pointer h
  end.
Definition store (l : loc) (c : cell) : Go heap unit := go_modify <[l:=c]>.
(** [new] and [make]: a location that was not in use. *)
Definition alloc (c : cell) : Go heap loc := λ h,
  let l := fresh (dom h) in (Ret l, <[l:=c]> h).

(** The element [i] of an array. *)
Definition load_at {A} (as_type : cell → option (list A)) (l : loc) (i : nat) : Go heap A :=
  a ← load as_type l;
  match a !! i with
  | Some x => mret x
  | None => go_panic "runtime error: index out of range"
  end.
Definition store_at {A} (as_type : cell → option (list A)) (to_cell : list A → cell)
    (l : loc) (i : nat) (x : A) : Go heap unit :=
  a ← load as_type l;
  if (i <? length a)%nat then store l (to_cell (<[i:=x]> a))
  else go_panic "runtime error: index out of range".

(** [for i := range s], from [i] on. *)
Fixpoint go_range {W} (n i : nat) (body : nat → Go W unit) : Go W unit :=
  match n with
  | O => mret tt
  | S n => _ ← body i; go_range n (S i) body
  end.

(** ** The copied structs of client-go

    A pointer into an array is the array and an index, a pointer to the
    embedded status is the location of the struct around it. *)
Definition set_times (probe transition : Z) (c : KV.VirtualMachineCondition)
    : KV.VirtualMachineCondition :=
  KV.MkVMCondition (KV.CondType c) (KV.CondStatus c) probe transition (KV.CondReason c)
    (KV.CondMessage c).

Definition VirtualMachineCondition_DeepCopyInto (src : loc) (i : nat) (out : loc) (j : nat)
    : Go heap unit :=
  c ← load_at as_conditions src i;
  _ ← store_at as_conditions CConditions out j c;
  c ← load_at as_conditions src i;
  o ← load_at as_conditions out j;
  _ ← store_at as_conditions CConditions out j
        (set_times (KV.CondLastProbeTime c) (KV.CondLastTransitionTime o) o);
  c ← load_at as_conditions src i;
  o ← load_at as_conditions out j;
  store_at as_conditions CConditions out j
    (set_times (KV.CondLastProbeTime o) (KV.CondLastTransitionTime c) o).

(** The two pointers of a request, into the element [j] of [out]. *)
Definition copy_Data (data : option loc) (out : loc) (j : nat) : Go heap unit :=
  match data with
  | None => mret tt
  | Some data =>
      copy ← alloc (CMap ∅);
      o ← load_at as_requests out j;
      _ ← store_at as_requests CRequests out j (MkRequest (r_Action o) (Some copy) (r_UID o));
      m ← load as_map data;
      c ← load as_map copy;
      store copy (CMap (map_range_assign (Some m) c))
  end.
Definition copy_UID (uid : option loc) (out : loc) (j : nat) : Go heap unit :=
  match uid with
  | None => mret tt
  | Some uid =>
      copy ← alloc (CUID "");
      o ← load_at as_requests out j;
      _ ← store_at as_requests CRequests out j (MkRequest (r_Action o) (r_Data o) (Some copy));
      u ← load as_uid uid;
      store copy (CUID u)
  end.

Definition VirtualMachineStateChangeRequest_DeepCopyInto (src : loc) (i : nat) (out : loc)
    (j : nat) : Go heap unit :=
  r ← load_at as_requests src i;
  _ ← store_at as_requests CRequests out j r;
  _ ← copy_Data (r_Data r) out j;
  copy_UID (r_UID r) out j.

Definition with_vm (v : vm_status) (s : provider_status) : provider_status :=
  MkPS (p_TypeMeta s) v.
Definition with_conditions (c : option slice) (v : vm_status) : vm_status :=
  MkVMS (v_Created v) (v_Ready v) c (v_StateChangeRequests v).
Definition with_requests (r : option slice) (v : vm_status) : vm_status :=
  MkVMS (v_Created v) (v_Ready v) (v_Conditions v) r.

Definition zeroRequest : request := MkRequest "" None None.

(** The two slices of the status, into the struct at [out]. *)
Definition copy_Conditions (s : option slice) (out : loc) : Go heap unit :=
  match s with
  | None => mret tt
  | Some s =>
      a ← alloc (CConditions (replicate (s_len s) zeroCondition));
      o ← load as_status out;
      _ ← store out (CStatus (with_vm
            (with_conditions (Some (MkSlice a 0 (s_len s))) (p_VirtualMachineStatus o)) o));
      go_range (s_len s) 0 (λ k,
        VirtualMachineCondition_DeepCopyInto (s_array s) (s_off s + k) a k)
  end.
Definition copy_StateChangeRequests (s : option slice) (out : loc) : Go heap unit :=
  match s with
  | None => mret tt
  | Some s =>
      a ← alloc (CRequests (replicate (s_len s) zeroRequest));
      o ← load as_status out;
      _ ← store out (CStatus (with_vm
            (with_requests (Some (MkSlice a 0 (s_len s))) (p_VirtualMachineStatus o)) o));
      go_range (s_len s) 0 (λ k,
        VirtualMachineStateChangeRequest_DeepCopyInto (s_array s) (s_off s + k) a k)
  end.

Definition VirtualMachineStatus_DeepCopyInto (src out : loc) : Go heap unit :=
  i ← load as_status src;
  o ← load as_status out;
  _ ← store out (CStatus (with_vm (p_VirtualMachineStatus i) o));
  _ ← copy_Conditions (v_Conditions (p_VirtualMachineStatus i)) out;
  copy_StateChangeRequests (v_StateChangeRequests (p_VirtualMachineStatus i)) out.

(** ** The provider's types *)
Definition spec_with_type (t : Meta.TypeMeta) (s : Provider.KubevirtMachineProviderSpec)
    : Provider.KubevirtMachineProviderSpec :=
  let '(Provider.MkProviderSpec _ a b c d e f g h i j) := s in
  Provider.MkProviderSpec t a b c d e f g h i j.

Definition zeroStatus : provider_status := MkPS Meta.noType (MkVMS false false None None).

(** A [runtime.Object], the interface: nil or a pointer of one of the types. *)
Inductive Object := OSpec (l : loc) | OStatus (l : loc).

Module KubevirtMachineProviderSpec.
Definition DeepCopyInto (src out : loc) : Go heap unit :=
  i ← load as_spec src;
  _ ← store out (CSpec i);
  i ← load as_spec src;
  o ← load as_spec out;
  store out (CSpec (spec_with_type (Provider.TypeMeta i) o)).

Definition DeepCopy (src : option loc) : Go heap (option loc) :=
  match src with
  | None => mret None
  | Some src =>
      out ← alloc (CSpec Provider.zeroSpec);
      _ ← DeepCopyInto src out;
      mret (Some out)
  end.

Definition DeepCopyObject (src : option loc) : Go heap (option Object) :=
  c ← DeepCopy src;
  mret match c with Some c => Some (OSpec c) | None => None end.
End KubevirtMachineProviderSpec.

Module KubevirtMachineProviderStatus.
Definition DeepCopyInto (src out : loc) : Go heap unit :=
  i ← load as_status src;
  _ ← store out (CStatus i);
  i ← load as_status src;
  o ← load as_status out;
  _ ← store out (CStatus (MkPS (p_TypeMeta i) (p_VirtualMachineStatus o)));
  VirtualMachineStatus_DeepCopyInto src out.

Definition DeepCopy (src : option loc) : Go heap (option loc) :=
  match src with
  | None => mret None
  | Some src =>
      out ← alloc (CStatus zeroStatus);
      _ ← DeepCopyInto src out;
      mret (Some out)
  end.

Definition DeepCopyObject (src : option loc) : Go heap (option Object) :=
  c ← DeepCopy src;
  mret match c with Some c => Some (OStatus c) | None => None end.
End KubevirtMachineProviderStatus.

(** ** What a structure in memory reads as

    [X_at h D p v]: in [h], [p] is the root of a structure that reads as [v],
    and all its cells are outside [D]. *)
Definition subslice {A} (s : slice) (l : list A) : list A := take (s_len s) (drop (s_off s) l).

Definition slice_at {A B} (as_type : cell → option (list A))
    (elem : A → B → Prop) (h : heap) (D : gset loc) (s : option slice) (v : option (list B)) : Prop :=
  match s, v with
  | None, None => True
  | Some s, Some vs =>
      (s_array s ∉ D) ∧
      ∃ c l, h !! s_array s = Some c ∧ as_type c = Some l ∧
        (s_off s + s_len s ≤ length l)%nat ∧ Forall2 elem (subslice s l) vs
  | _, _ => False
  end.

Definition pointer_at {A} (as_type : cell → option A) (h : heap) (D : gset loc)
    (p : option loc) (v : option A) : Prop :=
  match p, v with
  | None, None => True
  | Some l, Some a => (l ∉ D) ∧ ∃ c, h !! l = Some c ∧ as_type c = Some a
  | _, _ => False
  end.

Definition request_at (h : heap) (D : gset loc) (r : request)
    (v : KV.VirtualMachineStateChangeRequest) : Prop :=
  r_Action r = KV.Action v ∧ pointer_at as_map h D (r_Data r) (KV.ActionData v) ∧
  pointer_at as_uid h D (r_UID r) (KV.ActionUID v).

(** The status as a value, nil slices apart from empty ones. *)
Record status_value := MkStatusValue {
  val_Type : Meta.TypeMeta; val_Created : bool; val_Ready : bool;
  val_Conditions : option (list KV.VirtualMachineCondition);
  val_Requests : option (list KV.VirtualMachineStateChangeRequest) }.

Definition vms_at (h : heap) (D : gset loc) (s : vm_status) (v : status_value) : Prop :=
  v_Created s = val_Created v ∧ v_Ready s = val_Ready v ∧
  slice_at as_conditions eq h D (v_Conditions s) (val_Conditions v) ∧
  slice_at as_requests (request_at h D) h D (v_StateChangeRequests s) (val_Requests v).

Definition status_at (h : heap) (D : gset loc) (l : loc) (v : status_value) : Prop :=
  (l ∉ D) ∧ ∃ s, h !! l = Some (CStatus s) ∧ p_TypeMeta s = val_Type v ∧
    vms_at h D (p_VirtualMachineStatus s) v.

(** What is outside [D] is outside [D'] and unchanged. *)
Definition keeps (h : heap) (D : gset loc) (h' : heap) (D' : gset loc) : Prop :=
  ∀ l c, l ∉ D → h !! l = Some c → (l ∉ D') ∧ h' !! l = Some c.

(** Nothing but [F] changed. *)
Definition frame (F : gset loc) (h h' : heap) : Prop :=
  ∀ l c, l ∉ F → h !! l = Some c → h' !! l = Some c.

Section reading.
Implicit Types (h : heap) (D : gset loc).

Lemma frame_refl F h : frame F h h.
Proof. by intros l c. Qed.
Lemma frame_trans F h1 h2 h3 : frame F h1 h2 → frame F h2 h3 → frame F h1 h3.
Proof. intros H1 H2 l c Hl Hc. auto. Qed.
Lemma frame_weaken F F' h h' : F ⊆ F' → frame F h h' → frame F' h h'.
Proof. intros Hs Hf l c Hl. apply Hf. set_solver. Qed.
Lemma frame_store F h l c : l ∈ F → frame F h (<[l:=c]> h).
Proof. intros Hl k d Hk Hd. rewrite lookup_insert_ne; [done|set_solver]. Qed.
Lemma frame_alloc F h l c : h !! l = None → frame F h (<[l:=c]> h).
Proof. intros Hl k d Hk Hd. rewrite lookup_insert_ne; [done|congruence]. Qed.

Lemma pointer_at_keeps {A} (as_type : cell → option A) h D h' D' p v :
  keeps h D h' D' → pointer_at as_type h D p v → pointer_at as_type h' D' p v.
Proof.
  intros Hk. destruct p as [l|], v as [a|]; try done.
  intros (Hl & c & Hc & Ha). destruct (Hk _ _ Hl Hc). split; eauto.
Qed.

Lemma request_at_keeps h D h' D' r v :
  keeps h D h' D' → request_at h D r v → request_at h' D' r v.
Proof. intros Hk (? & ? & ?). split_and!; [done|by eapply pointer_at_keeps..]. Qed.

Lemma slice_at_keeps {A B} as_type (P P' : A → B → Prop) h D h' D' s v :
  keeps h D h' D' → (∀ x y, P x y → P' x y) →
  slice_at as_type P h D s v → slice_at as_type P' h' D' s v.
Proof.
  intros Hk HP. destruct s as [s|], v as [vs|]; try done.
  intros (Hl & c & l & Hc & Ha & Hlen & Hall). destruct (Hk _ _ Hl Hc).
  split; [done|]. exists c, l. split_and!; try done. by eapply Forall2_impl.
Qed.

Lemma vms_at_keeps h D h' D' s v : keeps h D h' D' → vms_at h D s v → vms_at h' D' s v.
Proof.
  intros Hk (? & ? & ? & ?). split_and!; [done..|by eapply slice_at_keeps|].
  eapply slice_at_keeps; [done| |done]. intros ??. by apply request_at_keeps.
Qed.

Lemma status_at_keeps h D h' D' l v : keeps h D h' D' → status_at h D l v → status_at h' D' l v.
Proof.
  intros Hk (Hl & s & Hs & Ht & Hv). destruct (Hk _ _ Hl Hs).
  split; [done|]. exists s. split_and!; [done..|by eapply vms_at_keeps].
Qed.

(** A location that holds something else is not part of the structure. *)
Lemma pointer_at_avoid {A} (as_type : cell → option A) h D p v a c :
  h !! a = Some c → as_type c = None →
  pointer_at as_type h D p v → pointer_at as_type h ({[a]} ∪ D) p v.
Proof.
  intros Ha Hc. destruct p as [l|], v as [x|]; try done.
  intros (Hl & d & Hd & Hx). split; [|by eauto]. intros [->%elem_of_singleton|?]%elem_of_union; [|done].
  rewrite Ha in Hd. injection Hd as ->. by rewrite Hc in Hx.
Qed.

Lemma request_at_avoid h D r v a c :
  h !! a = Some c → as_map c = None → as_uid c = None →
  request_at h D r v → request_at h ({[a]} ∪ D) r v.
Proof. intros Ha H1 H2 (? & ? & ?). split_and!; [done|by eapply pointer_at_avoid..]. Qed.

(** Across a change of one such location. *)
Lemma request_at_frame h h' r v a c :
  frame {[a]} h h' → h !! a = Some c → as_map c = None → as_uid c = None →
  request_at h ∅ r v → request_at h' ∅ r v.
Proof.
  intros Hf Ha H1 H2 Hr. eapply (request_at_keeps h ({[a]} ∪ ∅));
    [|by eapply request_at_avoid].
  intros l d Hl Hd. split; [set_solver|]. apply Hf; [set_solver|done].
Qed.

Lemma slice_at_frame {A B} as_type (P P' : A → B → Prop) h h' a c s v :
  frame {[a]} h h' → h !! a = Some c → as_type c = None → (∀ x y, P x y → P' x y) →
  slice_at as_type P h ∅ s v → slice_at as_type P' h' ∅ s v.
Proof.
  intros Hf Ha Hc HP. destruct s as [s|], v as [vs|]; try done.
  intros (_ & d & l & Hd & Hl & Hlen & Hall). split; [set_solver|].
  exists d, l. split_and!; [|done..|by eapply Forall2_impl].
  apply Hf; [|done]. intros Heq%elem_of_singleton. congruence.
Qed.

Lemma vms_at_frame h h' s v a x :
  frame {[a]} h h' → h !! a = Some (CStatus x) → vms_at h ∅ s v → vms_at h' ∅ s v.
Proof.
  intros Hf Ha (? & ? & ? & ?). split_and!; [done..| |].
  - by eapply slice_at_frame.
  - eapply slice_at_frame; [done..| |done]. intros ??. by eapply request_at_frame.
Qed.
End reading.

(** ** Steps *)
Section steps.
Context {E : string → heap → Prop}.
Implicit Types (h : heap).

Lemma wp_load {A} (as_type : cell → option A) l c a h (Q : A → heap → Prop) :
  h !! l = Some c → as_type c = Some a → Q a h → wp (load as_type l) Q E h.
Proof. intros Hc Ha HQ. unfold wp, load. rewrite Hc. simpl. by rewrite Ha. Qed.

Lemma wp_alloc c h (Q : loc → heap → Prop) :
  (∀ l, h !! l = None → Q l (<[l:=c]> h)) → wp (alloc c) Q E h.
Proof. intros HQ. apply HQ. apply not_elem_of_dom, is_fresh. Qed.

Lemma wp_load_at {A} (as_type : cell → option (list A)) l c a i x h (Q : A → heap → Prop) :
  h !! l = Some c → as_type c = Some a → a !! i = Some x → Q x h →
  wp (load_at as_type l i) Q E h.
Proof.
  intros Hc Ha Hx HQ. unfold load_at. apply wp_bind. eapply wp_load; [done..|]. by rewrite Hx.
Qed.

Lemma wp_store_at {A} (as_type : cell → option (list A)) to_cell l c a i x h
    (Q : unit → heap → Prop) :
  h !! l = Some c → as_type c = Some a → (i < length a)%nat →
  Q tt (<[l:=to_cell (<[i:=x]> a)]> h) → wp (store_at as_type to_cell l i x) Q E h.
Proof.
  intros Hc Ha Hi HQ. unfold store_at. apply wp_bind. eapply wp_load; [done..|].
  rewrite (proj2 (Nat.ltb_lt _ _) Hi). done.
Qed.

Lemma wp_range {W} (EW : string → W → Prop) (I : nat → W → Prop) n i body w :
  I i w → (∀ j w, (i ≤ j < i + n)%nat → I j w → wp (body j) (λ _, I (S j)) EW w) →
  wp (go_range n i body) (λ _, I (i + n)%nat) EW w.
Proof.
  revert i w. induction n as [|n IH]; intros i w Hi Hstep; simpl.
  - apply wp_ret. by rewrite Nat.add_0_r.
  - apply wp_bind. eapply wp_mono; [apply Hstep; [lia|done]| |done].
    cbn beta. intros ? w' Hw. rewrite <-Nat.add_succ_comm. apply IH; [exact Hw|].
    intros j w2 Hj. apply Hstep. lia.
Qed.
End steps.

(** One step of a proof about the heap: the cell is in the context. *)
Ltac heap_lookup :=
  first [eassumption | rewrite lookup_insert_eq; reflexivity
        | rewrite lookup_insert_ne by congruence; heap_lookup].
Ltac heap_step :=
  cbn beta iota zeta;
  lazymatch goal with
  | |- wp (mbind _ _) _ _ _ => apply wp_bind; heap_step
  | |- wp (load _ _) _ _ _ => eapply wp_load; [heap_lookup|reflexivity|]
  | |- wp (load_at _ _ _) _ _ _ => eapply wp_load_at; [heap_lookup|reflexivity| |]
  | |- wp (store_at _ _ _ _ _) _ _ _ => eapply wp_store_at; [heap_lookup|reflexivity| |]
  | |- wp (store _ _) _ _ _ => apply wp_modify
  | |- wp (mret _) _ _ _ => apply wp_ret
  end.

Section copies.
Implicit Types (h : heap).

Lemma condition_copied src i out j l l' c h :
  h !! src = Some (CConditions l) → l !! i = Some c → src ≠ out →
  h !! out = Some (CConditions l') → (j < length l')%nat →
  wp (VirtualMachineCondition_DeepCopyInto src i out j)
    (λ _ h', h' = <[out:=CConditions (<[j:=c]> l')]> h) no_panic h.
Proof.
  intros Hsrc Hi Hne Hout Hj. unfold VirtualMachineCondition_DeepCopyInto.
  assert (∀ x : KV.VirtualMachineCondition, <[j:=x]> l' !! j = Some x) as Hx.
  { intros x. by apply list_lookup_insert_eq. }
  heap_step; [done|]. heap_step; [done|]. heap_step; [done|].
  heap_step; [apply Hx|]. heap_step; [by rewrite length_insert|].
  heap_step; [done|]. rewrite !insert_insert_eq. rewrite list_insert_insert_eq. heap_step; [apply Hx|].
  heap_step; [by rewrite length_insert|].
  rewrite insert_insert_eq, list_insert_insert_eq. by destruct c.
Qed.

(** What a location in [dom h] is not, a new one is. *)
Lemma fresh_new h l : h !! l = None → l ∉ dom h.
Proof. by intros ?%not_elem_of_dom. Qed.

(** The fresh cell of a copied pointer. *)
Lemma pointer_at_fresh {A} (as_type : cell → option A) h h' l c a :
  l ∉ dom h → h' !! l = Some c → as_type c = Some a →
  pointer_at as_type h' (dom h) (Some l) (Some a).
Proof. intros. split; eauto. Qed.

Lemma keeps_dom h1 h2 h out :
  frame {[out]} h1 h2 → is_Some (h !! out) → keeps h1 (dom h) h2 (dom h).
Proof.
  intros Hf Hout l c Hl Hc. split; [done|]. apply Hf; [|done].
  intros ->%elem_of_singleton. by apply Hl, elem_of_dom.
Qed.

(** A pointer is copied to a new cell, and the element points to it. *)
Lemma data_copied data x out j l r h :
  pointer_at as_map h ∅ data x → h !! out = Some (CRequests l) → l !! j = Some r →
  r_Data r = data →
  wp (copy_Data data out j)
    (λ _ h', frame {[out]} h h' ∧ ∃ data', pointer_at as_map h' (dom h) data' x ∧
       h' !! out = Some (CRequests (<[j:=MkRequest (r_Action r) data' (r_UID r)]> l)))
    no_panic h.
Proof.
  intros Hdata Hout Hj Hr. destruct data as [m|], x as [x|]; try done.
  - destruct Hdata as (_ & c & Hc & Hcx). destruct c; try done. injection Hcx as ->.
    apply lookup_lt_Some in Hj as Hlt.
    apply wp_bind, wp_alloc. intros copy Hnew. do 2 (heap_step; [done|]). do 3 heap_step. split.
    + intros k d Hk%not_elem_of_singleton Hd. do 3 rewrite lookup_insert_ne by congruence. done.
    + exists (Some copy). split; [|by rewrite lookup_insert_ne, lookup_insert_eq by congruence].
      eapply pointer_at_fresh; [by apply fresh_new|by rewrite lookup_insert_eq|].
      simpl. rewrite map_range_assign_union. simpl. by rewrite (right_id ∅ (∪)).
  - apply wp_ret. split; [apply frame_refl|]. exists None. split; [done|].
    destruct r; simpl in *; subst. by rewrite list_insert_id.
Qed.

Lemma uid_copied uid x out j l r h :
  pointer_at as_uid h ∅ uid x → h !! out = Some (CRequests l) → l !! j = Some r →
  r_UID r = uid →
  wp (copy_UID uid out j)
    (λ _ h', frame {[out]} h h' ∧ ∃ uid', pointer_at as_uid h' (dom h) uid' x ∧
       h' !! out = Some (CRequests (<[j:=MkRequest (r_Action r) (r_Data r) uid']> l)))
    no_panic h.
Proof.
  intros Huid Hout Hj Hr. destruct uid as [u|], x as [x|]; try done.
  - destruct Huid as (_ & c & Hc & Hcx). destruct c; try done. injection Hcx as ->.
    apply lookup_lt_Some in Hj as Hlt.
    apply wp_bind, wp_alloc. intros copy Hnew. do 2 (heap_step; [done|]). do 2 heap_step. split.
    + intros k d Hk%not_elem_of_singleton Hd. do 3 rewrite lookup_insert_ne by congruence. done.
    + exists (Some copy). split; [|by rewrite lookup_insert_ne, lookup_insert_eq by congruence].
      eapply pointer_at_fresh; [by apply fresh_new|by rewrite lookup_insert_eq|done].
  - apply wp_ret. split; [apply frame_refl|]. exists None. split; [done|].
    destruct r; simpl in *; subst. by rewrite list_insert_id.
Qed.

Lemma pointer_at_frame {A} (as_type : cell → option A) h h' p v a c :
  frame {[a]} h h' → h !! a = Some c → as_type c = None →
  pointer_at as_type h ∅ p v → pointer_at as_type h' ∅ p v.
Proof.
  intros Hf Ha Hc Hp. eapply (pointer_at_keeps _ h ({[a]} ∪ ∅)); [|by eapply pointer_at_avoid].
  intros l d Hl Hd. split; [set_solver|]. apply Hf; [set_solver|done].
Qed.

Lemma frame_dom h h' F : frame F h h' → F ⊆ dom h' → dom h ⊆ dom h'.
Proof.
  intros Hf Hs k Hk. destruct (decide (k ∈ F)); [set_solver|].
  apply elem_of_dom in Hk as [c Hc]. apply elem_of_dom. exists c. by apply Hf.
Qed.

Lemma request_copied src i out j l l' r v h :
  h !! src = Some (CRequests l) → l !! i = Some r → request_at h ∅ r v → src ≠ out →
  h !! out = Some (CRequests l') → (j < length l')%nat →
  wp (VirtualMachineStateChangeRequest_DeepCopyInto src i out j)
    (λ _ h', frame {[out]} h h' ∧ ∃ r', h' !! out = Some (CRequests (<[j:=r']> l')) ∧
       request_at h' (dom h) r' v) no_panic h.
Proof.
  intros Hsrc Hi (Hact & Hdata & Huid) Hne Hout Hj.
  unfold VirtualMachineStateChangeRequest_DeepCopyInto.
  heap_step; [done|]. heap_step; [done|].
  set (h1 := <[out:=CRequests (<[j:=r]> l')]> h).
  assert (frame {[out]} h h1) as Hf1 by (by apply frame_store, elem_of_singleton).
  assert (h1 !! out = Some (CRequests (<[j:=r]> l'))) as Hout1 by apply lookup_insert_eq.
  assert (dom h1 = dom h) as Hdom1 by (apply dom_insert_lookup_L; eauto).
  apply wp_bind. eapply wp_mono.
  { eapply data_copied; [by eapply pointer_at_frame|done|by apply list_lookup_insert_eq|done]. }
  2: done.
  intros [] h2 (Hf2 & data & Hdata2 & Hout2). rewrite list_insert_insert_eq in Hout2.
  eapply wp_mono.
  { eapply uid_copied; [|done|by apply list_lookup_insert_eq|done].
    eapply (pointer_at_frame _ h h2); [exact (frame_trans _ _ _ _ Hf1 Hf2)|done..]. }
  2: done.
  intros [] h3 (Hf3 & uid & Huid3 & Hout3). rewrite list_insert_insert_eq in Hout3.
  split; [exact (frame_trans _ _ _ _ Hf1 (frame_trans _ _ _ _ Hf2 Hf3))|]. eexists. split; [exact Hout3|].
  rewrite Hdom1 in Hdata2. split_and!; [done| |].
  - eapply pointer_at_keeps; [by eapply keeps_dom|done].
  - eapply pointer_at_keeps; [|exact Huid3]. intros k c Hk Hc. split; [|done].
    intros Hin. apply Hk. rewrite <-Hdom1 in Hin.
    eapply frame_dom; [exact Hf2| |exact Hin]. apply singleton_subseteq_l, elem_of_dom. eauto.
Qed.

(** ** Arrays *)

(** A loop that fills the array at [a], element by element. *)
Lemma array_copied {A B} (to_cell : list A → cell) (R : heap → A → B → Prop) n body a l0 vs h :
  (∀ k h1 l1 y, frame {[a]} h h1 → h1 !! a = Some (to_cell l1) → (k < length l1)%nat →
     vs !! k = Some y →
     wp (body k) (λ _ h2, frame {[a]} h1 h2 ∧ ∃ x, h2 !! a = Some (to_cell (<[k:=x]> l1)) ∧ R h2 x y)
       no_panic h1) →
  (∀ h1 h2 x y, frame {[a]} h1 h2 → R h1 x y → R h2 x y) →
  h !! a = Some (to_cell l0) → length l0 = n → length vs = n →
  wp (go_range n 0 body)
    (λ _ h', frame {[a]} h h' ∧ ∃ l', h' !! a = Some (to_cell l') ∧ Forall2 (R h') l' vs)
    no_panic h.
Proof.
  intros Hbody HR Ha Hl0 Hvs.
  set (I := λ k h1, frame {[a]} h h1 ∧ ∃ l1, h1 !! a = Some (to_cell l1) ∧ length l1 = n ∧
    Forall2 (R h1) (take k l1) (take k vs)).
  eapply wp_mono; [apply (wp_range _ I)| |done].
  - split; [apply frame_refl|]. exists l0. by split_and!.
  - intros k h1 Hk (Hf & l1 & Hl1 & Hlen & Hall).
    destruct (lookup_lt_is_Some_2 vs k) as [y Hy]; [lia|].
    eapply wp_mono; [eapply Hbody; [done|done|lia|done]| |done].
    intros _ h2 (Hf2 & x & Hx & HRx). split; [by eapply frame_trans|].
    exists (<[k:=x]> l1). split_and!; [done|by rewrite length_insert|].
    rewrite (take_S_r _ _ _ Hy), (take_S_r _ _ x) by (apply list_lookup_insert_eq; lia).
    rewrite take_insert_ge by lia. apply Forall2_app; [|by constructor].
    eapply Forall2_impl; [done|]. eauto.
  - intros _ h1 (Hf & l1 & Hl1 & Hlen & Hall). split; [done|]. exists l1. split; [done|].
    rewrite !take_ge in Hall by lia. done.
Qed.

Lemma subslice_lookup {A B} (P : A → B → Prop) s l vs k y :
  Forall2 P (subslice s l) vs → vs !! k = Some y →
  ∃ x, l !! (s_off s + k)%nat = Some x ∧ P x y.
Proof.
  intros Hall Hy. destruct (Forall2_lookup_r _ _ _ _ _ Hall Hy) as (x & Hx & HP).
  exists x. split; [|done]. unfold subslice in Hx.
  apply lookup_take_Some in Hx as [Hx _]. by rewrite lookup_drop in Hx.
Qed.

Lemma subslice_length {A} (s : slice) (l : list A) :
  (s_off s + s_len s ≤ length l)%nat → length (subslice s l) = s_len s.
Proof. intros ?. unfold subslice. rewrite length_take, length_drop. lia. Qed.

Lemma slice_at_length {A B} as_type (P : A → B → Prop) h D s vs :
  slice_at as_type P h D (Some s) (Some vs) → length vs = s_len s.
Proof.
  intros (_ & c & l & _ & _ & Hlen & Hall).
  rewrite <-(Forall2_length _ _ _ Hall). by apply subslice_length.
Qed.

(** A whole array as a slice. *)
Lemma new_slice_at {A B} as_type (P : A → B → Prop) h D a n c l vs :
  a ∉ D → h !! a = Some c → as_type c = Some l → length vs = n → Forall2 P l vs →
  slice_at as_type P h D (Some (MkSlice a 0 n)) (Some vs).
Proof.
  intros Ha Hc Hl Hn Hall. split; [done|]. exists c, l.
  pose proof (Forall2_length _ _ _ Hall). simpl. split_and!; [done..|lia|].
  unfold subslice. simpl. by rewrite drop_0, take_ge by lia.
Qed.

Lemma conditions_copied s vs a l0 h :
  slice_at as_conditions eq h ∅ (Some s) (Some vs) → s_array s ≠ a →
  h !! a = Some (CConditions l0) → length l0 = s_len s →
  wp (go_range (s_len s) 0 (λ k,
        VirtualMachineCondition_DeepCopyInto (s_array s) (s_off s + k) a k))
    (λ _ h', frame {[a]} h h' ∧ h' !! a = Some (CConditions vs)) no_panic h.
Proof.
  intros Hs Hne Ha Hl0. pose proof (slice_at_length _ _ _ _ _ _ Hs) as Hvs.
  destruct Hs as (_ & c & l & Hc & Hcl & Hlen & Hall). destruct c; try done. injection Hcl as ->.
  eapply wp_mono; [eapply (array_copied _ (λ _, eq)); [| |done..]| |done]; [|done|].
  - intros k h1 l1 y Hf Hl1 Hk Hy. destruct (subslice_lookup _ _ _ _ _ _ Hall Hy) as (x & Hx & ->).
    eapply wp_mono; [eapply condition_copied; [|done..]| |done].
    + apply Hf; [|done]. by intros ?%elem_of_singleton.
    + intros _ h2 ->. split; [by apply frame_store, elem_of_singleton|].
      exists y. split; [apply lookup_insert_eq|done].
  - intros _ h1 (Hf & l1 & Hl1 & He). split; [done|]. apply list_eq_Forall2 in He. by subst.
Qed.

Lemma requests_copied s vs a l0 h :
  slice_at as_requests (request_at h ∅) h ∅ (Some s) (Some vs) → s_array s ≠ a →
  h !! a = Some (CRequests l0) → length l0 = s_len s →
  wp (go_range (s_len s) 0 (λ k,
        VirtualMachineStateChangeRequest_DeepCopyInto (s_array s) (s_off s + k) a k))
    (λ _ h', frame {[a]} h h' ∧ ∃ l', h' !! a = Some (CRequests l') ∧
       Forall2 (request_at h' (dom h)) l' vs) no_panic h.
Proof.
  intros Hs Hne Ha Hl0. pose proof (slice_at_length _ _ _ _ _ _ Hs) as Hvs.
  destruct Hs as (_ & c & l & Hc & Hcl & Hlen & Hall). destruct c; try done. injection Hcl as ->.
  eapply (array_copied _ (λ h', request_at h' (dom h))); [| |done..].
  - intros k h1 l1 y Hf Hl1 Hk Hy.
    destruct (subslice_lookup _ _ _ _ _ _ Hall Hy) as (x & Hx & Hxy).
    eapply wp_mono; [eapply (request_copied _ _ _ _ _ _ _ y); [|done| |done..]| |done].
    + apply Hf; [|done]. by intros ?%elem_of_singleton.
    + by eapply request_at_frame.
    + intros _ h2 (Hf2 & x' & Hx' & HR). split; [done|]. exists x'. split; [done|].
      eapply request_at_keeps; [|done]. intros q d Hq Hd. split; [|done].
      intros Hin. apply Hq. eapply frame_dom; [exact Hf| |done].
      apply singleton_subseteq_l, elem_of_dom. eauto.
  - intros h1 h2 x y Hf. apply request_at_keeps. apply (keeps_dom _ _ _ a); eauto.
Qed.

(** ** The status *)

(** The two slices of the embedded status, each into a new array. *)
Lemma copy_Conditions_spec s vs out (o : provider_status) h :
  slice_at as_conditions eq h ∅ s vs → h !! out = Some (CStatus o) →
  v_Conditions (p_VirtualMachineStatus o) = s →
  wp (copy_Conditions s out)
    (λ _ h', frame {[out]} h h' ∧ ∃ s', slice_at as_conditions eq h' (dom h) s' vs ∧
       h' !! out = Some (CStatus (with_vm (with_conditions s' (p_VirtualMachineStatus o)) o)))
    no_panic h.
Proof.
  intros Hs Hout Ho. destruct s as [s|], vs as [vs|]; try done.
  - apply wp_bind, wp_alloc. intros a Ha. do 2 heap_step.
    set (h1 := <[out:=_]> (<[a:=_]> h)).
    assert (a ≠ out) as Hao by congruence.
    assert (frame {[out]} h h1) as Hf.
    { intros k c Hk%not_elem_of_singleton Hc. unfold h1. by do 2 rewrite lookup_insert_ne by congruence. }
    eapply wp_mono; [eapply (conditions_copied _ vs)| |done].
    + by eapply slice_at_frame.
    + destruct Hs as (_ & c & l & Hc & _). congruence.
    + unfold h1. rewrite lookup_insert_ne by done. apply lookup_insert_eq.
    + apply length_replicate.
    + intros _ h2 (Hf2 & Hl2). split.
      { intros k c Hk Hc. apply Hf2; [|by apply Hf]. intros ->%elem_of_singleton. congruence. }
      exists (Some (MkSlice a 0 (s_len s))).
      split; [|apply Hf2; [set_solver|apply lookup_insert_eq]].
      eapply new_slice_at; [by apply fresh_new|done..|by eapply slice_at_length|by apply list_eq_Forall2].
  - apply wp_ret. split; [apply frame_refl|]. exists None. split; [done|].
    destruct o as [? []]; simpl in *; by subst.
Qed.

Lemma copy_StateChangeRequests_spec s vs out (o : provider_status) h :
  slice_at as_requests (request_at h ∅) h ∅ s vs → h !! out = Some (CStatus o) →
  v_StateChangeRequests (p_VirtualMachineStatus o) = s →
  wp (copy_StateChangeRequests s out)
    (λ _ h', frame {[out]} h h' ∧
       ∃ s', slice_at as_requests (request_at h' (dom h)) h' (dom h) s' vs ∧
       h' !! out = Some (CStatus (with_vm (with_requests s' (p_VirtualMachineStatus o)) o)))
    no_panic h.
Proof.
  intros Hs Hout Ho. destruct s as [s|], vs as [vs|]; try done.
  - apply wp_bind, wp_alloc. intros a Ha. do 2 heap_step.
    set (h1 := <[out:=_]> (<[a:=_]> h)).
    assert (a ≠ out) as Hao by congruence.
    assert (frame {[out]} h h1) as Hf.
    { intros k c Hk%not_elem_of_singleton Hc. unfold h1. by do 2 rewrite lookup_insert_ne by congruence. }
    eapply wp_mono; [eapply (requests_copied _ vs)| |done].
    + eapply slice_at_frame; [done..| |done]. intros ??. by eapply request_at_frame.
    + destruct Hs as (_ & c & l & Hc & _). congruence.
    + unfold h1. rewrite lookup_insert_ne by done. apply lookup_insert_eq.
    + apply length_replicate.
    + intros _ h2 (Hf2 & l' & Hl2 & Hall). split.
      { intros k c Hk Hc. apply Hf2; [|by apply Hf]. intros ->%elem_of_singleton. congruence. }
      exists (Some (MkSlice a 0 (s_len s))).
      split; [|apply Hf2; [set_solver|apply lookup_insert_eq]].
      eapply new_slice_at; [by apply fresh_new|done..|by eapply slice_at_length|].
      eapply Forall2_impl; [exact Hall|]. intros x y. apply request_at_keeps.
      intros k c Hk Hc. split; [|done]. intros Hin. apply Hk. unfold h1.
      rewrite !dom_insert_L. by do 2 apply elem_of_union_r.
  - apply wp_ret. split; [apply frame_refl|]. exists None. split; [done|].
    destruct o as [? []]; simpl in *; by subst.
Qed.

Lemma status_copied_into src out o v h :
  status_at h ∅ src v → h !! out = Some (CStatus o) → src ≠ out →
  wp (KubevirtMachineProviderStatus.DeepCopyInto src out)
    (λ _ h', frame {[out]} h h' ∧ ∃ s, h' !! out = Some (CStatus s) ∧
       p_TypeMeta s = val_Type v ∧ vms_at h' (dom h) (p_VirtualMachineStatus s) v) no_panic h.
Proof.
  intros (_ & i & Hi & Htype & Hv) Hout Hne.
  unfold KubevirtMachineProviderStatus.DeepCopyInto, VirtualMachineStatus_DeepCopyInto.
  do 8 heap_step. rewrite !insert_insert_eq. unfold with_vm at 1. simpl.
  set (h1 := <[out:=_]> h).
  assert (frame {[out]} h h1) as Hf1 by (by apply frame_store, elem_of_singleton).
  assert (h1 !! out = Some (CStatus (MkPS (p_TypeMeta i) (p_VirtualMachineStatus i)))) as Hout1
    by apply lookup_insert_eq.
  assert (dom h1 = dom h) as Hdom by (apply dom_insert_lookup_L; eauto).
  destruct (vms_at_frame _ _ _ _ _ _ Hf1 Hout Hv) as (Hcr & Hrd & Hcs & Hrs).
  apply wp_bind. eapply wp_mono; [by eapply copy_Conditions_spec| |done].
  intros [] h2 (Hf2 & cs & Hcs2 & Hout2).
  eapply wp_mono; [eapply copy_StateChangeRequests_spec; [|exact Hout2|done]| |done].
  { eapply slice_at_frame; [exact Hf2|done..| |exact Hrs]. intros ??. by eapply request_at_frame. }
  intros [] h3 (Hf3 & rs & Hrs3 & Hout3). split.
  { exact (frame_trans _ _ _ _ Hf1 (frame_trans _ _ _ _ Hf2 Hf3)). }
  eexists. split; [exact Hout3|]. split; [done|]. split_and!; [done..| |]; simpl.
  - eapply slice_at_keeps; [apply (keeps_dom _ _ _ out); [exact Hf3|by eexists]|done|].
    by rewrite <-Hdom.
  - assert (keeps h3 (dom h2) h3 (dom h)) as Hk.
    { intros k c Hk Hc. split; [|done]. intros Hin. apply Hk. rewrite <-Hdom in Hin.
      eapply frame_dom; [exact Hf2| |exact Hin]. apply singleton_subseteq_l, elem_of_dom. eauto. }
    eapply slice_at_keeps; [exact Hk| |exact Hrs3]. intros ??. by apply request_at_keeps.
Qed.
End copies.

(** C38: A deep copy of a status reads as the status, down to nil slices and
    maps, and shares no memory with it: its cells are new and the original's
    are untouched, so that whatever is done to one of the two afterwards, the
    other reads as before.  A nil pointer is copied to a nil interface. *)
Theorem DeepCopyObject_separate (src : option loc) (h : heap) (v : status_value)
    (Hsrc : ∀ l, src = Some l → status_at h ∅ l v) :
  wp (KubevirtMachineProviderStatus.DeepCopyObject src)
    (λ r h', match src, r with
       | None, None => h' = h
       | Some l, Some (OStatus l') =>
           h ⊆ h' ∧ status_at h' (dom h) l' v ∧
           (∀ h2, h ⊆ h2 → status_at h2 ∅ l v) ∧
           (∀ h2, frame (dom h) h' h2 → status_at h2 (dom h) l' v)
       | _, _ => False
       end) no_panic h.
Proof.
  destruct src as [l|]; [|done]. specialize (Hsrc l eq_refl).
  unfold KubevirtMachineProviderStatus.DeepCopyObject, KubevirtMachineProviderStatus.DeepCopy.
  do 2 apply wp_bind. apply wp_alloc. intros out Hnew. set (h1 := <[out:=_]> h).
  assert (frame ∅ h h1) as Hf1 by (by apply frame_alloc).
  assert (status_at h1 ∅ l v) as Hl1.
  { eapply status_at_keeps; [|exact Hsrc]. intros k c Hk Hc. split; [done|]. by apply Hf1. }
  assert (l ≠ out) as Hne by (destruct Hsrc as (_ & s & Hs & _); congruence).
  apply wp_bind. eapply wp_mono; [eapply status_copied_into; [done|apply lookup_insert_eq|done]| |done].
  intros [] h2 (Hf2 & s & Hs & Ht & Hv). do 2 apply wp_ret.
  assert (h ⊆ h2) as Hsub.
  { apply map_subseteq_spec. intros k c Hc. apply Hf2; [|by apply Hf1].
    intros ->%elem_of_singleton. congruence. }
  assert (status_at h2 (dom h) out v) as Hcopy.
  { split; [by apply fresh_new|]. exists s. split_and!; [done..|].
    eapply vms_at_keeps; [|exact Hv]. intros k c Hk Hc. split; [|done]. intros Hin. apply Hk.
    unfold h1. rewrite dom_insert_L. by apply elem_of_union_r. }
  split_and!; [done..| |].
  - intros h3 Hsub3. eapply status_at_keeps; [|exact Hsrc]. intros k c Hk Hc. split; [done|].
    by eapply lookup_weaken.
  - intros h3 Hf3. eapply status_at_keeps; [|exact Hcopy]. intros k c Hk Hc. split; [done|].
    by apply Hf3.
Qed.

(** The spec has no pointers: its copy is one new cell. *)
Lemma spec_DeepCopyObject (src : option loc) (h : heap) (s : Provider.KubevirtMachineProviderSpec)
    (Hsrc : ∀ l, src = Some l → h !! l = Some (CSpec s)) :
  wp (KubevirtMachineProviderSpec.DeepCopyObject src)
    (λ r h', match src, r with
       | None, None => h' = h
       | Some l, Some (OSpec l') => h !! l' = None ∧ h' = <[l':=CSpec s]> h
       | _, _ => False
       end) no_panic h.
Proof.
  destruct src as [l|]; [|done]. specialize (Hsrc l eq_refl).
  unfold KubevirtMachineProviderSpec.DeepCopyObject, KubevirtMachineProviderSpec.DeepCopy.
  do 2 apply wp_bind. apply wp_alloc. intros out Hnew.
  unfold KubevirtMachineProviderSpec.DeepCopyInto. do 7 heap_step.
  split; [done|]. rewrite !insert_insert_eq. by destruct s.
Qed.

(** A status with conditions, a request with data, and a nil map. *)
Definition example_status : status_value :=
  MkStatusValue (Meta.MkTypeMeta "KubevirtMachineProviderStatus" "v1alpha1") true false
    (Some [KV.MkVMCondition "Ready" "False" 0 1 "Starting" ""])
    (Some [KV.MkStateChange "Start" (Some {["a" := "b"]}) None;
           KV.MkStateChange "Stop" None (Some "uid")]).
Definition example_heap : heap :=
  {[ 1%positive := CStatus (MkPS (Meta.MkTypeMeta "KubevirtMachineProviderStatus" "v1alpha1")
       (MkVMS true false (Some (MkSlice 2 1 1)) (Some (MkSlice 3 0 2))));
     2%positive := CConditions [zeroCondition; KV.MkVMCondition "Ready" "False" 0 1 "Starting" ""];
     3%positive := CRequests [MkRequest "Start" (Some 4%positive) None;
                              MkRequest "Stop" None (Some 5%positive)];
     4%positive := CMap {["a" := "b"]};
     5%positive := CUID "uid" ]}.

Lemma DeepCopyObject_separate_witness :
  let l := 1%positive in
  wp (KubevirtMachineProviderStatus.DeepCopyObject (Some l))
    (λ r h', match r with
       | Some (OStatus l') =>
           example_heap ⊆ h' ∧ status_at h' (dom example_heap) l' example_status ∧
           (∀ h2, example_heap ⊆ h2 → status_at h2 ∅ l example_status) ∧
           (∀ h2, frame (dom example_heap) h' h2 → status_at h2 (dom example_heap) l' example_status)
       | _ => False
       end) no_panic example_heap.
Proof.
  apply (DeepCopyObject_separate (Some 1%positive)). intros l [= <-].
  assert (∀ k, k ∉ (∅ : gset loc)) as Hk by set_solver.
  split; [apply Hk|]. eexists. split; [reflexivity|]. split; [reflexivity|].
  unfold vms_at. split_and!; [reflexivity..| |].
  - split; [apply Hk|]. eexists _, _. split; [reflexivity|]. split; [reflexivity|].
    split; [simpl; lia|]. by repeat constructor.
  - split; [apply Hk|]. eexists _, _. split; [reflexivity|]. split; [reflexivity|].
    split; [simpl; lia|]. repeat constructor; try apply Hk; eexists; split; reflexivity.
Defined.
