(* ===== verification/TenantCluster.v ===== *)
(** * The tenant cluster's client (pkg/clients/tenantcluster/client.go)

    The cluster the machines live in.  [TenantApi] is what the client calls of
    client-go and controller-runtime, [Client] the interface of the package,
    [kubeClient] its implementation.  A call that receives a pointer to a
    machine runs in a world whose first component is that machine. *)

From S2P Require Import Prelude GoStd GoErrors Json ApiTypes.

Section tenantcluster.
Context {TW : Type}.

(** The calls of the libraries: [runtimeClient.Patch] and
    [runtimeClient.Status().Patch] with [client.MergeFrom] of the original,
    which write the server's answer into the machine, and the reads of
    secrets and config maps, by namespace and name. *)
Class TenantApi := {
  runtime_Patch : Mapi.Machine → Go (Mapi.Machine * TW) (option goerror);
  runtime_Status_Patch : Mapi.Machine → Go (Mapi.Machine * TW) (option goerror);
  secrets_Get : string → string → Go TW (result Core.Secret);
  configmaps_Get : string → string → Go TW (result Core.ConfigMap)
}.

(** The interface [tenantcluster.Client]. *)
Class Client := {
  PatchMachine : Mapi.Machine → Go (Mapi.Machine * TW) (option goerror);
  StatusPatchMachine : Mapi.Machine → Go (Mapi.Machine * TW) (option goerror);
  GetSecret : string → string → Go TW (result Core.Secret);
  GetConfigMapValue : string → string → string → Go TW (result (gomap string))
}.
End tenantcluster.
Arguments TenantApi : clear implicits.
Arguments Client : clear implicits.

Module kubeClient.
Section kubeClient.
Context `{!TenantApi TW}.

Definition PatchMachine (originMachineCopy : Mapi.Machine)
    : Go (Mapi.Machine * TW) (option goerror) :=
  runtime_Patch originMachineCopy.

Definition StatusPatchMachine (originMachineCopy : Mapi.Machine)
    : Go (Mapi.Machine * TW) (option goerror) :=
  runtime_Status_Patch originMachineCopy.

Definition GetSecret (secretName namespace : string) : Go TW (result Core.Secret) :=
  secrets_Get namespace secretName.

Definition GetConfigMapValue
    (configMapName configMapNamespace configMapDataKeyName : string)
    : Go TW (result (gomap string)) :=
  r ← configmaps_Get configMapNamespace configMapName;
  mret match r with
  | inr e => inr e
  | inl configMap =>
      match map_index (Core.ConfigMapData configMap) configMapDataKeyName with
      | None =>
          inr (InvalidMachineConfiguration
            ("Tenant-cluster configMap " +:+ configMapNamespace +:+ "/" +:+ configMapName
             +:+ " doesn't contain the key " +:+ configMapDataKeyName))
      | Some config =>
          match Unmarshal_string_map config with
          | Some cMap => inl cMap
          | None =>
              inr (InvalidMachineConfiguration
                ("Tenant-cluster configMap " +:+ configMapNamespace +:+ "/" +:+ configMapName
                 +:+ ": Data of key " +:+ configMapDataKeyName
                 +:+ " is not of type map[string]string"))
          end
      end
  end.

#[global] Instance client : Client TW := {|
  TenantCluster.PatchMachine := PatchMachine;
  TenantCluster.StatusPatchMachine := StatusPatchMachine;
  TenantCluster.GetSecret := GetSecret;
  TenantCluster.GetConfigMapValue := GetConfigMapValue
|}.
End kubeClient.
End kubeClient.

(** ** What the API server documents

    A read leaves the state alone; a result is the stored object, and an
    error that is [NotFound] is only reported for an absent one.  A patch of
    a machine changes its metadata and specification, a patch of the status
    subresource its status; either stores a new resource version, and the
    machine the caller passed becomes the stored one.  A patch that reports an
    error was applied or was not. *)
Section laws.
Context {TW : Type}.
Implicit Types (w : TW) (m origin stored : Mapi.Machine).

Class TenantView := {
  machine_at : TW → string → string → option Mapi.Machine;
  secret_at : TW → string → string → option Core.Secret;
  configmap_at : TW → string → string → option Core.ConfigMap
}.
Context `{!TenantView}.

(** The views other than the machines, and the other machines. *)
Definition frame_but (ns name : string) w w' : Prop :=
  (∀ ns' name', (ns', name') ≠ (ns, name) → machine_at w' ns' name' = machine_at w ns' name') ∧
  (∀ ns' name', secret_at w' ns' name' = secret_at w ns' name') ∧
  (∀ ns' name', configmap_at w' ns' name' = configmap_at w ns' name').

Definition stamped (rv : string) m : Mapi.Machine :=
  Mapi.MkMachine (Meta.set_ResourceVersion rv (Mapi.MachineMeta m)) (Mapi.Spec m) (Mapi.Status m).

(** The two patches, of a machine whose stored object is the original one
    (for the status: whose metadata and specification are stored already). *)
Definition patched m stored : Mapi.Machine :=
  Mapi.MkMachine (Mapi.MachineMeta m) (Mapi.Spec m) (Mapi.Status stored).
Definition status_patched m stored : Mapi.Machine :=
  Mapi.MkMachine (Mapi.MachineMeta stored) (Mapi.Spec stored) (Mapi.Status m).

Definition patch_post (applicable : Mapi.Machine → Prop)
    (result : Mapi.Machine → Mapi.Machine) m w
    (r : option goerror) (mw' : Mapi.Machine * TW) : Prop :=
  let ns := Mapi.GetNamespace m in
  let name := Mapi.GetName m in
  let '(m', w') := mw' in
  frame_but ns name w w' ∧
  match r with
  | None => ∃ stored, machine_at w ns name = Some stored ∧
      (applicable stored → ∃ rv, m' = stamped rv (result stored) ∧
                                 machine_at w' ns name = Some m')
  | Some e => m' = m ∧
      (machine_at w' ns name = machine_at w ns name ∨
       ∃ stored, machine_at w ns name = Some stored ∧
         (applicable stored → ∃ rv, machine_at w' ns name = Some (stamped rv (result stored))))
  end.

Class TenantLaws `{!TenantApi TW} := {
  api_patch origin m w :
    wp (runtime_Patch origin)
      (patch_post (λ stored, stored = origin) (patched m) m w) no_panic (m, w);
  api_status_patch origin m w :
    wp (runtime_Status_Patch origin)
      (patch_post (λ stored, Mapi.MachineMeta stored = Mapi.MachineMeta m ∧
                             Mapi.Spec stored = Mapi.Spec m ∧
                             Mapi.Status stored = Mapi.Status origin)
         (status_patched m) m w) no_panic (m, w);
  api_get_secret ns name w :
    wp (secrets_Get ns name)
      (λ r w', w' = w ∧ match r with
                        | inl s => secret_at w ns name = Some s
                        | inr e => IsNotFound e = true → secret_at w ns name = None
                        end) no_panic w;
  api_get_configmap ns name w :
    wp (configmaps_Get ns name)
      (λ r w', w' = w ∧ match r with
                        | inl c => configmap_at w ns name = Some c
                        | inr e => IsNotFound e = true → configmap_at w ns name = None
                        end) no_panic w
}.

(** What the client promises to its callers. *)
Definition config_value (c : Core.ConfigMap) (key : string) : option (gomap string) :=
  map_index (Core.ConfigMapData c) key ≫= Unmarshal_string_map.

Class ClientLaws `{!Client TW} := {
  PatchMachine_spec origin m w :
    wp (PatchMachine origin)
      (patch_post (λ stored, stored = origin) (patched m) m w) no_panic (m, w);
  StatusPatchMachine_spec origin m w :
    wp (StatusPatchMachine origin)
      (patch_post (λ stored, Mapi.MachineMeta stored = Mapi.MachineMeta m ∧
                             Mapi.Spec stored = Mapi.Spec m ∧
                             Mapi.Status stored = Mapi.Status origin)
         (status_patched m) m w) no_panic (m, w);
  GetSecret_spec name ns w :
    wp (GetSecret name ns)
      (λ r w', w' = w ∧ match r with
                        | inl s => secret_at w ns name = Some s
                        | inr e => IsNotFound e = true → secret_at w ns name = None
                        end) no_panic w;
  GetConfigMapValue_spec name ns key w :
    wp (GetConfigMapValue name ns key)
      (λ r w', w' = w ∧
         match r with
         | inl v => ∃ c, configmap_at w ns name = Some c ∧ config_value c key = Some v
         | inr e => IsNotFound e = true → configmap_at w ns name = None
         end) no_panic w
}.
End laws.

(** ** The client keeps its promise *)
Section kubeClient_laws.
Context `{!TenantApi TW, !TenantView (TW:=TW), !TenantLaws}.

#[export] Instance kubeClient_laws : ClientLaws (TW:=TW).
Proof.
  split.
  - intros. apply api_patch.
  - intros. apply api_status_patch.
  - intros. apply api_get_secret.
  - intros name ns key w. simpl. unfold kubeClient.GetConfigMapValue.
    apply wp_bind. go_call api_get_configmap.
    intros [c|e] w' [-> Hr]; apply wp_ret; simpl; [|done]. split; [done|].
    destruct (map_index (Core.ConfigMapData c) key) as [config|] eqn:Hk; [|done].
    destruct (Unmarshal_string_map config) as [v|] eqn:Hv; [|done].
    exists c. split; [done|]. unfold config_value. by rewrite Hk.
Qed.
End kubeClient_laws.
