(* ===== verification/InfraCluster.v ===== *)
(** * The infra cluster's client (pkg/clients/infracluster/client.go)

    The cluster the virtual machines live in.  [InfraApi] is what the client
    calls of client-go, [Converter] the unstructured converter of
    apimachinery, [Client] the interface of the package and [client] its
    implementation.  A typed object that is passed by pointer and decoded
    over is passed and returned. *)

From S2P Require Import Prelude GoStd GoErrors ApiTypes TenantCluster.

Section infracluster.
Context {IW : Type}.

(** The interface [infracluster.Client]. *)
Class Client := {
  CreateVirtualMachine : string → KV.VirtualMachine → Go IW (result KV.VirtualMachine);
  DeleteVirtualMachine : string → string → option Meta.DeleteOptions →
    Go IW (option goerror);
  GetVirtualMachine : string → string → Meta.GetOptions → Go IW (result KV.VirtualMachine);
  GetVirtualMachineInstance : string → string → Meta.GetOptions →
    Go IW (result KV.VirtualMachineInstance);
  ListVirtualMachine : string → Meta.ListOptions → Go IW (result (list KV.VirtualMachine));
  UpdateVirtualMachine : string → KV.VirtualMachine → Go IW (result KV.VirtualMachine);
  CreateSecret : string → Core.Secret → Go IW (result Core.Secret)
}.

(** The dynamic client [D] on resources of a namespace, with unstructured
    objects [U], and the clientset [K] for secrets. *)
Class InfraApi {K D U : Type} := {
  dynamic_Create : D → Meta.GroupVersionResource → string → U → Meta.CreateOptions →
    Go IW (result U);
  dynamic_Get : D → Meta.GroupVersionResource → string → string → Meta.GetOptions →
    Go IW (result U);
  dynamic_Update : D → Meta.GroupVersionResource → string → U → Meta.UpdateOptions →
    Go IW (result U);
  dynamic_Delete : D → Meta.GroupVersionResource → string → string → Meta.DeleteOptions →
    Go IW (option goerror);
  dynamic_List : D → Meta.GroupVersionResource → string → Meta.ListOptions →
    Go IW (result (list U));
  secrets_Create : K → string → Core.Secret → Meta.CreateOptions → Go IW (result Core.Secret)
}.
End infracluster.
Arguments Client : clear implicits.
Arguments InfraApi : clear implicits.

(** [runtime.DefaultUnstructuredConverter]: [FromUnstructured] decodes over
    an object and leaves it with the error it reports. *)
Class Converter (U : Type) := {
  ToUnstructured : KV.VirtualMachine → result U;
  VM_FromUnstructured : U → KV.VirtualMachine → KV.VirtualMachine * option goerror;
  VMI_FromUnstructured : U → KV.VirtualMachineInstance →
    KV.VirtualMachineInstance * option goerror;
  VMList_FromUnstructured : list U → list KV.VirtualMachine * option goerror
}.

(** The credentials of the infra cluster, from a kubeconfig to the clients. *)
Class Kubeconfig (K D : Type) := {
  ClientConfig : Type;
  RestConfig : Type;
  NewClientConfigFromBytes : bytes → result ClientConfig;
  client_config : ClientConfig → result RestConfig;
  kubernetes_NewForConfig : RestConfig → result K;
  dynamic_NewForConfig : RestConfig → result D
}.

Definition platformCredentialsKey := "kubeconfig".
Definition defaultCredentialsSecretSecretName := "kubevirt-credentials".
Definition defaultCredentialsSecretSecretNamespace := "openshift-machine-api".

Definition vmResource : Meta.GroupVersionResource :=
  Meta.MkGVR KV.GroupName KV.ApiLatestVersion "virtualmachines".
Definition vmiResource : Meta.GroupVersionResource :=
  Meta.MkGVR KV.GroupName KV.ApiLatestVersion "virtualmachineinstances".

Module client.
Section client.
Context {IW K D U : Type} `{!InfraApi IW K D U, !Converter U}.

Record client := MkClient { kubernetesClient : K; dynamicClient : D }.
Implicit Types (c : client) (resource : Meta.GroupVersionResource).

(** *** Helpers on a resource *)
Definition createResource c (newVM : KV.VirtualMachine) (namespace : string) resource
    : Go IW (result KV.VirtualMachine) :=
  match ToUnstructured newVM with
  | inr e =>
      mret (inr (Wrap e ("failed to translate " +:+ Meta.Resource resource
                         +:+ " to Unstructed (for create operation)")))
  | inl input =>
      r ← dynamic_Create (dynamicClient c) resource namespace input (Meta.MkCreateOptions []);
      mret match r with
      | inr e => inr (Wrap e ("failed to create " +:+ Meta.Resource resource))
      | inl resp =>
          match VM_FromUnstructured resp newVM with
          | (obj, None) => inl obj
          | (_, Some e) => inr e
          end
      end
  end.

(** The caller's options are not passed on. *)
Definition getResource c (namespace name : string) resource (options : Meta.GetOptions)
    : Go IW (result U) :=
  dynamic_Get (dynamicClient c) resource namespace name (Meta.MkGetOptions "").

Definition deleteResource c (namespace name : string) resource
    (options : option Meta.DeleteOptions) : Go IW (option goerror) :=
  dynamic_Delete (dynamicClient c) resource namespace name (Meta.MkDeleteOptions None).

Definition listResource c (namespace : string) resource (opts : Meta.ListOptions)
    : Go IW (result (list U)) :=
  dynamic_List (dynamicClient c) resource namespace opts.

Definition updateResource c (namespace name : string) resource (vm : KV.VirtualMachine)
    : Go IW (result KV.VirtualMachine) :=
  match ToUnstructured vm with
  | inr e =>
      mret (inr (Wrap e ("failed to translate " +:+ Meta.Resource resource
                         +:+ " to Unstructed (for create operation)")))
  | inl input =>
      r ← dynamic_Update (dynamicClient c) resource namespace input (Meta.MkUpdateOptions []);
      mret match r with
      | inr e => inr e
      | inl resp =>
          match VM_FromUnstructured resp vm with
          | (obj, None) => inl obj
          | (_, Some e) => inr e
          end
      end
  end.

Definition translated {A} (interfaceType : string) (r : A * option goerror) : result A :=
  match r with
  | (obj, None) => inl obj
  | (_, Some e) => inr (Wrap e ("failed to translate unstructed to " +:+ interfaceType))
  end.

Definition fromUnstructedToInterface_VM (src : U) (interfaceType : string)
    : result KV.VirtualMachine :=
  translated interfaceType (VM_FromUnstructured src KV.zeroVM).
Definition fromUnstructedToInterface_VMI (src : U) (interfaceType : string)
    : result KV.VirtualMachineInstance :=
  translated interfaceType (VMI_FromUnstructured src KV.zeroVMI).
Definition fromUnstructedListToInterface (src : list U) (interfaceType : string)
    : result (list KV.VirtualMachine) :=
  translated interfaceType (VMList_FromUnstructured src).

(** *** The operations *)
Definition CreateVirtualMachine c (namespace : string) (newVM : KV.VirtualMachine)
    : Go IW (result KV.VirtualMachine) :=
  createResource c newVM namespace vmResource.

Definition DeleteVirtualMachine c (namespace name : string)
    (options : option Meta.DeleteOptions) : Go IW (option goerror) :=
  deleteResource c namespace name vmResource options.

Definition GetVirtualMachine c (namespace name : string) (options : Meta.GetOptions)
    : Go IW (result KV.VirtualMachine) :=
  r ← getResource c namespace name vmResource options;
  mret match r with
  | inr e =>
      if IsNotFound e then inr e else inr (Wrap e "failed to get VirtualMachine")
  | inl resp => fromUnstructedToInterface_VM resp "VirtualMachine"
  end.

Definition ListVirtualMachine c (namespace : string) (options : Meta.ListOptions)
    : Go IW (result (list KV.VirtualMachine)) :=
  r ← listResource c namespace vmResource options;
  mret match r with
  | inr e => inr (Wrap e "failed to list VirtualMachine")
  | inl resp => fromUnstructedListToInterface resp "VirtualMachineList"
  end.

Definition UpdateVirtualMachine c (namespace : string) (vm : KV.VirtualMachine)
    : Go IW (result KV.VirtualMachine) :=
  updateResource c namespace (KV.vm_Name vm) vmResource vm.

Definition GetVirtualMachineInstance c (namespace name : string)
    (options : Meta.GetOptions) : Go IW (result KV.VirtualMachineInstance) :=
  r ← getResource c namespace name vmiResource options;
  mret match r with
  | inr e =>
      if IsNotFound e then inr e
      else inr (Wrap e "failed to get VirtualMachineInstance")
  | inl resp => fromUnstructedToInterface_VMI resp "VirtualMachineInstance"
  end.

Definition CreateSecret c (namespace : string) (newSecret : Core.Secret)
    : Go IW (result Core.Secret) :=
  secrets_Create (kubernetesClient c) namespace newSecret (Meta.MkCreateOptions []).

Definition interface c : Client IW := {|
  InfraCluster.CreateVirtualMachine := CreateVirtualMachine c;
  InfraCluster.DeleteVirtualMachine := DeleteVirtualMachine c;
  InfraCluster.GetVirtualMachine := GetVirtualMachine c;
  InfraCluster.GetVirtualMachineInstance := GetVirtualMachineInstance c;
  InfraCluster.ListVirtualMachine := ListVirtualMachine c;
  InfraCluster.UpdateVirtualMachine := UpdateVirtualMachine c;
  InfraCluster.CreateSecret := CreateSecret c
|}.
End client.
Arguments client : clear implicits.
Arguments MkClient {K D}.

(** *** Construction from the credentials secret of the tenant cluster *)
Section New.
Context {TW K D : Type} `{!TenantCluster.Client TW, !Kubeconfig K D}.

Definition New : Go TW (result (client K D)) :=
  r ← GetSecret defaultCredentialsSecretSecretName defaultCredentialsSecretSecretNamespace;
  mret match r with
  | inr e =>
      if IsNotFound e then
        inr (InvalidMachineConfiguration
          ("Infra-cluster credentials secret " +:+ defaultCredentialsSecretSecretNamespace
           +:+ "/" +:+ defaultCredentialsSecretSecretName +:+ ": " +:+ Error e
           +:+ " not found"))
      else inr e
  | inl returnedSecret =>
      match map_index (Core.SecretData returnedSecret) platformCredentialsKey with
      | None =>
          (* the missing value, a nil []byte, is printed for the key *)
          inr (InvalidMachineConfiguration
            ("Infra-cluster credentials secret " +:+ defaultCredentialsSecretSecretName
             +:+ " did not contain key []"))
      | Some platformCredentials =>
          match NewClientConfigFromBytes platformCredentials with
          | inr e => inr e
          | inl clientConfig =>
              match client_config clientConfig with
              | inr e => inr e
              | inl restClientConfig =>
                  match kubernetes_NewForConfig restClientConfig with
                  | inr e => inr e
                  | inl kubernetesClient =>
                      match dynamic_NewForConfig restClientConfig with
                      | inr e => inr e
                      | inl dynamicClient => inl (MkClient kubernetesClient dynamicClient)
                      end
                  end
              end
          end
      end
  end.
End New.
End client.

(** ** What the infra cluster documents

    The callers of the client see the cluster as three maps from namespace
    and name.  A call that reports an error was carried out or was not; which
    one is open, except that [NotFound] and [AlreadyExists] are only reported
    when they are true.  Nothing here says that a call succeeds. *)
Section laws.
Context {IW : Type}.
Implicit Types (w : IW) (ns name : string).

Class ClientView := {
  vm_at : IW → string → string → option KV.VirtualMachine;
  vmi_at : IW → string → string → option KV.VirtualMachineInstance;
  isecret_at : IW → string → string → option Core.Secret
}.
Context `{!ClientView}.

(** The views are the same but for one virtual machine, or one secret. *)
Definition vms_same_but ns name w w' : Prop :=
  (∀ ns' name', (ns', name') ≠ (ns, name) → vm_at w' ns' name' = vm_at w ns' name') ∧
  (∀ ns' name', vmi_at w' ns' name' = vmi_at w ns' name') ∧
  (∀ ns' name', isecret_at w' ns' name' = isecret_at w ns' name').
Definition vm_becomes ns name (o : option KV.VirtualMachine) w w' : Prop :=
  vm_at w' ns name = o ∧ vms_same_but ns name w w'.
Definition secret_becomes ns name (o : option Core.Secret) w w' : Prop :=
  isecret_at w' ns name = o ∧
  (∀ ns' name', (ns', name') ≠ (ns, name) →
     isecret_at w' ns' name' = isecret_at w ns' name') ∧
  (∀ ns' name', vm_at w' ns' name' = vm_at w ns' name') ∧
  (∀ ns' name', vmi_at w' ns' name' = vmi_at w ns' name').
Definition same w w' : Prop :=
  (∀ ns name, vm_at w' ns name = vm_at w ns name) ∧
  (∀ ns name, vmi_at w' ns name = vmi_at w ns name) ∧
  (∀ ns name, isecret_at w' ns name = isecret_at w ns name).

Definition named ns name (m : Meta.ObjectMeta) : Prop :=
  Meta.Namespace m = ns ∧ Meta.Name m = name.

(** A deleted object is gone, or marked until its finalizers have run. *)
Definition deleted_or_marked ns name w w' : Prop :=
  vm_becomes ns name None w w' ∨
  is_Some (vm_at w ns name) ∧
  ∃ vm, vm_becomes ns name (Some vm) w w' ∧ named ns name (KV.VMMeta vm) ∧
        Meta.DeletionTimestamp (KV.VMMeta vm) ≠ None.

(** It was deleted, and waits for its finalizers. *)
Definition marked_vm (vm : KV.VirtualMachine) : Prop :=
  Meta.DeletionTimestamp (KV.VMMeta vm) ≠ None.

(** It is there, and nobody deleted it. *)
Definition vm_stands ns name w : Prop := ∃ vm, vm_at w ns name = Some vm ∧ ¬ marked_vm vm.

Definition vm_created ns name w w' : Prop :=
  vm_at w ns name = None ∧
  ∃ vm', named ns name (KV.VMMeta vm') ∧ ¬ marked_vm vm' ∧ vm_becomes ns name (Some vm') w w'.
Definition secret_created ns (s : Core.Secret) w w' : Prop :=
  let name := Meta.Name (Core.SecretMeta s) in
  isecret_at w ns name = None ∧
  ∃ s', Core.SecretData s' = Core.SecretData s ∧ secret_becomes ns name (Some s') w w'.
(** An updated virtual machine is in its place, neither deleted by the update
    nor brought back; but one that was marked may be gone, since an update that
    leaves it without finalizers completes its deletion. *)
Definition vm_updated ns name (vm' : KV.VirtualMachine) w w' : Prop :=
  ∃ old, vm_at w ns name = Some old ∧
    named ns name (KV.VMMeta vm') ∧ (marked_vm vm' ↔ marked_vm old) ∧
    (vm_becomes ns name (Some vm') w w' ∨ marked_vm old ∧ vm_becomes ns name None w w') ∧
    (KV.vm_ResourceVersion vm' = KV.vm_ResourceVersion old → vm' = old).

(** An update that carries a resource version replaces that version only. *)
Definition vm_replaced ns (vm vm' : KV.VirtualMachine) w w' : Prop :=
  vm_updated ns (KV.vm_Name vm) vm' w w' ∧
  ∃ old, vm_at w ns (KV.vm_Name vm) = Some old ∧
    (KV.vm_ResourceVersion vm = "" ∨ KV.vm_ResourceVersion vm = KV.vm_ResourceVersion old).

Class ClientLaws `{!Client IW} := {
  vm_at_named ns name w vm : vm_at w ns name = Some vm → named ns name (KV.VMMeta vm);
  CreateVirtualMachine_spec ns vm w :
    wp (CreateVirtualMachine ns vm)
      (λ r w', match r with
               | inl vm' => vm_at w ns (KV.vm_Name vm) = None ∧
                   named ns (KV.vm_Name vm) (KV.VMMeta vm') ∧ ¬ marked_vm vm' ∧
                   vm_becomes ns (KV.vm_Name vm) (Some vm') w w'
               | inr e => same w w' ∨ vm_created ns (KV.vm_Name vm) w w'
               end) no_panic w;
  DeleteVirtualMachine_spec ns name options w :
    wp (DeleteVirtualMachine ns name options)
      (λ r w', match r with
               | None => is_Some (vm_at w ns name) ∧ deleted_or_marked ns name w w'
               | Some e => (IsNotFound e = true → vm_at w ns name = None) ∧
                   (same w w' ∨ deleted_or_marked ns name w w')
               end) no_panic w;
  GetVirtualMachine_spec ns name options w :
    wp (GetVirtualMachine ns name options)
      (λ r w', w' = w ∧ match r with
                        | inl vm => vm_at w ns name = Some vm
                        | inr e => IsNotFound e = true → vm_at w ns name = None
                        end) no_panic w;
  GetVirtualMachineInstance_spec ns name options w :
    wp (GetVirtualMachineInstance ns name options)
      (λ r w', w' = w ∧ match r with
                        | inl vmi => vmi_at w ns name = Some vmi
                        | inr e => IsNotFound e = true → vmi_at w ns name = None
                        end) no_panic w;
  UpdateVirtualMachine_spec ns vm w :
    wp (UpdateVirtualMachine ns vm)
      (λ r w', match r with
               | inl vm' => vm_replaced ns vm vm' w w'
               | inr e => same w w' ∨ ∃ vm', vm_replaced ns vm vm' w w'
               end) no_panic w;
  CreateSecret_spec ns s w :
    wp (CreateSecret ns s)
      (λ r w', match r with
               | inl _ => secret_created ns s w w'
               | inr e => (IsAlreadyExists e = true →
                           is_Some (isecret_at w ns (Meta.Name (Core.SecretMeta s)))) ∧
                   (same w w' ∨ secret_created ns s w w')
               end) no_panic w
}.

Lemma vm_stands_there ns name w : vm_stands ns name w → is_Some (vm_at w ns name).
Proof. intros (vm & Hvm & _). by exists vm. Qed.

#[global] Instance vm_stands_dec ns name w : Decision (vm_stands ns name w).
Proof.
  unfold vm_stands. destruct (vm_at w ns name) as [vm|].
  - destruct (decide (Meta.DeletionTimestamp (KV.VMMeta vm) = None)) as [Hd|Hd].
    + left. exists vm. split; [done|]. by intros [].
    + right. intros (? & [= <-] & Hm). by destruct Hm.
  - right. by intros (? & [=] & _).
Defined.

Lemma same_refl w : same w w.
Proof. by split_and!. Qed.
Lemma same_trans w1 w2 w3 : same w1 w2 → same w2 w3 → same w1 w3.
Proof. intros (?&?&?) (?&?&?). split_and!; intros; etrans; eauto. Qed.
Lemma same_sym w1 w2 : same w1 w2 → same w2 w1.
Proof. intros (?&?&?). split_and!; intros; symmetry; eauto. Qed.

#[global] Instance same_equiv : Equivalence same.
Proof. split; [intros w; apply same_refl|intros ?? ?; by apply same_sym|
               intros ????; by apply same_trans]. Qed.

(** The views, and what a call does, are the same in [same] worlds. *)
#[global] Instance vm_at_proper : Proper (same ==> eq ==> eq ==> eq) vm_at.
Proof. intros w1 w2 (V&I&S) ns ? <- name ? <-. by rewrite V. Qed.
#[global] Instance isecret_at_proper : Proper (same ==> eq ==> eq ==> eq) isecret_at.
Proof. intros w1 w2 (V&I&S) ns ? <- name ? <-. by rewrite S. Qed.

#[global] Instance vm_becomes_proper ns name o :
  Proper (same ==> same ==> iff) (vm_becomes ns name o).
Proof.
  assert (∀ w1 w2 w1' w2', same w1 w2 → same w1' w2' →
            vm_becomes ns name o w1 w1' → vm_becomes ns name o w2 w2') as Hdir.
  { intros w1 w2 w1' w2' (V1&I1&S1) (V2&I2&S2) (Ho&Hv&Hi&Hs).
    split; [by rewrite V2|]. split_and!; intros.
    - rewrite V2, V1. auto.
    - rewrite I2, I1. auto.
    - rewrite S2, S1. auto. }
  intros w1 w2 Hw w1' w2' Hw'. split; apply Hdir; done.
Qed.

#[global] Instance secret_becomes_proper ns name o :
  Proper (same ==> same ==> iff) (secret_becomes ns name o).
Proof.
  assert (∀ w1 w2 w1' w2', same w1 w2 → same w1' w2' →
            secret_becomes ns name o w1 w1' → secret_becomes ns name o w2 w2') as Hdir.
  { intros w1 w2 w1' w2' (V1&I1&S1) (V2&I2&S2) (Ho&Hs&Hv&Hi).
    split; [by rewrite S2|]. split_and!; intros.
    - rewrite S2, S1. auto.
    - rewrite V2, V1. auto.
    - rewrite I2, I1. auto. }
  intros w1 w2 Hw w1' w2' Hw'. split; apply Hdir; done.
Qed.

#[global] Instance vm_updated_proper ns name vm :
  Proper (same ==> same ==> iff) (vm_updated ns name vm).
Proof.
  intros w1 w2 Hw w1' w2' Hw'.
  split; intros (old & Ho & Hn & Hd & Hb & Hrv); exists old; split_and!; try done.
  - by rewrite <-Hw.
  - by rewrite <-Hw, <-Hw'.
  - by rewrite Hw.
  - by rewrite Hw, Hw'.
Qed.
End laws.
#[global] Hint Resolve same_refl : go.

(** ** The client keeps its promise

    The same promises at the level of the dynamic client, for any resource,
    and the laws of the converter: it reads and writes the metadata of an
    object, and its errors are not API errors.  Stored virtual machines
    decode, and so do valid ones, as an update answers with: the server checks
    them against their schema. *)
Section api_laws.
Context {IW K D U : Type} `{!InfraApi IW K D U, !Converter U}.
Implicit Types (w : IW) (ns name : string) (gvr : Meta.GroupVersionResource) (u : U).

Class ApiView := {
  objects : IW → Meta.GroupVersionResource → string → string → option U;
  api_secret_at : IW → string → string → option Core.Secret;
  u_meta : U → Meta.ObjectMeta;
  valid_object : Meta.GroupVersionResource → U → Prop
}.
Context `{!ApiView}.

Definition becomes gvr ns name (o : option U) w w' : Prop :=
  objects w' gvr ns name = o ∧
  (∀ gvr' ns' name', (gvr', ns', name') ≠ (gvr, ns, name) →
     objects w' gvr' ns' name' = objects w gvr' ns' name') ∧
  (∀ ns' name', api_secret_at w' ns' name' = api_secret_at w ns' name').
Definition untouched w w' : Prop :=
  (∀ gvr ns name, objects w' gvr ns name = objects w gvr ns name) ∧
  (∀ ns name, api_secret_at w' ns name = api_secret_at w ns name).
Definition api_secret_created ns (s : Core.Secret) w w' : Prop :=
  let name := Meta.Name (Core.SecretMeta s) in
  api_secret_at w ns name = None ∧
  ∃ s', Core.SecretData s' = Core.SecretData s ∧
    api_secret_at w' ns name = Some s' ∧
    (∀ ns' name', (ns', name') ≠ (ns, name) →
       api_secret_at w' ns' name' = api_secret_at w ns' name') ∧
    (∀ gvr ns' name', objects w' gvr ns' name' = objects w gvr ns' name').
(** Who updates an object neither marks it nor takes its mark away; a marked
    object that the update leaves without finalizers is removed. *)
Definition api_updated gvr ns u u' w w' : Prop :=
  let name := Meta.Name (u_meta u) in
  ∃ old, objects w gvr ns name = Some old ∧ named ns name (u_meta u') ∧ valid_object gvr u' ∧
    Meta.DeletionTimestamp (u_meta u') = Meta.DeletionTimestamp (u_meta old) ∧
    (if decide (Meta.DeletionTimestamp (u_meta old) ≠ None ∧ Meta.Finalizers (u_meta u) = [])
     then becomes gvr ns name None w w' else becomes gvr ns name (Some u') w w') ∧
    (Meta.ResourceVersion (u_meta u) = "" ∨
     Meta.ResourceVersion (u_meta u) = Meta.ResourceVersion (u_meta old)) ∧
    (Meta.ResourceVersion (u_meta u') = Meta.ResourceVersion (u_meta old) → u' = old).
Definition api_deleted gvr ns name w w' : Prop :=
  becomes gvr ns name None w w' ∨
  is_Some (objects w gvr ns name) ∧
  ∃ u, becomes gvr ns name (Some u) w w' ∧ named ns name (u_meta u) ∧
       Meta.DeletionTimestamp (u_meta u) ≠ None.
Definition api_created gvr ns name w w' : Prop :=
  objects w gvr ns name = None ∧
  ∃ u, named ns name (u_meta u) ∧ Meta.DeletionTimestamp (u_meta u) = None ∧
       becomes gvr ns name (Some u) w w'.

Class ApiLaws := {
  objects_named gvr ns name w u : objects w gvr ns name = Some u → named ns name (u_meta u);
  api_create c gvr ns u opts w :
    wp (dynamic_Create c gvr ns u opts)
      (λ r w', match r with
               | inl u' => objects w gvr ns (Meta.Name (u_meta u)) = None ∧
                   named ns (Meta.Name (u_meta u)) (u_meta u') ∧
                   Meta.DeletionTimestamp (u_meta u') = None ∧
                   becomes gvr ns (Meta.Name (u_meta u)) (Some u') w w'
               | inr e => untouched w w' ∨ api_created gvr ns (Meta.Name (u_meta u)) w w'
               end) no_panic w;
  api_get c gvr ns name opts w :
    wp (dynamic_Get c gvr ns name opts)
      (λ r w', w' = w ∧ match r with
                        | inl u => objects w gvr ns name = Some u
                        | inr e => IsNotFound e = true → objects w gvr ns name = None
                        end) no_panic w;
  api_update c gvr ns u opts w :
    wp (dynamic_Update c gvr ns u opts)
      (λ r w', match r with
               | inl u' => api_updated gvr ns u u' w w'
               | inr e => untouched w w' ∨ ∃ u', api_updated gvr ns u u' w w'
               end) no_panic w;
  api_delete c gvr ns name opts w :
    wp (dynamic_Delete c gvr ns name opts)
      (λ r w', match r with
               | None => is_Some (objects w gvr ns name) ∧ api_deleted gvr ns name w w'
               | Some e => (IsNotFound e = true → objects w gvr ns name = None) ∧
                   (untouched w w' ∨ api_deleted gvr ns name w w')
               end) no_panic w;
  api_create_secret k ns s opts w :
    wp (secrets_Create k ns s opts)
      (λ r w', match r with
               | inl _ => api_secret_created ns s w w'
               | inr e => (IsAlreadyExists e = true →
                           is_Some (api_secret_at w ns (Meta.Name (Core.SecretMeta s)))) ∧
                   (untouched w w' ∨ api_secret_created ns s w w')
               end) no_panic w
}.

Class ConverterLaws := {
  decode_vm : U → option KV.VirtualMachine;
  decode_vmi : U → option KV.VirtualMachineInstance;
  decode_vm_meta u vm : decode_vm u = Some vm → KV.VMMeta vm = u_meta u;
  FromUnstructured_VM u old :
    match VM_FromUnstructured u old with
    | (vm, None) => decode_vm u = Some vm
    | (_, Some e) => decode_vm u = None ∧ IsNotFound e = false
    end;
  FromUnstructured_VMI u old :
    match VMI_FromUnstructured u old with
    | (vmi, None) => decode_vmi u = Some vmi
    | (_, Some e) => decode_vmi u = None ∧ IsNotFound e = false
    end;
  ToUnstructured_meta vm u : ToUnstructured vm = inl u → u_meta u = KV.VMMeta vm;
  stored_vm_decodes ns name w u :
    objects w vmResource ns name = Some u → is_Some (decode_vm u);
  valid_vm_decodes u : valid_object vmResource u → is_Some (decode_vm u);
  stored_vmi_decodes ns name w u :
    objects w vmiResource ns name = Some u → is_Some (decode_vmi u)
}.
Context `{!ApiLaws, !ConverterLaws}.

Instance client_view : ClientView (IW:=IW) := {|
  vm_at w ns name := objects w vmResource ns name ≫= decode_vm;
  vmi_at w ns name := objects w vmiResource ns name ≫= decode_vmi;
  isecret_at := api_secret_at
|}.

Lemma vm_at_none ns name w :
  vm_at w ns name = None ↔ objects w vmResource ns name = None.
Proof.
  simpl. split; [|by intros ->]. intros Hn.
  destruct (objects w vmResource ns name) as [u|] eqn:Hu; [|done].
  destruct (stored_vm_decodes _ _ _ _ Hu) as [vm Hvm]. by simplify_eq/=.
Qed.
Lemma vmi_at_none ns name w :
  vmi_at w ns name = None ↔ objects w vmiResource ns name = None.
Proof.
  simpl. split; [|by intros ->]. intros Hn.
  destruct (objects w vmiResource ns name) as [u|] eqn:Hu; [|done].
  destruct (stored_vmi_decodes _ _ _ _ Hu) as [vmi Hvmi]. by simplify_eq/=.
Qed.

Lemma untouched_same w w' : untouched w w' → same w w'.
Proof. intros [Ho Hs]. split_and!; intros; simpl; rewrite ?Ho, ?Hs; done. Qed.

Lemma becomes_vm ns name o w w' :
  becomes vmResource ns name o w w' → vm_becomes ns name (o ≫= decode_vm) w w'.
Proof.
  intros (Ho & Hother & Hs). split; [simpl; by rewrite Ho|]. split_and!; intros; simpl.
  - rewrite Hother; [done|congruence].
  - rewrite Hother; [done|]. intros [=].
  - apply Hs.
Qed.

(** A stored object of a given name, as a virtual machine. *)
Lemma becomes_vm_some ns name u w w' :
  becomes vmResource ns name (Some u) w w' → named ns name (u_meta u) →
  ∃ vm, decode_vm u = Some vm ∧ named ns name (KV.VMMeta vm) ∧
        KV.VMMeta vm = u_meta u ∧ vm_becomes ns name (Some vm) w w'.
Proof.
  intros Hb Hn. destruct (stored_vm_decodes ns name w' u) as [vm Hvm]; [by destruct Hb|].
  exists vm. apply decode_vm_meta in Hvm as Hmeta. rewrite Hmeta.
  apply becomes_vm in Hb. simpl in Hb. by rewrite Hvm in Hb.
Qed.

Lemma created_vm ns name w w' :
  api_created vmResource ns name w w' → vm_created ns name w w'.
Proof.
  intros (Hn & u & Hu & Hd & Hb). split; [by apply vm_at_none|].
  destruct (becomes_vm_some _ _ _ _ _ Hb Hu) as (vm & _ & ? & Hm & ?).
  exists vm. split_and!; [done| |done]. unfold marked_vm. rewrite Hm. by intros [].
Qed.

Lemma deleted_vm ns name w w' :
  api_deleted vmResource ns name w w' → deleted_or_marked ns name w w'.
Proof.
  intros [Hb|([u0 Hu0] & u & Hb & Hu & Hd)]; [left; by apply becomes_vm in Hb|right].
  destruct (becomes_vm_some _ _ _ _ _ Hb Hu) as (vm & _ & ? & Hm & ?).
  split; [simpl; rewrite Hu0; by apply (stored_vm_decodes _ _ _ _ Hu0)|].
  exists vm. by rewrite Hm.
Qed.

Lemma updated_vm ns u u' w w' :
  api_updated vmResource ns u u' w w' →
  ∃ vm', decode_vm u' = Some vm' ∧ vm_updated ns (Meta.Name (u_meta u)) vm' w w' ∧
    ∃ old, vm_at w ns (Meta.Name (u_meta u)) = Some old ∧
      (Meta.ResourceVersion (u_meta u) = "" ∨
       Meta.ResourceVersion (u_meta u) = KV.vm_ResourceVersion old).
Proof.
  intros (uold & Ho & Hn & [vm' Hd]%valid_vm_decodes & Hdt & Hb & Hrv & Hsame).
  apply decode_vm_meta in Hd as Hm.
  destruct (stored_vm_decodes _ _ _ _ Ho) as [old Hold]. apply decode_vm_meta in Hold as Hmo.
  assert (vm_at w ns (Meta.Name (u_meta u)) = Some old) as Hat by (simpl; by rewrite Ho).
  exists vm'. split; [done|]. split; exists old; [split_and!; try done|by rewrite <-Hmo in Hrv].
  - by rewrite Hm.
  - unfold marked_vm. by rewrite Hm, Hmo, Hdt.
  - case_decide as Hc; apply becomes_vm in Hb; simpl in Hb; [right|left; by rewrite Hd in Hb].
    unfold marked_vm. rewrite Hmo. by destruct Hc.
  - unfold KV.vm_ResourceVersion. rewrite Hm, Hmo. intros ->%Hsame. congruence.
Qed.

(** *** Every operation *)
Lemma client_create_spec c ns vm w :
  wp (client.CreateVirtualMachine c ns vm)
    (λ r w', match r with
             | inl vm' => vm_at w ns (KV.vm_Name vm) = None ∧
                 named ns (KV.vm_Name vm) (KV.VMMeta vm') ∧ ¬ marked_vm vm' ∧
                 vm_becomes ns (KV.vm_Name vm) (Some vm') w w'
             | inr e => same w w' ∨ vm_created ns (KV.vm_Name vm) w w'
             end) no_panic w.
Proof.
  unfold client.CreateVirtualMachine, client.createResource, KV.vm_Name.
  destruct (ToUnstructured vm) as [u|e] eqn:Hu; [|apply wp_ret; auto with go].
  apply ToUnstructured_meta in Hu. rewrite <-Hu.
  apply wp_bind. go_call api_create. intros [u'|e] w' Hr; apply wp_ret.
  - destruct Hr as (Hn & Hnamed & Hdt & Hb).
    destruct (becomes_vm_some _ _ _ _ _ Hb Hnamed) as (vm' & Hd & ? & Hm & ?).
    pose proof (FromUnstructured_VM u' vm) as Hf.
    destruct (VM_FromUnstructured u' vm) as [obj [e|]]; [by destruct Hf; simplify_eq|].
    simplify_eq. split_and!; try done; [by apply vm_at_none|].
    unfold marked_vm. rewrite Hm. by intros [].
  - destruct Hr as [Hr|Hr]; [left; by apply untouched_same|right; by apply created_vm].
Qed.

Lemma client_update_spec c ns vm w :
  wp (client.UpdateVirtualMachine c ns vm)
    (λ r w', match r with
             | inl vm' => vm_replaced ns vm vm' w w'
             | inr e => same w w' ∨ ∃ vm', vm_replaced ns vm vm' w w'
             end) no_panic w.
Proof.
  unfold client.UpdateVirtualMachine, client.updateResource.
  destruct (ToUnstructured vm) as [u|e] eqn:Hu; [|apply wp_ret; auto with go].
  apply ToUnstructured_meta in Hu.
  unfold vm_replaced, KV.vm_Name, KV.vm_ResourceVersion at 1 2 4 5.
  rewrite <-Hu. apply wp_bind. go_call api_update. intros [u'|e] w' Hr; apply wp_ret.
  - apply updated_vm in Hr as (vm' & Hd & Hup & Hold).
    pose proof (FromUnstructured_VM u' vm) as Hf.
    destruct (VM_FromUnstructured u' vm) as [obj [e|]]; [by destruct Hf; simplify_eq|].
    by simplify_eq.
  - destruct Hr as [Hr|[u' Hr]]; [left; by apply untouched_same|right].
    apply updated_vm in Hr as (vm' & _ & Hup). by exists vm'.
Qed.

Lemma client_get_spec c ns name options w :
  wp (client.GetVirtualMachine c ns name options)
    (λ r w', w' = w ∧ match r with
                      | inl vm => vm_at w ns name = Some vm
                      | inr e => IsNotFound e = true → vm_at w ns name = None
                      end) no_panic w.
Proof.
  unfold client.GetVirtualMachine, client.getResource. apply wp_bind. go_call api_get.
  intros [u|e] w' [-> Hr]; apply wp_ret; split; try done.
  - unfold client.fromUnstructedToInterface_VM, client.translated.
    pose proof (FromUnstructured_VM u KV.zeroVM) as Hf.
    destruct (VM_FromUnstructured u KV.zeroVM) as [obj [e|]]; [|simpl; by rewrite Hr].
    rewrite IsNotFound_Wrap. destruct Hf as [_ ->]. discriminate.
  - destruct (IsNotFound e) eqn:He; [intros _; apply vm_at_none; auto|].
    rewrite IsNotFound_Wrap, He. discriminate.
Qed.

Lemma client_get_vmi_spec c ns name options w :
  wp (client.GetVirtualMachineInstance c ns name options)
    (λ r w', w' = w ∧ match r with
                      | inl vmi => vmi_at w ns name = Some vmi
                      | inr e => IsNotFound e = true → vmi_at w ns name = None
                      end) no_panic w.
Proof.
  unfold client.GetVirtualMachineInstance, client.getResource. apply wp_bind.
  go_call api_get. intros [u|e] w' [-> Hr]; apply wp_ret; split; try done.
  - unfold client.fromUnstructedToInterface_VMI, client.translated.
    pose proof (FromUnstructured_VMI u KV.zeroVMI) as Hf.
    destruct (VMI_FromUnstructured u KV.zeroVMI) as [obj [e|]]; [|simpl; by rewrite Hr].
    rewrite IsNotFound_Wrap. destruct Hf as [_ ->]. discriminate.
  - destruct (IsNotFound e) eqn:He; [intros _; apply vmi_at_none; auto|].
    rewrite IsNotFound_Wrap, He. discriminate.
Qed.

Lemma client_laws c : @ClientLaws IW client_view (client.interface c).
Proof.
  split; simpl.
  - intros ns name w vm. destruct (objects w vmResource ns name) as [u|] eqn:Hu; [|done].
    simpl. intros Hvm%decode_vm_meta. rewrite Hvm. by eapply objects_named.
  - apply client_create_spec.
  - intros ns name options w. unfold client.DeleteVirtualMachine, client.deleteResource.
    go_call api_delete. intros [e|] w' [Hr Hd].
    + split; [intros ?; apply vm_at_none; auto|]. destruct Hd as [Hd|Hd];
        [left; by apply untouched_same|right; by apply deleted_vm].
    + split; [|by apply deleted_vm]. destruct Hr as [u Hu].
      rewrite Hu. by apply (stored_vm_decodes _ _ _ _ Hu).
  - intros. apply client_get_spec.
  - intros. apply client_get_vmi_spec.
  - apply client_update_spec.
  - intros ns s w. unfold client.CreateSecret. go_call api_create_secret.
    assert (∀ w', api_secret_created ns s w w' → secret_created ns s w w') as Hc.
    { intros w' (Hn & s' & Hdata & Hat & Hother & Hobj). split; [done|].
      exists s'. split; [done|]. split_and!; intros; simpl; rewrite ?Hobj; auto. }
    intros [s'|e] w' Hr; [by apply Hc|]. destruct Hr as [He [Hr|Hr]]; split; auto using untouched_same.
Qed.
End api_laws.
