(* ===== verification/MachineScope.v ===== *)
(** * The machine scope (pkg/machinescope, pkg/utils)

    A scope is a machine together with its decoded provider spec and the place
    of its virtual machine in the infra cluster.  It builds the virtual
    machine and the ignition secret, and writes what it learns from the infra
    cluster back into the machine.  The machine is the one the caller passed:
    operations that change it run in a world that starts with the machine. *)

From S2P Require Import Prelude GoStd GoErrors Quantity Json ApiTypes JsonStruct ProviderConfig.
From S2P Require Import ProviderStatus.

(** [utils.BuildLabels]. *)
Definition BuildLabels (infraID : string) : gmap string string :=
  {[ "tenantcluster-" +:+ infraID +:+ "-machine.openshift.io" := "owned" ]}.

Definition vmNotCreated := "vmNotCreated".
Definition vmCreatedNotReady := "vmWasCreatedButNotReady".
Definition vmCreatedAndReady := "vmWasCreatedAndReady".

Definition defaultRequestedMemory := "2048M".
Definition defaultRequestedStorage := "35Gi".
Definition defaultPersistentVolumeAccessMode := Core.ReadWriteMany.
Definition defaultDataVolumeDiskName := "datavolumedisk1".
Definition defaultCloudInitVolumeDiskName := "cloudinitdisk".
Definition defaultBootVolumeDiskName := "bootvolume".
Definition kubevirtIdAnnotationKey := "VmId".
Definition defaultBus := "virtio".
Definition APIVersion := "kubevirt.io/v1alpha3".
Definition Kind := "VirtualMachine".
Definition mainNetworkName := "main".
Definition terminationGracePeriodSeconds : Z := 600.

Definition nil_dereference {A} : outcome A :=
  Panic "runtime error: invalid memory address or nil pointer dereference".

(** The pointer to the spec may be nil ([nil_spec_roundtrip]). *)
Record machineScope := MkScope {
  machineProviderSpec : option Provider.KubevirtMachineProviderSpec;
  infraNamespace : string;
  infraID : string
}.

(** [s.machineProviderSpec.f]. *)
Definition spec_field {A} (s : machineScope) (f : Provider.KubevirtMachineProviderSpec → A)
    : outcome A :=
  match machineProviderSpec s with Some spec => Ret (f spec) | None => nil_dereference end.

(** [CreateMachineScope]: a missing label reads as the empty string. *)
Definition CreateMachineScope `{!YamlLib} (machine : Mapi.Machine)
    (infraNamespace infraID : string) : result machineScope :=
  if bool_decide
       (default "" (map_index (Meta.Labels (Mapi.MachineMeta machine)) Mapi.MachineClusterIDLabel)
        = "")
  then inr (InvalidMachineConfiguration
         (Mapi.GetName machine +:+ ": missing " +:+ quote +:+ Mapi.MachineClusterIDLabel
          +:+ quote +:+ " label"))
  else
    match ProviderSpecFromRawExtension (Mapi.ProviderSpecValue (Mapi.Spec machine)) with
    | inr err => inr (InvalidMachineConfiguration
                   ("failed to get machine config: " +:+ Error err))
    | inl providerSpec => inl (MkScope providerSpec infraNamespace infraID)
    end.

Definition buildBootVolumeName (virtualMachineName : string) : string :=
  virtualMachineName +:+ "-" +:+ defaultBootVolumeDiskName.

Definition buildIgnitionSecretName (virtualMachineName : string) : string :=
  virtualMachineName +:+ "-ignition".

(** ** Building the virtual machine *)
Section build.
Implicit Types (s : machineScope) (machine : Mapi.Machine).

Definition assertMandatoryParams s machine : outcome (option goerror) :=
  let missing what :=
    Some (InvalidMachineConfiguration
      (Mapi.GetName machine +:+ ": missing value for " +:+ what)) in
  pvc ← spec_field s Provider.SourcePvcName;
  if bool_decide (pvc = "") then mret (missing "SourcePvcName") else
  secret ← spec_field s Provider.IgnitionSecretName;
  if bool_decide (secret = "") then mret (missing "IgnitionSecretName") else
  network ← spec_field s Provider.NetworkName;
  if bool_decide (network = "") then mret (missing "NetworkName") else mret None.

Definition buildBootVolumeDataVolumeTemplate
    (virtualMachineName pvcName dvNamespace storageClassName pvcRequestsStorage : string)
    (accessMode : string) : outcome CDI.DataVolume :=
  storage ← MustParse pvcRequestsStorage;
  mret (CDI.MkDataVolume
    (Meta.MkTypeMeta "" CDI.SchemeGroupVersion)
    (Meta.MkObjectMeta (buildBootVolumeName virtualMachineName) dvNamespace "" "" 0 None
       None None [] [] "")
    (CDI.MkDataVolumeSpec
       (Some (CDI.MkSourcePVC dvNamespace pvcName))
       (Some (Core.MkPVCSpec [accessMode] {[ Core.ResourceStorage := storage ]}
          (if bool_decide (storageClassName = "") then None else Some storageClassName))))).

Definition buildVMITemplate s machine (namespace : string)
    : outcome KV.VirtualMachineInstanceTemplateSpec :=
  let virtualMachineName := Mapi.GetName machine in
  method ← spec_field s Provider.InterfaceBindingMethod;
  let interfaceBindingMethod :=
    if bool_decide (method = "SRIOV") then KV.MkBinding false true
    else KV.MkBinding true false in
  let ignitionSecretName := buildIgnitionSecretName virtualMachineName in
  networkName ← spec_field s Provider.NetworkName;
  memory ← spec_field s Provider.RequestedMemory;
  let requestedMemory :=
    if bool_decide (memory = "") then defaultRequestedMemory else memory in
  memoryQuantity ← MustParse requestedMemory;
  let requests : Core.ResourceList := {[ Core.ResourceMemory := memoryQuantity ]} in
  cpu ← spec_field s Provider.RequestedCPU;
  requests ←
    (if cpu =? 0 then mret requests
     else q ← MustParse (Strconv.itoa cpu); mret (<[ Core.ResourceCPU := q ]> requests));
  mret (KV.MkTemplate
    (Meta.MkObjectMeta "" "" "" "" 0 None
       (Some {[ "kubevirt.io/vm" := virtualMachineName; "name" := virtualMachineName ]})
       None [] [] "")
    (KV.MkVMISpec
       (KV.MkDomainSpec requests ""
          (KV.MkDevices
             [KV.MkDisk defaultDataVolumeDiskName (Some defaultBus);
              KV.MkDisk defaultCloudInitVolumeDiskName (Some defaultBus)]
             [KV.MkInterface mainNetworkName interfaceBindingMethod]))
       (Some terminationGracePeriodSeconds)
       [KV.MkVolume defaultDataVolumeDiskName
          (KV.VSDataVolume (buildBootVolumeName virtualMachineName));
        KV.MkVolume defaultCloudInitVolumeDiskName
          (KV.VSCloudInitConfigDrive ignitionSecretName)]
       [KV.MkNetwork mainNetworkName (Some networkName)])).

(** The access mode of the boot volume, [None] for an unknown one. *)
Definition access_mode (requested : string) : option string :=
  if bool_decide (requested = "") then Some defaultPersistentVolumeAccessMode
  else if bool_decide (requested = Core.ReadWriteMany) then Some Core.ReadWriteMany
  else if bool_decide (requested = Core.ReadOnlyMany) then Some Core.ReadOnlyMany
  else if bool_decide (requested = Core.ReadWriteOnce) then Some Core.ReadWriteOnce
  else None.

Definition CreateVirtualMachineFromMachine s machine : outcome (result KV.VirtualMachine) :=
  err ← assertMandatoryParams s machine;
  match err with
  | Some err => mret (inr err)
  | None =>
      vmiTemplate ← buildVMITemplate s machine (infraNamespace s);
      storage ← spec_field s Provider.RequestedStorage;
      let pvcRequestsStorage :=
        if bool_decide (storage = "") then defaultRequestedStorage else storage in
      mode ← spec_field s Provider.PersistentVolumeAccessMode;
      match access_mode mode with
      | None =>
          mret (inr (InvalidMachineConfiguration
            (Mapi.GetName machine
             +:+ ": Value of PersistentVolumeAccessMode, can be only one of: "
             +:+ Core.ReadWriteMany +:+ ", " +:+ Core.ReadOnlyMany +:+ ", "
             +:+ Core.ReadWriteOnce)))
      | Some PVCAccessMode =>
          pvc ← spec_field s Provider.SourcePvcName;
          class ← spec_field s Provider.StorageClassName;
          bootVolume ← buildBootVolumeDataVolumeTemplate (Mapi.GetName machine) pvc
            (infraNamespace s) class pvcRequestsStorage PVCAccessMode;
          let labels :=
            map_range_assign (Meta.Labels (Mapi.MachineMeta machine))
              (BuildLabels (infraID s)) in
          mret (inl (KV.MkVM
            (Meta.MkTypeMeta Kind APIVersion)
            (Meta.MkObjectMeta (Mapi.GetName machine) (infraNamespace s) "" "" 0 None
               (Some labels) (Meta.Annotations (Mapi.MachineMeta machine)) [] []
               (Meta.ClusterName (Mapi.MachineMeta machine)))
            (KV.MkVMSpec (Some KV.RunStrategyAlways) (Some vmiTemplate) [bootVolume])
            KV.noStatus))
      end
  end.

Definition CreateIgnitionSecretFromMachine s machine (userData : bytes) : Core.Secret :=
  let virtualMachineName := Mapi.GetName machine in
  let ignitionSecretName := buildIgnitionSecretName virtualMachineName in
  let labels := BuildLabels (infraID s) in
  Core.MkSecret
    (Meta.MkObjectMeta ignitionSecretName (infraNamespace s) "" "" 0 None (Some labels)
       None [] [] "")
    (Some {[ "userdata" := userData ]}).

Definition GetIgnitionSecretName s : outcome string :=
  spec_field s Provider.IgnitionSecretName.
End build.

(** [time.Duration] is 64 bits wide: the seconds are multiplied by 10^9 with
    wrap-around.  Times are nanoseconds. *)
Definition UpdateAllowed (machine : Mapi.Machine) (requeueAfterSeconds now : Z) : bool :=
  match Mapi.ProviderID (Mapi.Spec machine) with
  | None => false
  | Some p =>
      negb (bool_decide (p = "")) &&
      match Mapi.LastUpdated (Mapi.Status machine) with
      | None => true
      | Some t => now <? t + wrap64 (requeueAfterSeconds * 10 ^ 9)
      end
  end.

(** ** Writing back into the machine *)

(** [net.LookupIP]. *)
Class Resolver (IW : Type) := { LookupIP : string → Go IW (result (list Net.IP)) }.

Section sync.
Context {IW : Type} `{!Resolver IW}.

Definition syncProviderID (vm : KV.VirtualMachine) (providerID : string)
    : Go Mapi.Machine unit :=
  machine ← go_get;
  if bool_decide (Mapi.ProviderID (Mapi.Spec machine) = Some providerID) then mret tt
  else go_modify (Mapi.set_ProviderID (Some providerID)).

Definition vm_state (vm : KV.VirtualMachine) : string :=
  if KV.Created (KV.VMStatus vm) then
    if KV.Ready (KV.VMStatus vm) then vmCreatedAndReady else vmCreatedNotReady
  else vmNotCreated.

(** [m.Labels[k] = v] and [m.Annotations[k] = v]. *)
Definition assign_label (k v : string) : Go Mapi.Machine unit :=
  machine ← go_get;
  labels ← go_lift (map_assign (Meta.Labels (Mapi.MachineMeta machine)) k v);
  go_modify (Mapi.set_Labels labels).
Definition assign_annotation (k v : string) : Go Mapi.Machine unit :=
  machine ← go_get;
  annotations ← go_lift (map_assign (Meta.Annotations (Mapi.MachineMeta machine)) k v);
  go_modify (Mapi.set_Annotations annotations).

Definition syncMachineAnnotationsAndLabels (vm : KV.VirtualMachine)
    : Go Mapi.Machine unit :=
  machine ← go_get;
  _ ← (match Meta.Labels (Mapi.MachineMeta machine) with
       | None => go_modify (Mapi.set_Labels (Some ∅))
       | Some _ => mret tt
       end : Go Mapi.Machine unit);
  _ ← (match Meta.Annotations (Mapi.MachineMeta machine) with
       | None => go_modify (Mapi.set_Annotations (Some ∅))
       | Some _ => mret tt
       end : Go Mapi.Machine unit);
  _ ← assign_annotation kubevirtIdAnnotationKey (Meta.UID (KV.VMMeta vm));
  _ ← (match KV.Template (KV.VMSpec vm) with
       | Some t => assign_label Mapi.MachineInstanceTypeLabelName
                     (KV.MachineType (KV.Domain (KV.TemplateSpec t)))
       | None => mret tt
       end : Go Mapi.Machine unit);
  assign_annotation Mapi.MachineInstanceStateAnnotationName (vm_state vm).

(** The addresses of a virtual machine instance. *)
Definition internal_addresses (ips : list Net.IP) : list Core.NodeAddress :=
  flat_map (λ ip, match Net.To4 ip with
                  | Some _ => [Core.MkNodeAddress Core.NodeInternalIP (Net.ip_string ip)]
                  | None => []
                  end) ips.

Definition syncNetworkAddresses (vmi : KV.VirtualMachineInstance)
    : Go (Mapi.Machine * IW) unit :=
  let name := Meta.Name (KV.VMIMeta vmi) in
  r ← go_snd (LookupIP name);
  let networkAddresses :=
    Core.MkNodeAddress Core.NodeInternalDNS name ::
    match r with inl ips => internal_addresses ips | inr _ => [] end in
  go_fst (go_modify (λ machine,
    Mapi.set_Status (Mapi.with_Addresses networkAddresses (Mapi.Status machine)) machine)).

Definition syncProviderStatus (vm : KV.VirtualMachine) : Go Mapi.Machine (option goerror) :=
  match RawExtensionFromProviderStatus
          (Some (Provider.MkProviderStatus Meta.noType (KV.VMStatus vm))) with
  | inr err =>
      mret (Some (InvalidMachineConfiguration
        ("failed to get machine provider status: " +:+ Error err)))
  | inl providerStatus =>
      _ ← go_modify (λ machine,
            Mapi.set_Status
              (Mapi.with_ProviderStatus (Some providerStatus) (Mapi.Status machine)) machine);
      mret None
  end.

Definition SyncMachine (vm : KV.VirtualMachine) (vmi : option KV.VirtualMachineInstance)
    (providerID : string) : Go (Mapi.Machine * IW) (option goerror) :=
  _ ← go_fst (syncProviderID vm providerID);
  _ ← go_fst (syncMachineAnnotationsAndLabels vm);
  _ ← (match vmi with Some vmi => syncNetworkAddresses vmi | None => mret tt end
       : Go (Mapi.Machine * IW) unit);
  go_fst (syncProviderStatus vm).
End sync.

(** ** When a virtual machine is built *)
Section build_spec.
Implicit Types (s : machineScope) (machine : Mapi.Machine)
  (spec : Provider.KubevirtMachineProviderSpec).

Definition complete spec : Prop :=
  Provider.SourcePvcName spec ≠ "" ∧ Provider.IgnitionSecretName spec ≠ "" ∧
  Provider.NetworkName spec ≠ "".
#[global] Instance complete_dec spec : Decision (complete spec).
Proof. unfold complete. apply _. Defined.

Definition or_default (d v : string) : string := if bool_decide (v = "") then d else v.
Definition memory_text spec : string :=
  or_default defaultRequestedMemory (Provider.RequestedMemory spec).
Definition storage_text spec : string :=
  or_default defaultRequestedStorage (Provider.RequestedStorage spec).
Definition parses (text : string) : Prop := ∃ q, ParseQuantity text = inl q.

Lemma MustParse_ok text q : ParseQuantity text = inl q → MustParse text = Ret q.
Proof. unfold MustParse. by intros ->. Qed.
Lemma MustParse_parses text q : MustParse text = Ret q → ParseQuantity text = inl q.
Proof. unfold MustParse. by destruct (ParseQuantity text) as [q'|e]; intros [= ->]. Qed.

Lemma assertMandatoryParams_complete s machine spec :
  machineProviderSpec s = Some spec →
  if decide (complete spec) then assertMandatoryParams s machine = Ret None
  else ∃ e, assertMandatoryParams s machine = Ret (Some e) ∧
            isInvalidMachineConfigurationError e = true.
Proof.
  intros Hs. unfold assertMandatoryParams, spec_field. rewrite Hs. simpl.
  destruct (decide (complete spec)) as [(H1 & H2 & H3)|Hc].
  - by rewrite !bool_decide_eq_false_2 by done.
  - case_bool_decide; [eauto|]. case_bool_decide; [eauto|]. case_bool_decide; [eauto|].
    by destruct Hc.
Qed.

Lemma cpu_parses spec :
  Provider.wf_spec spec →
  ∃ q, MustParse (Strconv.itoa (Provider.RequestedCPU spec)) = Ret q ∧
       q_nanos q = Provider.RequestedCPU spec * 10 ^ 9.
Proof.
  intros Hwf. destruct (ParseQuantity_itoa _ Hwf) as (q & Hq & Hv).
  exists q. split; [by apply MustParse_ok|done].
Qed.

(** The resource requests of the template. *)
Definition requests_of spec (memory : Quantity) (requests : Core.ResourceList) : Prop :=
  requests !! Core.ResourceMemory = Some memory ∧
  (if Provider.RequestedCPU spec =? 0 then requests !! Core.ResourceCPU = None
   else ∃ q, requests !! Core.ResourceCPU = Some q ∧
             q_nanos q = Provider.RequestedCPU spec * 10 ^ 9).

Definition binding_of spec : KV.InterfaceBindingMethod :=
  if bool_decide (Provider.InterfaceBindingMethod spec = "SRIOV")
  then KV.MkBinding false true else KV.MkBinding true false.

Definition template_spec (name : string) spec (requests : Core.ResourceList)
    : KV.VirtualMachineInstanceSpec :=
  KV.MkVMISpec
    (KV.MkDomainSpec requests ""
       (KV.MkDevices
          [KV.MkDisk defaultDataVolumeDiskName (Some defaultBus);
           KV.MkDisk defaultCloudInitVolumeDiskName (Some defaultBus)]
          [KV.MkInterface mainNetworkName (binding_of spec)]))
    (Some terminationGracePeriodSeconds)
    [KV.MkVolume defaultDataVolumeDiskName (KV.VSDataVolume (buildBootVolumeName name));
     KV.MkVolume defaultCloudInitVolumeDiskName
       (KV.VSCloudInitConfigDrive (buildIgnitionSecretName name))]
    [KV.MkNetwork mainNetworkName (Some (Provider.NetworkName spec))].

Lemma buildVMITemplate_ok s machine spec ns q :
  machineProviderSpec s = Some spec → Provider.wf_spec spec →
  ParseQuantity (memory_text spec) = inl q →
  ∃ t requests, buildVMITemplate s machine ns = Ret t ∧ requests_of spec q requests ∧
    KV.TemplateSpec t = template_spec (Mapi.GetName machine) spec requests.
Proof.
  intros Hs Hwf Hq. unfold buildVMITemplate, spec_field. rewrite Hs.
  cbn [mbind outcome_bind mret outcome_ret].
  change (if bool_decide (Provider.RequestedMemory spec = "") then _ else _)
    with (memory_text spec).
  rewrite (MustParse_ok _ _ Hq). cbn [mbind outcome_bind mret outcome_ret].
  unfold requests_of. destruct (Provider.RequestedCPU spec =? 0) eqn:Hcpu.
  - eexists _, _. split; [reflexivity|]. split; [|reflexivity].
    by rewrite lookup_singleton_eq, lookup_singleton_ne by done.
  - destruct (cpu_parses spec Hwf) as (qc & -> & Hv).
    eexists _, _. split; [reflexivity|]. split; [|reflexivity].
    rewrite lookup_insert_ne, lookup_singleton_eq, lookup_insert_eq by done. eauto.
Qed.

Lemma buildVMITemplate_panic s machine spec ns e :
  machineProviderSpec s = Some spec → ParseQuantity (memory_text spec) = inr e →
  ∃ msg, buildVMITemplate s machine ns = Panic msg.
Proof.
  intros Hs Hq. unfold buildVMITemplate, spec_field. rewrite Hs.
  cbn [mbind outcome_bind mret outcome_ret].
  change (if bool_decide (Provider.RequestedMemory spec = "") then _ else _)
    with (memory_text spec).
  unfold MustParse. rewrite Hq. by eexists.
Qed.

(** The virtual machine of a machine: [memory] and [storage] are the
    quantities asked for, [mode] is the access mode of the boot volume. *)
Record built_vm s machine spec (memory storage : Quantity) (mode : string)
    (vm : KV.VirtualMachine) : Prop := {
  built_name : KV.vm_Name vm = Mapi.GetName machine;
  built_namespace : KV.vm_Namespace vm = infraNamespace s;
  built_fresh : KV.vm_ResourceVersion vm = "";
  built_labels : Meta.Labels (KV.VMMeta vm) =
    Some (default ∅ (Meta.Labels (Mapi.MachineMeta machine)) ∪ BuildLabels (infraID s));
  built_annotations :
    Meta.Annotations (KV.VMMeta vm) = Meta.Annotations (Mapi.MachineMeta machine);
  built_strategy : KV.RunStrategy (KV.VMSpec vm) = Some KV.RunStrategyAlways;
  built_template : ∃ t requests,
    KV.Template (KV.VMSpec vm) = Some t ∧ requests_of spec memory requests ∧
    KV.TemplateSpec t = template_spec (Mapi.GetName machine) spec requests;
  built_volume : ∃ dv, KV.DataVolumeTemplates (KV.VMSpec vm) = [dv] ∧
    Meta.Name (CDI.DVMeta dv) = buildBootVolumeName (Mapi.GetName machine) ∧
    Meta.Namespace (CDI.DVMeta dv) = infraNamespace s ∧
    CDI.SourcePVC (CDI.DVSpec dv) =
      Some (CDI.MkSourcePVC (infraNamespace s) (Provider.SourcePvcName spec)) ∧
    ∃ pvc, CDI.PVC (CDI.DVSpec dv) = Some pvc ∧ Core.AccessModes pvc = [mode] ∧
      Core.Requests pvc = {[ Core.ResourceStorage := storage ]} ∧
      Core.StorageClassName pvc =
        (if bool_decide (Provider.StorageClassName spec = "") then None
         else Some (Provider.StorageClassName spec));
  built_status : KV.VMStatus vm = KV.noStatus
}.

Section create.
Context s machine spec (Hs : machineProviderSpec s = Some spec).

Lemma create_incomplete :
  ¬ complete spec →
  ∃ e, CreateVirtualMachineFromMachine s machine = Ret (inr e) ∧
       isInvalidMachineConfigurationError e = true.
Proof.
  intros Hc. pose proof (assertMandatoryParams_complete s machine spec Hs) as Ha.
  rewrite decide_False in Ha by done. destruct Ha as (e & He & Hi).
  exists e. split; [|done]. unfold CreateVirtualMachineFromMachine. by rewrite He.
Qed.

Lemma create_complete :
  complete spec → Provider.wf_spec spec →
  CreateVirtualMachineFromMachine s machine =
    (t ← buildVMITemplate s machine (infraNamespace s);
     match access_mode (Provider.PersistentVolumeAccessMode spec) with
     | None => mret (inr (InvalidMachineConfiguration
         (Mapi.GetName machine
          +:+ ": Value of PersistentVolumeAccessMode, can be only one of: "
          +:+ Core.ReadWriteMany +:+ ", " +:+ Core.ReadOnlyMany +:+ ", "
          +:+ Core.ReadWriteOnce)))
     | Some mode =>
         dv ← buildBootVolumeDataVolumeTemplate (Mapi.GetName machine)
                (Provider.SourcePvcName spec) (infraNamespace s)
                (Provider.StorageClassName spec) (storage_text spec) mode;
         mret (inl (KV.MkVM (Meta.MkTypeMeta Kind APIVersion)
           (Meta.MkObjectMeta (Mapi.GetName machine) (infraNamespace s) "" "" 0 None
             (Some (map_range_assign (Meta.Labels (Mapi.MachineMeta machine))
                      (BuildLabels (infraID s))))
             (Meta.Annotations (Mapi.MachineMeta machine)) [] []
             (Meta.ClusterName (Mapi.MachineMeta machine)))
           (KV.MkVMSpec (Some KV.RunStrategyAlways) (Some t) [dv]) KV.noStatus))
     end).
Proof.
  intros Hc Hwf. pose proof (assertMandatoryParams_complete s machine spec Hs) as Ha.
  rewrite decide_True in Ha by done.
  unfold CreateVirtualMachineFromMachine. rewrite Ha.
  cbn [mbind outcome_bind mret outcome_ret]. unfold spec_field. rewrite Hs.
  by destruct (buildVMITemplate s machine (infraNamespace s)).
Qed.

Lemma create_bad_memory e :
  complete spec → Provider.wf_spec spec → ParseQuantity (memory_text spec) = inr e →
  ∃ msg, CreateVirtualMachineFromMachine s machine = Panic msg.
Proof.
  intros Hc Hwf He. rewrite create_complete by done.
  destruct (buildVMITemplate_panic s machine spec (infraNamespace s) e Hs He) as [msg ->].
  by eexists.
Qed.

Lemma create_bad_mode :
  complete spec → Provider.wf_spec spec → parses (memory_text spec) →
  access_mode (Provider.PersistentVolumeAccessMode spec) = None →
  ∃ e, CreateVirtualMachineFromMachine s machine = Ret (inr e) ∧
       isInvalidMachineConfigurationError e = true.
Proof.
  intros Hc Hwf [q Hq] Hm. rewrite create_complete by done.
  destruct (buildVMITemplate_ok s machine spec (infraNamespace s) q Hs Hwf Hq)
    as (t & r & -> & _). simpl. rewrite Hm. by eexists.
Qed.

Lemma create_bad_storage mode e :
  complete spec → Provider.wf_spec spec → parses (memory_text spec) →
  access_mode (Provider.PersistentVolumeAccessMode spec) = Some mode →
  ParseQuantity (storage_text spec) = inr e →
  ∃ msg, CreateVirtualMachineFromMachine s machine = Panic msg.
Proof.
  intros Hc Hwf [q Hq] Hm He. rewrite create_complete by done.
  destruct (buildVMITemplate_ok s machine spec (infraNamespace s) q Hs Hwf Hq)
    as (t & r & -> & _). simpl. rewrite Hm.
  unfold buildBootVolumeDataVolumeTemplate, MustParse. rewrite He. by eexists.
Qed.

Lemma create_ok mode memory storage :
  complete spec → Provider.wf_spec spec → ParseQuantity (memory_text spec) = inl memory →
  access_mode (Provider.PersistentVolumeAccessMode spec) = Some mode →
  ParseQuantity (storage_text spec) = inl storage →
  ∃ vm, CreateVirtualMachineFromMachine s machine = Ret (inl vm) ∧
        built_vm s machine spec memory storage mode vm.
Proof.
  intros Hc Hwf Hq Hm Hst. rewrite create_complete by done.
  destruct (buildVMITemplate_ok s machine spec (infraNamespace s) memory Hs Hwf Hq)
    as (t & r & -> & Hr & Ht). simpl. rewrite Hm.
  unfold buildBootVolumeDataVolumeTemplate. rewrite (MustParse_ok _ _ Hst). simpl.
  eexists. split; [reflexivity|].
  split; try done; [by rewrite map_range_assign_union|by eauto|].
  eexists. split_and!; try done. eexists. by split_and!.
Qed.

(** Every outcome, by the provider spec. *)
Lemma create_cases :
  Provider.wf_spec spec →
  match CreateVirtualMachineFromMachine s machine with
  | Ret (inl vm) => complete spec ∧ ∃ memory storage mode,
      ParseQuantity (memory_text spec) = inl memory ∧
      ParseQuantity (storage_text spec) = inl storage ∧
      access_mode (Provider.PersistentVolumeAccessMode spec) = Some mode ∧
      built_vm s machine spec memory storage mode vm
  | Ret (inr e) => isInvalidMachineConfigurationError e = true ∧
      (¬ complete spec ∨
       parses (memory_text spec) ∧
       access_mode (Provider.PersistentVolumeAccessMode spec) = None)
  | Panic _ => complete spec ∧
      (¬ parses (memory_text spec) ∨
       ¬ parses (storage_text spec) ∧
       is_Some (access_mode (Provider.PersistentVolumeAccessMode spec)))
  end.
Proof.
  intros Hwf. assert (∀ t e, ParseQuantity t = inr e → ¬ parses t) as Hnp.
  { intros t e He [q Hq]. congruence. }
  destruct (decide (complete spec)) as [Hc|Hc].
  2: { destruct create_incomplete as (e & -> & Hi); auto. }
  destruct (ParseQuantity (memory_text spec)) as [memory|e] eqn:Hq.
  2: { destruct (create_bad_memory e) as [msg ->]; eauto. }
  destruct (access_mode (Provider.PersistentVolumeAccessMode spec)) as [mode|] eqn:Hm.
  2: { destruct create_bad_mode as (e & -> & ?); try done; [by exists memory|].
       split; [done|]. right. split; [by exists memory|done]. }
  destruct (ParseQuantity (storage_text spec)) as [storage|e] eqn:Hst.
  - destruct (create_ok mode memory storage) as (vm & -> & ?); try done.
    split; [done|]. by exists memory, storage, mode.
  - destruct (create_bad_storage mode e) as [msg ->]; try done; [by exists memory|].
    split; [done|]. right. eauto.
Qed.
End create.

(** Whatever the spec, a built machine has its name and place. *)
Lemma create_named s machine vm :
  CreateVirtualMachineFromMachine s machine = Ret (inl vm) →
  KV.vm_Name vm = Mapi.GetName machine ∧ KV.vm_Namespace vm = infraNamespace s.
Proof.
  unfold CreateVirtualMachineFromMachine.
  intros ([err|] & _ & Hrun)%outcome_bind_ret; [done|].
  apply outcome_bind_ret in Hrun as (t & _ & Hrun).
  apply outcome_bind_ret in Hrun as (storage & _ & Hrun).
  apply outcome_bind_ret in Hrun as (mode & _ & Hrun).
  destruct (access_mode mode); [|done].
  apply outcome_bind_ret in Hrun as (pvc & _ & Hrun).
  apply outcome_bind_ret in Hrun as (class & _ & Hrun).
  apply outcome_bind_ret in Hrun as (dv & _ & Hrun).
  by injection Hrun as <-.
Qed.

Lemma create_nil s machine :
  machineProviderSpec s = None →
  ∃ msg, CreateVirtualMachineFromMachine s machine = Panic msg.
Proof.
  intros Hs. unfold CreateVirtualMachineFromMachine, assertMandatoryParams, spec_field.
  rewrite Hs. by eexists.
Qed.
End build_spec.

(** A virtual machine whose parts fit together: every disk has its volume,
    every interface its network, and every data volume its template. *)
Definition well_formed_vm (vm : KV.VirtualMachine) : Prop :=
  ∃ t, KV.Template (KV.VMSpec vm) = Some t ∧
    let spec := KV.TemplateSpec t in
    let devices := KV.DomainDevices (KV.Domain spec) in
    map KV.DiskName (KV.Disks devices) = map KV.VolumeName (KV.Volumes spec) ∧
    NoDup (map KV.DiskName (KV.Disks devices)) ∧
    map KV.InterfaceName (KV.Interfaces devices) = map KV.NetName (KV.Networks spec) ∧
    ∀ v name, v ∈ KV.Volumes spec → KV.Source v = KV.VSDataVolume name →
      ∃ dv, dv ∈ KV.DataVolumeTemplates (KV.VMSpec vm) ∧
        Meta.Name (CDI.DVMeta dv) = name ∧
        Meta.Namespace (CDI.DVMeta dv) = KV.vm_Namespace vm.

Section properties.
Context (s : machineScope) (machine : Mapi.Machine)
  (spec : Provider.KubevirtMachineProviderSpec).

(** C29: Building the virtual machine returns, with a machine or with an
    error, exactly when the mandatory parameters are missing, or the memory
    text parses and the access mode is unknown or the storage text parses
    too.  On every other spec the caller panics. *)
Theorem CreateVirtualMachine_returns_iff
    (Hs : machineProviderSpec s = Some spec) (Hwf : Provider.wf_spec spec) :
  (∃ r, CreateVirtualMachineFromMachine s machine = Ret r) ↔
  ¬ complete spec ∨
  parses (memory_text spec) ∧
    (access_mode (Provider.PersistentVolumeAccessMode spec) = None ∨
     parses (storage_text spec)).
Proof.
  pose proof (create_cases s machine spec Hs Hwf) as H.
  destruct (CreateVirtualMachineFromMachine s machine) as [[vm|e]|msg].
  - destruct H as (_ & q & st & mode & ? & ? & _). split; [intros _|eauto].
    right. split; [by exists q|right; by exists st].
  - split; [intros _|eauto]. tauto.
  - split; [by intros [r ?]|]. destruct H as (Hc & [H|[H [mode Hm]]]); [tauto|].
    intros [?|(_ & [Hn|?])]; [tauto| |tauto]. by rewrite Hm in Hn.
Qed.

(** C13: The virtual machine that is built carries the machine's name in the
    infra namespace, its disks, interfaces and data volumes fit together,
    it mounts the ignition secret of the same scope, and the machine's
    labels win over the infra cluster's own label. *)
Theorem CreateVirtualMachine_well_formed vm userData
    (Hs : machineProviderSpec s = Some spec) (Hwf : Provider.wf_spec spec)
    (Hvm : CreateVirtualMachineFromMachine s machine = Ret (inl vm)) :
  let secret := CreateIgnitionSecretFromMachine s machine userData in
  well_formed_vm vm ∧
  KV.vm_Name vm = Mapi.GetName machine ∧ KV.vm_Namespace vm = infraNamespace s ∧
  Meta.Namespace (Core.SecretMeta secret) = infraNamespace s ∧
  (∃ t v, KV.Template (KV.VMSpec vm) = Some t ∧ v ∈ KV.Volumes (KV.TemplateSpec t) ∧
     KV.Source v = KV.VSCloudInitConfigDrive (Meta.Name (Core.SecretMeta secret))) ∧
  ∀ k, map_index (Meta.Labels (KV.VMMeta vm)) k =
    match map_index (Meta.Labels (Mapi.MachineMeta machine)) k with
    | Some v => Some v
    | None => BuildLabels (infraID s) !! k
    end.
Proof.
  pose proof (create_cases s machine spec Hs Hwf) as H. rewrite Hvm in H.
  destruct H as (_ & memory & storage & mode & _ & _ & _ & B).
  destruct B as [Hname Hns _ Hl _ _ (t & r & Ht & _ & Hspec) (dv & Hdv & Hdn & Hdns & _) _].
  split_and!; try done.
  - exists t. rewrite Hspec. split; [done|]. cbv zeta. split_and!; try done.
    { repeat constructor; rewrite ?list_elem_of_singleton, ?elem_of_nil; naive_solver. }
    intros v name Hv Hsrc. exists dv. rewrite Hdv, Hdn, Hdns, Hns. simpl in Hv.
    apply elem_of_cons in Hv as [->|Hv]; [injection Hsrc as <-; split_and!; [by left|done..]|].
    apply list_elem_of_singleton in Hv as ->. done.
  - eexists t, _. split; [done|]. rewrite Hspec. split; [right; by left|]. done.
  - intros k. rewrite Hl. simpl. rewrite lookup_union.
    destruct (Meta.Labels (Mapi.MachineMeta machine)) as [m|]; simpl;
      [|by rewrite lookup_empty, option_union_left_id].
    by destruct (m !! k), (BuildLabels (infraID s) !! k).
Qed.

(** C31: The resources of the template and of the boot volume are the parsed
    texts of the spec; when it leaves them out they are 2048M of memory and
    35Gi of storage.  The CPU request is the spec's number, exactly, and is
    absent when the number is 0. *)
Theorem CreateVirtualMachine_resources vm
    (Hs : machineProviderSpec s = Some spec) (Hwf : Provider.wf_spec spec)
    (Hvm : CreateVirtualMachineFromMachine s machine = Ret (inl vm)) :
  ∃ t dv pvc memory storage,
    KV.Template (KV.VMSpec vm) = Some t ∧ KV.DataVolumeTemplates (KV.VMSpec vm) = [dv] ∧
    CDI.PVC (CDI.DVSpec dv) = Some pvc ∧
    let requests := KV.Requests (KV.Domain (KV.TemplateSpec t)) in
    requests !! Core.ResourceMemory = Some memory ∧
    Core.Requests pvc !! Core.ResourceStorage = Some storage ∧
    (if bool_decide (Provider.RequestedMemory spec = "")
     then q_nanos memory = 2048 * 10 ^ 6 * 10 ^ 9
     else ParseQuantity (Provider.RequestedMemory spec) = inl memory) ∧
    (if bool_decide (Provider.RequestedStorage spec = "")
     then q_nanos storage = 35 * 2 ^ 30 * 10 ^ 9
     else ParseQuantity (Provider.RequestedStorage spec) = inl storage) ∧
    (if Provider.RequestedCPU spec =? 0 then requests !! Core.ResourceCPU = None
     else ∃ q, requests !! Core.ResourceCPU = Some q ∧
               q_nanos q = Provider.RequestedCPU spec * 10 ^ 9).
Proof.
  pose proof (create_cases s machine spec Hs Hwf) as H. rewrite Hvm in H.
  destruct H as (_ & memory & storage & mode & Hm & Hst & _ & B).
  destruct B as [_ _ _ _ _ _ (t & r & Ht & [Hrm Hrc] & Hspec)
                 (dv & Hdv & _ & _ & _ & pvc & Hpvc & _ & Hreq & _) _].
  exists t, dv, pvc, memory, storage. rewrite Hspec, Hreq. simpl.
  rewrite lookup_singleton_eq. split_and!; try done.
  - unfold memory_text, or_default in Hm. case_bool_decide; [|done].
    vm_compute in Hm. injection Hm as <-. reflexivity.
  - unfold storage_text, or_default in Hst. case_bool_decide; [|done].
    vm_compute in Hst. injection Hst as <-. reflexivity.
Qed.
End properties.

(** ** What a synchronised machine is *)
Definition raw_status (vm : KV.VirtualMachine) : RawExtension :=
  MkRawExtension
    (encode (AMap (status_fields (Provider.MkProviderStatus Meta.noType (KV.VMStatus vm))))).

Definition synced_labels (vm : KV.VirtualMachine) (labels : gmap string string)
    : gmap string string :=
  match KV.Template (KV.VMSpec vm) with
  | Some t => <[Mapi.MachineInstanceTypeLabelName :=
                  KV.MachineType (KV.Domain (KV.TemplateSpec t))]> labels
  | None => labels
  end.

Definition synced_annotations (vm : KV.VirtualMachine) (annotations : gmap string string)
    : gmap string string :=
  <[Mapi.MachineInstanceStateAnnotationName := vm_state vm]>
    (<[kubevirtIdAnnotationKey := Meta.UID (KV.VMMeta vm)]> annotations).

(** The machine after a synchronisation; [addresses] are given when there is
    a virtual machine instance. *)
Definition synced (vm : KV.VirtualMachine) (addresses : option (list Core.NodeAddress))
    (providerID : string) (m : Mapi.Machine) : Mapi.Machine :=
  let meta := Mapi.MachineMeta m in
  Mapi.MkMachine
    (Meta.set_Annotations (Some (synced_annotations vm (default ∅ (Meta.Annotations meta))))
       (Meta.set_Labels (Some (synced_labels vm (default ∅ (Meta.Labels meta)))) meta))
    (Mapi.MkMachineSpec (Mapi.ProviderSpecValue (Mapi.Spec m)) (Some providerID))
    (Mapi.with_ProviderStatus (Some (raw_status vm))
       (match addresses with
        | Some a => Mapi.with_Addresses a (Mapi.Status m)
        | None => Mapi.Status m
        end)).

Definition vmi_addresses (vmi : KV.VirtualMachineInstance) (r : result (list Net.IP))
    : list Core.NodeAddress :=
  Core.MkNodeAddress Core.NodeInternalDNS (Meta.Name (KV.VMIMeta vmi)) ::
  match r with inl ips => internal_addresses ips | inr _ => [] end.

Lemma synced_idempotent vm a p m : synced vm a p (synced vm a p m) = synced vm a p m.
Proof.
  destruct m as [[] [] []]. unfold synced; simpl. f_equal.
  - unfold synced_annotations, synced_labels, Meta.set_Annotations, Meta.set_Labels; simpl.
    f_equal; [destruct (KV.Template (KV.VMSpec vm)); [|done]; f_equal; apply insert_insert_eq|].
    f_equal. rewrite (insert_insert_ne _ kubevirtIdAnnotationKey) by done.
    by rewrite insert_insert_eq, insert_insert_eq.
  - by destruct a.
Qed.

Section sync_spec.
Context {IW : Type} `{!Resolver IW}.
Implicit Types (w : IW) (m : Mapi.Machine).

Lemma syncProviderID_spec vm p (Q : unit → Mapi.Machine → Prop) m :
  Q tt (Mapi.set_ProviderID (Some p) m) → wp (syncProviderID vm p) Q no_panic m.
Proof.
  intros HQ. unfold syncProviderID. go_steps. case_bool_decide as Hp; go_steps; [|done].
  destruct m as [meta [v q] st]; simpl in *. by subst q.
Qed.

Lemma syncMachineAnnotationsAndLabels_spec vm (Q : unit → Mapi.Machine → Prop) m :
  let meta := Mapi.MachineMeta m in
  Q tt (Mapi.MkMachine
          (Meta.set_Annotations
             (Some (synced_annotations vm (default ∅ (Meta.Annotations meta))))
             (Meta.set_Labels (Some (synced_labels vm (default ∅ (Meta.Labels meta)))) meta))
          (Mapi.Spec m) (Mapi.Status m)) →
  wp (syncMachineAnnotationsAndLabels vm) Q no_panic m.
Proof.
  intros meta HQ. subst meta. destruct m as [[] spec status]; simpl in *.
  unfold syncMachineAnnotationsAndLabels, assign_annotation, assign_label, synced_labels in *.
  go_steps. destruct Labels as [l|]; destruct Annotations as [a|]; go_steps;
    destruct (KV.Template (KV.VMSpec vm)) as [t|]; go_steps; exact HQ.
Qed.

Lemma SyncMachine_spec (P : string → result (list Net.IP) → IW → IW → Prop)
    (Hres : ∀ name w, wp (LookupIP name) (λ r w', P name r w w') no_panic w)
    vm vmi p (Q : option goerror → Mapi.Machine * IW → Prop) m w :
  match vmi with
  | None => Q None (synced vm None p m, w)
  | Some vmi => ∀ r w', P (Meta.Name (KV.VMIMeta vmi)) r w w' →
      Q None (synced vm (Some (vmi_addresses vmi r)) p m, w')
  end →
  wp (SyncMachine vm vmi p) Q no_panic (m, w).
Proof.
  intros HQ. unfold SyncMachine. do 2 go_step. apply syncProviderID_spec.
  do 2 go_step. apply syncMachineAnnotationsAndLabels_spec. go_step.
  destruct vmi as [vmi|].
  - unfold syncNetworkAddresses. do 2 go_step. go_call Hres. intros r w' Hr.
    apply HQ in Hr. do 2 go_step. go_step. unfold syncProviderStatus. go_steps. exact Hr.
  - go_step. go_step. unfold syncProviderStatus. go_steps. exact HQ.
Qed.
End sync_spec.

Definition resolved_addresses (resolve : string → result (list Net.IP))
    (vmi : option KV.VirtualMachineInstance) : option (list Core.NodeAddress) :=
  (λ vmi, vmi_addresses vmi (resolve (Meta.Name (KV.VMIMeta vmi)))) <$> vmi.

Lemma SyncMachine_resolved `{!Resolver IW} resolve vm vmi p m (w : IW) :
  (∀ name w, LookupIP name w = (Ret (resolve name), w)) →
  SyncMachine vm vmi p (m, w) = (Ret None, (synced vm (resolved_addresses resolve vmi) p m, w)).
Proof.
  intros Hres.
  assert (wp (SyncMachine vm vmi p)
    (λ r mw, r = None ∧ mw = (synced vm (resolved_addresses resolve vmi) p m, w))
    no_panic (m, w)) as H.
  { apply (SyncMachine_spec (λ name r w w', r = resolve name ∧ w' = w)).
    - intros name w0. unfold wp. by rewrite Hres.
    - destruct vmi; [|done]. by intros ?? [-> ->]. }
  unfold wp in H. by destruct (SyncMachine vm vmi p (m, w)) as [[r|msg] mw];
    [destruct H as [-> ->]|destruct H].
Qed.

Lemma internal_addresses_filter ips :
  internal_addresses ips =
    map (λ ip, Core.MkNodeAddress Core.NodeInternalIP (Net.ip_string ip))
      (filter (λ ip, is_Some (Net.To4 ip)) ips).
Proof.
  induction ips as [|ip ips IH]; simpl; [done|]. rewrite filter_cons.
  destruct (Net.To4 ip) eqn:Hip; [rewrite decide_True by eauto|
    rewrite decide_False by (by intros [? [=]])]; simpl; by rewrite IH.
Qed.

Section sync_properties.
Context {IW : Type} `{!Resolver IW} (resolve : string → result (list Net.IP)).
Context (vm : KV.VirtualMachine) (vmi : option KV.VirtualMachineInstance)
  (providerID : string) (m : Mapi.Machine) (w : IW).

(** C18: A synchronisation, with a resolver that changes nothing in the infra
    cluster, never panics, not even on a machine without label and annotation
    maps, and never fails.  Afterwards the machine has the
    provider ID, the identity of the virtual machine and its state as
    annotations, the status as its provider status and, when there is an
    instance, its DNS name and exactly the IPv4 addresses it resolves to, in
    order; every label but the instance type and every other annotation is
    the one it had.  If the texts
    of the status are valid UTF-8 and its times have years of four digits, the
    provider status reads back, through whatever order the YAML library gives
    the members, as that status with its times cut to the second and a map of
    request data without entries as no map. *)
Theorem SyncMachine_total
    (Hres : ∀ name w, LookupIP name w = (Ret (resolve name), w)) :
  ∃ m', SyncMachine vm vmi providerID (m, w) = (Ret None, (m', w)) ∧
    Mapi.ProviderID (Mapi.Spec m') = Some providerID ∧
    Mapi.ProviderStatus (Mapi.Status m') = Some (raw_status vm) ∧
    (∀ (errors : TimeErrors) (yaml : YamlLib),
       let status := Provider.MkProviderStatus Meta.noType (KV.VMStatus vm) in
       status_ok status → reads_json TProviderStatus (Raw (raw_status vm)) →
       ProviderStatusFromRawExtension (Mapi.ProviderStatus (Mapi.Status m')) =
         inl (status_back status)) ∧
    (let a := Meta.Annotations (Mapi.MachineMeta m') in
     map_index a kubevirtIdAnnotationKey = Some (Meta.UID (KV.VMMeta vm)) ∧
     map_index a Mapi.MachineInstanceStateAnnotationName = Some (vm_state vm) ∧
     ∀ k, k ≠ kubevirtIdAnnotationKey → k ≠ Mapi.MachineInstanceStateAnnotationName →
       map_index a k = map_index (Meta.Annotations (Mapi.MachineMeta m)) k) ∧
    (∀ k, k ≠ Mapi.MachineInstanceTypeLabelName →
       map_index (Meta.Labels (Mapi.MachineMeta m')) k =
       map_index (Meta.Labels (Mapi.MachineMeta m)) k) ∧
    Mapi.Addresses (Mapi.Status m') =
      match vmi with
      | None => Mapi.Addresses (Mapi.Status m)
      | Some vmi =>
          Core.MkNodeAddress Core.NodeInternalDNS (Meta.Name (KV.VMIMeta vmi)) ::
          match resolve (Meta.Name (KV.VMIMeta vmi)) with
          | inl ips => map (λ ip, Core.MkNodeAddress Core.NodeInternalIP (Net.ip_string ip))
                         (filter (λ ip, is_Some (Net.To4 ip)) ips)
          | inr _ => []
          end
      end.
Proof.
  exists (synced vm (resolved_addresses resolve vmi) providerID m).
  split; [by apply SyncMachine_resolved|].
  unfold synced; simpl. destruct m as [[] [] []]; simpl. split_and!; try done.
  - intros errors yaml Hok Hyaml. exact (ProviderStatus_read _ Hok Hyaml).
  - unfold synced_annotations. by rewrite lookup_insert_ne, lookup_insert_eq.
  - apply lookup_insert_eq.
  - intros k Hk Hk'. unfold synced_annotations. rewrite !lookup_insert_ne by done.
    by destruct Annotations.
  - intros k Hk. unfold synced_labels.
    destruct (KV.Template (KV.VMSpec vm)); [rewrite lookup_insert_ne by done|];
      by destruct Labels.
  - destruct vmi as [v|]; simpl; [|done]. unfold vmi_addresses.
    destruct (resolve _); by rewrite ?internal_addresses_filter.
Qed.

(** Synchronising again, with the same virtual machine and the same
    name resolution, changes nothing. *)
Lemma SyncMachine_idempotent o m' w'
    (Hres : ∀ name w, LookupIP name w = (Ret (resolve name), w))
    (Hrun : SyncMachine vm vmi providerID (m, w) = (o, (m', w'))) :
  SyncMachine vm vmi providerID (m', w') = (Ret None, (m', w')).
Proof.
  rewrite (SyncMachine_resolved resolve) in Hrun by done. injection Hrun as <- <- <-.
  by rewrite (SyncMachine_resolved resolve), synced_idempotent.
Qed.
End sync_properties.

(** An update is allowed exactly when the machine has a provider ID and
    its status was never written or was written less than the interval ago;
    the interval is exact as long as it fits in 64 bits of nanoseconds. *)
Lemma UpdateAllowed_iff machine requeueAfterSeconds now
    (Hfit : 0 ≤ requeueAfterSeconds ≤ 9223372036) :
  UpdateAllowed machine requeueAfterSeconds now = true ↔
  (∃ p, Mapi.ProviderID (Mapi.Spec machine) = Some p ∧ p ≠ "") ∧
  (∀ t, Mapi.LastUpdated (Mapi.Status machine) = Some t →
        now < t + requeueAfterSeconds * 10 ^ 9).
Proof.
  unfold UpdateAllowed. rewrite wrap64_id by lia.
  destruct (Mapi.ProviderID (Mapi.Spec machine)) as [p|]; [|split; [done|by intros [[? [? _]] _]]].
  rewrite andb_true_iff, negb_true_iff, bool_decide_eq_false.
  destruct (Mapi.LastUpdated (Mapi.Status machine)) as [t|].
  - rewrite Z.ltb_lt. split; [intros [Hp Ht]; split; [by exists p|by intros ? [= <-]]|].
    intros [[? [[= <-] ?]] Ht]. by split; [|apply Ht].
  - split; [intros [Hp _]; split; [by exists p|done]|]. by intros [[? [[= <-] ?]] _].
Qed.

(** ** On an example *)
Definition example_machine : Mapi.Machine :=
  Mapi.MkMachine
    (Meta.MkObjectMeta "worker-0" "openshift-machine-api" "uid" "1" 0 None
       (Some {[ Mapi.MachineClusterIDLabel := "cluster" ]}) None [] [] "")
    (Mapi.MkMachineSpec (Some (MkRawExtension (encode (AMap (spec_fields example_spec))))) None)
    (Mapi.MkMachineStatus None None None None None [] None []).

Definition example_scope : machineScope := MkScope (Some example_spec) "infra" "id".

Definition example_vm : KV.VirtualMachine :=
  match CreateVirtualMachineFromMachine example_scope example_machine with
  | Ret (inl vm) => vm
  | _ => KV.zeroVM
  end.

Lemma example_wf : Provider.wf_spec example_spec.
Proof. split; vm_compute; congruence. Defined.

Lemma CreateVirtualMachine_returns_iff_witness :
  (∃ r, CreateVirtualMachineFromMachine example_scope example_machine = Ret r) ↔
  ¬ complete example_spec ∨
  parses (memory_text example_spec) ∧
    (access_mode (Provider.PersistentVolumeAccessMode example_spec) = None ∨
     parses (storage_text example_spec)).
Proof. apply CreateVirtualMachine_returns_iff; [reflexivity|apply example_wf]. Defined.

Lemma CreateVirtualMachine_well_formed_witness :
  let secret := CreateIgnitionSecretFromMachine example_scope example_machine "data" in
  well_formed_vm example_vm ∧
  KV.vm_Name example_vm = "worker-0" ∧ KV.vm_Namespace example_vm = "infra" ∧
  Meta.Namespace (Core.SecretMeta secret) = "infra" ∧
  (∃ t v, KV.Template (KV.VMSpec example_vm) = Some t ∧ v ∈ KV.Volumes (KV.TemplateSpec t) ∧
     KV.Source v = KV.VSCloudInitConfigDrive (Meta.Name (Core.SecretMeta secret))) ∧
  ∀ k, map_index (Meta.Labels (KV.VMMeta example_vm)) k =
    match map_index (Meta.Labels (Mapi.MachineMeta example_machine)) k with
    | Some v => Some v
    | None => BuildLabels "id" !! k
    end.
Proof.
  apply (CreateVirtualMachine_well_formed example_scope example_machine example_spec);
    [reflexivity|apply example_wf|vm_compute; reflexivity].
Defined.

Lemma CreateVirtualMachine_resources_witness :
  ∃ t dv pvc memory storage,
    KV.Template (KV.VMSpec example_vm) = Some t ∧
    KV.DataVolumeTemplates (KV.VMSpec example_vm) = [dv] ∧
    CDI.PVC (CDI.DVSpec dv) = Some pvc ∧
    let requests := KV.Requests (KV.Domain (KV.TemplateSpec t)) in
    requests !! Core.ResourceMemory = Some memory ∧
    Core.Requests pvc !! Core.ResourceStorage = Some storage ∧
    ParseQuantity "4Gi" = inl memory ∧ q_nanos storage = 35 * 2 ^ 30 * 10 ^ 9 ∧
    ∃ q, requests !! Core.ResourceCPU = Some q ∧ q_nanos q = 4 * 10 ^ 9.
Proof.
  apply (CreateVirtualMachine_resources example_scope example_machine example_spec);
    [reflexivity|apply example_wf|vm_compute; reflexivity].
Defined.

Definition example_resolver : Resolver unit := {|
  LookupIP name := mret (inl [[10; 0; 0; 1]; [0; 0; 0; 0; 0; 0; 0; 0; 0; 0; 0; 0; 0; 0; 0; 1]])
|}.

Lemma SyncMachine_total_witness :
  ∃ m', @SyncMachine unit example_resolver example_vm
          (Some (KV.MkVMI Meta.noType (KV.VMMeta example_vm))) "kubevirt://infra/worker-0"
          (example_machine, tt) = (Ret None, (m', tt)) ∧
    Mapi.ProviderID (Mapi.Spec m') = Some "kubevirt://infra/worker-0" ∧
    Mapi.Addresses (Mapi.Status m') =
      [Core.MkNodeAddress Core.NodeInternalDNS "worker-0";
       Core.MkNodeAddress Core.NodeInternalIP "10.0.0.1"].
Proof.
  destruct (@SyncMachine_total unit example_resolver
    (λ _, inl [[10; 0; 0; 1]; [0; 0; 0; 0; 0; 0; 0; 0; 0; 0; 0; 0; 0; 0; 0; 1]])
    example_vm (Some (KV.MkVMI Meta.noType (KV.VMMeta example_vm))) "kubevirt://infra/worker-0"
    example_machine tt) as (m' & Hrun & Hp & _ & _ & _ & _ & Ha); [reflexivity|].
  exists m'. split; [exact Hrun|split; [exact Hp|]]. rewrite Ha. vm_compute. reflexivity.
Defined.

Definition example_sync : Go (Mapi.Machine * unit) (option goerror) :=
  @SyncMachine unit example_resolver example_vm None "kubevirt://infra/worker-0".
Definition example_synced : Mapi.Machine * unit := (example_sync (example_machine, tt)).2.

Lemma SyncMachine_idempotent_witness :
  example_sync (example_synced.1, example_synced.2) =
    (Ret None, (example_synced.1, example_synced.2)).
Proof.
  apply (@SyncMachine_idempotent unit example_resolver
    (λ _, inl [[10; 0; 0; 1]; [0; 0; 0; 0; 0; 0; 0; 0; 0; 0; 0; 0; 0; 0; 0; 1]])
    example_vm None "kubevirt://infra/worker-0" example_machine tt (Ret None));
    [reflexivity|vm_compute; reflexivity].
Defined.

Lemma UpdateAllowed_iff_witness :
  UpdateAllowed (synced example_vm None "id" example_machine) 20 0 = true ↔
  (∃ p, Some "id" = Some p ∧ p ≠ "") ∧
  (∀ t, @None Z = Some t → 0 < t + 20 * 10 ^ 9).
Proof.
  apply (UpdateAllowed_iff (synced example_vm None "id" example_machine) 20 0). split; lia.
Defined.
