(* ===== verification/InfraServer.v ===== *)
(** * A reference infra cluster

    A small API server with optimistic concurrency: virtual machines,
    instances and secrets by namespace and name.  It shows that the promises
    of [InfraCluster] can be kept, and the examples run on it.  The server
    keeps the status of a virtual machine on update, and gives an object a new
    resource version when it changes. *)

From S2P Require Import Prelude GoStd GoErrors ApiTypes InfraCluster MachineScope.

Record server := MkServer {
  s_vms : gmap (string * string) KV.VirtualMachine;
  s_vmis : gmap (string * string) KV.VirtualMachineInstance;
  s_secrets : gmap (string * string) Core.Secret;
  s_dns : gmap string (list Net.IP);
  s_autostart : bool (* a created virtual machine is ready at once *)
}.

Definition empty_server : server := MkServer ∅ ∅ ∅ ∅ false.

Definition set_vms (f : gmap (string * string) KV.VirtualMachine →
    gmap (string * string) KV.VirtualMachine) (w : server) : server :=
  MkServer (f (s_vms w)) (s_vmis w) (s_secrets w) (s_dns w) (s_autostart w).

(** Objects are reported with the name they are stored under. *)
Definition at_name (ns name : string) (m : Meta.ObjectMeta) : Meta.ObjectMeta :=
  Meta.MkObjectMeta name ns (Meta.UID m) (Meta.ResourceVersion m) (Meta.CreationTimestamp m)
    (Meta.DeletionTimestamp m) (Meta.Labels m) (Meta.Annotations m) (Meta.OwnerReferences m)
    (Meta.Finalizers m) (Meta.ClusterName m).
Definition vm_named_at (ns name : string) (vm : KV.VirtualMachine) : KV.VirtualMachine :=
  KV.MkVM (KV.VMType vm) (at_name ns name (KV.VMMeta vm)) (KV.VMSpec vm) (KV.VMStatus vm).
Definition vmi_named_at (ns name : string) (vmi : KV.VirtualMachineInstance)
    : KV.VirtualMachineInstance :=
  KV.MkVMI (KV.VMIType vmi) (at_name ns name (KV.VMIMeta vmi)).

Definition uobject : Type := KV.VirtualMachine + KV.VirtualMachineInstance.

Definition server_object (w : server) (gvr : Meta.GroupVersionResource) (ns name : string)
    : option uobject :=
  if decide (gvr = vmResource) then inl ∘ vm_named_at ns name <$> s_vms w !! (ns, name)
  else if decide (gvr = vmiResource) then inr ∘ vmi_named_at ns name <$> s_vmis w !! (ns, name)
  else None.

#[global] Arguments server_object : simpl never.

Definition not_found : goerror := StatusError StatusReasonNotFound "not found".
Definition already_exists : goerror := StatusError StatusReasonAlreadyExists "already exists".
Definition conflict : goerror := StatusError StatusReasonConflict "the object has been modified".
Definition bad_request : goerror := StatusError "BadRequest" "bad request".

(** A version no object had before it. *)
Definition next_version (v : string) : string := "1" +:+ v.

(** A new object has a version, and is not marked. *)
Definition as_created (m : Meta.ObjectMeta) : Meta.ObjectMeta :=
  Meta.MkObjectMeta (Meta.Name m) (Meta.Namespace m) (Meta.UID m) (next_version "")
    (Meta.CreationTimestamp m) None (Meta.Labels m) (Meta.Annotations m)
    (Meta.OwnerReferences m) (Meta.Finalizers m) (Meta.ClusterName m).

Definition server_Create (gvr : Meta.GroupVersionResource) (ns : string) (u : uobject)
    : Go server (result uobject) := λ w,
  match u with
  | inl vm =>
      let name := KV.vm_Name vm in
      if decide (gvr = vmResource ∧ KV.vm_Namespace vm = ns) then
        match s_vms w !! (ns, name) with
        | Some _ => (Ret (inr already_exists), w)
        | None =>
            let status := if s_autostart w then KV.MkVMStatus true true [] [] else KV.VMStatus vm in
            let vm := KV.MkVM (KV.VMType vm)
              (as_created (KV.VMMeta vm)) (KV.VMSpec vm) status in
            (Ret (inl (inl vm)), set_vms <[(ns, name) := vm]> w)
        end
      else (Ret (inr bad_request), w)
  | inr _ => (Ret (inr bad_request), w)
  end.

Definition server_Get (gvr : Meta.GroupVersionResource) (ns name : string)
    : Go server (result uobject) := λ w,
  match server_object w gvr ns name with
  | Some u => (Ret (inl u), w)
  | None => (Ret (inr not_found), w)
  end.

(** The object as the update has it, finalizers included, but for what the
    server keeps: the identity, the time stamps and the status. *)
Definition apply_update (old new : KV.VirtualMachine) : KV.VirtualMachine :=
  let o := KV.VMMeta old in
  let n := KV.VMMeta new in
  KV.MkVM (KV.VMType new)
    (Meta.MkObjectMeta (Meta.Name o) (Meta.Namespace o) (Meta.UID o)
       (next_version (Meta.ResourceVersion o)) (Meta.CreationTimestamp o)
       (Meta.DeletionTimestamp o) (Meta.Labels n) (Meta.Annotations n)
       (Meta.OwnerReferences n) (Meta.Finalizers n) (Meta.ClusterName n))
    (KV.VMSpec new) (KV.VMStatus old).

Definition server_Update (gvr : Meta.GroupVersionResource) (ns : string) (u : uobject)
    : Go server (result uobject) := λ w,
  match u with
  | inl vm =>
      let name := KV.vm_Name vm in
      match server_object w gvr ns name with
      | Some (inl old) =>
          if decide (gvr = vmResource) then
            if bool_decide (KV.vm_ResourceVersion vm = "" ∨
                            KV.vm_ResourceVersion vm = KV.vm_ResourceVersion old) then
              let new := apply_update old vm in
              (Ret (inl (inl new)),
               if decide (marked_vm old ∧ Meta.Finalizers (KV.VMMeta vm) = [])
               then set_vms (delete (ns, name)) w else set_vms <[(ns, name) := new]> w)
            else (Ret (inr conflict), w)
          else (Ret (inr bad_request), w)
      | _ => (Ret (inr not_found), w)
      end
  | inr _ => (Ret (inr bad_request), w)
  end.

(** Objects without finalizers go at once, others are marked. *)
Definition mark_deleted (vm : KV.VirtualMachine) : KV.VirtualMachine :=
  let m := KV.VMMeta vm in
  KV.MkVM (KV.VMType vm)
    (Meta.MkObjectMeta (Meta.Name m) (Meta.Namespace m) (Meta.UID m) (Meta.ResourceVersion m)
       (Meta.CreationTimestamp m) (Some 1) (Meta.Labels m) (Meta.Annotations m)
       (Meta.OwnerReferences m) (Meta.Finalizers m) (Meta.ClusterName m))
    (KV.VMSpec vm) (KV.VMStatus vm).

Definition server_Delete (gvr : Meta.GroupVersionResource) (ns name : string)
    : Go server (option goerror) := λ w,
  if decide (gvr = vmResource) then
    match s_vms w !! (ns, name) with
    | None => (Ret (Some not_found), w)
    | Some vm =>
        match Meta.Finalizers (KV.VMMeta vm) with
        | [] => (Ret None, set_vms (delete (ns, name)) w)
        | _ => (Ret None, set_vms <[(ns, name) := mark_deleted vm]> w)
        end
    end
  else (Ret (Some bad_request), w).

Definition server_List (gvr : Meta.GroupVersionResource) (ns : string)
    : Go server (result (list uobject)) := λ w,
  (Ret (inl (omap (λ '((ns', name), vm),
     if decide (gvr = vmResource ∧ ns' = ns) then Some (inl (vm_named_at ns' name vm)) else None)
     (map_to_list (s_vms w)))), w).

Definition server_create_secret (ns : string) (s : Core.Secret)
    : Go server (result Core.Secret) := λ w,
  let name := Meta.Name (Core.SecretMeta s) in
  match s_secrets w !! (ns, name) with
  | Some _ => (Ret (inr already_exists), w)
  | None => (Ret (inl s), MkServer (s_vms w) (s_vmis w) (<[(ns, name) := s]> (s_secrets w))
                            (s_dns w) (s_autostart w))
  end.

#[export] Instance server_api : InfraApi server unit unit uobject := {|
  dynamic_Create _ gvr ns u _ := server_Create gvr ns u;
  dynamic_Get _ gvr ns name _ := server_Get gvr ns name;
  dynamic_Update _ gvr ns u _ := server_Update gvr ns u;
  dynamic_Delete _ gvr ns name _ := server_Delete gvr ns name;
  dynamic_List _ gvr ns _ := server_List gvr ns;
  secrets_Create _ ns s _ := server_create_secret ns s
|}.

#[export] Instance server_converter : Converter uobject := {|
  ToUnstructured vm := inl (inl vm);
  VM_FromUnstructured u old :=
    match u with inl vm => (vm, None) | inr _ => (old, Some (ErrorString "not a VirtualMachine")) end;
  VMI_FromUnstructured u old :=
    match u with inr vmi => (vmi, None)
               | inl _ => (old, Some (ErrorString "not a VirtualMachineInstance")) end;
  VMList_FromUnstructured us :=
    (omap (λ u, match u with inl vm => Some vm | inr _ => None end) us, None)
|}.

#[export] Instance server_resolver : Resolver server := {|
  LookupIP name w :=
    (Ret match s_dns w !! name with
         | Some ips => inl ips
         | None => inr (ErrorString "no such host")
         end, w)
|}.

#[export] Instance server_view : ApiView (IW:=server) (U:=uobject) := {|
  objects := server_object;
  api_secret_at w ns name := s_secrets w !! (ns, name);
  u_meta u := match u with inl vm => KV.VMMeta vm | inr vmi => KV.VMIMeta vmi end;
  valid_object gvr u := gvr = vmResource → ∃ vm, u = inl vm
|}.

(** ** It keeps the promises *)
Lemma server_object_named w gvr ns name u :
  server_object w gvr ns name = Some u → named ns name (u_meta u).
Proof.
  unfold server_object. intros H. repeat case_decide; [..|done];
    apply fmap_Some in H as (x & _ & ->); done.
Qed.

Lemma vm_named_at_id vm ns name :
  named ns name (KV.VMMeta vm) → vm_named_at ns name vm = vm.
Proof. by destruct vm as [? [] ? ?]; intros [<- <-]. Qed.

Lemma server_object_vm w ns name :
  server_object w vmResource ns name = inl ∘ vm_named_at ns name <$> s_vms w !! (ns, name).
Proof. unfold server_object. by rewrite decide_True. Qed.

Lemma server_insert_becomes w ns name vm :
  becomes vmResource ns name (Some (inl (vm_named_at ns name vm))) w
    (set_vms <[(ns, name) := vm]> w).
Proof.
  split_and!; [|intros gvr' ns' name' Hne|done]; simpl.
  - rewrite server_object_vm. simpl. by rewrite lookup_insert_eq.
  - unfold server_object. case_decide as Hg; [|done]. simpl.
    by rewrite lookup_insert_ne by congruence.
Qed.

Lemma server_insert_named w ns name vm :
  named ns name (KV.VMMeta vm) →
  becomes vmResource ns name (Some (inl vm)) w (set_vms <[(ns, name) := vm]> w).
Proof.
  intros Hn. rewrite <-(vm_named_at_id vm ns name Hn) at 1. apply server_insert_becomes.
Qed.

Lemma server_delete_becomes w ns name :
  becomes vmResource ns name None w (set_vms (delete (ns, name)) w).
Proof.
  split_and!; [|intros gvr' ns' name' Hne|done]; simpl.
  - rewrite server_object_vm. simpl. by rewrite lookup_delete_eq.
  - unfold server_object. case_decide as Hg; [|done]. simpl.
    by rewrite lookup_delete_ne by congruence.
Qed.

Lemma untouched_refl (w : server) : untouched w w.
Proof. done. Qed.
#[export] Hint Resolve untouched_refl : go.

Lemma next_version_ne v : next_version v ≠ v.
Proof.
  unfold next_version. intros H. apply (f_equal String.length) in H.
  rewrite length_append in H. simpl in H. lia.
Qed.

Lemma server_create_ok gvr ns u w :
  wp (server_Create gvr ns u)
    (λ r w', match r with
             | inl u' => server_object w gvr ns (Meta.Name (u_meta u)) = None ∧
                 named ns (Meta.Name (u_meta u)) (u_meta u') ∧
                 Meta.DeletionTimestamp (u_meta u') = None ∧
                 becomes gvr ns (Meta.Name (u_meta u)) (Some u') w w'
             | inr e => untouched w w' ∨ api_created gvr ns (Meta.Name (u_meta u)) w w'
             end) no_panic w.
Proof.
  unfold wp, server_Create. destruct u as [vm|vmi]; [|auto with go].
  case_decide as Hd; [|auto with go]. destruct Hd as [-> Hns].
  destruct (s_vms w !! (ns, KV.vm_Name vm)) as [old|] eqn:Hold; [auto with go|].
  simpl. split_and!; [|done..|by apply server_insert_named].
  change (Meta.Name (KV.VMMeta vm)) with (KV.vm_Name vm).
  by rewrite server_object_vm, Hold.
Qed.

Lemma server_update_ok gvr ns u w :
  wp (server_Update gvr ns u)
    (λ r w', match r with
             | inl u' => api_updated gvr ns u u' w w'
             | inr e => untouched w w' ∨ ∃ u', api_updated gvr ns u u' w w'
             end) no_panic w.
Proof.
  unfold wp, server_Update. destruct u as [vm|vmi]; [|auto with go].
  destruct (server_object w gvr ns (KV.vm_Name vm)) as [[old|]|] eqn:Hold; [|auto with go..].
  case_decide as Hg; [|auto with go]. subst gvr.
  case_bool_decide as Hrv; [|auto with go]. simpl.
  assert (named ns (KV.vm_Name vm) (KV.VMMeta (apply_update old vm))) as Hn.
  { by apply server_object_named in Hold. }
  exists (inl old). split_and!; try done.
  - by exists (apply_update old vm).
  - unfold marked_vm. cbn [u_meta server_view].
    case_decide; [apply server_delete_becomes|by apply server_insert_named].
  - simpl. intros Hv. by destruct (next_version_ne (KV.vm_ResourceVersion old)).
Qed.

Lemma server_delete_ok gvr ns name w :
  wp (server_Delete gvr ns name)
    (λ r w', match r with
             | None => is_Some (server_object w gvr ns name) ∧ api_deleted gvr ns name w w'
             | Some e => (IsNotFound e = true → server_object w gvr ns name = None) ∧
                 (untouched w w' ∨ api_deleted gvr ns name w w')
             end) no_panic w.
Proof.
  unfold wp, server_Delete. case_decide as Hg; [subst gvr|split; [done|left; done]].
  rewrite server_object_vm. destruct (s_vms w !! (ns, name)) as [vm|] eqn:Hvm;
    [|simpl; auto with go].
  destruct (Meta.Finalizers (KV.VMMeta vm)); simpl; (split; [by eauto|]).
  - left. apply server_delete_becomes.
  - right. split; [rewrite server_object_vm, Hvm; by eexists|].
    exists (inl (vm_named_at ns name (mark_deleted vm))). split_and!; try done.
    apply server_insert_becomes.
Qed.

Lemma server_api_laws : ApiLaws (IW:=server) (K:=unit) (D:=unit) (U:=uobject).
Proof.
  split.
  - intros gvr ns name w u. apply server_object_named.
  - intros c gvr ns u o w. apply server_create_ok.
  - intros c gvr ns name o w. unfold wp; simpl. unfold server_Get.
    by destruct (server_object w gvr ns name).
  - intros c gvr ns u o w. apply server_update_ok.
  - intros c gvr ns name o w. apply server_delete_ok.
  - intros k ns s o w. unfold wp; simpl. unfold server_create_secret.
    destruct (s_secrets w !! (ns, Meta.Name (Core.SecretMeta s))) as [old|] eqn:Hold;
      [split; [by eauto|left; done]|].
    split; [done|]. exists s. split_and!; try done; simpl.
    + apply lookup_insert_eq.
    + intros ns' name' Hne. by rewrite lookup_insert_ne by congruence.
Qed.

#[export] Instance server_converter_laws : ConverterLaws (IW:=server) (U:=uobject).
Proof.
  refine {| decode_vm (u : uobject) := match u with inl vm => Some vm | inr _ => None end;
            decode_vmi (u : uobject) := match u with inr vmi => Some vmi | inl _ => None end |}.
  - by intros [] ? [= ->].
  - by intros [] ?.
  - by intros [] ?.
  - by intros ?? [= <-].
  - intros ns name w u. simpl. rewrite server_object_vm.
    intros (vm & _ & ->)%fmap_Some. by eexists.
  - intros u [vm ->]; [done|]. by eexists.
  - intros ns name w u. simpl. unfold server_object.
    rewrite decide_False, decide_True by done. intros (vm & _ & ->)%fmap_Some. by eexists.
Defined.

(** The infra cluster's client on this server. *)
Definition server_client : client.client unit unit := client.MkClient tt tt.
#[export] Instance server_infra : Client server := client.interface server_client.
#[export] Instance server_client_view : ClientView (IW:=server) :=
  client_view (U:=uobject).
#[export] Instance server_laws : ClientLaws (IW:=server).
Proof. apply (@client_laws server unit unit uobject _ _ _ server_api_laws). Qed.
