(* ===== verification/Kubevirt.v ===== *)
(** * The virtual machine manager (pkg/kubevirt/kubevirt.go)

    Creates, deletes, updates and looks up the virtual machine of a machine
    scope in the infra cluster, and synchronises the machine with it.  The
    manager is written against the interface of the infra cluster's client;
    its world is the machine of the scope and the infra cluster. *)

From S2P Require Import Prelude GoStd GoErrors Json ApiTypes ProviderConfig InfraCluster.
From S2P Require Import UserData MachineScope InfraServer.
From Stdlib Require Import Ascii.

(** [FormatProviderID]. *)
Definition FormatProviderID (namespace name : string) : string :=
  "kubevirt://" +:+ namespace +:+ "/" +:+ name.

(** The interface [KubevirtVM]. *)
Class KubevirtVM (IW : Type) := {
  vm_Create : machineScope → bytes → Go (Mapi.Machine * IW) (bool * option goerror);
  vm_Delete : machineScope → Go (Mapi.Machine * IW) (option goerror);
  vm_Update : machineScope → Go (Mapi.Machine * IW) (bool * bool * option goerror);
  vm_Exists : string → string → Go IW (bool * option goerror)
}.

(** "[name]: Error during [operation]: failed to [what], with error: [err]",
    as an error: the text goes through [fmt.Errorf] as a format. *)
Definition operation_error (machineName operation what : string) (err : goerror) : goerror :=
  Errorf (machineName +:+ ": Error during " +:+ operation +:+ ": failed to " +:+ what
          +:+ ", with error: " +:+ Error err).

Module manager.
Section manager.
Context {IW : Type} `{!Client IW, !Resolver IW}.
Implicit Types (machineScope : machineScope).

Definition getInraClusterVM (vmName vmNamespace : string)
    : Go IW (result KV.VirtualMachine) :=
  GetVirtualMachine vmNamespace vmName (Meta.MkGetOptions "").

Definition syncMachine (vm : KV.VirtualMachine) machineScope
    (machineName operation : string) : Go (Mapi.Machine * IW) (option goerror) :=
  r ← (if KV.Ready (KV.VMStatus vm) then
         r ← go_snd (GetVirtualMachineInstance (KV.vm_Namespace vm) (KV.vm_Name vm)
                       (Meta.MkGetOptions ""));
         mret match r with
         | inl vmi => inl (Some vmi)
         | inr err =>
             inr (operation_error machineName operation "get vmi of the Machine" err)
         end
       else mret (inl None)
       : Go (Mapi.Machine * IW) (result (option KV.VirtualMachineInstance)));
  match r with
  | inr err => mret (Some err)
  | inl vmi =>
      let providerID := FormatProviderID (KV.vm_Namespace vm) (KV.vm_Name vm) in
      err ← SyncMachine vm vmi providerID;
      mret match err with
      | Some err =>
          Some (operation_error machineName operation "sync the Machine" err)
      | None => None
      end
  end.

Definition Create machineScope (userData : bytes)
    : Go (Mapi.Machine * IW) (bool * option goerror) :=
  machine ← go_fst go_get;
  let machineName := Mapi.GetName machine in
  fullUserData ← go_lift (addHostnameToUserData userData machineName);
  match fullUserData with
  | inr err => mret (false, Some err)
  | inl fullUserData =>
      let secretFromMachine :=
        CreateIgnitionSecretFromMachine machineScope machine fullUserData in
      r ← go_snd (CreateSecret (Meta.Namespace (Core.SecretMeta secretFromMachine))
                    secretFromMachine);
      match r with
      | inr err =>
          mret (false, Some (operation_error machineName "Create"
                               "create ignition secret in infraCluster" err))
      | inl _ =>
          r ← go_lift (CreateVirtualMachineFromMachine machineScope machine);
          match r with
          | inr err =>
              mret (false, Some (operation_error machineName "Create"
                                   "build Virtual Machine struct" err))
          | inl virtualMachineFromMachine =>
              r ← go_snd (CreateVirtualMachine (KV.vm_Namespace virtualMachineFromMachine)
                            virtualMachineFromMachine);
              match r with
              | inr err =>
                  mret (false, Some (operation_error machineName "Create"
                                       "create Virtual Machine in infraCluster" err))
              | inl createdVM =>
                  err ← syncMachine createdVM machineScope machineName "Create";
                  mret (KV.Ready (KV.VMStatus createdVM), err)
              end
          end
      end
  end.

Definition Delete machineScope : Go (Mapi.Machine * IW) (option goerror) :=
  machine ← go_fst go_get;
  let machineName := Mapi.GetName machine in
  r ← go_lift (CreateVirtualMachineFromMachine machineScope machine);
  match r with
  | inr err =>
      mret (Some (operation_error machineName "Delete" "build Virtual Machine struct" err))
  | inl virtualMachineFromMachine =>
      r ← go_snd (getInraClusterVM (KV.vm_Name virtualMachineFromMachine)
                    (KV.vm_Namespace virtualMachineFromMachine));
      match r with
      | inr err =>
          mret (if IsNotFound err then None
                else Some (operation_error machineName "Delete"
                             "get Virtual Machine from infraCluster" err))
      | inl existingVM =>
          let gracePeriod := 10 in
          r ← go_snd (DeleteVirtualMachine (KV.vm_Namespace existingVM)
                        (KV.vm_Name existingVM)
                        (Some (Meta.MkDeleteOptions (Some gracePeriod))));
          mret match r with
          | Some err =>
              Some (operation_error machineName "Delete"
                      "delete Virtual Machine in infraCluster" err)
          | None => None
          end
      end
  end.

Definition Update machineScope : Go (Mapi.Machine * IW) (bool * bool * option goerror) :=
  machine ← go_fst go_get;
  let machineName := Mapi.GetName machine in
  r ← go_lift (CreateVirtualMachineFromMachine machineScope machine);
  match r with
  | inr err =>
      mret (false, false, Some (operation_error machineName "Update"
                                  "build Virtual Machine struct" err))
  | inl virtualMachineFromMachine =>
      r ← go_snd (getInraClusterVM (KV.vm_Name virtualMachineFromMachine)
                    (KV.vm_Namespace virtualMachineFromMachine));
      match r with
      | inr err =>
          mret (false, false, Some (operation_error machineName "Update"
                                      "get Virtual Machine from infraCluster" err))
      | inl existingVM =>
          let previousResourceVersion := KV.vm_ResourceVersion existingVM in
          let virtualMachineFromMachine :=
            KV.set_ResourceVersion previousResourceVersion virtualMachineFromMachine in
          r ← go_snd (UpdateVirtualMachine (KV.vm_Namespace virtualMachineFromMachine)
                        virtualMachineFromMachine);
          match r with
          | inr err =>
              mret (false, false, Some (operation_error machineName "Update"
                                          "update Virtual Machine in infraCluster" err))
          | inl updatedVM =>
              let currentResourceVersion := KV.vm_ResourceVersion updatedVM in
              let wasUpdated :=
                negb (bool_decide (previousResourceVersion = currentResourceVersion)) in
              err ← syncMachine updatedVM machineScope machineName "Update";
              mret (wasUpdated, KV.Ready (KV.VMStatus updatedVM), err)
          end
      end
  end.

Definition Exists (machineName infraNamespace : string) : Go IW (bool * option goerror) :=
  r ← getInraClusterVM machineName infraNamespace;
  mret match r with
  | inl _ => (true, None)
  | inr err =>
      if IsNotFound err then (false, None)
      else (false, Some (operation_error machineName "Exists" "get vm of the Machine" err))
  end.

#[global] Instance manager : KubevirtVM IW := {|
  vm_Create := Create; vm_Delete := Delete; vm_Update := Update; vm_Exists := Exists
|}.
End manager.
End manager.

(** ** What the operations do

    The infra cluster keeps its promises and resolving a name leaves it
    alone. *)
Class ResolverLaws (IW : Type) `{!Resolver IW, !ClientView (IW:=IW)} :=
  LookupIP_same name (w : IW) : wp (LookupIP name) (λ _ w', same w w') no_panic w.

Section manager_spec.
Context {IW : Type} `{!Client IW, !Resolver IW, !ClientView (IW:=IW), !ClientLaws,
  !ResolverLaws IW}.
Implicit Types (sc : machineScope) (m : Mapi.Machine) (w : IW) (ns name : string).

Lemma opaque_operation_error a b c e : opaque_error (operation_error a b c e).
Proof. apply opaque_Errorf. Qed.

Lemma syncMachine_spec vm sc n op m w :
  wp (manager.syncMachine vm sc n op)
    (λ err '(m', w'), same w w' ∧
       match err with
       | Some e => opaque_error e ∧ m' = m
       | None => ∃ addresses,
           m' = synced vm addresses (FormatProviderID (KV.vm_Namespace vm) (KV.vm_Name vm)) m ∧
           (is_Some addresses ↔ KV.Ready (KV.VMStatus vm) = true)
       end) no_panic (m, w).
Proof.
  unfold manager.syncMachine. apply wp_bind.
  destruct (KV.Ready (KV.VMStatus vm)) eqn:Hr.
  - apply wp_bind, wp_snd. go_call GetVirtualMachineInstance_spec.
    intros [vmi|e] w' [-> _]; apply wp_ret.
    + apply wp_bind. apply (SyncMachine_spec (λ _ _ w w', same w w')).
      * intros. apply LookupIP_same.
      * intros r w' Hs. apply wp_ret. split; [done|]. eexists. by split; [done|split; eauto].
    + apply wp_ret. split; [apply same_refl|]. split; [apply opaque_operation_error|done].
  - apply wp_ret, wp_bind. apply (SyncMachine_spec (λ _ _ w w', same w w')).
    + intros. apply LookupIP_same.
    + apply wp_ret. split; [apply same_refl|]. eexists. split; [done|].
      split; [by intros []|done].
Qed.

(** *** Exists *)
Lemma Exists_spec name ns w :
  wp (manager.Exists name ns)
    (λ '(b, err) w', w' = w ∧
       match err with
       | Some e => b = false ∧ opaque_error e
       | None => b = true ↔ is_Some (vm_at w ns name)
       end) no_panic w.
Proof.
  unfold manager.Exists, manager.getInraClusterVM. apply wp_bind.
  go_call GetVirtualMachine_spec. intros [vm|e] w' [-> Hr]; apply wp_ret.
  - split; [done|]. rewrite Hr. split; [by eauto|done].
  - destruct (IsNotFound e) eqn:He; (split; [done|]).
    + rewrite Hr by done. split; [done|by intros []].
    + split; [done|apply opaque_operation_error].
Qed.

(** *** Delete *)
Lemma Delete_spec sc m w :
  wp (manager.Delete sc)
    (λ err '(m', w'), m' = m ∧
       let ns := infraNamespace sc in
       let name := Mapi.GetName m in
       match err with
       | Some e => opaque_error e ∧ (same w w' ∨ deleted_or_marked ns name w w')
       | None => (vm_at w ns name = None ∧ w' = w) ∨
                 (is_Some (vm_at w ns name) ∧ deleted_or_marked ns name w w')
       end)
    (λ _ mw', mw' = (m, w) ∧
       outcome_is_panic (CreateVirtualMachineFromMachine sc m) = true) (m, w).
Proof.
  unfold manager.Delete. go_step. go_step. go_step. simpl. do 2 go_step.
  destruct (CreateVirtualMachineFromMachine sc m) as [[vm|e]|msg] eqn:Hvm; [|go_step|done].
  - apply create_named in Hvm as [-> ->]. go_step. go_step.
    unfold manager.getInraClusterVM. go_call GetVirtualMachine_spec.
    intros [old|e] w' [-> Hr].
    + destruct (vm_at_named _ _ _ _ Hr) as [Hns Hn]. unfold KV.vm_Namespace, KV.vm_Name.
      rewrite Hns, Hn. go_step. go_step. go_call DeleteVirtualMachine_spec.
      intros [e|] w' Hd; go_step; (split; [done|]).
      * split; [apply opaque_operation_error|]. apply Hd.
      * by right.
    + go_step. split; [done|]. destruct (IsNotFound e) eqn:He.
      * left. split; [by apply Hr|done].
      * split; [apply opaque_operation_error|left; apply same_refl].
  - split; [done|]. split; [apply opaque_operation_error|left; apply same_refl].
Qed.

(** *** Update *)
Lemma Update_spec sc m w :
  wp (manager.Update sc)
    (λ '(wasUpdated, ready, err) '(m', w'),
       let ns := infraNamespace sc in
       let name := Mapi.GetName m in
       match err with
       | Some e => opaque_error e ∧ m' = m ∧
           (same w w' ∨ ∃ new, vm_updated ns name new w w')
       | None => ∃ old new addresses,
           vm_at w ns name = Some old ∧ vm_updated ns name new w w' ∧
           (wasUpdated = true ↔ KV.vm_ResourceVersion old ≠ KV.vm_ResourceVersion new) ∧
           ready = KV.Ready (KV.VMStatus new) ∧
           m' = synced new addresses (FormatProviderID ns name) m ∧
           (is_Some addresses ↔ ready = true)
       end)
    (λ _ mw', mw' = (m, w)) (m, w).
Proof.
  unfold manager.Update. go_step. go_step. go_step. simpl. do 2 go_step.
  destruct (CreateVirtualMachineFromMachine sc m) as [[vm|e]|msg] eqn:Hvm; [| |done].
  2: { go_step. split_and!; [apply opaque_operation_error|done|left; apply same_refl]. }
  apply create_named in Hvm as [Hname Hns]. rewrite Hname, Hns. do 2 go_step.
  unfold manager.getInraClusterVM. go_call GetVirtualMachine_spec.
  intros [old|e] w' [-> Hr].
  2: { go_step. split_and!; [apply opaque_operation_error|done|left; apply same_refl]. }
  change (KV.vm_Namespace (KV.set_ResourceVersion _ vm)) with (KV.vm_Namespace vm).
  rewrite Hns. do 2 go_step. go_call UpdateVirtualMachine_spec.
  unfold vm_replaced.
  change (KV.vm_Name (KV.set_ResourceVersion _ vm)) with (KV.vm_Name vm). rewrite Hname.
  intros [new|e] w1 Hup.
  2: { go_step. split_and!; [apply opaque_operation_error|done|].
       destruct Hup as [?|(new & ? & _)]; [by left|by right; exists new]. }
  destruct Hup as [Hup _]. go_step. go_call syncMachine_spec.
  intros [e|] [m' w2] [Hsame Hs]; go_step.
  - destruct Hs as [? ->]. split_and!; try done. right. exists new. by rewrite <-Hsame.
  - destruct Hs as (addresses & -> & Ha). rewrite Hsame in Hup.
    destruct Hup as (old' & Hold & [Hn' Hname'] & Hup'). simplify_eq.
    exists old, new, addresses. split_and!; try done.
    + exists old. by destruct Hup' as (? & ? & ?); split_and!.
    + rewrite negb_true_iff. by rewrite bool_decide_eq_false.
    + unfold KV.vm_Namespace, KV.vm_Name. by rewrite Hn', Hname'.
Qed.

(** *** Create

    What a Create may have done when it ends, however it ends: at most the
    ignition secret and then the virtual machine have appeared, both where
    nothing was before, and the machine only after the secret. *)
Definition create_effect ns secret name (full : bytes) w w' : Prop :=
  (∀ ns' name', (ns', name') ≠ (ns, name) → vm_at w' ns' name' = vm_at w ns' name') ∧
  (∀ ns' name', vmi_at w' ns' name' = vmi_at w ns' name') ∧
  (∀ ns' name', (ns', name') ≠ (ns, secret) →
     isecret_at w' ns' name' = isecret_at w ns' name') ∧
  ((isecret_at w' ns secret = isecret_at w ns secret ∧ vm_at w' ns name = vm_at w ns name) ∨
   isecret_at w ns secret = None ∧
   (∃ s, isecret_at w' ns secret = Some s ∧
         Core.SecretData s = Some {["userdata" := full]}) ∧
   (vm_at w' ns name = vm_at w ns name ∨
    vm_at w ns name = None ∧
    ∃ vm, vm_at w' ns name = Some vm ∧ named ns name (KV.VMMeta vm) ∧ ¬ marked_vm vm)).

Lemma create_effect_refl ns secret name full w w' :
  same w w' → create_effect ns secret name full w w'.
Proof. intros (V & I & S). split_and!; auto. Qed.

Lemma create_effect_secret sc m full w w' :
  let ns := infraNamespace sc in
  let secret := buildIgnitionSecretName (Mapi.GetName m) in
  secret_created ns (CreateIgnitionSecretFromMachine sc m full) w w' →
  create_effect ns secret (Mapi.GetName m) full w w' ∧ isecret_at w ns secret = None ∧
  (∃ s, isecret_at w' ns secret = Some s ∧ Core.SecretData s = Some {["userdata" := full]}) ∧
  ∀ ns' name', vm_at w' ns' name' = vm_at w ns' name'.
Proof.
  intros ns secret (Hn & s' & Hd & Ho & Hs & Hv & Hi). split_and!; try done; [|by exists s'].
  split_and!; auto. right. split_and!; auto. by exists s'.
Qed.

(** The virtual machine on top of the secret. *)
Lemma create_effect_vm ns secret name full w w1 w2 :
  isecret_at w ns secret = None →
  (∃ s, isecret_at w1 ns secret = Some s ∧ Core.SecretData s = Some {["userdata" := full]}) →
  create_effect ns secret name full w w1 → vm_at w1 ns name = vm_at w ns name →
  same w1 w2 ∨ vm_created ns name w1 w2 →
  create_effect ns secret name full w w2.
Proof.
  intros Hn Hs (V & I & S & _) Hv [Hsame|(Hvn & vm & Hnamed & Hnm & Ho & V' & I' & S')].
  - destruct Hsame as (V' & I' & S'). split_and!; intros.
    + rewrite V'. auto. + rewrite I'. auto. + rewrite S'. auto.
    + right. rewrite S', V'. auto.
  - split_and!; intros.
    + rewrite V' by done. auto. + rewrite I'. auto. + rewrite S'. auto.
    + right. rewrite S'. split_and!; try done. right. rewrite <-Hv. split; [done|eauto].
Qed.

Definition create_done sc m full ready w (m' : Mapi.Machine) w' : Prop :=
  let ns := infraNamespace sc in
  let name := Mapi.GetName m in
  let secret := buildIgnitionSecretName name in
  isecret_at w ns secret = None ∧ vm_at w ns name = None ∧
  (∃ s, isecret_at w' ns secret = Some s ∧ Core.SecretData s = Some {["userdata" := full]}) ∧
  ∃ vm addresses, vm_at w' ns name = Some vm ∧
    m' = synced vm addresses (FormatProviderID ns name) m ∧
    ready = KV.Ready (KV.VMStatus vm) ∧ (is_Some addresses ↔ ready = true).

Lemma Create_spec sc userData m w :
  wp (manager.Create sc userData)
    (λ '(ready, err) '(m', w'), ∃ full,
       addHostnameToUserData userData (Mapi.GetName m) = Ret (inl full) ∧
       create_effect (infraNamespace sc) (buildIgnitionSecretName (Mapi.GetName m))
         (Mapi.GetName m) full w w' ∧
       match err with
       | Some e => opaque_error e ∧ m' = m
       | None => create_done sc m full ready w m' w'
       end)
    (λ _ '(m', w'), m' = m ∧
       (same w w' ∨ ∃ full,
          addHostnameToUserData userData (Mapi.GetName m) = Ret (inl full) ∧
          secret_created (infraNamespace sc)
            (CreateIgnitionSecretFromMachine sc m full) w w'))
    (m, w).
Proof.
  unfold manager.Create. do 3 go_step. simpl. do 2 go_step.
  destruct (addHostnameToUserData userData (Mapi.GetName m)) as [[full|e]|msg] eqn:Hfull.
  2: { unfold addHostnameToUserData in Hfull. destruct (unmarshal_map userData); [|done].
       by apply outcome_bind_ret in Hfull as (? & _ & ?). }
  2: { split; [done|left; apply same_refl]. }
  do 2 go_step. go_call CreateSecret_spec. intros [s|e] w1 Hs.
  2: { go_step. exists full. split; [done|]. destruct Hs as [_ [Hs|Hs]].
       - split; [by apply create_effect_refl|]. split; [apply opaque_operation_error|done].
       - apply create_effect_secret in Hs as (? & _).
         split; [done|]. split; [apply opaque_operation_error|done]. }
  pose proof Hs as (Heff & Hsn & Hso & Hv)%create_effect_secret. do 2 go_step.
  destruct (CreateVirtualMachineFromMachine sc m) as [[vm|e]|msg] eqn:Hvm.
  2: { go_step. exists full. split_and!; try done. apply opaque_operation_error. }
  2: { split; [done|right; eauto]. }
  apply create_named in Hvm as [Hname Hns]. do 2 go_step. go_call CreateVirtualMachine_spec.
  rewrite Hname, Hns. intros [created|e] w2 Hc.
  2: { go_step. exists full. split; [done|].
       split; [|by split; [apply opaque_operation_error|]].
       eapply create_effect_vm; eauto. }
  destruct Hc as (Hvn & Hnamed & Hnm & Hb). go_step. go_call syncMachine_spec.
  intros err [m' w'] [Hsame Hm']; go_step. exists full. split; [done|].
  rewrite Hsame in Hb. pose proof Hb as (Ho & V & I & S). split.
  { eapply create_effect_vm; eauto. right. split; [done|]. eauto. }
  destruct err as [e|]; [done|]. destruct Hm' as (addresses & -> & Ha).
  destruct Hnamed as [Hn1 Hn2]. split_and!; try done.
  - by rewrite <-Hv.
  - destruct Hso as (s' & ? & ?). exists s'. by rewrite S.
  - exists created, addresses. split_and!; try done.
    unfold KV.vm_Namespace, KV.vm_Name. by rewrite Hn1, Hn2.
Qed.
End manager_spec.

(** *** The operations as one, and the life of a machine

    [run_op] keeps the error of an operation.  In the life of a machine the
    operations of its scope alternate with what others do: they may change
    the machine but not its name, and the infra cluster.  They behave when
    they keep the secrets and bring no virtual machine into being; otherwise
    they meddle.  A panic ends an operation; the manager is started again. *)
Inductive op := OpCreate (userData : bytes) | OpDelete | OpUpdate | OpExists.

Definition run_op `{!Client IW, !Resolver IW} (sc : machineScope) (o : op)
    : Go (Mapi.Machine * IW) (option goerror) :=
  match o with
  | OpCreate userData => r ← manager.Create sc userData; mret r.2
  | OpDelete => manager.Delete sc
  | OpUpdate => r ← manager.Update sc; mret r.2
  | OpExists =>
      machine ← go_fst go_get;
      r ← go_snd (manager.Exists (Mapi.GetName machine) (infraNamespace sc)); mret r.2
  end.

Inductive label :=
  | LOp (o : op) (result : outcome (option goerror))
  | LOther
  | LMeddle.

Section life.
Context {IW : Type} `{!Client IW, !Resolver IW, !ClientView (IW:=IW)}.
Context (sc : machineScope).
Implicit Types (m : Mapi.Machine) (w : IW).

Inductive life_step : Mapi.Machine * IW → label → Mapi.Machine * IW → Prop :=
  | life_op o r mw mw' : run_op sc o mw = (r, mw') → life_step mw (LOp o r) mw'
  | life_other m m' w w' :
      Mapi.GetName m' = Mapi.GetName m →
      (∀ ns name, isecret_at w' ns name = isecret_at w ns name) →
      (∀ ns name, vm_at w ns name = None → vm_at w' ns name = None) →
      life_step (m, w) LOther (m', w')
  | life_meddle m m' w w' :
      Mapi.GetName m' = Mapi.GetName m → life_step (m, w) LMeddle (m', w').

Inductive life : Mapi.Machine * IW → list label → Mapi.Machine * IW → Prop :=
  | life_nil mw : life mw [] mw
  | life_cons mw1 l mw2 ls mw3 :
      life_step mw1 l mw2 → life mw2 ls mw3 → life mw1 (l :: ls) mw3.

Definition has_secret (mw : Mapi.Machine * IW) : Prop :=
  is_Some (isecret_at mw.2 (infraNamespace sc) (buildIgnitionSecretName (Mapi.GetName mw.1))).
Definition has_vm (mw : Mapi.Machine * IW) : Prop :=
  is_Some (vm_at mw.2 (infraNamespace sc) (Mapi.GetName mw.1)).

(** A Create that reported success. *)
Definition created (l : label) : bool :=
  match l with LOp (OpCreate _) (Ret None) => true | _ => false end.
Definition meddled (l : label) : bool := match l with LMeddle => true | _ => false end.

Context `{!ClientLaws, !ResolverLaws IW}.

Lemma Create_blocked userData m w :
  has_secret (m, w) →
  wp (manager.Create sc userData)
    (λ '(_, err) '(m', w'), err ≠ None ∧ m' = m ∧ same w w')
    (λ _ '(m', w'), m' = m ∧ same w w') (m, w).
Proof.
  unfold has_secret; simpl. intros [s0 Hs0]. eapply wp_mono; [apply Create_spec| |].
  - intros [ready err] [m' w'] (full & _ & (V & I & S & Hc) & Herr).
    destruct err as [e|]; [|by destruct Herr; simplify_eq].
    destruct Herr as [_ ->]. split_and!; try done.
    destruct Hc as [[HS HV]|(? & _)]; [|congruence].
    split_and!; intros ns name; [|apply I|].
    + destruct (decide ((ns, name) = (infraNamespace sc, Mapi.GetName m))); [congruence|auto].
    + destruct (decide ((ns, name) =
        (infraNamespace sc, buildIgnitionSecretName (Mapi.GetName m)))); [congruence|auto].
  - intros msg [m' w'] [-> [?|(full & _ & Hn & _)]]; split; try done.
    simpl in Hn. congruence.
Qed.

Definition keeps (mw mw' : Mapi.Machine * IW) : Prop :=
  Mapi.GetName mw'.1 = Mapi.GetName mw.1 ∧ (has_secret mw → has_secret mw') ∧
  (has_secret mw → ¬ has_vm mw → ¬ has_vm mw').

Lemma keeps_same m m' w w' :
  Mapi.GetName m' = Mapi.GetName m → same w w' → keeps (m, w) (m', w').
Proof.
  intros Hn (V & _ & S). unfold keeps, has_secret, has_vm; simpl. by rewrite Hn, V, S.
Qed.

Lemma synced_name vm a p m : Mapi.GetName (synced vm a p m) = Mapi.GetName m.
Proof. done. Qed.

(** Every operation keeps the name and the secret, brings no virtual
    machine back once the secret is there, and reports opaque errors; a
    Create that succeeds found no secret and leaves one. *)
Lemma run_op_keeps o mw :
  wp (run_op sc o)
    (λ err mw', keeps mw mw' ∧ (∀ e, err = Some e → opaque_error e) ∧
       (∀ u, o = OpCreate u → err = None → ¬ has_secret mw ∧ has_secret mw'))
    (λ _ mw', keeps mw mw') mw.
Proof.
  destruct mw as [m w]. destruct o as [userData| | |]; simpl.
  - go_step. eapply wp_mono; [apply Create_spec| |].
    + intros [ready err] [m' w'] (full & _ & (V & I & S & Hc) & Herr). go_step. simpl.
      assert (Mapi.GetName m' = Mapi.GetName m) as Hname.
      { destruct err as [e|]; [by destruct Herr as [_ ->]|].
        by destruct Herr as (_ & _ & _ & vm & a & _ & -> & _). }
      split; [|split; [intros e ->; apply Herr|]].
      * unfold keeps, has_secret, has_vm; simpl. rewrite Hname.
        destruct Hc as [[-> ->]|(-> & (s & -> & _) & _)]; [done|].
        split_and!; try done; by intros [].
      * intros u _ ->. destruct Herr as (Hn & _ & (s & Hs & _) & _).
        unfold has_secret; simpl. rewrite Hname, Hn, Hs. split; [by intros []|by eexists].
    + intros msg [m' w'] [-> [Hs|(full & _ & Hn & s & _ & Ho & _ & V & _)]].
      * by apply keeps_same.
      * unfold keeps, has_secret, has_vm; simpl in *. rewrite V, Ho, Hn.
        split_and!; try done; by intros [].
  - eapply wp_mono; [apply Delete_spec| |intros msg mw' [-> _]; by apply keeps_same].
    intros err [m' w'] [-> Herr].
    assert (same w w' ∨ deleted_or_marked (infraNamespace sc) (Mapi.GetName m) w w'
            ∧ (err = None → has_vm (m, w))) as Hw.
    { destruct err as [e|]; [destruct Herr as [_ [?|?]]; [by left|by right]|].
      destruct Herr as [[_ ->]|[? ?]]; [left; apply same_refl|by right]. }
    split; [|split; [by intros e ->; apply Herr|done]].
    destruct Hw as [Hw|[Hw _]]; [by apply keeps_same|].
    unfold keeps, has_secret, has_vm; simpl.
    destruct Hw as [(Ho & _ & _ & S)|(Hv & vm & (Ho & _ & _ & S) & _)]; rewrite Ho, S.
    + split_and!; try done.
    + by split_and!.
  - go_step. eapply wp_mono; [apply Update_spec| |intros msg mw' ->; by apply keeps_same].
    intros [[u r] err] [m' w'] Herr. go_step. simpl.
    assert (Mapi.GetName m' = Mapi.GetName m ∧
      (same w w' ∨ ∃ new, vm_updated (infraNamespace sc) (Mapi.GetName m) new w w')) as [Hn Hw].
    { destruct err as [e|]; [by destruct Herr as (_ & -> & ?)|].
      destruct Herr as (old & new & a & _ & Hup & _ & _ & -> & _). split; [done|eauto]. }
    split; [|split; [by intros e ->; apply Herr|done]].
    destruct Hw as [Hw|(new & old & Hold & _ & _ & Hb & _)];
      [by apply keeps_same|].
    assert (∀ ns n, isecret_at w' ns n = isecret_at w ns n) as S.
    { by destruct Hb as [(_ & _ & _ & S)|(_ & _ & _ & _ & S)]. }
    unfold keeps, has_secret, has_vm; simpl. rewrite Hn, S, Hold.
    split_and!; try done. intros _ []. by eexists.
  - do 3 go_step. simpl. go_step. go_step. eapply wp_mono; [apply Exists_spec| |done].
    intros [b err] w' [-> Herr]. go_step. simpl.
    split; [by apply keeps_same|split; [|done]]. intros e ->. apply Herr.
Qed.

Lemma life_step_keeps mw l mw' :
  life_step mw l mw' → meddled l = false →
  keeps mw mw' ∧ (created l = true → ¬ has_secret mw ∧ has_secret mw').
Proof.
  destruct 1 as [o r mw mw' Hrun|m m' w w' Hn HS HV|]; [..|done]; intros _.
  - pose proof (wp_run _ _ _ _ _ _ Hrun (run_op_keeps o mw)) as Ho.
    destruct r as [err|msg]; simpl in *; [|by destruct o].
    destruct Ho as (Hk & _ & Hc). split; [done|]. destruct o, err; try done. eauto.
  - split; [|done]. unfold keeps, has_secret, has_vm; simpl. rewrite Hn, HS.
    split_and!; try done. intros _ Hno [vm Hvm]. apply Hno.
    destruct (vm_at w (infraNamespace sc) (Mapi.GetName m)) eqn:E; [by eexists|].
    by rewrite HV in Hvm.
Qed.

(** Others behave all the time. *)
Definition behaved (ls : list label) : Prop := Forall (λ l, meddled l = false) ls.

Lemma life_keeps mw ls mw' : life mw ls mw' → behaved ls → keeps mw mw'.
Proof.
  induction 1 as [mw|mw1 l mw2 ls mw3 Hl _ IH]; [by intros _; split_and!|].
  intros [Hm Hb]%Forall_cons. destruct (life_step_keeps _ _ _ Hl Hm) as [(Hn1 & Hs1 & Hv1) _].
  destruct (IH Hb) as (Hn2 & Hs2 & Hv2). split_and!; [by rewrite Hn2|auto|auto].
Qed.

Lemma life_secret_no_create mw ls mw' :
  life mw ls mw' → behaved ls → has_secret mw → Forall (λ l, created l = false) ls.
Proof.
  induction 1 as [mw|mw1 l mw2 ls mw3 Hl _ IH]; [by intros; constructor|].
  intros [Hm Hb]%Forall_cons Hs. destruct (life_step_keeps _ _ _ Hl Hm) as [(_ & Hs1 & _) Hc].
  constructor; [|auto]. destruct (created l); [|done]. by destruct Hc.
Qed.

Definition count (p : label → bool) (ls : list label) : nat :=
  length (filter (λ l, p l = true) ls).

Lemma count_cons p l ls : count p (l :: ls) = ((if p l then 1 else 0) + count p ls)%nat.
Proof. unfold count. rewrite filter_cons. by destruct (p l); case_decide. Qed.

#[export] Instance has_secret_dec mw : Decision (has_secret mw).
Proof. unfold has_secret. apply _. Defined.

(** One more Create can succeed while there is no secret, and one for each time
    others meddle. *)
Lemma life_created mw ls mw' :
  life mw ls mw' →
  (count created ls ≤ count meddled ls + if decide (has_secret mw) then 0 else 1)%nat.
Proof.
  induction 1 as [mw|mw1 l mw2 ls mw3 Hl _ IH]; [cbn; lia|]. rewrite !count_cons.
  destruct (meddled l) eqn:Hm.
  { destruct l; try done. simpl. repeat case_decide; lia. }
  destruct (life_step_keeps _ _ _ Hl Hm) as [(_ & Hs & _) Hc].
  destruct (created l).
  - destruct Hc as [Hno Hyes]; [done|]. rewrite decide_True in IH by done.
    rewrite decide_False by done. lia.
  - destruct (decide (has_secret mw1)) as [H1|H1]; [|case_decide; lia].
    rewrite decide_True in IH by auto. lia.
Qed.
End life.

#[export] Instance server_resolver_laws : ResolverLaws server.
Proof. intros name w. apply same_refl. Qed.

(** ** Properties *)

(** The provider ID determines the virtual machine, since a namespace
    holds no slash. *)
Lemma FormatProviderID_inj ns1 name1 ns2 name2
    (H1 : char_in "/" ns1 = false) (H2 : char_in "/" ns2 = false)
    (Heq : FormatProviderID ns1 name1 = FormatProviderID ns2 name2) :
  ns1 = ns2 ∧ name1 = name2.
Proof.
  unfold FormatProviderID in Heq. rewrite !append_cons, !append_nil_l in Heq.
  simplify_eq. by apply append_sep_inj with "/"%char.
Qed.

Lemma FormatProviderID_inj_witness : "infra" = "infra" ∧ "vm/a" = "vm/a".
Proof. apply FormatProviderID_inj; reflexivity. Defined.

Section properties.
Context {IW : Type} `{!Client IW, !Resolver IW, !ClientView (IW:=IW), !ClientLaws,
  !ResolverLaws IW}.
Implicit Types (sc : machineScope) (m : Mapi.Machine) (w : IW) (ns name : string).

(** When Create reports success, neither the secret nor the virtual
    machine was there before, both are there now, the secret holds the user
    data with the host name added, and the machine is synchronised with the
    virtual machine that was created. *)
Lemma Create_success sc userData m w ready m' w'
    (Hrun : manager.Create sc userData (m, w) = (Ret (ready, None), (m', w'))) :
  ∃ full, addHostnameToUserData userData (Mapi.GetName m) = Ret (inl full) ∧
    create_done sc m full ready w m' w'.
Proof.
  destruct (wp_run _ _ _ _ _ _ Hrun (Create_spec sc userData m w)) as (full & ? & _ & ?).
  by exists full.
Qed.

(** Once the ignition secret of a machine exists, Create never succeeds:
    it fails or panics, creates nothing and leaves the machine alone. *)
Lemma Create_blocked_by_secret sc userData m w
    (Hsecret : is_Some (isecret_at w (infraNamespace sc)
                          (buildIgnitionSecretName (Mapi.GetName m)))) :
  wp (manager.Create sc userData)
    (λ '(_, err) '(m', w'), err ≠ None ∧ m' = m ∧ same w w')
    (λ _ '(m', w'), m' = m ∧ same w w') (m, w).
Proof.
  apply Create_blocked; done.
Qed.

(** What a Create of this machine may have done: nothing, or what
    [create_effect] allows with the user data the secret is to hold. *)
Definition create_changed sc userData name w w' : Prop :=
  same w w' ∨
  ∃ full, addHostnameToUserData userData name = Ret (inl full) ∧
    create_effect (infraNamespace sc) (buildIgnitionSecretName name) name full w w'.

(** C25: However Create ends, with success, an error or a panic, what it changed
    is at most the secret and the virtual machine of its machine: it never
    replaces or removes an object, the secret holds the user data with the
    host name, the virtual machine appears only on top of a secret that this
    call created, and a call that fails or panics leaves the machine as it
    was. *)
Theorem Create_effects sc userData m w :
  wp (manager.Create sc userData)
    (λ '(_, err) '(m', w'), create_changed sc userData (Mapi.GetName m) w w' ∧
       (err ≠ None → m' = m))
    (λ _ '(m', w'), create_changed sc userData (Mapi.GetName m) w w' ∧ m' = m) (m, w).
Proof.
  eapply wp_mono; [apply Create_spec| |].
  - intros [ready err] [m' w'] (full & Hfull & He & Herr). split; [by right; exists full|].
    destruct err; [by intros _; apply Herr|done].
  - intros msg [m' w'] [-> [Hs|(full & Hfull & Hs)]]; split; try done; [by left|].
    right. exists full. by apply create_effect_secret in Hs as [? _].
Qed.

(** C14: Delete never touches the machine or a secret.  When it reports
    success the virtual machine is gone, is marked for deletion, or was
    absent from the start and nothing was done; when it panics nothing was
    done either. *)
Theorem Delete_result sc m w :
  wp (manager.Delete sc)
    (λ err '(m', w'), m' = m ∧
       (∀ ns' name', isecret_at w' ns' name' = isecret_at w ns' name') ∧
       (err = None → same w w' ∧ vm_at w' (infraNamespace sc) (Mapi.GetName m) = None ∨
         is_Some (vm_at w (infraNamespace sc) (Mapi.GetName m)) ∧
         deleted_or_marked (infraNamespace sc) (Mapi.GetName m) w w'))
    (λ _ mw', mw' = (m, w)) (m, w).
Proof.
  eapply wp_mono; [apply Delete_spec| |by intros msg mw' [-> _]].
  intros err [m' w'] [-> Herr]. split; [done|].
  assert (same w w' ∨ deleted_or_marked (infraNamespace sc) (Mapi.GetName m) w w') as Hw.
  { destruct err as [e|]; [apply Herr|].
    destruct Herr as [[_ ->]|[_ ?]]; [left; apply same_refl|by right]. }
  split.
  - destruct Hw as [(_ & _ & S)|[(_ & _ & _ & S)|(_ & ? & (_ & _ & _ & S) & _)]]; done.
  - intros ->. destruct Herr as [[Hn ->]|Hd]; [left; split; [apply same_refl|done]|by right].
Qed.

(** C21: When Update reports success there was a virtual machine, and the
    stored one is the one the machine was synchronised with, in its place;
    only one that was marked for deletion before may be gone instead.  The
    update neither marks nor unmarks.  The first result says whether the
    resource version changed, and if it did not the virtual machine is as
    before.  No other object changed. *)
Theorem Update_result sc m w wasUpdated ready m' w'
    (Hrun : manager.Update sc (m, w) = (Ret (wasUpdated, ready, None), (m', w'))) :
  ∃ old new addresses,
    let ns := infraNamespace sc in
    let name := Mapi.GetName m in
    vm_at w ns name = Some old ∧
    (vm_becomes ns name (Some new) w w' ∨ marked_vm old ∧ vm_becomes ns name None w w') ∧
    (marked_vm new ↔ marked_vm old) ∧
    (wasUpdated = true ↔ KV.vm_ResourceVersion old ≠ KV.vm_ResourceVersion new) ∧
    (wasUpdated = false → new = old) ∧
    m' = synced new addresses (FormatProviderID ns name) m ∧
    ready = KV.Ready (KV.VMStatus new).
Proof.
  destruct (wp_run _ _ _ _ _ _ Hrun (Update_spec sc m w))
    as (old & new & a & Hold & (old' & Hold' & _ & Hd & Hb & Hrv) & Hu & Hready & Hm & _).
  exists old, new, a. simplify_eq. split_and!; try done.
  intros ->. apply Hrv. destruct (decide (KV.vm_ResourceVersion old = KV.vm_ResourceVersion new))
    as [->|Hne]; [done|]. by apply Hu in Hne.
Qed.

(** Exists answers yes exactly when the virtual machine is there, and
    changes nothing. *)
Lemma Exists_result name ns w :
  wp (manager.Exists name ns)
    (λ '(b, err) w', w' = w ∧ (err = None → (b = true ↔ is_Some (vm_at w ns name))) ∧
                     (err ≠ None → b = false)) no_panic w.
Proof.
  eapply wp_mono; [apply Exists_spec| |done]. intros [b [e|]] w' [-> Hb].
  - split; [done|]. split; [done|]. by intros _; destruct Hb.
  - by split_and!.
Qed.

(** Every error the manager reports has lost its cause: it is never a
    NotFound error, never a machine error and never asks for a requeue. *)
Lemma manager_errors_opaque sc o m w :
  wp (run_op sc o)
    (λ err _, ∀ e, err = Some e → IsNotFound e = false ∧
       isInvalidMachineConfigurationError e = false ∧ as_requeue_after e = None)
    (λ _ _, True) (m, w).
Proof.
  eapply wp_mono; [apply (run_op_keeps sc o (m, w))| |by intros]. intros err mw' (_ & Ho & _) e He.
  apply Ho in He. auto with go.
Qed.

(** C23: In the life of a machine, whatever the order of its operations, at
    most one Create succeeds, and one more for each time that others meddle
    with the infra cluster, as by removing the ignition secret; what else they
    do in between, to the machine and by deleting and changing virtual
    machines, allows none.  No Create succeeds at all, but for meddling, when
    the secret is there at the start. *)
Theorem create_at_most_once sc mw ls mw' (Hlife : life sc mw ls mw') :
  (count created ls ≤ count meddled ls + if decide (has_secret sc mw) then 0 else 1)%nat.
Proof. by eapply life_created. Qed.

(** C1: A machine whose secret is there and whose virtual machine is not,
    because it was deleted or was never created, stays so for ever, as long as
    nobody else removes secrets or creates virtual machines: no Create succeeds
    and no virtual machine appears. *)
Theorem no_recreation sc mw ls mw' (Hlife : life sc mw ls mw') (Hothers : behaved ls)
    (Hsecret : has_secret sc mw) (Hvm : ¬ has_vm sc mw) :
  Forall (λ l, created l = false) ls ∧ has_secret sc mw' ∧ ¬ has_vm sc mw'.
Proof.
  destruct (life_keeps _ _ _ _ Hlife Hothers) as (_ & Hs & Hv).
  split; [by eapply life_secret_no_create|auto].
Qed.
End properties.

(** *** On the reference server *)
(** A server that has done a Create, and a Delete after it. *)
Definition start : Mapi.Machine * server := (example_machine, empty_server).
Definition after (o : op) (mw : Mapi.Machine * server) : Mapi.Machine * server :=
  (run_op example_scope o mw).2.
Definition created_state := after (OpCreate test_source) start.
Definition deleted_state := after OpDelete created_state.
(** Somebody removes the secret by hand. *)
Definition without_secrets (w : server) : server :=
  MkServer (s_vms w) (s_vmis w) ∅ (s_dns w) (s_autostart w).
Definition cleaned_state : Mapi.Machine * server :=
  let mw := after (OpCreate test_source) deleted_state in (mw.1, without_secrets mw.2).

Lemma life_run o mw :
  life_step example_scope mw (LOp o (run_op example_scope o mw).1) (after o mw).
Proof. apply life_op, surjective_pairing. Qed.

Lemma Create_success_witness :
  ∃ full, addHostnameToUserData test_source (Mapi.GetName example_machine) = Ret (inl full) ∧
    create_done example_scope example_machine full false empty_server
      created_state.1 created_state.2.
Proof. apply (Create_success example_scope test_source). vm_compute. reflexivity. Defined.

Lemma Create_blocked_by_secret_witness :
  wp (manager.Create example_scope test_source)
    (λ '(_, err) '(m', w'), err ≠ None ∧ m' = example_machine ∧ same deleted_state.2 w')
    (λ _ '(m', w'), m' = example_machine ∧ same deleted_state.2 w')
    (example_machine, deleted_state.2).
Proof. apply Create_blocked_by_secret. vm_compute. eexists. reflexivity. Defined.

Lemma Create_effects_witness :
  wp (manager.Create example_scope test_source)
    (λ '(_, err) '(m', w'), create_changed example_scope test_source "worker-0" empty_server w' ∧
       (err ≠ None → m' = example_machine))
    (λ _ '(m', w'), create_changed example_scope test_source "worker-0" empty_server w' ∧
       m' = example_machine) start.
Proof. apply (Create_effects example_scope test_source example_machine empty_server). Defined.

Lemma Delete_result_witness :
  wp (manager.Delete example_scope)
    (λ err '(m', w'), m' = created_state.1 ∧
       (∀ ns' name', isecret_at w' ns' name' = isecret_at created_state.2 ns' name') ∧
       (err = None → same created_state.2 w' ∧ vm_at w' "infra" "worker-0" = None ∨
         is_Some (vm_at created_state.2 "infra" "worker-0") ∧
         deleted_or_marked "infra" "worker-0" created_state.2 w'))
    (λ _ mw', mw' = (created_state.1, created_state.2)) (created_state.1, created_state.2).
Proof. apply (Delete_result example_scope created_state.1 created_state.2). Defined.

Definition updated_state := after OpUpdate created_state.

Lemma Update_result_witness :
  ∃ old new addresses,
    vm_at created_state.2 "infra" "worker-0" = Some old ∧
    (vm_becomes "infra" "worker-0" (Some new) created_state.2 updated_state.2 ∨
     marked_vm old ∧ vm_becomes "infra" "worker-0" None created_state.2 updated_state.2) ∧
    (marked_vm new ↔ marked_vm old) ∧
    (true = true ↔ KV.vm_ResourceVersion old ≠ KV.vm_ResourceVersion new) ∧
    (true = false → new = old) ∧
    updated_state.1 =
      synced new addresses (FormatProviderID "infra" "worker-0") created_state.1 ∧
    false = KV.Ready (KV.VMStatus new).
Proof.
  apply (Update_result example_scope created_state.1 created_state.2 true false
           updated_state.1 updated_state.2).
  vm_compute. reflexivity.
Defined.

Lemma Exists_result_witness :
  wp (manager.Exists "worker-0" "infra")
    (λ '(b, err) w', w' = created_state.2 ∧
       (err = None → (b = true ↔ is_Some (vm_at created_state.2 "infra" "worker-0"))) ∧
       (err ≠ None → b = false)) no_panic created_state.2.
Proof. apply (Exists_result "worker-0" "infra" created_state.2). Defined.

Lemma manager_errors_opaque_witness :
  wp (run_op example_scope (OpCreate test_source))
    (λ err _, ∀ e, err = Some e → IsNotFound e = false ∧
       isInvalidMachineConfigurationError e = false ∧ as_requeue_after e = None)
    (λ _ _, True) (example_machine, deleted_state.2).
Proof. apply manager_errors_opaque. Defined.

Lemma create_at_most_once_witness :
  let l o mw := LOp o (run_op example_scope o mw).1 in
  let ls := [l (OpCreate test_source) start; l OpDelete created_state;
             l (OpCreate test_source) deleted_state; LMeddle;
             l (OpCreate test_source) cleaned_state] in
  count created ls = 2%nat ∧
  (count created ls ≤ count meddled ls + if decide (has_secret example_scope start) then 0 else 1)%nat.
Proof.
  split; [vm_compute; reflexivity|].
  apply (create_at_most_once example_scope start _ (after (OpCreate test_source) cleaned_state)).
  do 3 (eapply life_cons; [apply life_run|]). eapply life_cons; [by apply life_meddle|].
  eapply life_cons; [apply life_run|apply life_nil].
Defined.

Lemma no_recreation_witness :
  let l o mw := LOp o (run_op example_scope o mw).1 in
  let final := after (OpCreate test_source) deleted_state in
  Forall (λ l, created l = false) [l (OpCreate test_source) deleted_state] ∧
  has_secret example_scope final ∧ ¬ has_vm example_scope final.
Proof.
  apply (no_recreation example_scope deleted_state).
  - eapply life_cons; [apply life_run|apply life_nil].
  - by repeat constructor.
  - vm_compute. eexists. reflexivity.
  - vm_compute. intros [? [=]].
Defined.
