(* ===== verification/Interference.v ===== *)
(** * Others act during an operation

    Everywhere else nobody writes to the objects of an operation while it
    runs.  Here others act before each call to the infra cluster, in any way:
    an operation of the manager that lost a race reports an error, and leaves
    what the others wrote. *)

From S2P Require Import Prelude GoStd GoErrors Json ApiTypes ProviderConfig InfraCluster.
From S2P Require Import UserData MachineScope InfraServer Kubevirt.

Section interference.
Context {IW : Type} `{!Client IW, !Resolver IW} (others : nat → IW → IW).

(** The calls so far are counted: [others k] is what happens before call [k]. *)
Definition interfered {A} (c : Go IW A) : Go (nat * IW) A := λ '(k, w),
  let '(o, w') := c (others k w) in (o, (S k, w')).

#[local] Instance interfering : Client (nat * IW) := {|
  CreateVirtualMachine ns vm := interfered (CreateVirtualMachine ns vm);
  DeleteVirtualMachine ns name options := interfered (DeleteVirtualMachine ns name options);
  GetVirtualMachine ns name options := interfered (GetVirtualMachine ns name options);
  GetVirtualMachineInstance ns name options :=
    interfered (GetVirtualMachineInstance ns name options);
  ListVirtualMachine ns options := interfered (ListVirtualMachine ns options);
  UpdateVirtualMachine ns vm := interfered (UpdateVirtualMachine ns vm);
  CreateSecret ns s := interfered (CreateSecret ns s)
|}.
#[local] Instance interfering_resolver : Resolver (nat * IW) := {|
  LookupIP name := interfered (LookupIP name)
|}.

(** The manager in a busy cluster. *)
Definition busy_Update (sc : machineScope) :
    Go (Mapi.Machine * (nat * IW)) (bool * bool * option goerror) := manager.Update sc.
Definition busy_Create (sc : machineScope) (userData : bytes) :
    Go (Mapi.Machine * (nat * IW)) (bool * option goerror) := manager.Create sc userData.

Lemma wp_interfered {A} (c : Go IW A) Q E k w :
  wp c (λ a w', Q a (S k, w')) (λ s w', E s (S k, w')) (others k w) →
  wp (interfered c) Q E (k, w).
Proof. unfold wp, interfered. by destruct (c (others k w)) as [[a|s] w']. Qed.

Context `{!ClientView (IW:=IW), !ClientLaws (IW:=IW)}.
Implicit Types (sc : machineScope) (m : Mapi.Machine) (w : IW).

Definition version_at w (ns name : string) : option string :=
  KV.vm_ResourceVersion <$> vm_at w ns name.

(** What [j] calls that change nothing leave to be seen. *)
Fixpoint undisturbed (k : nat) w (j : nat) : IW :=
  match j with
  | O => w
  | S j => undisturbed (S k) (others k w) j
  end.
Definition left_alone (k : nat) w (kw' : nat * IW) : Prop :=
  ∃ j, kw'.1 = (k + j)%nat ∧ same (undisturbed k w j) kw'.2.

Lemma left_alone_at k w j w' k' :
  k' = (k + j)%nat → same (undisturbed k w j) w' → left_alone k w (k', w').
Proof. intros -> ?. by exists j. Qed.

(** A call that is interfered with, by what it does on its own. *)
Ltac busy_call H := apply wp_interfered; go_call H.

(** C22: Update loses no update of others: when the virtual machine it has read
    is changed, replaced or deleted by others before it writes, it reports an
    error, the machine is as it was, and so is what the others wrote: the
    infra cluster is as if Update had not been there. *)
Theorem Update_conflict sc m k w
    (Hversions : version_at (undisturbed k w 1) (infraNamespace sc) (Mapi.GetName m) ≠ Some "")
    (Hchanged : version_at (undisturbed k w 2) (infraNamespace sc) (Mapi.GetName m) ≠
                version_at (undisturbed k w 1) (infraNamespace sc) (Mapi.GetName m)) :
  wp (busy_Update sc)
    (λ '(_, _, err) '(m', kw'), is_Some err ∧ m' = m ∧ left_alone k w kw')
    (λ _ mw', mw' = (m, (k, w))) (m, (k, w)).
Proof.
  unfold version_at, undisturbed in *. set (w0 := others k w) in *.
  set (w1 := others (S k) w0) in *.
  unfold busy_Update, manager.Update. do 3 go_step. simpl. do 2 go_step.
  destruct (CreateVirtualMachineFromMachine sc m) as [[vm|e]|msg] eqn:Hvm; [| |done].
  2: { go_step. split_and!; [by eexists|done|]. by apply (left_alone_at k w 0); [lia|]. }
  apply create_named in Hvm as [Hname Hns]. rewrite Hname, Hns. do 2 go_step.
  unfold manager.getInraClusterVM. simpl. busy_call GetVirtualMachine_spec.
  intros [old|e] w' [-> Hr].
  2: { go_step. split_and!; [by eexists|done|]. by apply (left_alone_at k w 1); [lia|]. }
  change (KV.vm_Namespace (KV.set_ResourceVersion _ vm)) with (KV.vm_Namespace vm).
  rewrite Hns. do 2 go_step. simpl. busy_call UpdateVirtualMachine_spec.
  unfold vm_replaced.
  change (KV.vm_Name (KV.set_ResourceVersion _ vm)) with (KV.vm_Name vm). rewrite Hname.
  change (KV.vm_ResourceVersion (KV.set_ResourceVersion (KV.vm_ResourceVersion old) vm))
    with (KV.vm_ResourceVersion old).
  fold w0 in Hr. rewrite Hr in Hversions, Hchanged. simpl in Hversions, Hchanged.
  assert (∀ cur, vm_at w1 (infraNamespace sc) (Mapi.GetName m) = Some cur →
    KV.vm_ResourceVersion old = "" ∨ KV.vm_ResourceVersion old = KV.vm_ResourceVersion cur →
    False) as Hlost.
  { intros cur Hcur [He|He]; [by rewrite He in Hversions|]. apply Hchanged.
    rewrite Hcur. simpl. by rewrite He. }
  intros [new|e] w2 Hup.
  - destruct Hup as (_ & cur & Hcur & He). by destruct (Hlost cur Hcur He).
  - go_step. split_and!; [by eexists|done|].
    destruct Hup as [Hsame|(new & _ & cur & Hcur & He)]; [|by destruct (Hlost cur Hcur He)].
    apply (left_alone_at k w 2); [lia|done].
Qed.

(** The same for Create, when others have put a virtual machine of this name
    there by the time it does: theirs stays, unless Create ended before. *)
Lemma Create_conflict sc userData m k w theirs
    (Htheirs : ∀ v, vm_at (others (S k) v) (infraNamespace sc) (Mapi.GetName m) = Some theirs) :
  wp (busy_Create sc userData)
    (λ '(_, err) '(m', (k', w')), is_Some err ∧ m' = m ∧
       ((k' ≤ S k)%nat ∨ vm_at w' (infraNamespace sc) (Mapi.GetName m) = Some theirs))
    (λ _ '(m', _), m' = m) (m, (k, w)).
Proof.
  unfold busy_Create, manager.Create. do 3 go_step. simpl. do 2 go_step.
  destruct (addHostnameToUserData userData (Mapi.GetName m)) as [[full|e]|msg]; [| |done].
  2: { go_step. split_and!; [by eexists|done|left; lia]. }
  do 2 go_step. simpl. busy_call CreateSecret_spec. intros [s|e] w1 _.
  2: { go_step. split_and!; [by eexists|done|left; lia]. }
  do 2 go_step. destruct (CreateVirtualMachineFromMachine sc m) as [[vm|e]|msg] eqn:Hvm; [| |done].
  2: { go_step. split_and!; [by eexists|done|left; lia]. }
  apply create_named in Hvm as [Hname Hns]. do 2 go_step. simpl. busy_call CreateVirtualMachine_spec.
  rewrite Hname, Hns. specialize (Htheirs w1). intros [created|e] w2 Hc.
  - destruct Hc as [Hnone _]. congruence.
  - go_step. split_and!; [by eexists|done|right].
    destruct Hc as [(V & _)|[Hnone _]]; [by rewrite V|congruence].
Qed.
End interference.

(** ** On the reference cluster

    Somebody changes the virtual machine between the two calls of Update. *)
Definition touch (vm : KV.VirtualMachine) : KV.VirtualMachine :=
  KV.set_ResourceVersion (next_version (KV.vm_ResourceVersion vm)) vm.
Definition touching (k : nat) (w : server) : server :=
  if (k =? 1)%nat then set_vms (fmap touch) w else w.

Definition busy_server : server :=
  (manager.Create example_scope UserData.test_source (example_machine, empty_server)).2.2.

Lemma Update_conflict_witness :
  wp (busy_Update touching example_scope)
    (λ '(_, _, err) '(m', kw'), is_Some err ∧ m' = example_machine ∧
       left_alone touching 0 busy_server kw')
    (λ _ mw', mw' = (example_machine, (0%nat, busy_server))) (example_machine, (0%nat, busy_server)).
Proof.
  apply (Update_conflict touching example_scope example_machine 0 busy_server);
    apply (bool_decide_unpack _); vm_compute; reflexivity.
Defined.

Example Update_conflict_example :
  (busy_Update touching example_scope (example_machine, (0%nat, busy_server))).1 =
    Ret (false, false, Some (operation_error "worker-0" "Update"
           "update Virtual Machine in infraCluster" conflict)).
Proof. vm_compute. reflexivity. Qed.
