(* ===== verification/Actuator.v ===== *)
(** * The actuator (pkg/actuator/actuator.go)

    The actuator is what the machine controller calls for each machine.  It
    builds the scope of the machine, runs the virtual machine manager on it,
    patches the machine in the tenant cluster, records an event and reports an
    error.  Its world is the machine the controller passed, the tenant cluster
    and the infra cluster. *)

From S2P Require Import Prelude GoStd GoErrors Json ApiTypes ProviderConfig TenantCluster.
From S2P Require Import UserData MachineScope.
From S2P Require Import InfraCluster Kubevirt.
From Stdlib Require Import Ascii.

(** [record.EventRecorder]: the type, the reason and the formatted message. *)
Class EventRecorder (TW : Type) := {
  Event : Mapi.Machine → string → string → string → Go TW unit
}.

Definition createEventAction := "create machine".
Definition updateEventAction := "update machine".
Definition deleteEventAction := "delete machine".
Definition userDataKey := "userData".
Definition configMapNamespace := "openshift-config".
Definition configMapName := "cloud-provider-config".
Definition configMapDataKeyName := "config".
Definition configMapInfraNamespaceKeyName := "namespace".
Definition configMapInfraIDKeyName := "infraID".

(** The clients are the instances in scope; the rest of the struct. *)
Record actuator := MkActuator { a_infraID : string; a_infraNamespace : string }.

Section actuator.
Context {TW IW : Type} `{!TenantCluster.Client TW, !EventRecorder TW, !KubevirtVM IW, !YamlLib}.
Implicit Types (a : actuator) (machine : Mapi.Machine).

Definition world : Type := Mapi.Machine * (TW * IW).

(** Calls of the two clusters, seen from here. *)
Definition in_tenant {A} (c : Go TW A) : Go world A :=
  go_zoom (λ w, w.2.1) (λ t w, (w.1, (t, w.2.2))) c.
Definition on_tenant {A} (c : Go (Mapi.Machine * TW) A) : Go world A :=
  go_zoom (λ w, (w.1, w.2.1)) (λ mt w, (mt.1, (mt.2, w.2.2))) c.
Definition on_infra {A} (c : Go (Mapi.Machine * IW) A) : Go world A :=
  go_zoom (λ w, (w.1, w.2.2)) (λ mi w, (mi.1, (w.2.1, mi.2))) c.
Definition in_infra {A} (c : Go IW A) : Go world A :=
  go_zoom (λ w, w.2.2) (λ i w, (w.1, (w.2.1, i))) c.
Definition the_machine : Go world Mapi.Machine := go_fst go_get.

(** [New]: the config map's error is dropped, the actuator is nil. *)
Definition missing_key (key : string) : goerror :=
  InvalidMachineConfiguration
    ("Actuator: configMap " +:+ configMapNamespace +:+ "/" +:+ configMapName
     +:+ ": The map extracted with key " +:+ configMapDataKeyName
     +:+ " doesn't contain key " +:+ key).

Definition New : Go TW (result (option actuator)) :=
  r ← GetConfigMapValue configMapName configMapNamespace configMapDataKeyName;
  mret match r with
  | inr err => inl None
  | inl cMap =>
      match map_index cMap configMapInfraIDKeyName with
      | None => inr (missing_key configMapInfraIDKeyName)
      | Some infraID =>
          match map_index cMap configMapInfraNamespaceKeyName with
          | None => inr (missing_key configMapInfraNamespaceKeyName)
          | Some infraNamespace => inl (Some (MkActuator infraID infraNamespace))
          end
      end
  end.

Definition createMachineScope a machine : result machineScope :=
  CreateMachineScope machine (a_infraNamespace a) (a_infraID a).

(** The message is used as a format twice, for the event and the error. *)
Definition handleMachineError (action : string) (err : goerror) : Go world goerror :=
  machine ← the_machine;
  let errMsg := Mapi.GetName machine +:+ ": kubevirt wrapper failed to " +:+ action
                +:+ ": " +:+ Error err in
  _ ← in_tenant (Event machine Core.EventTypeWarning (action +:+ " failed")
                   (Fmt.sprintf0 errMsg));
  mret (Errorf errMsg).

Definition failed (action : string) (err : goerror) : Go world (option goerror) :=
  e ← handleMachineError action err; mret (Some e).

Definition not_ready_error : goerror :=
  Errorf "Error since VirtualMachine is not ready - requeue".

Definition getUserData (sc : machineScope) machine : Go TW (result bytes) :=
  secretName ← go_lift (GetIgnitionSecretName sc);
  let machineNamespace := Mapi.GetNamespace machine in
  r ← GetSecret secretName machineNamespace;
  mret match r with
  | inr err =>
      if IsNotFound err then
        inr (InvalidMachineConfiguration
          ("Tenant-cluster credentials secret " +:+ machineNamespace +:+ "/" +:+ secretName
           +:+ ": " +:+ Error err +:+ " not found"))
      else inr err
  | inl userDataSecret =>
      match map_index (Core.SecretData userDataSecret) userDataKey with
      | None =>
          inr (InvalidMachineConfiguration
            ("Tenant-cluster credentials secret " +:+ machineNamespace +:+ "/" +:+ secretName
             +:+ ": " +:+ userDataKey +:+ " doesn't contain the key"))
      | Some userData => inl userData
      end
  end.

(** The answer to the first patch overwrites the machine, so the new status
    is kept aside and put back for the second. *)
Definition patchMachine (originMachineCopy : Mapi.Machine)
    : Go (Mapi.Machine * TW) (option goerror) :=
  machine ← go_fst go_get;
  let statusCopy := Mapi.Status machine in
  r ← PatchMachine originMachineCopy;
  match r with
  | Some err => mret (Some (Wrap err "failed to patch machine"))
  | None =>
      _ ← go_fst (go_modify (Mapi.set_Status statusCopy));
      r ← StatusPatchMachine originMachineCopy;
      mret match r with
      | Some err => Some (Wrap err "failed to patch machine status")
      | None => None
      end
  end.

Definition Create a : Go world (option goerror) :=
  originMachineCopy ← the_machine;
  match createMachineScope a originMachineCopy with
  | inr err => failed createEventAction err
  | inl machineScope =>
      userData ← in_tenant (getUserData machineScope originMachineCopy);
      match userData with
      | inr err => failed createEventAction err
      | inl userData =>
          r ← on_infra (vm_Create machineScope userData);
          let '(ready, err) := r : bool * option goerror in
          patchErr ← on_tenant (patchMachine originMachineCopy);
          match (match patchErr with Some e => Some e | None => err end) with
          | Some err => failed createEventAction err
          | None =>
              machine ← the_machine;
              _ ← in_tenant (Event machine Core.EventTypeNormal createEventAction
                               ("Created Machine " +:+ Mapi.GetName machine));
              mret (if ready then None else Some not_ready_error)
          end
      end
  end.

Definition Exists a : Go world (bool * option goerror) :=
  machine ← the_machine;
  in_infra (vm_Exists (Mapi.GetName machine) (a_infraNamespace a)).

Definition Update a : Go world (option goerror) :=
  originMachineCopy ← the_machine;
  match createMachineScope a originMachineCopy with
  | inr err => failed updateEventAction err
  | inl machineScope =>
      r ← on_infra (vm_Update machineScope);
      let '(wasUpdated, ready, err) := r : bool * bool * option goerror in
      patchErr ← on_tenant (patchMachine originMachineCopy);
      match (match patchErr with Some e => Some e | None => err end) with
      | Some err => failed updateEventAction err
      | None =>
          machine ← the_machine;
          _ ← (if wasUpdated : bool then
                 in_tenant (Event machine Core.EventTypeNormal updateEventAction
                              ("Updated Machine " +:+ Mapi.GetName machine))
               else mret tt : Go world unit);
          mret (if ready then None else Some not_ready_error)
      end
  end.

Definition Delete a : Go world (option goerror) :=
  machine ← the_machine;
  match createMachineScope a machine with
  | inr err => failed deleteEventAction err
  | inl machineScope =>
      r ← on_infra (vm_Delete machineScope);
      match r with
      | Some err => failed deleteEventAction err
      | None =>
          machine ← the_machine;
          _ ← in_tenant (Event machine Core.EventTypeNormal deleteEventAction
                           ("Deleted machine " +:+ Mapi.GetName machine));
          mret None
      end
  end.
End actuator.
Arguments world : clear implicits.

(** ** Errors

    These hold whatever the clients do. *)
Section errors.
Context {TW IW : Type} `{!TenantCluster.Client TW, !EventRecorder TW, !KubevirtVM IW, !YamlLib}.

Definition reports_opaque (err : option goerror) : Prop :=
  ∀ e, err = Some e → opaque_error e.

(** Only the result of the computation is at stake. *)
Definition always {W A} (P : A → Prop) (c : Go W A) : Prop :=
  ∀ w, wp c (λ a _, P a) (λ _ _, True) w.

Lemma always_bind {W A B} (P : B → Prop) (c : Go W A) (f : A → Go W B) :
  (∀ a, always P (f a)) → always P (c ≫= f).
Proof.
  intros Hf w. apply wp_bind. eapply wp_mono with (Q := λ _ _, True) (E := λ _ _, True).
  - unfold wp. by destruct (c w) as [[?|?] ?].
  - intros a w' _. apply Hf.
  - done.
Qed.
Lemma always_ret {W A} (P : A → Prop) (a : A) : P a → always (W:=W) P (mret a).
Proof. by intros Ha w. Qed.

Lemma failed_opaque action err : always (W:=world TW IW) reports_opaque (failed action err).
Proof.
  assert (always (W:=world TW IW) opaque_error (handleMachineError action err)) as Hh.
  { unfold handleMachineError. do 2 (apply always_bind; intros ?).
    apply always_ret, opaque_Errorf. }
  intros w. unfold failed. apply wp_bind. eapply wp_mono; [apply Hh| |done].
  intros e w' He. apply wp_ret. by intros ? [= <-].
Qed.

Lemma not_ready_opaque (ready : bool) :
  reports_opaque (if ready then None else Some not_ready_error).
Proof. destruct ready; [done|]. intros e [= <-]. apply opaque_Errorf. Qed.

Lemma Create_opaque a : always (W:=world TW IW) reports_opaque (Create a).
Proof.
  unfold Create. apply always_bind; intros origin.
  destruct (createMachineScope a origin); [|apply failed_opaque].
  apply always_bind; intros [ud|e]; [|apply failed_opaque].
  apply always_bind; intros [ready err]. apply always_bind; intros patchErr.
  destruct patchErr as [e|]; [apply failed_opaque|].
  destruct err as [e|]; [apply failed_opaque|].
  do 2 (apply always_bind; intros ?). apply always_ret, not_ready_opaque.
Qed.

Lemma Update_opaque a : always (W:=world TW IW) reports_opaque (Update a).
Proof.
  unfold Update. apply always_bind; intros origin.
  destruct (createMachineScope a origin); [|apply failed_opaque].
  apply always_bind; intros [[u ready] err]. apply always_bind; intros patchErr.
  destruct patchErr as [e|]; [apply failed_opaque|].
  destruct err as [e|]; [apply failed_opaque|].
  do 2 (apply always_bind; intros ?). apply always_ret, not_ready_opaque.
Qed.

Lemma Delete_opaque a : always (W:=world TW IW) reports_opaque (Delete a).
Proof.
  unfold Delete. apply always_bind; intros machine.
  destruct (createMachineScope a machine); [|apply failed_opaque].
  apply always_bind; intros [e|]; [apply failed_opaque|].
  do 2 (apply always_bind; intros ?). by apply always_ret.
Qed.
End errors.

(** ** Patching *)
Section patch.
Context {TW : Type} `{!TenantCluster.Client TW, !TenantView (TW:=TW),
  !TenantCluster.ClientLaws (TW:=TW)}.

(** A machine as the server stores it: another resource version. *)
Definition stored_as (m m' : Mapi.Machine) : Prop := ∃ rv, m' = stamped rv m.

Lemma stamped_stamped rv rv' m : stamped rv (stamped rv' m) = stamped rv m.
Proof. by destruct m as [[] ? ?]. Qed.

Lemma patchMachine_spec origin m t :
  Mapi.GetName m = Mapi.GetName origin → Mapi.GetNamespace m = Mapi.GetNamespace origin →
  machine_at t (Mapi.GetNamespace origin) (Mapi.GetName origin) = Some origin →
  wp (patchMachine origin)
    (λ err '(m', t'), frame_but (Mapi.GetNamespace origin) (Mapi.GetName origin) t t' ∧
       (err = None → stored_as m m' ∧
          machine_at t' (Mapi.GetNamespace origin) (Mapi.GetName origin) = Some m'))
    no_panic (m, t).
Proof.
  intros Hn Hns Hat. unfold patchMachine. do 3 go_step. simpl. go_step.
  go_call PatchMachine_spec. unfold patch_post. rewrite Hn, Hns.
  intros [e|] [m1 t1] [Hf1 H1].
  { go_step. split; [done|by intros [=]]. }
  destruct H1 as (st & Hst & H1). simplify_eq.
  destruct (H1 eq_refl) as (rv1 & -> & Hat1). do 2 go_step. simpl. go_step.
  go_step. go_call StatusPatchMachine_spec.
  set (m2 := Mapi.set_Status (Mapi.Status m) _).
  assert (m2 = stamped rv1 m) as -> by done.
  unfold patch_post. cbv zeta.
  change (Mapi.GetName (stamped rv1 m)) with (Mapi.GetName m).
  change (Mapi.GetNamespace (stamped rv1 m)) with (Mapi.GetNamespace m).
  rewrite Hn, Hns. intros [e|] [m' t'] [Hf2 H2]; go_step.
  - split; [|by intros [=]].
    destruct Hf1 as (M1 & S1 & C1), Hf2 as (M2 & S2 & C2).
    split_and!; intros; [rewrite M2|rewrite S2|rewrite C2]; auto.
  - destruct H2 as (st2 & Hst2 & H2). rewrite Hat1 in Hst2. injection Hst2 as <-.
    destruct H2 as (rv2 & -> & Hat2); [done|]. split.
    + destruct Hf1 as (M1 & S1 & C1), Hf2 as (M2 & S2 & C2).
      split_and!; intros; [rewrite M2|rewrite S2|rewrite C2]; auto.
    + intros _. split; [exists rv2; by destruct m as [[] ? ?]|done].
Qed.
End patch.

(** ** From the controller's call to both clusters *)
Class EventLaws (TW : Type) `{!EventRecorder TW, !TenantView (TW:=TW)} :=
  Event_spec m ty reason msg (t : TW) :
    wp (Event m ty reason msg)
      (λ _ t', (∀ ns name, machine_at t' ns name = machine_at t ns name) ∧
               (∀ ns name, secret_at t' ns name = secret_at t ns name)) no_panic t.

Section end_to_end.
Context {TW IW : Type}
  `{!TenantCluster.Client TW, !EventRecorder TW, !TenantView (TW:=TW),
    !TenantCluster.ClientLaws (TW:=TW), !EventLaws TW, !YamlLib}
  `{!InfraCluster.Client IW, !Resolver IW, !InfraCluster.ClientView (IW:=IW),
    !InfraCluster.ClientLaws (IW:=IW), !ResolverLaws IW}.
Implicit Types (a : actuator) (origin m : Mapi.Machine) (t : TW) (i : IW).

Lemma getUserData_spec sc m t :
  wp (getUserData sc m)
    (λ r t', t' = t ∧ match r with
       | inl userData => ∃ spec s, machineProviderSpec sc = Some spec ∧
           secret_at t (Mapi.GetNamespace m) (Provider.IgnitionSecretName spec) = Some s ∧
           map_index (Core.SecretData s) userDataKey = Some userData
       | inr e => IsNotFound e = false
       end)
    (λ _ t', t' = t ∧ machineProviderSpec sc = None) t.
Proof.
  unfold getUserData, GetIgnitionSecretName, spec_field. do 2 go_step.
  destruct (machineProviderSpec sc) as [spec|] eqn:Hs; [|done].
  go_step. go_call GetSecret_spec. intros [s|e] t' [-> Hr]; go_step; (split; [done|]).
  - destruct (map_index (Core.SecretData s) userDataKey) as [ud|] eqn:Hd; [|done]. by eauto.
  - by destruct (IsNotFound e) eqn:He.
Qed.

Lemma createMachineScope_scope a m sc :
  createMachineScope a m = inl sc →
  infraNamespace sc = a_infraNamespace a ∧ infraID sc = a_infraID a.
Proof.
  unfold createMachineScope, CreateMachineScope. case_bool_decide; [done|].
  destruct (ProviderSpecFromRawExtension _); [|done]. by intros [= <-].
Qed.

(** A failed call reports an error, and does not panic. *)
Lemma wp_failed action err (Q : option goerror → world TW IW → Prop) E w :
  (∀ e w', Q (Some e) w') → wp (failed action err) Q E w.
Proof.
  intros HQ. destruct w as [m [t i]]. unfold failed, handleMachineError, the_machine, in_tenant.
  do 4 go_step. simpl. do 2 go_step. simpl.
  go_call (Event_spec (TW:=TW)). intros [] t' _. do 2 go_step. apply HQ.
Qed.

(** An event changes no machine. *)
Lemma wp_event m ty reason msg (Q : unit → world TW IW → Prop) E m0 t i :
  (∀ t', (∀ ns name, machine_at t' ns name = machine_at t ns name) → Q tt (m0, (t', i))) →
  wp (in_tenant (Event m ty reason msg)) Q E (m0, (t, i)).
Proof.
  intros HQ. unfold in_tenant. go_step. go_call (Event_spec (TW:=TW)).
  intros [] t' [Ht _]. by apply HQ.
Qed.

Lemma wp_patched origin m t i (Q : option goerror → world TW IW → Prop) E :
  Mapi.GetName m = Mapi.GetName origin → Mapi.GetNamespace m = Mapi.GetNamespace origin →
  machine_at t (Mapi.GetNamespace origin) (Mapi.GetName origin) = Some origin →
  (∀ m' t', stored_as m m' →
     machine_at t' (Mapi.GetNamespace origin) (Mapi.GetName origin) = Some m' →
     Q None (m', (t', i))) →
  (∀ e m' t', Q (Some e) (m', (t', i))) →
  wp (on_tenant (patchMachine origin)) Q E (m, (t, i)).
Proof.
  intros Hn Hns Hat Hok Herr. unfold on_tenant. go_step.
  go_call patchMachine_spec; [done..|]. intros [e|] [m' t'] [_ Hr]; simpl; [apply Herr|].
  destruct Hr as [Hs Hat']; [done|]. auto.
Qed.

(** What a successful Create, Update and Delete have done. *)
Definition machine_created a origin t i (w' : world TW IW) : Prop :=
  let '(m', (t', i')) := w' in
  ∃ sc spec s userData full synced_machine,
    createMachineScope a origin = inl sc ∧ machineProviderSpec sc = Some spec ∧
    secret_at t (Mapi.GetNamespace origin) (Provider.IgnitionSecretName spec) = Some s ∧
    map_index (Core.SecretData s) userDataKey = Some userData ∧
    addHostnameToUserData userData (Mapi.GetName origin) = Ret (inl full) ∧
    create_done sc origin full true i synced_machine i' ∧
    stored_as synced_machine m' ∧
    machine_at t' (Mapi.GetNamespace origin) (Mapi.GetName origin) = Some m'.

Definition machine_updated a origin i (w' : world TW IW) : Prop :=
  let '(m', (t', i')) := w' in
  let ns := a_infraNamespace a in
  let name := Mapi.GetName origin in
  ∃ vm addresses, (vm_at i' ns name = Some vm ∨ marked_vm vm ∧ vm_at i' ns name = None) ∧
    KV.Ready (KV.VMStatus vm) = true ∧ vm_updated ns name vm i i' ∧
    stored_as (synced vm addresses (FormatProviderID ns name) origin) m' ∧
    machine_at t' (Mapi.GetNamespace origin) (Mapi.GetName origin) = Some m'.

Definition machine_deleted a m t i (w' : world TW IW) : Prop :=
  let '(m', (t', i')) := w' in
  let ns := a_infraNamespace a in
  let name := Mapi.GetName m in
  m' = m ∧ (∀ ns name, machine_at t' ns name = machine_at t ns name) ∧
  (vm_at i ns name = None ∧ i' = i ∨
   is_Some (vm_at i ns name) ∧ deleted_or_marked ns name i i').

Lemma Create_end_to_end a origin t i :
  machine_at t (Mapi.GetNamespace origin) (Mapi.GetName origin) = Some origin →
  wp (W := world TW IW) (Create a)
    (λ err w', err = None → machine_created a origin t i w') (λ _ _, True) (origin, (t, i)).
Proof.
  intros Hat. unfold Create, the_machine. do 3 go_step. simpl.
  destruct (createMachineScope a origin) as [sc|e] eqn:Hsc; [|by apply wp_failed].
  go_step. unfold in_tenant at 1. go_step. go_call getUserData_spec.
  intros [userData|e] t' [-> Hud]; [|by apply wp_failed].
  destruct Hud as (spec & s & Hspec & Hs & Hd).
  go_step. unfold on_infra. go_step. simpl. go_call Create_spec.
  intros [ready err] [m1 i1] (full & Hfull & _ & Herr). go_step. simpl.
  assert (Mapi.GetName m1 = Mapi.GetName origin ∧
          Mapi.GetNamespace m1 = Mapi.GetNamespace origin) as [Hn Hns].
  { destruct err as [e|]; [by destruct Herr as [_ ->]|].
    by destruct Herr as (_ & _ & _ & vm & ad & _ & -> & _). }
  apply wp_patched; try done; [|intros; by apply wp_failed].
  intros m' t' Hst Hat'. destruct err as [e|]; [by apply wp_failed|].
  do 3 go_step. simpl. go_step. apply wp_event. intros t2 Ht2. go_step.
  destruct ready; [|done]. intros _. exists sc, spec, s, userData, full, m1.
  rewrite Ht2. by split_and!.
Qed.

Lemma Update_end_to_end a origin t i :
  machine_at t (Mapi.GetNamespace origin) (Mapi.GetName origin) = Some origin →
  wp (W := world TW IW) (Update a)
    (λ err w', err = None → machine_updated a origin i w') (λ _ _, True) (origin, (t, i)).
Proof.
  intros Hat. unfold Update, the_machine. do 3 go_step. simpl.
  destruct (createMachineScope a origin) as [sc|e] eqn:Hsc; [|by apply wp_failed].
  destruct (createMachineScope_scope a origin sc Hsc) as [Hns' _].
  go_step. unfold on_infra. go_step. simpl. go_call Update_spec.
  rewrite Hns'. intros [[wasUpdated ready] err] [m1 i1] Herr. go_step. simpl.
  assert (Mapi.GetName m1 = Mapi.GetName origin ∧
          Mapi.GetNamespace m1 = Mapi.GetNamespace origin) as [Hn Hns].
  { destruct err as [e|]; [by destruct Herr as (_ & -> & _)|].
    by destruct Herr as (old & vm & ad & _ & _ & _ & _ & -> & _). }
  apply wp_patched; try done; [|intros; by apply wp_failed].
  intros m' t' Hst Hat'. destruct err as [e|]; [by apply wp_failed|].
  destruct Herr as (old & vm & ad & Hold & Hup & _ & -> & -> & _).
  do 3 go_step. simpl. go_step.
  assert (∀ t2, machine_at t2 (Mapi.GetNamespace origin) (Mapi.GetName origin) = Some m' →
    KV.Ready (KV.VMStatus vm) = true → machine_updated a origin i (m', (t2, i1))) as Hdone.
  { intros t2 Ht2 Hr. exists vm, ad. split_and!; try done.
    destruct Hup as (? & _ & _ & Hd & [[? _]|[? [? _]]] & _); [by left|].
    right. by rewrite Hd. }
  destruct wasUpdated.
  - apply wp_event. intros t2 Ht2. go_step. destruct (KV.Ready (KV.VMStatus vm)) eqn:Hr; [|done].
    intros _. apply Hdone; [by rewrite Ht2|done].
  - go_step. go_step. destruct (KV.Ready (KV.VMStatus vm)) eqn:Hr; [|done]. auto.
Qed.

Lemma Delete_end_to_end a m t i :
  wp (W := world TW IW) (Delete a)
    (λ err w', err = None → machine_deleted a m t i w') (λ _ _, True) (m, (t, i)).
Proof.
  unfold Delete, the_machine. do 3 go_step. simpl.
  destruct (createMachineScope a m) as [sc|e] eqn:Hsc; [|by apply wp_failed].
  destruct (createMachineScope_scope a m sc Hsc) as [Hns' _].
  go_step. unfold on_infra. go_step. simpl. go_call Delete_spec.
  rewrite Hns'. intros [e|] [m' i'] [-> Hd]; [by apply wp_failed|].
  do 3 go_step. simpl. go_step. apply wp_event. intros t' Ht'. go_step. done.
Qed.

(** Building the actuator. *)
Lemma New_spec t :
  wp New
    (λ r t', t' = t ∧ match r with
       | inl (Some a) => ∃ c v,
           configmap_at t configMapNamespace configMapName = Some c ∧
           config_value c configMapDataKeyName = Some v ∧
           map_index v configMapInfraIDKeyName = Some (a_infraID a) ∧
           map_index v configMapInfraNamespaceKeyName = Some (a_infraNamespace a)
       | inl None => True
       | inr e => isInvalidMachineConfigurationError e = true ∧
           is_Some (configmap_at t configMapNamespace configMapName)
       end) no_panic t.
Proof.
  unfold New. go_step. go_call GetConfigMapValue_spec. intros [v|e] t' [-> Hr]; go_step;
    (split; [done|]); [|done]. destruct Hr as (c & Hc & Hv).
  destruct (map_index v configMapInfraIDKeyName) as [id|] eqn:Hid.
  - destruct (map_index v configMapInfraNamespaceKeyName) as [ns|] eqn:Hns.
    + by exists c, v.
    + rewrite Hc. split; [done|by eexists].
  - rewrite Hc. split; [done|by eexists].
Qed.
End end_to_end.
