(* ===== verification/Version.v ===== *)
(** * The version of the program (pkg/version/version.go)

    The linker may set the raw text; when the package is initialised, the text
    without its leading letters v is parsed as a semantic version, and a text
    that is none panics.  The parser is that of blang/semver. *)

From S2P Require Import Prelude GoStd GoErrors.
From Stdlib Require Import Ascii.
#[local] Open Scope Z_scope.

(** ** strings and strconv *)
Module strings.
(** Cut at the first [c]. *)
Fixpoint cut (c : ascii) (s : string) : option (string * string) :=
  match s with
  | EmptyString => None
  | String d r =>
      if Ascii.eqb d c then Some ("", r) else '(a, b) ← cut c r; Some (String d a, b)
  end.

(** [SplitN] with a separator of one byte and a positive count. *)
Fixpoint SplitN (s : string) (c : ascii) (n : nat) : list string :=
  match n with
  | O => []
  | S O => [s]
  | S n => match cut c s with
           | Some (a, b) => a :: SplitN b c n
           | None => [s]
           end
  end.

Fixpoint Split (s : string) (c : ascii) : list string :=
  match s with
  | EmptyString => [""]
  | String d r =>
      match Split r c with
      | p :: ps => if Ascii.eqb d c then "" :: p :: ps else String d p :: ps
      | [] => []
      end
  end.

Fixpoint TrimLeft (s : string) (c : ascii) : string :=
  match s with
  | String d r => if Ascii.eqb d c then TrimLeft r c else s
  | EmptyString => ""
  end.
End strings.
Import strings.

(** ** blang/semver *)
Module semver.
Definition numbers := "0123456789".
Definition alphas := "abcdefghijklmnopqrstuvwxyzABCDEFGHIJKLMNOPQRSTUVWXYZ-".
Definition alphanum := alphas +:+ numbers.

(** The sets are ASCII, so a rune is in one when its bytes are. *)
Fixpoint containsOnly (s set : string) : bool :=
  match s with
  | EmptyString => true
  | String c s => char_in c set && containsOnly s set
  end.

Definition hasLeadingZeroes (s : string) : bool :=
  (1 <? String.length s)%nat &&
  match s with String c _ => Ascii.eqb c "0" | EmptyString => false end.

Record PRVersion := MkPRVersion { VersionStr : string; VersionNum : Z; IsNum : bool }.
Record Version := MkVersion {
  Major : Z; Minor : Z; Patch : Z; Pre : list PRVersion; Build : list string }.

Definition PRVersion_String (v : PRVersion) : string :=
  if IsNum v then Strconv.itoa (VersionNum v) else VersionStr v.

(** [l[0]] and then a dot and each of [l[1:]]; nothing for the empty list. *)
Definition dotted (l : list string) : string :=
  match l with
  | [] => ""
  | x :: l => foldl (λ b y, b +:+ "." +:+ y) x l
  end.

Definition String_ (v : Version) : string :=
  let b := Strconv.itoa (Major v) in
  let b := b +:+ "." in
  let b := b +:+ Strconv.itoa (Minor v) in
  let b := b +:+ "." in
  let b := b +:+ Strconv.itoa (Patch v) in
  let b := match Pre v with
           | [] => b
           | _ => b +:+ "-" +:+ dotted (map PRVersion_String (Pre v))
           end in
  match Build v with
  | [] => b
  | _ => b +:+ "+" +:+ dotted (Build v)
  end.

Section parse.
(** [strconv.Quote]. *)
Context (Quote : string → string).

(** [strconv.ParseUint(s, 10, 64)] of a text without a byte that is no
    digit. *)
Definition ParseUint (s : string) : result Z :=
  let num_error msg :=
    inr (ErrorString ("strconv.ParseUint: parsing " +:+ Quote s +:+ ": " +:+ msg)) in
  match Strconv.digits_val s with
  | None => num_error "invalid syntax"
  | Some n => if n <? 2 ^ 64 then inl n else num_error "value out of range"
  end.

Definition NewPRVersion (s : string) : result PRVersion :=
  if bool_decide (s = "") then inr (ErrorString "Prerelease is empty")
  else if containsOnly s numbers then
    if hasLeadingZeroes s then
      inr (ErrorString ("Numeric PreRelease version must not contain leading zeroes " +:+ Quote s))
    else match ParseUint s with
         | inr err => inr err
         | inl num => inl (MkPRVersion "" num true)
         end
  else if containsOnly s alphanum then inl (MkPRVersion s 0 false)
  else inr (ErrorString ("Invalid character(s) found in prerelease " +:+ Quote s)).

(** One of the three numbers. *)
Definition parse_number (name Name s : string) : result Z :=
  if negb (containsOnly s numbers) then
    inr (ErrorString ("Invalid character(s) found in " +:+ name +:+ " number " +:+ Quote s))
  else if hasLeadingZeroes s then
    inr (ErrorString (Name +:+ " number must not contain leading zeroes " +:+ Quote s))
  else ParseUint s.

(** The two loops. *)
Fixpoint parse_prerelease (l : list string) : result (list PRVersion) :=
  match l with
  | [] => inl []
  | prstr :: l =>
      match NewPRVersion prstr with
      | inr err => inr err
      | inl parsedPR =>
          match parse_prerelease l with
          | inr err => inr err
          | inl pre => inl (parsedPR :: pre)
          end
      end
  end.
Fixpoint parse_build (l : list string) : result (list string) :=
  match l with
  | [] => inl []
  | str :: l =>
      if bool_decide (str = "") then inr (ErrorString "Build meta data is empty")
      else if negb (containsOnly str alphanum) then
        inr (ErrorString ("Invalid character(s) found in build meta data " +:+ Quote str))
      else match parse_build l with
           | inr err => inr err
           | inl build => inl (str :: build)
           end
  end.

(** The third part: the number, and what follows a plus and a minus. *)
Definition split_patch (patchStr : string) : string * list string * list string :=
  let '(patchStr, build) := match cut "+" patchStr with
                            | Some (a, b) => (a, Split b ".")
                            | None => (patchStr, [])
                            end in
  let '(patchStr, prerelease) := match cut "-" patchStr with
                                 | Some (a, b) => (a, Split b ".")
                                 | None => (patchStr, [])
                                 end in
  (patchStr, prerelease, build).

Definition Parse (s : string) : result Version :=
  if bool_decide (s = "") then inr (ErrorString "Version string empty")
  else match SplitN s "." 3 with
  | [part0; part1; part2] =>
      match parse_number "major" "Major" part0 with
      | inr err => inr err
      | inl major =>
          match parse_number "minor" "Minor" part1 with
          | inr err => inr err
          | inl minor =>
              let '(patchStr, prerelease, build) := split_patch part2 in
              match parse_number "patch" "Patch" patchStr with
              | inr err => inr err
              | inl patch =>
                  match parse_prerelease prerelease with
                  | inr err => inr err
                  | inl pre =>
                      match parse_build build with
                      | inr err => inr err
                      | inl build => inl (MkVersion major minor patch pre build)
                      end
                  end
              end
          end
      end
  | _ => inr (ErrorString "No Major.Minor.Patch elements found")
  end.

Definition MustParse (s : string) : outcome Version :=
  match Parse s with
  | inl v => Ret v
  | inr err => Panic ("semver: Parse(" +:+ s +:+ "): " +:+ Error err)
  end.
End parse.
End semver.
Import semver.

(** ** The package *)
Module version.
Definition default_Raw := "v0.0.0-was-not-built-properly".

(** The initialisation of [Version] and [String], from [Raw]. *)
Definition init (Quote : string → string) (Raw : string) : outcome (Version * string) :=
  v ← MustParse Quote (TrimLeft Raw "v");
  Ret (v, "ClusterAPIProviderKubevirt " +:+ Raw).
End version.

(** ** Lemmas *)

(** *** Cutting and joining *)
Lemma char_in_cons_false c d s :
  char_in c (String d s) = false ↔ Ascii.eqb d c = false ∧ char_in c s = false.
Proof. simpl. rewrite orb_false_iff, Ascii.eqb_sym. done. Qed.

Lemma cut_some c s a b : cut c s = Some (a, b) ↔ s = a +:+ String c b ∧ char_in c a = false.
Proof.
  revert a b. induction s as [|d s IH]; intros a b; simpl.
  { split; [done|]. by intros [Hs _]; destruct a. }
  destruct (Ascii.eqb d c) eqn:Hd.
  - apply Ascii.eqb_eq in Hd as ->. split; [by intros [= <- <-]|].
    intros [Hs Ha]. destruct a as [|e a]; [by injection Hs as ->|].
    injection Hs as <- _. apply char_in_cons_false in Ha as [Ha _]. by rewrite Ascii.eqb_refl in Ha.
  - split.
    + destruct (cut c s) as [[a' b']|]; simpl; [|done]. intros [= <- <-].
      destruct (proj1 (IH a' b') eq_refl) as [-> Ha]. split; [done|]. by apply char_in_cons_false.
    + intros [Hs Ha]. destruct a as [|e a].
      { injection Hs as -> _. by rewrite Ascii.eqb_refl in Hd. }
      injection Hs as -> ->. apply char_in_cons_false in Ha as [_ Ha].
      by rewrite (proj2 (IH a b) (conj eq_refl Ha)).
Qed.

Lemma cut_none c s : cut c s = None ↔ char_in c s = false.
Proof.
  induction s as [|d s IH]; [done|]. rewrite char_in_cons_false, <-IH. simpl.
  destruct (Ascii.eqb d c); [by split; [|intros []]|].
  by destruct (cut c s) as [[]|]; split; [|intros []| |].
Qed.

(** The texts with dots between them. *)
Fixpoint joined (c : ascii) (l : list string) : string :=
  match l with
  | [] => ""
  | [x] => x
  | x :: l => x +:+ String c (joined c l)
  end.

Lemma dotted_joined l : dotted l = joined "." l.
Proof.
  destruct l as [|x l]; [done|]. simpl. revert x. induction l as [|y l IH]; intros x; [done|].
  simpl foldl. rewrite IH. destruct l as [|z l]; simpl; [done|]. by rewrite !append_assoc.
Qed.

Lemma Split_cons s c : ∃ p ps, Split s c = p :: ps.
Proof.
  induction s as [|d s (p & ps & IH)]; simpl; [by eexists _, _|].
  rewrite IH. destruct (Ascii.eqb d c); by eexists _, _.
Qed.

Lemma Split_no_sep c s t :
  char_in c s = false → Split (s +:+ String c t) c = s :: Split t c.
Proof.
  induction s as [|d s IH].
  - intros _. simpl. destruct (Split_cons t c) as (p & ps & ->). by rewrite Ascii.eqb_refl.
  - intros [Hd Hs]%char_in_cons_false. rewrite append_cons. simpl. by rewrite IH, Hd.
Qed.

Lemma Split_single c s : char_in c s = false → Split s c = [s].
Proof.
  induction s as [|d s IH]; [done|]. intros [Hd Hs]%char_in_cons_false. simpl. by rewrite IH, Hd.
Qed.

Lemma Split_joined c l :
  l ≠ [] → Forall (λ x, char_in c x = false) l → Split (joined c l) c = l.
Proof.
  intros Hl Hall. induction Hall as [|x l Hx Hall IH]; [done|].
  destruct l as [|y l]; [by apply Split_single|]. simpl joined.
  rewrite Split_no_sep by done. f_equal. by apply IH.
Qed.

Lemma joined_cons c p ps d : joined c (String d p :: ps) = String d (joined c (p :: ps)).
Proof. by destruct ps. Qed.

Lemma joined_Split c s : joined c (Split s c) = s.
Proof.
  induction s as [|d s IH]; [done|]. simpl. destruct (Split_cons s c) as (p & ps & Hs).
  rewrite Hs in *. destruct (Ascii.eqb d c) eqn:Hd.
  - apply Ascii.eqb_eq in Hd as ->. by rewrite <-IH.
  - by rewrite joined_cons, IH.
Qed.

(** *** Sets of bytes *)
Lemma containsOnly_append s t set :
  containsOnly (s +:+ t) set = containsOnly s set && containsOnly t set.
Proof. induction s as [|c s IH]; [done|]. rewrite append_cons. simpl. by rewrite IH, andb_assoc. Qed.

(** A byte outside the set. *)
Lemma containsOnly_avoids c s set :
  containsOnly s set = true → char_in c set = false → char_in c s = false.
Proof.
  intros Hs Hc. induction s as [|d s IH]; [done|]. simpl in Hs. apply andb_prop in Hs as [Hd Hs].
  apply char_in_cons_false. split; [|by apply IH].
  destruct (Ascii.eqb d c) eqn:Heq; [|done]. apply Ascii.eqb_eq in Heq. congruence.
Qed.

Lemma containsOnly_mono s set set' :
  (∀ c, char_in c set = true → char_in c set' = true) →
  containsOnly s set = true → containsOnly s set' = true.
Proof.
  intros Hset. induction s as [|d s IH]; [done|]. simpl. intros [? ?]%andb_prop.
  by rewrite Hset, IH.
Qed.

Lemma numbers_alphanum s : containsOnly s numbers = true → containsOnly s alphanum = true.
Proof.
  apply containsOnly_mono. intros c Hc. unfold alphanum. by rewrite char_in_append, Hc, orb_true_r.
Qed.

Lemma is_digit_numbers c : is_digit c = char_in c numbers.
Proof. destruct c as [[] [] [] [] [] [] [] []]; vm_compute; reflexivity. Qed.

Lemma all_digits_numbers s : Strconv.all_digits s = containsOnly s numbers.
Proof. induction s as [|c s IH]; [done|]. simpl. by rewrite IH, is_digit_numbers. Qed.

(** *** Decimal numbers in their only form *)
Definition canonical_number (s : string) : Prop :=
  s ≠ "" ∧ containsOnly s numbers = true ∧ hasLeadingZeroes s = false.

Lemma itoa_canonical n : 0 ≤ n → canonical_number (Strconv.itoa n).
Proof.
  intros Hn. split; [apply Strconv.itoa_nonempty|].
  rewrite <-all_digits_numbers, Strconv.itoa_digits by done. split; [done|].
  unfold hasLeadingZeroes. destruct (Strconv.itoa n) as [|c [|d r]] eqn:Hi; [done|done|].
  rewrite (Strconv.itoa_no_leading_zero n c d r) by done. by rewrite andb_false_r.
Qed.

Lemma canonical_itoa s n :
  Strconv.digits_val s = Some n → hasLeadingZeroes s = false → Strconv.itoa n = s.
Proof.
  intros Hv Hlead. apply Strconv.itoa_digits_val; [done|]. intros c d r ->. done.
Qed.

Lemma ParseUint_inl Quote s n :
  ParseUint Quote s = inl n ↔ Strconv.digits_val s = Some n ∧ n < 2 ^ 64.
Proof.
  unfold ParseUint. destruct (Strconv.digits_val s) as [k|]; [|by split; [|intros []]].
  destruct (Z.ltb_spec k (2 ^ 64)); split; try done.
  - by intros [= ->].
  - by intros [[= ->] _].
  - intros [[= ->] ?]. lia.
Qed.

(** What is a number, in either place where one is read. *)
Definition uint64 (n : Z) : Prop := 0 ≤ n < 2 ^ 64.

Lemma digits_val_nonneg s n : Strconv.digits_val s = Some n → 0 ≤ n.
Proof.
  destruct s as [|c s]; [done|]. intros Hs.
  change (Strconv.digits_val_from 0 (String c s) = Some n) in Hs.
  destruct (Strconv.digits_val_from_split 0 _ _ Hs) as (u & _ & -> & ?). lia.
Qed.

Lemma number_inl Quote s n :
  containsOnly s numbers = true → hasLeadingZeroes s = false →
  ParseUint Quote s = inl n ↔ uint64 n ∧ s = Strconv.itoa n.
Proof.
  intros Hs Hlead. rewrite ParseUint_inl. split.
  - intros [Hv Hn]. split; [split; [by eapply digits_val_nonneg|done]|].
    by rewrite (canonical_itoa s n).
  - intros [[H0 Hn] ->]. by rewrite Strconv.digits_val_itoa.
Qed.

Lemma parse_number_inl Quote name Name s n :
  parse_number Quote name Name s = inl n ↔ uint64 n ∧ s = Strconv.itoa n.
Proof.
  unfold parse_number. destruct (containsOnly s numbers) eqn:Hs; simpl.
  - destruct (hasLeadingZeroes s) eqn:Hlead; [|by apply number_inl].
    split; [done|]. intros [[? _] ->]. destruct (itoa_canonical n) as (_ & _ & ?); [done|congruence].
  - split; [done|]. intros [[? _] ->]. destruct (itoa_canonical n) as (_ & ? & _); [done|congruence].
Qed.

(** *** Prereleases and build data *)
Definition wf_pre (p : PRVersion) : Prop :=
  if IsNum p then uint64 (VersionNum p) ∧ VersionStr p = ""
  else VersionNum p = 0 ∧ VersionStr p ≠ "" ∧ containsOnly (VersionStr p) alphanum = true ∧
       containsOnly (VersionStr p) numbers = false.
Definition wf_build (s : string) : Prop := s ≠ "" ∧ containsOnly s alphanum = true.

Lemma NewPRVersion_inl Quote s p :
  NewPRVersion Quote s = inl p ↔ wf_pre p ∧ s = PRVersion_String p.
Proof.
  unfold NewPRVersion, wf_pre, PRVersion_String. destruct p as [str num isnum]. simpl.
  case_bool_decide as Hne; [split; [done|]|].
  { subst s. intros [Hp Hs]. destruct isnum; [|by destruct Hp as (_ & ? & _)].
    by destruct (Strconv.itoa_nonempty num). }
  destruct (containsOnly s numbers) eqn:Hs.
  - destruct (hasLeadingZeroes s) eqn:Hlead.
    { split; [done|]. intros [Hp ->]. destruct isnum; [|by destruct Hp as (_ & _ & _ & ?); congruence].
      destruct Hp as [[? _] _]. destruct (itoa_canonical num) as (_ & _ & ?); [done|congruence]. }
    split.
    + destruct (ParseUint Quote s) as [n|] eqn:Hn; [|done]. intros [= <- <- <-].
      by apply number_inl in Hn as [? ?].
    + intros [Hp Heq]. destruct isnum; [|destruct Hp as (_ & _ & _ & ?); congruence].
      destruct Hp as [Hu ->]. by rewrite (proj2 (number_inl Quote s num Hs Hlead)).
  - assert (isnum = true → uint64 num → s ≠ Strconv.itoa num) as Hnot.
    { intros _ [? _] ->. destruct (itoa_canonical num) as (_ & ? & _); [done|congruence]. }
    destruct (containsOnly s alphanum) eqn:Ha.
    + split; [intros [= <- <- <-]; by split_and!|].
      intros [Hp Heq]. destruct isnum; [by destruct Hp as [? _]; destruct Hnot|].
      by destruct Hp as (-> & _); rewrite Heq.
    + split; [done|]. intros [Hp Heq].
      destruct isnum; [by destruct Hp as [? _]; destruct Hnot|].
      destruct Hp as (_ & _ & ? & _). congruence.
Qed.

Lemma parse_prerelease_inl Quote l pre :
  parse_prerelease Quote l = inl pre ↔ Forall wf_pre pre ∧ l = map PRVersion_String pre.
Proof.
  revert pre. induction l as [|s l IH]; intros pre; simpl.
  - split; [intros [= <-]; by split|]. intros [_ Hl]. by destruct pre.
  - destruct (NewPRVersion Quote s) as [p|] eqn:Hp.
    + apply NewPRVersion_inl in Hp as [Hp ->].
      destruct (parse_prerelease Quote l) as [ps|].
      * destruct (proj1 (IH ps) eq_refl) as [Hps ->]. split.
        { intros [= <-]. split; [by constructor|done]. }
        intros [Hall Heq]. destruct pre as [|q qs]; [done|]. simpl in Heq.
        injection Heq as Hq Hqs. apply Forall_cons in Hall as [Hwq Hwqs].
        pose proof (proj2 (NewPRVersion_inl Quote _ q) (conj Hwq Hq)) as H1.
        pose proof (proj2 (NewPRVersion_inl Quote _ p) (conj Hp eq_refl)) as H2.
        rewrite H1 in H2. injection H2 as ->.
        specialize (proj2 (IH qs) (conj Hwqs Hqs)) as [= ->]. done.
      * split; [done|]. intros [Hall Heq]. destruct pre as [|q qs]; [done|].
        injection Heq as _ Hqs. apply Forall_cons in Hall as [_ Hwqs].
        by pose proof (proj2 (IH qs) (conj Hwqs Hqs)).
    + split; [done|]. intros [Hall Heq]. destruct pre as [|q qs]; [done|].
      injection Heq as Hq _. apply Forall_cons in Hall as [Hwq _].
      pose proof (proj2 (NewPRVersion_inl Quote _ q) (conj Hwq Hq)). congruence.
Qed.

Lemma parse_build_inl Quote l b :
  parse_build Quote l = inl b ↔ Forall wf_build b ∧ l = b.
Proof.
  revert b. induction l as [|s l IH]; intros b; simpl.
  - split; [intros [= <-]; by split|]. by intros [_ ->].
  - case_bool_decide as Hne; [|destruct (containsOnly s alphanum) eqn:Ha]; simpl.
    + split; [done|]. intros [Hall <-]. by apply Forall_cons in Hall as [[? _] _].
    + destruct (parse_build Quote l) as [bs|].
      * destruct (proj1 (IH bs) eq_refl) as [Hbs ->]. split.
        { intros [= <-]. split; [|done]. by constructor. }
        by intros [_ <-].
      * split; [done|]. intros [Hall <-]. apply Forall_cons in Hall as [_ Hall].
        by pose proof (proj2 (IH l) (conj Hall eq_refl)).
    + split; [done|]. intros [Hall <-]. apply Forall_cons in Hall as [[_ ?] _]. congruence.
Qed.

(** *** The three parts *)
Lemma SplitN_3 s x y z :
  SplitN s "." 3 = [x; y; z] ↔
  s = x +:+ String "." (y +:+ String "." z) ∧ char_in "." x = false ∧ char_in "." y = false.
Proof.
  simpl. split.
  - destruct (cut "." s) as [[a b]|] eqn:Hs; [|done]. apply cut_some in Hs as [-> Ha].
    destruct (cut "." b) as [[c d]|] eqn:Hb; [|done]. apply cut_some in Hb as [-> Hc].
    by intros [= <- <- <-].
  - intros (-> & Hx & Hy). rewrite (proj2 (cut_some "." _ x _) (conj eq_refl Hx)).
    by rewrite (proj2 (cut_some "." _ y z) (conj eq_refl Hy)).
Qed.

(** What stands behind a plus or a minus. *)
Definition suffix_text (c : ascii) (l : list string) : string :=
  match l with [] => "" | _ => String c (joined "." l) end.

Definition cut_suffix (c : ascii) (s : string) : string * list string :=
  match cut c s with Some (a, b) => (a, Split b ".") | None => (s, []) end.

Lemma split_patch_cut s :
  split_patch s = let '(s, b) := cut_suffix "+" s in
                  let '(s, p) := cut_suffix "-" s in (s, p, b).
Proof. done. Qed.

Lemma cut_suffix_inv c s a l : cut_suffix c s = (a, l) → s = a +:+ suffix_text c l.
Proof.
  unfold cut_suffix. destruct (cut c s) as [[x y]|] eqn:Hs; intros [= <- <-].
  - apply cut_some in Hs as [-> _]. unfold suffix_text.
    destruct (Split_cons y ".") as (p & ps & Hy). rewrite <-(joined_Split "." y) at 1. by rewrite Hy.
  - by rewrite append_nil_r.
Qed.

Lemma cut_suffix_text c s l :
  char_in c s = false → Forall (λ x, char_in "." x = false) l →
  cut_suffix c (s +:+ suffix_text c l) = (s, l).
Proof.
  intros Hs Hl. unfold cut_suffix, suffix_text. destruct l as [|x l].
  - rewrite append_nil_r. by rewrite (proj2 (cut_none c s) Hs).
  - rewrite (proj2 (cut_some c _ s _) (conj eq_refl Hs)). by rewrite Split_joined.
Qed.

Definition patch_text (v : Version) : string :=
  Strconv.itoa (Patch v) +:+ suffix_text "-" (map PRVersion_String (Pre v)) +:+
  suffix_text "+" (Build v).

Lemma String_text v :
  String_ v = Strconv.itoa (Major v) +:+ String "." (Strconv.itoa (Minor v) +:+
                String "." (patch_text v)).
Proof.
  unfold String_, patch_text, suffix_text. rewrite !dotted_joined.
  destruct (Pre v), (Build v); cbn [map]; rewrite ?append_nil_r, !append_assoc; reflexivity.
Qed.

(** A version that can be written and read. *)
Record wf_version (v : Version) : Prop := {
  wf_Major : uint64 (Major v); wf_Minor : uint64 (Minor v); wf_Patch : uint64 (Patch v);
  wf_Pre : Forall wf_pre (Pre v); wf_Build : Forall wf_build (Build v)
}.

Lemma itoa_avoids c n : 0 ≤ n → char_in c numbers = false → char_in c (Strconv.itoa n) = false.
Proof.
  intros Hn Hc. destruct (itoa_canonical n Hn) as (_ & Hd & _). by eapply containsOnly_avoids.
Qed.

Lemma wf_pre_text p : wf_pre p → containsOnly (PRVersion_String p) alphanum = true.
Proof.
  unfold wf_pre, PRVersion_String. destruct (IsNum p); [|by intros (_ & _ & ? & _)].
  intros [[? _] _]. apply numbers_alphanum. by destruct (itoa_canonical (VersionNum p)) as (_ & ? & _).
Qed.

(** A byte that is in no part is not between the dots either. *)
Lemma joined_avoids c l :
  Ascii.eqb "." c = false → Forall (λ x, char_in c x = false) l → char_in c (joined "." l) = false.
Proof.
  intros Hc Hall. induction Hall as [|x l Hx Hall IH]; [done|]. destruct l as [|y l]; [done|].
  change (joined "." (x :: y :: l)) with (x +:+ String "." (joined "." (y :: l))).
  rewrite char_in_append, Hx. cbn [orb]. by apply char_in_cons_false.
Qed.

Lemma alphanum_avoids c l :
  char_in c alphanum = false → Forall (λ x, containsOnly x alphanum = true) l →
  Forall (λ x, char_in c x = false) l.
Proof. intros Hc Hl. eapply Forall_impl; [exact Hl|]. intros x Hx. exact (containsOnly_avoids c x alphanum Hx Hc). Qed.

Lemma split_patch_text v :
  wf_version v → split_patch (patch_text v) =
    (Strconv.itoa (Patch v), map PRVersion_String (Pre v), Build v).
Proof.
  intros [_ _ [Hp _] Hpre Hbuild]. rewrite split_patch_cut. unfold patch_text. rewrite <-append_assoc.
  assert (Forall (λ x, containsOnly x alphanum = true) (map PRVersion_String (Pre v))) as Hpre'.
  { apply Forall_map. eapply Forall_impl; [exact Hpre|]. intros p. apply wf_pre_text. }
  assert (Forall (λ x, containsOnly x alphanum = true) (Build v)) as Hbuild'.
  { eapply Forall_impl; [exact Hbuild|]. by intros x [_ ?]. }
  rewrite cut_suffix_text; [|rewrite char_in_append, itoa_avoids by done; cbn [orb]|by apply alphanum_avoids].
  - rewrite cut_suffix_text; [done|by apply itoa_avoids|by apply alphanum_avoids].
  - unfold suffix_text. destruct (map PRVersion_String (Pre v)); [done|].
    apply char_in_cons_false. split; [done|]. apply joined_avoids; [done|]. by apply alphanum_avoids.
Qed.

(** ** Properties *)
Section properties.
Context (Quote : string → string).

Lemma Parse_String v : wf_version v → Parse Quote (String_ v) = inl v.
Proof.
  intros Hwf. pose proof Hwf as [HM Hm HP Hpre Hbuild]. pose proof HM as [HM0 _]. pose proof Hm as [Hm0 _].
  unfold Parse. rewrite bool_decide_eq_false_2.
  2: { rewrite String_text. by destruct (Strconv.itoa (Major v)). }
  rewrite (proj2 (SplitN_3 _ _ _ _) (conj (String_text v) (conj (itoa_avoids "." _ HM0 eq_refl)
             (itoa_avoids "." _ Hm0 eq_refl)))).
  rewrite (proj2 (parse_number_inl Quote _ _ _ (Major v))) by done.
  rewrite (proj2 (parse_number_inl Quote _ _ _ (Minor v))) by done.
  rewrite split_patch_text by done.
  rewrite (proj2 (parse_number_inl Quote _ _ _ (Patch v))) by done.
  rewrite (proj2 (parse_prerelease_inl Quote _ (Pre v))) by done.
  rewrite (proj2 (parse_build_inl Quote _ (Build v))) by done. by destruct v.
Qed.

Lemma String_Parse s v : Parse Quote s = inl v → wf_version v ∧ s = String_ v.
Proof.
  unfold Parse. case_bool_decide; [done|].
  destruct (SplitN s "." 3) as [|x [|y [|z [|]]]] eqn:Hs; try done.
  apply SplitN_3 in Hs as (-> & _ & _).
  destruct (parse_number Quote "major" "Major" x) as [major|] eqn:Hx; [|done].
  destruct (parse_number Quote "minor" "Minor" y) as [minor|] eqn:Hy; [|done].
  destruct (split_patch z) as [[p pre] b] eqn:Hz.
  destruct (parse_number Quote "patch" "Patch" p) as [patch|] eqn:Hp; [|done].
  destruct (parse_prerelease Quote pre) as [prs|] eqn:Hpre; [|done].
  destruct (parse_build Quote b) as [bs|] eqn:Hb; [|done]. intros [= <-].
  apply parse_number_inl in Hx as [HM ->], Hy as [Hm ->], Hp as [HP ->].
  apply parse_prerelease_inl in Hpre as [Hwp ->]. apply parse_build_inl in Hb as [Hwb ->].
  split; [done|]. rewrite String_text. do 3 f_equal. unfold patch_text. cbn [Patch Pre Build].
  rewrite split_patch_cut in Hz. destruct (cut_suffix "+" z) as [z1 b1] eqn:H1.
  destruct (cut_suffix "-" z1) as [z2 p2] eqn:H2. injection Hz as <- <- <-.
  apply cut_suffix_inv in H1, H2. by rewrite H1, H2, append_assoc.
Qed.

(** C39: The package is initialised exactly when the raw text, without its
    leading letters v, is the text of a well-formed semantic version, and then
    with that version; the parser and the printer are inverse on these.  Any
    other text panics before main runs. *)
Theorem version_init (Raw : string) (v : Version) (name : string) :
  version.init Quote Raw = Ret (v, name) ↔
  wf_version v ∧ String_ v = TrimLeft Raw "v" ∧ name = "ClusterAPIProviderKubevirt " +:+ Raw.
Proof.
  unfold version.init, MustParse. destruct (Parse Quote (TrimLeft Raw "v")) as [v'|err] eqn:Hp.
  - apply String_Parse in Hp as [Hwf ->]. cbn [mbind outcome_bind]. split.
    + by intros [= -> <-].
    + intros (Hv & Heq & ->). pose proof (Parse_String v Hv) as H1.
      rewrite Heq, (Parse_String v' Hwf) in H1. by injection H1 as ->.
  - split; [done|]. intros (Hv & Heq & _). by rewrite <-Heq, Parse_String in Hp.
Qed.

Example default_initialised :
  version.init Quote version.default_Raw =
  Ret (MkVersion 0 0 0 [MkPRVersion "was-not-built-properly" 0 false] [],
       "ClusterAPIProviderKubevirt v0.0.0-was-not-built-properly").
Proof. vm_compute. reflexivity. Qed.

(** What [git describe --always --abbrev=7] tells without tags. *)
Example commit_hash_panics :
  version.init Quote "f00dbab" =
  Panic "semver: Parse(f00dbab): No Major.Minor.Patch elements found".
Proof. vm_compute. reflexivity. Qed.
End properties.
