(* ===== verification/Registration.v ===== *)
(** * The registration of the provider's API types (pkg/apis)

    Go types are entered in a scheme under a group, a version and a kind.
    The packages collect functions that do it when they are initialised, and
    [apis.AddToScheme] runs them.  The scheme is apimachinery's: the maps
    between kinds and types; its converter and defaulting functions are left
    out, registering them fails on no type. *)

From S2P Require Import Prelude GoErrors.

Abbreviation GroupVersion := (string * string)%type.
Abbreviation GroupVersionKind := (string * string * string)%type.
(** A struct type: the path of its package and its name. *)
Abbreviation go_type := (string * string)%type.
Definition type_Name (t : go_type) : string := t.2.

(** ** runtime.Scheme *)
Record Scheme := MkScheme {
  gvkToType : gmap GroupVersionKind go_type;
  typeToGVK : gmap go_type (list GroupVersionKind);
  unversionedTypes : gmap go_type GroupVersionKind;
  unversionedKinds : gmap string go_type;
  observedVersions : list GroupVersion
}.
Definition APIVersionInternal := "__internal".

Definition set_observed (v : list GroupVersion) (s : Scheme) : Scheme :=
  MkScheme (gvkToType s) (typeToGVK s) (unversionedTypes s) (unversionedKinds s) v.
Definition set_known (gvk : GroupVersionKind) (t : go_type) (s : Scheme) : Scheme :=
  MkScheme (<[gvk:=t]> (gvkToType s)) (typeToGVK s) (unversionedTypes s) (unversionedKinds s)
    (observedVersions s).
Definition set_kinds (t : go_type) (l : list GroupVersionKind) (s : Scheme) : Scheme :=
  MkScheme (gvkToType s) (<[t:=l]> (typeToGVK s)) (unversionedTypes s) (unversionedKinds s)
    (observedVersions s).
Definition set_unversioned_type (t : go_type) (gvk : GroupVersionKind) (s : Scheme) : Scheme :=
  MkScheme (gvkToType s) (typeToGVK s) (<[t:=gvk]> (unversionedTypes s)) (unversionedKinds s)
    (observedVersions s).
Definition set_unversioned_kind (k : string) (t : go_type) (s : Scheme) : Scheme :=
  MkScheme (gvkToType s) (typeToGVK s) (unversionedTypes s) (<[k:=t]> (unversionedKinds s))
    (observedVersions s).

Definition addObservedVersion (version : GroupVersion) : Go Scheme unit :=
  if bool_decide (version.2 = "") || bool_decide (version.2 = APIVersionInternal) then mret tt
  else
    s ← go_get;
    if bool_decide (version ∈ observedVersions s) then mret tt
    else go_modify (set_observed (observedVersions s ++ [version])).

Definition AddKnownTypeWithName (gvk : GroupVersionKind) (t : go_type) : Go Scheme unit :=
  _ ← addObservedVersion gvk.1;
  if bool_decide (gvk.1.2 = "") then go_panic "version is required on all types"
  else
    s ← go_get;
    if match gvkToType s !! gvk with Some oldT => negb (bool_decide (oldT = t)) | None => false end
    then go_panic "Double registration of different types"
    else
      _ ← go_modify (set_known gvk t);
      s ← go_get;
      let gvks := default [] (typeToGVK s !! t) in
      if bool_decide (gvk ∈ gvks) then mret tt
      else go_modify (set_kinds t (gvks ++ [gvk])).

Fixpoint add_each (f : go_type → Go Scheme unit) (types : list go_type) : Go Scheme unit :=
  match types with
  | [] => mret tt
  | t :: types => _ ← f t; add_each f types
  end.

Definition AddKnownTypes (gv : GroupVersion) (types : list go_type) : Go Scheme unit :=
  _ ← addObservedVersion gv;
  add_each (λ t, AddKnownTypeWithName (gv, type_Name t) t) types.

Definition AddUnversionedTypes (version : GroupVersion) (types : list go_type) : Go Scheme unit :=
  _ ← addObservedVersion version;
  _ ← AddKnownTypes version types;
  add_each (λ t,
    let gvk := (version, type_Name t) in
    _ ← go_modify (set_unversioned_type t gvk);
    s ← go_get;
    if match unversionedKinds s !! gvk.2 with
       | Some old => negb (bool_decide (t = old)) | None => false end
    then go_panic "kind name must be unique in scheme"
    else go_modify (set_unversioned_kind gvk.2 t)) types.

(** ** meta/v1 *)
Module metav1.
Definition path := "k8s.io/apimachinery/pkg/apis/meta/v1".
Definition WatchEventKind := "WatchEvent".
Definition Unversioned : GroupVersion := ("", "v1").
Definition optionsTypes : list go_type :=
  map (pair path) ["ListOptions"; "GetOptions"; "DeleteOptions"; "CreateOptions";
                   "UpdateOptions"; "PatchOptions"].
Definition unversioned_types : list go_type :=
  map (pair path) ["Status"; "APIVersions"; "APIGroupList"; "APIGroup"; "APIResourceList"].

Definition AddToGroupVersion (groupVersion : GroupVersion) : Go Scheme unit :=
  _ ← AddKnownTypeWithName (groupVersion, WatchEventKind) (path, "WatchEvent");
  _ ← AddKnownTypeWithName ((groupVersion.1, APIVersionInternal), WatchEventKind)
        (path, "InternalEvent");
  _ ← AddKnownTypes groupVersion optionsTypes;
  AddUnversionedTypes Unversioned unversioned_types.
End metav1.

(** ** The builders *)

(** [runtime.SchemeBuilder]. *)
Definition SchemeBuilder : Type := list (Go Scheme (option goerror)).

Fixpoint SchemeBuilder_AddToScheme (sb : SchemeBuilder) : Go Scheme (option goerror) :=
  match sb with
  | [] => mret None
  | f :: sb =>
      err ← f;
      match err with Some err => mret (Some err) | None => SchemeBuilder_AddToScheme sb end
  end.

(** [scheme.Builder] of controller-runtime. *)
Module Builder.
Record Builder := MkBuilder { GroupVersion_ : GroupVersion; functions : SchemeBuilder }.

Definition Register (object : list go_type) (bld : Builder) : Builder :=
  MkBuilder (GroupVersion_ bld) (functions bld ++ [
    _ ← AddKnownTypes (GroupVersion_ bld) object;
    _ ← metav1.AddToGroupVersion (GroupVersion_ bld);
    mret None]).

Definition AddToScheme (bld : Builder) : Go Scheme (option goerror) :=
  SchemeBuilder_AddToScheme (functions bld).
End Builder.

(** ** The provider's packages *)
Module v1alpha1.
Definition path :=
  "github.com/openshift/cluster-api-provider-kubevirt/pkg/apis/kubevirtprovider/v1alpha1".
Definition SchemeGroupVersion : GroupVersion :=
  ("kubevirtproviderconfig.openshift.io", "v1alpha1").
Definition KubevirtMachineProviderSpec : go_type := (path, "KubevirtMachineProviderSpec").
Definition KubevirtMachineProviderStatus : go_type := (path, "KubevirtMachineProviderStatus").

(** The variable, and after the initialisation of the package. *)
Definition SchemeBuilder : Builder.Builder := Builder.MkBuilder SchemeGroupVersion [].
Definition init : Builder.Builder :=
  Builder.Register [KubevirtMachineProviderSpec; KubevirtMachineProviderStatus] SchemeBuilder.
End v1alpha1.

Module apis.
(** [AddToSchemes] after the initialisation. *)
Definition AddToSchemes : SchemeBuilder := [Builder.AddToScheme v1alpha1.init].
Definition AddToScheme : Go Scheme (option goerror) := SchemeBuilder_AddToScheme AddToSchemes.
End apis.



Definition kinds_of (s : Scheme) (t : go_type) : list GroupVersionKind :=
  default [] (typeToGVK s !! t).
(** Nothing is taken out. *)
Definition grows (s s' : Scheme) : Prop :=
  gvkToType s ⊆ gvkToType s' ∧ unversionedKinds s ⊆ unversionedKinds s' ∧
  ∀ t, kinds_of s t ⊆ kinds_of s' t.

#[export] Instance grows_preorder : PreOrder grows.
Proof.
  split; [by intros s; split_and!|].
  intros s1 s2 s3 (K1 & U1 & T1) (K2 & U2 & T2). split_and!; [etrans; eassumption..|].
  intros t gvk Hin. by apply T2, T1.
Qed.














