(* ===== verification/Conditions.v ===== *)
(** * Conditions and validation of a machine (machine-api-operator)

    pkg/util/conditions/setter.go, which keeps the list of conditions of a
    machine sorted and their transition times stable, pkg/util/util.go, and
    the validation of pkg/apis/machine/v1beta1/machine_types.go. *)

From S2P Require Import Prelude GoStd GoErrors Json Times ApiTypes ProviderConfig.
From stdpp Require Import sorting.
From Stdlib Require Import Ascii.
#[local] Open Scope Z_scope.

(** ** pkg/util/util.go *)
Fixpoint Filter (l : list string) (strToFilter : string) : list string :=
  match l with
  | [] => []
  | item :: l =>
      if bool_decide (item = strToFilter) then Filter l strToFilter
      else item :: Filter l strToFilter
  end.

Fixpoint Contains (l : list string) (strToSearch : string) : bool :=
  match l with
  | [] => false
  | item :: l => bool_decide (item = strToSearch) || Contains l strToSearch
  end.

Lemma Contains_spec l s : Contains l s = true ↔ s ∈ l.
Proof.
  induction l as [|x l IH]; simpl; [split; [done|by intros ?%elem_of_nil]|].
  rewrite orb_true_iff, bool_decide_eq_true, elem_of_cons, IH.
  split; (intros [->|]; [by left|by right]).
Qed.

Lemma elem_of_Filter l s x : x ∈ Filter l s ↔ x ∈ l ∧ x ≠ s.
Proof.
  induction l as [|y l IH]; simpl; [rewrite elem_of_nil; by split; [|intros []]|].
  case_bool_decide as Hy; rewrite ?elem_of_cons, IH; split.
  - by intros [? ?]; split; [right|].
  - by intros [[->|] ?].
  - by intros [->|[? ?]]; (split; [|done]); [left|right].
  - by intros [[->|] ?]; [left|right].
Qed.

(** ** Validation

    The two errors [Validate] can find, in its order. *)
Inductive field_error := MissingClusterLabel | MissingProviderSpec.

Definition Validate (m : Mapi.Machine) : list field_error :=
  (if bool_decide (default "" (map_index (Meta.Labels (Mapi.MachineMeta m))
                                 Mapi.MachineClusterIDLabel) = "")
   then [MissingClusterLabel] else []) ++
  (match Mapi.ProviderSpecValue (Mapi.Spec m) with
   | None => [MissingProviderSpec]
   | Some _ => []
   end).

Lemma Validate_nil m :
  Validate m = [] ↔
    default "" (map_index (Meta.Labels (Mapi.MachineMeta m)) Mapi.MachineClusterIDLabel) ≠ "" ∧
    is_Some (Mapi.ProviderSpecValue (Mapi.Spec m)).
Proof.
  unfold Validate. case_bool_decide as Hlabel; simpl; [by split; [|intros []]|].
  destruct (Mapi.ProviderSpecValue _); split; [by eauto|done|done|by intros [_ [? ?]]].
Qed.

(** ** pkg/util/conditions/setter.go *)
Module conditions.
Definition ConditionTrue := "True".
Definition ConditionFalse := "False".
Definition ConditionUnknown := "Unknown".
Definition ConditionSeverityWarning := "Warning".
Definition InstanceExistsCondition := "InstanceExists".
Definition ErrorCheckingProviderReason := "ErrorCheckingProvider".
Definition InstanceMissingReason := "InstanceMissing".
Definition InstanceNotCreatedReason := "InstanceNotCreated".

(** Times are nanoseconds since 1970. *)
Definition second : Z := 10 ^ 9.
Definition zeroTime : Z := Rfc3339.zero.
(** [Truncate(time.Second)]. *)
Definition truncate (now : Z) : Z := now - now mod second.

Definition at_time (t : Z) (c : Mapi.Condition) : Mapi.Condition :=
  Mapi.MkCondition (Mapi.CondType c) (Mapi.CondStatus c) (Mapi.CondSeverity c) t
    (Mapi.CondReason c) (Mapi.CondMessage c).

Definition hasSameState (i j : Mapi.Condition) : bool :=
  bool_decide (Mapi.CondType i = Mapi.CondType j) &&
  bool_decide (Mapi.CondStatus i = Mapi.CondStatus j) &&
  bool_decide (Mapi.CondReason i = Mapi.CondReason j) &&
  bool_decide (Mapi.CondSeverity i = Mapi.CondSeverity j) &&
  bool_decide (Mapi.CondMessage i = Mapi.CondMessage j).

Definition lexicographicLess (i j : Mapi.Condition) : bool :=
  match str_compare (Mapi.CondType i) (Mapi.CondType j) with Lt => true | _ => false end.

Definition TrueCondition (t : string) : Mapi.Condition :=
  Mapi.MkCondition t ConditionTrue "" zeroTime "" "".
Definition FalseCondition (t reason severity message : string) : Mapi.Condition :=
  Mapi.MkCondition t ConditionFalse severity zeroTime reason message.
Definition UnknownCondition (t reason message : string) : Mapi.Condition :=
  Mapi.MkCondition t ConditionUnknown "" zeroTime reason message.

(** [sort.Slice]: insertion from the right, as it does for short slices. *)
Fixpoint insert_sorted (c : Mapi.Condition) (l : list Mapi.Condition) : list Mapi.Condition :=
  match l with
  | [] => [c]
  | x :: l => if lexicographicLess c x then c :: x :: l else x :: insert_sorted c l
  end.
Definition sort_conditions (l : list Mapi.Condition) : list Mapi.Condition :=
  foldl (λ acc c, insert_sorted c acc) [] l.

(** The loop over the conditions; [None] when the type is not among them. *)
Fixpoint set_existing (now : Z) (condition : Mapi.Condition) (l : list Mapi.Condition)
    : option (list Mapi.Condition) :=
  match l with
  | [] => None
  | existingCondition :: l =>
      if bool_decide (Mapi.CondType existingCondition = Mapi.CondType condition) then
        Some ((if hasSameState existingCondition condition then existingCondition
               else at_time (truncate now) condition) :: l)
      else (λ l, existingCondition :: l) <$> set_existing now condition l
  end.

Definition set_condition (now : Z) (condition : Mapi.Condition) (l : list Mapi.Condition)
    : list Mapi.Condition :=
  sort_conditions
    match set_existing now condition l with
    | Some l => l
    | None =>
        l ++ [if Mapi.CondLastTransitionTime condition =? zeroTime
              then at_time (truncate now) condition else condition]
    end.

(** [Set]: the time is read when the state changes. *)
Definition Set_ (now : Z) (condition : Mapi.Condition) (m : Mapi.Machine) : Mapi.Machine :=
  Mapi.set_Conditions (set_condition now condition (Mapi.Conditions (Mapi.Status m))) m.

Definition MarkTrue (now : Z) (t : string) (m : Mapi.Machine) : Mapi.Machine :=
  Set_ now (TrueCondition t) m.

(** *** Sorting *)
Definition le_type (i j : Mapi.Condition) : Prop := lexicographicLess j i = false.
Abbreviation types l := (map Mapi.CondType l).

Lemma str_compare_gt_trans s t u :
  str_compare s t = Gt → str_compare t u = Gt → str_compare s u = Gt.
Proof. rewrite !str_compare_gt. intros Hst Htu. by apply (str_compare_trans _ t). Qed.

Lemma NoDup_types_inj l x y :
  NoDup (types l) → x ∈ l → y ∈ l → Mapi.CondType x = Mapi.CondType y → x = y.
Proof.
  induction l as [|z l IH]; simpl; [by intros _ ?%elem_of_nil|].
  intros [Hz Hnd]%NoDup_cons Hx Hy Hxy. apply elem_of_cons in Hx, Hy.
  destruct Hx as [->|Hx], Hy as [->|Hy]; [done|..|by apply IH].
  - destruct Hz. rewrite Hxy. by apply list_elem_of_fmap_2.
  - destruct Hz. rewrite <-Hxy. by apply list_elem_of_fmap_2.
Qed.

Lemma insert_sorted_perm c l : insert_sorted c l ≡ₚ c :: l.
Proof.
  induction l as [|x l IH]; simpl; [done|]. case_match; [done|].
  rewrite IH. apply Permutation_swap.
Qed.

Lemma sort_conditions_perm l : sort_conditions l ≡ₚ l.
Proof.
  unfold sort_conditions. change l with ([] ++ l) at 2. generalize (@nil Mapi.Condition).
  induction l as [|c l IH]; intros acc; simpl; [by rewrite app_nil_r|].
  rewrite IH, insert_sorted_perm. simpl. by rewrite Permutation_middle.
Qed.

Lemma le_type_total i j : le_type i j ∨ le_type j i.
Proof.
  unfold le_type, lexicographicLess. rewrite str_compare_antisym.
  destruct (str_compare (Mapi.CondType i) _); simpl; auto.
Qed.

Lemma le_type_antisymm i j : le_type i j → le_type j i → Mapi.CondType i = Mapi.CondType j.
Proof.
  unfold le_type, lexicographicLess. rewrite str_compare_antisym.
  destruct (str_compare (Mapi.CondType i) _) eqn:Hc; simpl; try done.
  by apply str_compare_eq in Hc.
Qed.

#[global] Instance le_type_trans : Transitive le_type.
Proof.
  intros i j k. unfold le_type, lexicographicLess.
  destruct (str_compare (Mapi.CondType j) (Mapi.CondType i)) eqn:Hji; [| done|];
  destruct (str_compare (Mapi.CondType k) (Mapi.CondType j)) eqn:Hkj; try done.
  - apply str_compare_eq in Hji, Hkj. rewrite Hkj, Hji. by rewrite (proj2 (str_compare_eq _ _)).
  - apply str_compare_eq in Hji. by rewrite <-Hji, Hkj.
  - apply str_compare_eq in Hkj. by rewrite Hkj, Hji.
  - by rewrite (str_compare_gt_trans _ _ _ Hkj Hji).
Qed.

Lemma insert_sorted_sorted c l : StronglySorted le_type l → StronglySorted le_type (insert_sorted c l).
Proof.
  induction 1 as [|x l Hl IH Hx]; simpl; [by repeat constructor|].
  destruct (lexicographicLess c x) eqn:Hless.
  - assert (le_type c x) as Hcx.
    { destruct (le_type_total c x) as [|Hxc]; [done|]. unfold le_type in Hxc. congruence. }
    constructor; [by constructor|]. constructor; [done|].
    eapply Forall_impl; [exact Hx|]. intros y Hy. by etrans.
  - constructor; [done|]. rewrite insert_sorted_perm. by constructor.
Qed.

Lemma sort_conditions_sorted l : StronglySorted le_type (sort_conditions l).
Proof.
  unfold sort_conditions. assert (StronglySorted le_type []) as H0 by constructor.
  revert H0. generalize (@nil Mapi.Condition). induction l as [|c l IH]; intros acc Hacc; simpl; [done|].
  by apply IH, insert_sorted_sorted.
Qed.

(** With one condition of each type, every way to sort gives this list. *)
Lemma sort_conditions_unique l l' :
  NoDup (types l) → l' ≡ₚ l → StronglySorted le_type l' → l' = sort_conditions l.
Proof.
  intros Hnd Hp Hs. apply (StronglySorted_unique_strong le_type); [|done|apply sort_conditions_sorted|
    by rewrite Hp, sort_conditions_perm].
  intros x y Hx Hy Hxy Hyx. rewrite Hp in Hx. rewrite sort_conditions_perm in Hy.
  by apply (NoDup_types_inj l); [|..|apply le_type_antisymm].
Qed.

Lemma sort_conditions_id l : NoDup (types l) → StronglySorted le_type l → sort_conditions l = l.
Proof. intros Hnd Hs. symmetry. by apply sort_conditions_unique. Qed.

(** *** Setting a condition *)
Lemma hasSameState_iff i j : hasSameState i j = true ↔ at_time 0 i = at_time 0 j.
Proof.
  destruct i, j. unfold hasSameState, at_time. simpl.
  rewrite !andb_true_iff, !bool_decide_eq_true.
  split; [by intros [[[[-> ->] ->] ->] ->]|by intros [= -> -> -> -> ->]].
Qed.

Lemma hasSameState_at_time t c : hasSameState (at_time t c) c = true.
Proof. by apply hasSameState_iff. Qed.

Lemma hasSameState_refl c : hasSameState c c = true.
Proof. by apply hasSameState_iff. Qed.

Lemma set_existing_cases now c l :
  match set_existing now c l with
  | Some l' => ∃ pre e post, l = pre ++ e :: post ∧ Mapi.CondType e = Mapi.CondType c ∧
      l' = pre ++ (if hasSameState e c then e else at_time (truncate now) c) :: post
  | None => Mapi.CondType c ∉ types l
  end.
Proof.
  induction l as [|e l IH]; simpl; [by intros ?%elem_of_nil|].
  case_bool_decide as Hty; [by exists [], e, l|].
  destruct (set_existing now c l) as [l'|]; simpl.
  - destruct IH as (pre & e' & post & -> & Hty' & ->). by exists (e :: pre), e', post.
  - by intros [Heq|Hin]%elem_of_cons.
Qed.

(** What is in the list beside the sorting: the old conditions of the other
    types, and one of this type in the state asked for. *)
Lemma set_condition_parts now c l :
  NoDup (types l) →
  ∃ rest c', (set_condition now c l ≡ₚ c' :: rest) ∧ (Mapi.CondType c ∉ types rest) ∧
    NoDup (types rest) ∧ hasSameState c' c = true ∧
    ((∃ e, (l ≡ₚ e :: rest) ∧ Mapi.CondType e = Mapi.CondType c ∧
           c' = if hasSameState e c then e else at_time (truncate now) c) ∨
     (l = rest ∧ c' = if Mapi.CondLastTransitionTime c =? zeroTime
                      then at_time (truncate now) c else c)).
Proof.
  intros Hnd. unfold set_condition. pose proof (set_existing_cases now c l) as Hset.
  destruct (set_existing now c l) as [l'|].
  - destruct Hset as (pre & e & post & -> & Hty & ->).
    exists (pre ++ post), (if hasSameState e c then e else at_time (truncate now) c).
    rewrite sort_conditions_perm, <-!Permutation_middle in *. simpl in Hnd.
    rewrite Hty in Hnd. apply NoDup_cons in Hnd as [Hnot Hnd]. split_and!; try done.
    + destruct (hasSameState e c) eqn:Hs; [done|apply hasSameState_at_time].
    + left. exists e. by rewrite <-Permutation_middle.
  - exists l, (if Mapi.CondLastTransitionTime c =? zeroTime
               then at_time (truncate now) c else c).
    rewrite sort_conditions_perm, Permutation_app_comm. split_and!; try done.
    + case_match; [apply hasSameState_at_time|apply hasSameState_refl].
    + by right.
Qed.

Lemma set_condition_sorted now c l : StronglySorted le_type (set_condition now c l).
Proof. apply sort_conditions_sorted. Qed.

Lemma hasSameState_type i j : hasSameState i j = true → Mapi.CondType i = Mapi.CondType j.
Proof. intros Hs%hasSameState_iff. by injection Hs. Qed.

Lemma set_condition_NoDup now c l : NoDup (types l) → NoDup (types (set_condition now c l)).
Proof.
  intros Hnd. destruct (set_condition_parts now c l Hnd) as (rest & c' & Hp & Hn & Hr & Hs & _).
  rewrite Hp. simpl. rewrite (hasSameState_type c' c Hs). by constructor.
Qed.

(** A list that has the condition already in this state. *)
Lemma set_condition_same now c c' l :
  NoDup (types l) → StronglySorted le_type l → c' ∈ l → hasSameState c' c = true →
  set_condition now c l = l.
Proof.
  intros Hnd Hsort Hin Hs. unfold set_condition.
  pose proof (set_existing_cases now c l) as Hset. destruct (set_existing now c l) as [l'|].
  - destruct Hset as (pre & e & post & -> & Hty & ->).
    assert (e = c') as ->.
    { eapply NoDup_types_inj; [exact Hnd|by apply elem_of_app; right; left|done|].
      by rewrite Hty, (hasSameState_type c' c Hs). }
    rewrite Hs. by apply sort_conditions_id.
  - destruct Hset. rewrite <-(hasSameState_type c' c Hs). by apply list_elem_of_fmap_2.
Qed.

(** C40: Setting a condition keeps one condition of each type, sorted by type,
    and the conditions of the other types.  The one of its type has the state
    asked for; its transition time is the old one when the state was the same
    and the time of the call, in whole seconds, when it was another. *)
Theorem Set_result now c l (Hnd : NoDup (types l)) :
  let l' := set_condition now c l in
  StronglySorted le_type l' ∧ NoDup (types l') ∧
  (∀ e, Mapi.CondType e ≠ Mapi.CondType c → e ∈ l' ↔ e ∈ l) ∧
  ∃ c', c' ∈ l' ∧ hasSameState c' c = true ∧
    ∀ e, e ∈ l → Mapi.CondType e = Mapi.CondType c →
      if hasSameState e c then c' = e else Mapi.CondLastTransitionTime c' = truncate now.
Proof.
  intros l'. split; [apply set_condition_sorted|]. split; [by apply set_condition_NoDup|].
  destruct (set_condition_parts now c l Hnd) as (rest & c' & Hp & Hn & Hr & Hs & Hcase).
  pose proof (hasSameState_type c' c Hs) as Hty. subst l'. split.
  - intros e He. rewrite Hp, elem_of_cons.
    destruct Hcase as [(e' & -> & Hty' & _)|[-> _]]; [rewrite elem_of_cons|];
      split; [intros [->|]|intros [->|]|intros [->|]|]; try done; by (right || auto).
  - exists c'. split; [rewrite Hp; by left|]. split; [done|]. intros e He Hte.
    destruct Hcase as [(e' & Hl & Hty' & Hc')|[Hl _]].
    + rewrite Hl in He. apply elem_of_cons in He as [->|He].
      * rewrite Hc'. by destruct (hasSameState e' c).
      * destruct Hn. rewrite <-Hte. by apply list_elem_of_fmap_2.
    + subst rest. destruct Hn. rewrite <-Hte. by apply list_elem_of_fmap_2.
Qed.

Lemma set_condition_idempotent now now' c l :
  NoDup (types l) →
  set_condition now' c (set_condition now c l) = set_condition now c l.
Proof.
  intros Hnd. destruct (set_condition_parts now c l Hnd) as (rest & c' & Hp & _ & _ & Hs & _).
  apply (set_condition_same _ _ c');
    [by apply set_condition_NoDup|apply set_condition_sorted| |done].
  rewrite Hp. by left.
Qed.

Definition example_conditions : list Mapi.Condition :=
  [Mapi.MkCondition "Drained" "True" "" 7 "" ""; TrueCondition InstanceExistsCondition].

Lemma Set_result_witness :
  let c := FalseCondition InstanceExistsCondition InstanceMissingReason
             ConditionSeverityWarning "Instance not found on provider" in
  let l' := set_condition 1500000000 c example_conditions in
  StronglySorted le_type l' ∧ NoDup (types l') ∧
  (∀ e, Mapi.CondType e ≠ InstanceExistsCondition → e ∈ l' ↔ e ∈ example_conditions) ∧
  ∃ c', c' ∈ l' ∧ hasSameState c' c = true ∧
    ∀ e, e ∈ example_conditions → Mapi.CondType e = InstanceExistsCondition →
      if hasSameState e c then c' = e else Mapi.CondLastTransitionTime c' = truncate 1500000000.
Proof.
  apply (Set_result 1500000000 (FalseCondition InstanceExistsCondition InstanceMissingReason
             ConditionSeverityWarning "Instance not found on provider") example_conditions).
  apply (bool_decide_unpack _). vm_compute. exact I.
Defined.

Example Set_example :
  types (set_condition 1500000000 (TrueCondition "Drained") example_conditions) =
    ["Drained"; "InstanceExists"].
Proof. reflexivity. Qed.
End conditions.
