(* ===== verification/NodeUpdate.v ===== *)
(** * The node controller (pkg/controller/nodeupdate/nodeupdate_controller.go)

    For each node of the tenant cluster, the controller deletes the node when
    its virtual machine is gone, comes back later when the virtual machine is
    not ready, and otherwise gives the node its provider ID. *)

From S2P Require Import Prelude GoStd GoErrors Json ApiTypes TenantCluster InfraCluster.
From S2P Require Import MachineScope Kubevirt Actuator.

(** [reconcile.Result]; nanoseconds. *)
Record Result := MkResult { Requeue : bool; RequeueAfter : Z }.
Definition noResult : Result := MkResult false 0.
Definition requeueDurationWhenVMNotReady : Z := 60 * 10 ^ 9.

(** The runtime client on nodes. *)
Class NodeApi (TW : Type) := {
  node_Get : string → string → Go TW (result Core.Node);
  node_Delete : Core.Node → Go TW (option goerror);
  node_Update : Core.Node → Go TW (option goerror)
}.

Definition node_Name (n : Core.Node) : string := Meta.Name (Core.NodeMeta n).

Section nodeupdate.
Context {TW IW : Type} `{!TenantCluster.Client TW, !NodeApi TW, !InfraCluster.Client IW}.

Definition Reconcile (namespace name : string) : Go (TW * IW) (Result * option goerror) :=
  r ← go_fst (node_Get namespace name);
  match r with
  | inr err =>
      if IsNotFound err then mret (noResult, None)
      else mret (noResult, Some (ErrorString ("error getting node: " +:+ Error err)))
  | inl node =>
      r ← go_fst (GetConfigMapValue configMapName configMapNamespace configMapDataKeyName);
      match r with
      | inr err => mret (noResult, Some err)
      | inl cMap =>
          match map_index cMap configMapInfraNamespaceKeyName with
          | None =>
              mret (noResult, Some (ErrorString
                ("ProviderID: configMap " +:+ configMapNamespace +:+ "/" +:+ configMapName
                 +:+ ": The map extracted with key " +:+ configMapDataKeyName
                 +:+ " doesn't contain key " +:+ configMapInfraNamespaceKeyName)))
          | Some infraClusterNamespace =>
              r ← go_snd (GetVirtualMachine infraClusterNamespace (node_Name node)
                            (Meta.MkGetOptions ""));
              match r with
              | inr err =>
                  if IsNotFound err then
                    r ← go_fst (node_Delete node);
                    mret (noResult, match r with
                      | Some err => Some (ErrorString
                          (node_Name node +:+ ": Error deleting Node, with error: "
                           +:+ Error err))
                      | None => None
                      end)
                  else mret (noResult, Some (ErrorString
                         (node_Name node +:+ ": Error getting Virtual Machine, with error: "
                          +:+ Error err)))
              | inl vm =>
                  if negb (KV.Ready (KV.VMStatus vm)) then
                    mret (MkResult true requeueDurationWhenVMNotReady, None)
                  else if negb (bool_decide (Core.NodeProviderID node = "")) then
                    mret (noResult, None)
                  else
                    let node := Core.set_NodeProviderID
                      (FormatProviderID infraClusterNamespace (node_Name node)) node in
                    r ← go_fst (node_Update node);
                    mret (noResult, match r with
                      | Some err => Some (ErrorString
                          (node_Name node +:+ ": failed updating node, with error: "
                           +:+ Error err))
                      | None => None
                      end)
              end
          end
      end
  end.
End nodeupdate.

(** ** Nodes as the API server keeps them *)
Section laws.
Context {TW : Type}.
Implicit Types (t : TW) (name : string).

Class NodeView := { node_at : TW → string → option Core.Node }.
Context `{!NodeView, !TenantView (TW:=TW)}.

Definition node_becomes name (o : option Core.Node) t t' : Prop :=
  node_at t' name = o ∧ (∀ name', name' ≠ name → node_at t' name' = node_at t name') ∧
  (∀ ns n, configmap_at t' ns n = configmap_at t ns n).
Definition nodes_same t t' : Prop :=
  (∀ name, node_at t' name = node_at t name) ∧
  (∀ ns n, configmap_at t' ns n = configmap_at t ns n).

(** Gone, or marked until its finalizers have run. *)
Definition node_removed name t t' : Prop :=
  node_becomes name None t t' ∨
  ∃ n, node_becomes name (Some n) t t' ∧ Meta.DeletionTimestamp (Core.NodeMeta n) ≠ None.
Definition node_written (n : Core.Node) t t' : Prop :=
  ∃ n', node_becomes (node_Name n) (Some n') t t' ∧
        Core.NodeProviderID n' = Core.NodeProviderID n.

Class NodeLaws `{!NodeApi TW} := {
  node_at_named t name n : node_at t name = Some n → node_Name n = name;
  node_Get_spec ns name t :
    wp (node_Get ns name)
      (λ r t', t' = t ∧ match r with
                        | inl n => node_at t name = Some n
                        | inr e => IsNotFound e = true → node_at t name = None
                        end) no_panic t;
  node_Delete_spec n t :
    wp (node_Delete n)
      (λ r t', match r with
               | None => node_removed (node_Name n) t t'
               | Some _ => nodes_same t t' ∨ node_removed (node_Name n) t t'
               end) no_panic t;
  node_Update_spec n t :
    wp (node_Update n)
      (λ r t', match r with
               | None => node_written n t t'
               | Some _ => nodes_same t t' ∨ node_written n t t'
               end) no_panic t
}.

(** The namespace the configuration names. *)
Definition infra_namespace t : option string :=
  c ← configmap_at t configMapNamespace configMapName;
  v ← config_value c configMapDataKeyName;
  map_index v configMapInfraNamespaceKeyName.
End laws.

(** ** What a reconciliation does *)
Section spec.
Context {TW IW : Type}
  `{!TenantCluster.Client TW, !TenantView (TW:=TW), !TenantCluster.ClientLaws (TW:=TW),
    !NodeApi TW, !NodeView (TW:=TW), !NodeLaws (TW:=TW)}
  `{!InfraCluster.Client IW, !InfraCluster.ClientView (IW:=IW),
    !InfraCluster.ClientLaws (IW:=IW)}.
Implicit Types (t : TW) (i : IW) (name : string).

(** What the controller may do to a node, and when. *)
Inductive node_action name t i t' : Prop :=
  | node_left (Hsame : nodes_same t t')
  | node_deleted node ns (Hnode : node_at t name = Some node)
      (Hns : infra_namespace t = Some ns) (Hvm : vm_at i ns name = None)
      (Hdel : node_removed name t t')
  | node_identified node ns vm (Hnode : node_at t name = Some node)
      (Hns : infra_namespace t = Some ns) (Hvm : vm_at i ns name = Some vm)
      (Hready : KV.Ready (KV.VMStatus vm) = true) (Hempty : Core.NodeProviderID node = "")
      (Hset : node_written (Core.set_NodeProviderID (FormatProviderID ns name) node) t t').

(** When it reports that it is done. *)
Definition node_settled name t i t' : Prop :=
  (node_at t name = None ∧ nodes_same t t') ∨
  (∃ ns, infra_namespace t = Some ns ∧ vm_at i ns name = None ∧ node_removed name t t') ∨
  (∃ ns vm n, infra_namespace t = Some ns ∧ vm_at i ns name = Some vm ∧
     KV.Ready (KV.VMStatus vm) = true ∧ node_at t' name = Some n ∧
     Core.NodeProviderID n ≠ "").

(** When it wants to come back. *)
Definition node_waiting name t i : Prop :=
  ∃ ns vm, infra_namespace t = Some ns ∧ vm_at i ns name = Some vm ∧
    KV.Ready (KV.VMStatus vm) = false.

Lemma nodes_same_refl t : nodes_same t t.
Proof. done. Qed.

Lemma FormatProviderID_nonempty ns name : FormatProviderID ns name ≠ "".
Proof. unfold FormatProviderID. by rewrite append_cons. Qed.

Lemma Reconcile_spec namespace name t i :
  wp (Reconcile namespace name)
    (λ '(r, err) '(t', i'), i' = i ∧ node_action name t i t' ∧
       (err = None →
          if Requeue r then RequeueAfter r = requeueDurationWhenVMNotReady ∧
                            node_waiting name t i ∧ t' = t
          else node_settled name t i t'))
    no_panic (t, i).
Proof.
  unfold Reconcile. do 2 go_step. go_call node_Get_spec. intros [node|e] t1 [-> Hnode].
  2: { destruct (IsNotFound e) eqn:He; go_step; (split; [done|]);
         (split; [by apply node_left|]); [|by intros [=]].
       intros _. left. split; [by apply Hnode|done]. }
  pose proof (node_at_named _ _ _ Hnode) as Hname.
  do 2 go_step. go_call GetConfigMapValue_spec. intros [cMap|e] t1 [-> Hcfg].
  2: { go_step. split; [done|]. by split; [apply node_left|intros [=]]. }
  destruct (map_index cMap configMapInfraNamespaceKeyName) as [ns|] eqn:Hkey.
  2: { go_step. split; [done|]. by split; [apply node_left|intros [=]]. }
  assert (infra_namespace t = Some ns) as Hns.
  { destruct Hcfg as (c & Hc & Hv). unfold infra_namespace. by rewrite Hc; simpl; rewrite Hv. }
  do 2 go_step. rewrite Hname. go_call (GetVirtualMachine_spec (IW:=IW)).
  intros [vm|e] i1 [-> Hvm].
  - destruct (KV.Ready (KV.VMStatus vm)) eqn:Hready; simpl.
    2: { go_step. split; [done|]. split; [by apply node_left|]. intros _.
         split; [done|]. split; [|done]. by exists ns, vm. }
    case_bool_decide as Hempty; simpl.
    2: { go_step. split; [done|]. split; [by apply node_left|]. intros _.
         right; right. by exists ns, vm, node. }
    do 2 go_step. go_call node_Update_spec. intros [e|] t' Hw; go_step; (split; [done|]).
    + split; [|by intros [=]]. destruct Hw; [by apply node_left|by eapply node_identified].
    + split; [by eapply node_identified|]. intros _. right; right.
      destruct Hw as (n' & [Hn' _] & Hp). unfold node_Name in *; simpl in Hn'.
      rewrite Hname in Hn'. exists ns, vm, n'. split_and!; try done.
      rewrite Hp. apply FormatProviderID_nonempty.
  - destruct (IsNotFound e) eqn:He.
    2: { go_step. split; [done|]. by split; [apply node_left|intros [=]]. }
    do 2 go_step. go_call node_Delete_spec. rewrite Hname.
    intros [e'|] t' Hd; go_step; (split; [done|]).
    + split; [|by intros [=]]. destruct Hd; [by apply node_left|].
      eapply node_deleted; eauto.
    + split; [eapply node_deleted; eauto|]. intros _. right; left. eauto.
Qed.

(** A node that has a provider ID and whose virtual machine exists is left
    alone, and so is everything else. *)
Lemma Reconcile_stable namespace name t i n
    (Hnode : node_at t name = Some n) (Hid : Core.NodeProviderID n ≠ "")
    (Hvm : ∀ ns, infra_namespace t = Some ns → is_Some (vm_at i ns name)) :
  wp (Reconcile namespace name) (λ _ w', w' = (t, i)) no_panic (t, i).
Proof.
  unfold Reconcile. do 2 go_step. go_call node_Get_spec. intros [node|e] t1 [-> Hr].
  2: { rewrite Hnode in Hr. destruct (IsNotFound e); [by discriminate Hr|by go_step]. }
  rewrite Hnode in Hr. injection Hr as <-. pose proof (node_at_named _ _ _ Hnode) as Hname.
  do 2 go_step. go_call GetConfigMapValue_spec. intros [cMap|e] t1 [-> Hcfg]; [|by go_step].
  destruct (map_index cMap configMapInfraNamespaceKeyName) as [ns|] eqn:Hkey; [|by go_step].
  assert (infra_namespace t = Some ns) as [vm Hsome]%Hvm.
  { destruct Hcfg as (c & Hc & Hv). unfold infra_namespace. by rewrite Hc; simpl; rewrite Hv. }
  do 2 go_step. rewrite Hname. go_call (GetVirtualMachine_spec (IW:=IW)).
  intros [vm'|e] i1 [-> Hr].
  - destruct (KV.Ready _); simpl; [|by go_step].
    case_bool_decide; [done|]. simpl; by go_step.
  - destruct (IsNotFound e); [|by go_step]. rewrite Hr in Hsome; done.
Qed.
End spec.
