(* ===== verification/MachineController.v ===== *)
(** * The machine controller (machine-api-operator, pkg/controller/machine)

    The library's controller that main registers with the provider's
    actuator.  For each machine of the tenant cluster it keeps the finalizer,
    the phase and the conditions, and calls the actuator: Create for a machine
    without an instance, Update for one with an instance, and Delete until the
    instance is gone, after which it gives up the finalizer.  Its world is that
    of the actuator; the machine it read is the first component. *)

From S2P Require Import Prelude GoStd GoErrors Json ApiTypes ProviderConfig TenantCluster.
From S2P Require Import UserData MachineScope InfraCluster Kubevirt Actuator.
From S2P Require Import Conditions NodeUpdate.
From Stdlib Require Import Ascii.
#[local] Open Scope Z_scope.

(** The interface [Actuator] of the package; [W] is what it acts on. *)
Record MachineActuator (W : Type) := MkMachineActuator {
  act_Create : Go (Mapi.Machine * W) (option goerror);
  act_Delete : Go (Mapi.Machine * W) (option goerror);
  act_Update : Go (Mapi.Machine * W) (option goerror);
  act_Exists : Go (Mapi.Machine * W) (bool * option goerror)
}.
Arguments act_Create {W}.
Arguments act_Delete {W}.
Arguments act_Update {W}.
Arguments act_Exists {W}.

(** [drain.Helper], the fields the controller sets; the timeout in seconds. *)
Record Helper := MkHelper {
  Force : bool; IgnoreAllDaemonSets : bool; DeleteEmptyDirData : bool;
  GracePeriodSeconds : Z; Timeout : Z; SkipWaitForDeleteTimeoutSeconds : Z }.

(** What the controller calls of its libraries, beside the patches of
    [TenantApi] and the node calls of [NodeApi]: reading and updating a
    machine, the text of validation errors and of [%q], a client for the
    drain, the drain itself, the clock and the phase metric. *)
Class MachineApi (TW : Type) := {
  machine_Get : string → string → Go TW (result Mapi.Machine);
  machine_Update : Go (Mapi.Machine * TW) (option goerror);
  validation_text : list field_error → Mapi.Machine → string;
  quote_text : string → string;
  NewForConfig : Go TW (option goerror);
  kube_node_Get : string → Go TW (result Core.Node);
  RunCordonOrUncordon : Helper → Core.Node → bool → Go TW (option goerror);
  RunNodeDrain : Helper → string → Go TW (option goerror);
  now : Go TW Z;
  observe_phase : string → Z → Go TW unit
}.

(** The unstructured converter on a raw extension; reading anything but an
    object panics. *)
Class StatusConverter := {
  ToUnstructured : RawExtension → outcome (result obj);
  FromUnstructured : obj → RawExtension → result RawExtension
}.

Definition requeueAfter : Z := 30 * conditions.second.
Definition ExcludeNodeDrainingAnnotation := "machine.openshift.io/exclude-node-draining".
Definition phaseFailed := "Failed".
Definition phaseProvisioning := "Provisioning".
Definition phaseProvisioned := "Provisioned".
Definition phaseRunning := "Running".
Definition phaseDeleting := "Deleting".
Definition unknownInstanceState := "Unknown".
Definition skipWaitForDeleteTimeoutSeconds : Z := 1.
Definition instanceStateField := "instanceState".
Definition vmStateField := "vmState".
Definition NodeReady := "Ready".

Definition stringPointerDeref (p : option string) : string := default "" p.
(** [Time.IsZero] of a pointer to a time. *)
Definition time_IsZero (t : option Z) : bool := default conditions.zeroTime t =? conditions.zeroTime.

Definition machineIsProvisioned (machine : Mapi.Machine) : bool :=
  (0 <? Z.of_nat (length (Mapi.Addresses (Mapi.Status machine)))) ||
  negb (bool_decide (stringPointerDeref (Mapi.ProviderID (Mapi.Spec machine)) = "")).
Definition machineHasNode (machine : Mapi.Machine) : bool :=
  bool_decide (is_Some (Mapi.NodeRef (Mapi.Status machine))).
Definition machineIsFailed (machine : Mapi.Machine) : bool :=
  bool_decide (stringPointerDeref (Mapi.Phase (Mapi.Status machine)) = phaseFailed).
Definition nodeIsUnreachable (node : Core.Node) : bool :=
  existsb (λ c, bool_decide (Core.NodeCondType c = NodeReady) &&
                bool_decide (Core.NodeCondStatus c = conditions.ConditionUnknown))
    (Core.NodeConditions node).

Definition delayIfRequeueAfterError (err : goerror) : Result * option goerror :=
  match as_requeue_after err with
  | Some d => (MkResult true (d * conditions.second), None)
  | None => (noResult, Some err)
  end.

(** [unstructured.NestedString] and [SetNestedField] of a single field. *)
Definition found_string (m : obj) (field : string) : bool :=
  match obj_get field m with Some (AString _) => true | _ => false end.
Definition set_unknown (field : string) (m : obj) : obj :=
  if found_string m field then obj_set field (AString unknownInstanceState) m else m.

(** It changes the provider status of the machine; here, the field alone. *)
Definition overrideFailedMachineProviderStatusState `{!StatusConverter}
    (ProviderStatus : option RawExtension) : outcome (result (option RawExtension)) :=
  match ProviderStatus with
  | None => Ret (inl None)
  | Some raw =>
      r ← ToUnstructured raw;
      Ret match r with
      | inr err =>
          inr (ErrorString ("could not covert provider status to unstructured: " +:+ Error err))
      | inl providerStatus =>
          match FromUnstructured (set_unknown vmStateField
                  (set_unknown instanceStateField providerStatus)) raw with
          | inr err =>
              inr (ErrorString ("could not convert provider status from unstructured: "
                                +:+ Error err))
          | inl raw => inl (Some raw)
          end
      end
  end.

(** The failure recorded in the status, and the phase. *)
Definition failure_fields (phase : string) (failureCause : option goerror)
    : option string * option string :=
  match failureCause with
  | Some err =>
      if bool_decide (phase = phaseFailed) then
        match as_machine_error err with
        | Some (reason, message) => (Some reason, Some message)
        | None => (None, Some (Error err))
        end
      else (None, None)
  | None => (None, None)
  end.
Definition with_phase (phase : string) (failure : option string * option string)
    (s : Mapi.MachineStatus) : Mapi.MachineStatus :=
  Mapi.MkMachineStatus (Mapi.NodeRef s) (Mapi.LastUpdated s) failure.1 failure.2
    (Mapi.ProviderStatus s) (Mapi.Addresses s) (Some phase) (Mapi.Conditions s).
Definition with_LastUpdated (t : Z) (s : Mapi.MachineStatus) : Mapi.MachineStatus :=
  Mapi.MkMachineStatus (Mapi.NodeRef s) (Some t) (Mapi.ErrorReason s) (Mapi.ErrorMessage s)
    (Mapi.ProviderStatus s) (Mapi.Addresses s) (Mapi.Phase s) (Mapi.Conditions s).

Section machine.
Context {TW IW : Type} `{!TenantApi TW, !EventRecorder TW, !NodeApi TW, !MachineApi TW,
  !StatusConverter}.
Abbreviation world := (Actuator.world TW IW).
Abbreviation actuator := (option (MachineActuator (TW * IW))).

Definition change_machine (f : Mapi.Machine → Mapi.Machine) : Go world unit :=
  go_fst (go_modify f).

Definition set_condition_now (condition : Mapi.Condition) : Go world unit :=
  t ← in_tenant now; change_machine (conditions.Set_ t condition).

Definition patchFailedMachineInstanceAnnotation : Go world (option goerror) :=
  base ← the_machine;
  let annotations := default ∅ (Meta.Annotations (Mapi.MachineMeta base)) in
  _ ← change_machine (Mapi.set_Annotations
        (Some (<[Mapi.MachineInstanceStateAnnotationName := unknownInstanceState]> annotations)));
  on_tenant (runtime_Patch base).

(** The part of [updateStatus] behind the annotations. *)
Definition patch_status (phase : string) (failureCause : option goerror)
    (conditions originalConditions : list Mapi.Condition) : Go world (option goerror) :=
  machine ← the_machine;
  let baseMachine := Mapi.set_Conditions originalConditions machine in
  _ ← change_machine (Mapi.set_Conditions conditions);
  machine ← the_machine;
  let raw := Mapi.ProviderStatus (Mapi.Status machine) in
  r ← go_lift (if bool_decide (phase = phaseFailed)
               then overrideFailedMachineProviderStatusState raw else Ret (inl raw));
  match r with
  | inr err => mret (Some err)
  | inl raw =>
      _ ← change_machine (λ m, Mapi.set_Status
            (with_phase phase (failure_fields phase failureCause)
               (Mapi.with_ProviderStatus raw (Mapi.Status m))) m);
      machine ← the_machine;
      _ ← (if bool_decide (Mapi.Status baseMachine = Mapi.Status machine) then mret tt
           else t ← in_tenant now;
                change_machine (λ m, Mapi.set_Status (with_LastUpdated t (Mapi.Status m)) m));
      r ← on_tenant (runtime_Status_Patch baseMachine);
      match r with
      | Some err => mret (Some err)
      | None =>
          _ ← (if bool_decide (phase = phaseDeleting) then mret tt
               else t ← in_tenant now;
                    machine ← the_machine;
                    in_tenant (observe_phase phase
                      (t - Meta.CreationTimestamp (Mapi.MachineMeta machine))));
          mret None
      end
  end.

Definition updateStatus (phase : string) (failureCause : option goerror)
    (originalConditions : list Mapi.Condition) : Go world (option goerror) :=
  machine ← the_machine;
  let conditions := Mapi.Conditions (Mapi.Status machine) in
  r ← (if bool_decide (phase = phaseFailed) then patchFailedMachineInstanceAnnotation
       else mret None);
  match r with
  | Some err => mret (Some err)
  | None => patch_status phase failureCause conditions originalConditions
  end.

(** The current phase, again. *)
Definition updateStatus_same (originalConditions : list Mapi.Condition)
    : Go world (option goerror) :=
  m ← the_machine;
  updateStatus (stringPointerDeref (Mapi.Phase (Mapi.Status m))) None originalConditions.

Definition drainer (unreachable : bool) : Helper :=
  MkHelper true true true (if unreachable then 1 else -1) 20
    (if unreachable then skipWaitForDeleteTimeoutSeconds else 0).

Definition drainNode (nodeName : string) : Go world (option goerror) :=
  r ← in_tenant NewForConfig;
  match r with
  | Some err => mret (Some (ErrorString ("unable to build kube client: " +:+ Error err)))
  | None =>
      r ← in_tenant (kube_node_Get nodeName);
      match r with
      | inr err =>
          if IsNotFound err then mret None
          else mret (Some (ErrorString ("unable to get node " +:+ quote_text nodeName +:+ ": "
                                        +:+ Error err)))
      | inl node =>
          let drainer := drainer (nodeIsUnreachable node) in
          r ← in_tenant (RunCordonOrUncordon drainer node true);
          match r with
          | Some _ => mret (Some (RequeueAfterError 20))
          | None =>
              r ← in_tenant (RunNodeDrain drainer (node_Name node));
              match r with
              | Some _ => mret (Some (RequeueAfterError 20))
              | None =>
                  machine ← the_machine;
                  _ ← in_tenant (Event machine Core.EventTypeNormal "Deleted"
                        ("Node " +:+ quote_text (node_Name node) +:+ " drained"));
                  mret None
              end
          end
      end
  end.

Definition deleteNode (name : string) : Go world (option goerror) :=
  r ← in_tenant (node_Get "" name);
  match r with
  | inr err => mret (if IsNotFound err then None else Some err)
  | inl node => in_tenant (node_Delete node)
  end.

(** A method call on the interface value: a nil one panics. *)
Definition call {A} (a : actuator) (method : MachineActuator (TW * IW) → Go world A)
    : Go world A :=
  match a with
  | Some a => method a
  | None => go_panic "invalid memory address or nil pointer dereference"
  end.

(** [m.ObjectMeta.Finalizers = f(m.ObjectMeta.Finalizers)], then the update. *)
Definition update_finalizers (f : list string → list string) : Go world (option goerror) :=
  _ ← change_machine (λ m,
        Mapi.set_Finalizers (f (Meta.Finalizers (Mapi.MachineMeta m))) m);
  on_tenant machine_Update.

(** The deletion of the instance, once the node is drained. *)
Definition reconcile_delete (a : actuator) : Go world (Result * option goerror) :=
  r ← call a act_Delete;
  m ← the_machine;
  match (match r with
         | Some err =>
             if (0 <? Z.of_nat (length (Mapi.Addresses (Mapi.Status m)))) ||
                negb (isInvalidMachineConfigurationError err) then Some err else None
         | None => None
         end) with
  | Some err => mret (delayIfRequeueAfterError err)
  | None =>
      r ← call a act_Exists;
      let '(instanceExists, err) := r : bool * option goerror in
      match err with
      | Some err => mret (noResult, Some err)
      | None =>
          if instanceExists then mret (MkResult false requeueAfter, None)
          else
            m ← the_machine;
            r ← (match Mapi.NodeRef (Mapi.Status m) with
                 | Some nodeName => deleteNode nodeName
                 | None => mret None
                 end);
            match r with
            | Some err => mret (noResult, Some err)
            | None =>
                r ← update_finalizers (λ l, Filter l Mapi.MachineFinalizer);
                mret (noResult, r)
            end
      end
  end.

(** A machine with a deletion timestamp. *)
Definition reconcile_deleted (a : actuator) (originalConditions : list Mapi.Condition)
    : Go world (Result * option goerror) :=
  r ← updateStatus phaseDeleting None originalConditions;
  match r with
  | Some err => mret (noResult, Some err)
  | None =>
      m ← the_machine;
      if negb (Contains (Meta.Finalizers (Mapi.MachineMeta m)) Mapi.MachineFinalizer) then
        mret (noResult, None)
      else
        drained ← (match map_index (Meta.Annotations (Mapi.MachineMeta m))
                           ExcludeNodeDrainingAnnotation, Mapi.NodeRef (Mapi.Status m) with
                   | None, Some nodeName => drainNode nodeName
                   | _, _ => mret None
                   end);
        match drained with
        | Some err => mret (delayIfRequeueAfterError err)
        | None => reconcile_delete a
        end
  end.

(** The instance exists: update it and tell the phase. *)
Definition reconcile_exists (a : actuator) (originalConditions : list Mapi.Condition)
    : Go world (Result * option goerror) :=
  r ← call a act_Update;
  match r with
  | Some _ =>
      _ ← updateStatus_same originalConditions;
      mret (MkResult false requeueAfter, None)
  | None =>
      t ← in_tenant now;
      _ ← change_machine (conditions.MarkTrue t conditions.InstanceExistsCondition);
      m ← the_machine;
      if negb (machineIsProvisioned m) then
        _ ← updateStatus_same originalConditions;
        mret (MkResult false requeueAfter, None)
      else if negb (machineHasNode m) then
        r ← updateStatus phaseProvisioned None originalConditions;
        mret match r with
        | Some err => (noResult, Some err)
        | None => (MkResult false requeueAfter, None)
        end
      else
        r ← updateStatus phaseRunning None originalConditions;
        mret (noResult, r)
  end.

(** The instance does not exist: it went missing, or it is to be created. *)
Definition reconcile_missing (a : actuator) (originalConditions : list Mapi.Condition)
    : Go world (Result * option goerror) :=
  m ← the_machine;
  if machineIsProvisioned m then
    _ ← set_condition_now (conditions.FalseCondition conditions.InstanceExistsCondition
          conditions.InstanceMissingReason conditions.ConditionSeverityWarning
          "Instance not found on provider");
    r ← updateStatus phaseFailed (Some (ErrorString "Can't find created instance."))
          originalConditions;
    mret (noResult, r)
  else
    _ ← set_condition_now (conditions.FalseCondition conditions.InstanceExistsCondition
          conditions.InstanceNotCreatedReason conditions.ConditionSeverityWarning
          "Instance has not been created");
    if bool_decide (stringPointerDeref (Mapi.Phase (Mapi.Status m)) = "") then
      r ← updateStatus phaseProvisioning None originalConditions;
      mret match r with
      | Some err => (noResult, Some err)
      | None => (MkResult false requeueAfter, None)
      end
    else
      r ← call a act_Create;
      match r with
      | Some err =>
          if isInvalidMachineConfigurationError err then
            r ← updateStatus phaseFailed (Some err) originalConditions;
            mret (noResult, r)
          else mret (delayIfRequeueAfterError err)
      | None => mret (MkResult false requeueAfter, None)
      end.

(** A machine that is not being deleted and has its finalizer. *)
Definition reconcile_present (a : actuator) (originalConditions : list Mapi.Condition)
    : Go world (Result * option goerror) :=
  m ← the_machine;
  if machineIsFailed m then mret (noResult, None)
  else
    r ← call a act_Exists;
    let '(instanceExists, err) := r : bool * option goerror in
    match err with
    | Some err =>
        _ ← set_condition_now (conditions.UnknownCondition conditions.InstanceExistsCondition
              conditions.ErrorCheckingProviderReason
              ("Failed to check if machine exists: " +:+ Error err));
        _ ← updateStatus_same originalConditions;
        mret (noResult, Some err)
    | None =>
        if instanceExists then reconcile_exists a originalConditions
        else reconcile_missing a originalConditions
    end.

(** [Reconcile] of the machine that was read. *)
Definition reconcile_machine (a : actuator) : Go world (Result * option goerror) :=
  m ← the_machine;
  let originalConditions := Mapi.Conditions (Mapi.Status m) in
  match Validate m with
  | (_ :: _) as errList =>
      let err := ErrorString (Mapi.GetName m +:+ ": machine validation failed: "
                              +:+ validation_text errList m) in
      _ ← in_tenant (Event m Core.EventTypeWarning "FailedValidate" (Fmt.sprintf0 (Error err)));
      mret (noResult, Some err)
  | [] =>
      if time_IsZero (Meta.DeletionTimestamp (Mapi.MachineMeta m)) then
        if negb (Contains (Meta.Finalizers (Mapi.MachineMeta m)) Mapi.MachineFinalizer) then
          r ← update_finalizers (λ l, l ++ [Mapi.MachineFinalizer]);
          mret (noResult, r)
        else reconcile_present a originalConditions
      else reconcile_deleted a originalConditions
  end.

(** The machine lives as long as the call. *)
Definition with_machine {A} (m : Mapi.Machine) (c : Go world A) : Go (TW * IW) A := λ w,
  let '(o, (_, w')) := c (m, w) in (o, w').

Definition Reconcile (a : actuator) (namespace name : string)
    : Go (TW * IW) (Result * option goerror) :=
  r ← go_fst (machine_Get namespace name);
  match r with
  | inr err => if IsNotFound err then mret (noResult, None) else mret (noResult, Some err)
  | inl m => with_machine m (reconcile_machine a)
  end.
End machine.

(** The provider's actuator. *)
Definition provider {TW IW} `{!TenantCluster.Client TW, !EventRecorder TW, !KubevirtVM IW,
    !YamlLib} (a : actuator) : MachineActuator (TW * IW) :=
  MkMachineActuator (TW * IW) (Actuator.Create a) (Actuator.Delete a) (Actuator.Update a)
    (Actuator.Exists a).

(** ** What the API server documents for machines

    A patch of the status changes no metadata and no specification, and the
    phase only to the one it carries; a patch of the machine changes its
    finalizers only when it carries other ones; an update writes the
    finalizers and takes no deletion back, and a machine under deletion
    without finalizers is removed.  The other calls of the controller change no
    machine. *)
Section laws.
Context {TW : Type} `{!TenantView (TW:=TW)}.
Implicit Types (t : TW) (m origin : Mapi.Machine) (ns name : string).

Definition machines_same t t' : Prop :=
  ∀ ns name, machine_at t' ns name = machine_at t ns name.
(** The call changes no machine, and returns. *)
Definition quiet {A} (c : Go TW A) : Prop :=
  ∀ t, wp c (λ _ t', machines_same t t') no_panic t.

Definition finalizers m : list string := Meta.Finalizers (Mapi.MachineMeta m).
Definition phase m : option string := Mapi.Phase (Mapi.Status m).
(** What a status patch leaves alone. *)
Definition statics m : Meta.ObjectMeta * Mapi.MachineSpec :=
  (Meta.set_ResourceVersion "" (Mapi.MachineMeta m), Mapi.Spec m).

(** The machine in hand is the one stored under this name, as far as [p]
    goes: there it is [x] in both. *)
Definition tracks {X} (p : Mapi.Machine → X) ns name (x : X) m t : Prop :=
  Mapi.GetNamespace m = ns ∧ Mapi.GetName m = name ∧ p m = x ∧
  p <$> machine_at t ns name = Some x.

Definition deletion_time m : option Z := Meta.DeletionTimestamp (Mapi.MachineMeta m).

(** A machine that was asked to be deleted stays so. *)
Definition update_done m t t' : Prop :=
  let stored t := machine_at t (Mapi.GetNamespace m) (Mapi.GetName m) in
  match stored t' with
  | Some m' => finalizers m' = finalizers m ∧
      ∀ st, stored t = Some st → deletion_time m = deletion_time st →
            deletion_time m' = deletion_time st
  | None => finalizers m = []
  end.

Class MachineLaws `{!TenantApi TW, !NodeApi TW, !MachineApi TW} := {
  machine_at_named ns name t m :
    machine_at t ns name = Some m → Mapi.GetNamespace m = ns ∧ Mapi.GetName m = name;
  machine_Get_spec ns name t :
    wp (machine_Get ns name)
      (λ r t', t' = t ∧ match r with
                        | inl m => machine_at t ns name = Some m
                        | inr e => IsNotFound e = true → machine_at t ns name = None
                        end) no_panic t;
  machine_Update_spec m t :
    wp machine_Update
      (λ r '(_, t'), match r with
                     | None => update_done m t t'
                     | Some _ => machines_same t t' ∨ update_done m t t'
                     end) no_panic (m, t);
  patch_finalizers origin ns name x m t :
    tracks finalizers ns name x m t → finalizers origin = x →
    wp (runtime_Patch origin) (λ _ '(m', t'), tracks finalizers ns name x m' t') no_panic (m, t);
  status_patch_statics origin ns name x m t :
    tracks statics ns name x m t →
    wp (runtime_Status_Patch origin) (λ _ '(m', t'), tracks statics ns name x m' t')
      no_panic (m, t);
  status_patch_finalizers origin ns name x m t :
    tracks finalizers ns name x m t →
    wp (runtime_Status_Patch origin) (λ _ '(m', t'), tracks finalizers ns name x m' t')
      no_panic (m, t);
  status_patch_phase origin m t :
    let at_name t := phase <$> machine_at t (Mapi.GetNamespace m) (Mapi.GetName m) in
    wp (runtime_Status_Patch origin)
      (λ _ '(_, t'), at_name t' = at_name t ∨ at_name t' = Some (phase m)) no_panic (m, t);
  quiet_NewForConfig : quiet NewForConfig;
  quiet_kube_node_Get name : quiet (kube_node_Get name);
  quiet_RunCordonOrUncordon h n b : quiet (RunCordonOrUncordon h n b);
  quiet_RunNodeDrain h name : quiet (RunNodeDrain h name);
  quiet_now : quiet now;
  quiet_observe_phase ph z : quiet (observe_phase ph z);
  quiet_node_Get ns name : quiet (node_Get ns name);
  quiet_node_Delete n : quiet (node_Delete n)
}.
End laws.

Lemma quiet_Event {TW} `{!EventRecorder TW, !TenantView (TW:=TW), !EventLaws TW} m ty r msg :
  quiet (TW:=TW) (Event m ty r msg).
Proof. intros t. go_call (Event_spec (TW:=TW)). by intros _ t' [Hm _]. Qed.
#[export] Hint Extern 1 (quiet _) =>
  first [apply quiet_NewForConfig|apply quiet_kube_node_Get|apply quiet_RunCordonOrUncordon
        |apply quiet_RunNodeDrain|apply quiet_now|apply quiet_observe_phase
        |apply quiet_node_Get|apply quiet_node_Delete|apply quiet_Event] : go.

Lemma wp_the_machine {TW IW} (Q : Mapi.Machine → Actuator.world TW IW → Prop) E w :
  Q w.1 w → wp the_machine Q E w.
Proof. destruct w as [m w]. intros HQ. unfold the_machine. by do 2 go_step. Qed.

Lemma wp_in_tenant {TW IW A} `{!TenantView (TW:=TW)} (c : Go TW A)
    (Q : A → Actuator.world TW IW → Prop) E w :
  quiet c → (∀ a t', machines_same w.2.1 t' → Q a (w.1, (t', w.2.2))) → wp (in_tenant c) Q E w.
Proof.
  destruct w as [m [t i]]. intros Hc HQ. unfold in_tenant. go_step. go_call Hc. intros a t' Ht'.
  by apply HQ.
Qed.

(** ** Computations that leave the infra cluster alone *)
Section steady.
Context {TW IW : Type} `{!TenantView (TW:=TW)}.
Context {X : Type} (p : Mapi.Machine → X) (ns name : string) (x : X) (i : IW).
Context (risk : Prop).
Abbreviation world := (Actuator.world TW IW).

Definition tracked (w : world) : Prop := tracks p ns name x w.1 w.2.1 ∧ w.2.2 = i.

(** It panics only when [risk] holds. *)
Definition steady {A} (c : Go world A) : Prop :=
  ∀ w, tracked w → wp c (λ _ w', tracked w') (λ _ w', tracked w' ∧ risk) w.

Lemma steady_ret {A} (a : A) : steady (mret a).
Proof. by intros w Hw. Qed.

Lemma steady_bind {A B} (c : Go world A) (f : A → Go world B) :
  steady c → (∀ a, steady (f a)) → steady (c ≫= f).
Proof.
  intros Hc Hf w Hw. apply wp_bind. eapply wp_mono; [by apply Hc| |done].
  intros a w' Hw'. by apply Hf.
Qed.

Lemma steady_the_machine : steady (the_machine : Go world Mapi.Machine).
Proof. intros [m [t j]] Hw. unfold the_machine. by do 2 go_step. Qed.

Lemma steady_lift {A} (o : outcome A) :
  (outcome_is_panic o = true → risk) → steady (go_lift o).
Proof. intros Hr w Hw. apply wp_lift. destruct o; [done|]. by split; [|apply Hr]. Qed.

(** A steady computation, then the rest. *)
Lemma wp_steady {A B} (c : Go world A) (f : A → Go world B) Q E w :
  steady c → tracked w → (∀ a w', tracked w' → wp (f a) Q E w') →
  (∀ s w', risk → tracked w' → E s w') → wp (c ≫= f) Q E w.
Proof.
  intros Hc Hw Hf HE. apply wp_bind. eapply wp_mono; [by apply (Hc w)|apply Hf|].
  intros s w' [Hw' Hr]. by apply HE.
Qed.

Lemma steady_in_tenant {A} (c : Go TW A) : quiet c → steady (in_tenant c : Go world A).
Proof.
  intros Hc [m [t j]] [(Hns & Hn & Hp & Hat) Hi]. unfold in_tenant. go_step.
  go_call Hc. intros _ t' Ht. split; [|done]. split_and!; try done. simpl in *. by rewrite Ht.
Qed.

Lemma steady_change f :
  (∀ m, Mapi.GetNamespace (f m) = Mapi.GetNamespace m ∧
        Mapi.GetName (f m) = Mapi.GetName m ∧ p (f m) = p m) →
  steady (change_machine f : Go world unit).
Proof.
  intros Hf [m [t j]] [(Hns & Hn & Hp & Hat) Hi]. unfold change_machine. do 2 go_step.
  destruct (Hf m) as (Hns' & Hn' & Hp'). simpl in *.
  split; [|done]. unfold tracks. simpl. by rewrite Hns', Hn', Hp'.
Qed.
End steady.
#[export] Hint Resolve steady_ret steady_the_machine steady_in_tenant : go.

(** The next step of a computation that changes nothing here. *)
Ltac steady_step := apply steady_bind; [solve [auto with go]|].

(** *** The steps of the controller *)
Section steps.
Context {TW IW : Type} `{!TenantApi TW, !EventRecorder TW, !NodeApi TW, !MachineApi TW,
  !StatusConverter, !TenantView (TW:=TW), !EventLaws TW, !MachineLaws (TW:=TW)}.
Context {X : Type} (p : Mapi.Machine → X) (ns name : string) (x : X) (i : IW) (risk : Prop).
Context (Hstatus : ∀ origin m t, tracks p ns name x m t →
           wp (runtime_Status_Patch origin) (λ _ '(m', t'), tracks p ns name x m' t')
             no_panic (m, t)).
Context (Hmeta : ∀ s m, p (Mapi.set_Status s m) = p m).
Abbreviation world := (Actuator.world TW IW).
Abbreviation steady := (steady (IW:=IW) p ns name x i risk).

Lemma steady_status (f : Mapi.MachineStatus → Mapi.MachineStatus) :
  steady (change_machine (λ m, Mapi.set_Status (f (Mapi.Status m)) m)).
Proof. apply steady_change. intros m. split_and!; [done..|]. apply Hmeta. Qed.

Lemma steady_conditions c : steady (change_machine (Mapi.set_Conditions c)).
Proof. apply (steady_status (Mapi.with_Conditions c)). Qed.

Lemma steady_status_patch origin : steady (on_tenant (runtime_Status_Patch origin)).
Proof.
  intros [m [t j]] [Ht Hj]. unfold on_tenant. go_step.
  go_call Hstatus; [exact Ht|]. intros r [m' t'] Ht'. by split.
Qed.

Lemma steady_set_condition c : steady (set_condition_now c).
Proof.
  unfold set_condition_now. steady_step. intros z.
  apply (steady_status (λ s, Mapi.with_Conditions (conditions.set_condition z c
                               (Mapi.Conditions s)) s)).
Qed.

Lemma steady_patch_status ph cause cs orig :
  (ph = phaseFailed → risk) → steady (patch_status ph cause cs orig).
Proof.
  intros Hrisk. unfold patch_status. steady_step. intros base.
  apply steady_bind; [apply steady_conditions|]. intros _.
  steady_step. intros machine. apply steady_bind.
  { apply steady_lift. case_bool_decide; [by auto|done]. }
  intros [raw|err]; [|auto with go]. apply steady_bind.
  { apply (steady_status (λ s, with_phase ph (failure_fields ph cause)
                                (Mapi.with_ProviderStatus raw s))). }
  intros _. steady_step. intros machine2. apply steady_bind.
  { case_bool_decide; [auto with go|]. steady_step.
    intros z. apply (steady_status (with_LastUpdated z)). }
  intros _. apply steady_bind; [apply steady_status_patch|]. intros [err|]; [auto with go|].
  apply steady_bind; [|auto with go]. case_bool_decide; [auto with go|].
  do 2 (steady_step; intros ?). auto with go.
Qed.

Lemma steady_updateStatus ph cause orig :
  ph ≠ phaseFailed ∨ (risk ∧ steady patchFailedMachineInstanceAnnotation) →
  steady (updateStatus ph cause orig).
Proof.
  intros Hph. unfold updateStatus. steady_step. intros machine.
  apply steady_bind.
  { case_bool_decide; [by destruct Hph as [|[_ ?]]|auto with go]. }
  intros [err|]; [auto with go|]. apply steady_patch_status. intros ->. by destruct Hph as [|[? _]].
Qed.

Lemma steady_drainNode n : steady (drainNode n).
Proof.
  unfold drainNode. steady_step. intros [err|]; [auto with go|].
  steady_step. intros [node|err].
  - steady_step. intros [err|]; [auto with go|].
    steady_step. intros [err|]; [auto with go|].
    do 2 (steady_step; intros ?). auto with go.
  - destruct (IsNotFound err); auto with go.
Qed.

Lemma steady_deleteNode n : steady (deleteNode n).
Proof.
  unfold deleteNode. steady_step. intros [node|err]; auto with go.
Qed.
End steps.

(** *** The finalizers *)
Section finalizers.
Context {TW IW : Type} `{!TenantApi TW, !EventRecorder TW, !NodeApi TW, !MachineApi TW,
  !StatusConverter, !TenantView (TW:=TW), !EventLaws TW, !MachineLaws (TW:=TW)}.
Context (ns name : string) (x : list string) (i : IW).
Abbreviation world := (Actuator.world TW IW).
Abbreviation steady := (steady (IW:=IW) finalizers ns name x i True).

Lemma finalizers_status_patch origin m t :
  tracks finalizers ns name x m t →
  wp (runtime_Status_Patch origin) (λ _ '(m', t'), tracks finalizers ns name x m' t')
    no_panic (m, t).
Proof. apply status_patch_finalizers. Qed.

Lemma steady_annotation : steady patchFailedMachineInstanceAnnotation.
Proof.
  intros [m [t j]] [Ht Hj]. unfold patchFailedMachineInstanceAnnotation, the_machine, change_machine.
  do 6 go_step. unfold on_tenant. go_step. simpl.
  eapply wp_mono; [eapply patch_finalizers|by intros r [m' t']|done].
  - destruct Ht as (? & ? & ? & ?). by split_and!.
  - by destruct Ht as (_ & _ & ? & _).
Qed.

Lemma finalizers_updateStatus ph cause orig : steady (updateStatus ph cause orig).
Proof.
  apply steady_updateStatus; [apply finalizers_status_patch|done|]. right. split; [done|].
  apply steady_annotation.
Qed.

Lemma finalizers_updateStatus_same orig : steady (updateStatus_same orig).
Proof. unfold updateStatus_same. steady_step. intros m. apply finalizers_updateStatus. Qed.

Lemma finalizers_set_condition c : steady (set_condition_now c).
Proof. by apply steady_set_condition. Qed.

Lemma finalizers_MarkTrue z c : steady (change_machine (conditions.MarkTrue z c)).
Proof. by apply steady_change. Qed.
End finalizers.

(** ** What an actuator promises to the controller

    [inst] tells the instances the infra cluster has, [doomed] those that are
    being deleted already, [deletable] the machines Delete does not panic for.
    No call of the actuator gives up the machine's finalizers or touches the
    instance of another machine; only Create brings an instance into being,
    only Delete removes one that is not doomed, Update may complete the removal
    of one that is, and Exists tells whether there is one and changes
    nothing. *)
Section instances.
Context {IW : Type} (inst : IW → string → Prop).

Definition same_instances (i i' : IW) : Prop := ∀ n, inst i' n ↔ inst i n.
Definition others_kept (name : string) (i i' : IW) : Prop :=
  ∀ n, n ≠ name → inst i' n ↔ inst i n.
Definition only_adds name i i' : Prop := others_kept name i i' ∧ (inst i name → inst i' name).
Definition only_removes name i i' : Prop := others_kept name i i' ∧ (inst i' name → inst i name).

#[export] Instance same_instances_equiv : Equivalence same_instances.
Proof.
  split; [by intros i n|by intros i j Hij n; rewrite (Hij n)|].
  intros i j k Hij Hjk n. by rewrite (Hjk n).
Qed.

Lemma same_only_adds name i i' : same_instances i i' → only_adds name i i'.
Proof. intros Hs. split; [by intros n _; apply Hs|apply Hs]. Qed.
Lemma same_only_removes name i i' : same_instances i i' → only_removes name i i'.
Proof. intros Hs. split; [by intros n _; apply Hs|apply Hs]. Qed.

(** Nothing else can change: one of the two, and no change of the one. *)
Lemma only_adds_same name i i' :
  only_adds name i i' → (inst i' name → inst i name) → same_instances i i'.
Proof. intros [Ho Ha] Hr n. destruct (decide (n = name)) as [->|]; [by split|by apply Ho]. Qed.

(** What an update may do: at most the end of a removal. *)
Definition at_most_purged (doomed : IW → string → Prop) name i i' : Prop :=
  same_instances i i' ∨ (doomed i name ∧ only_removes name i i').
End instances.

Class ActuatorLaws {TW IW} `{!TenantView (TW:=TW)} (act : MachineActuator (TW * IW))
    (inst doomed : IW → string → Prop) (deletable : Mapi.Machine → Prop) := {
  deletable_statics m m' : statics m' = statics m → deletable m → deletable m';
  act_Create_law ns name x m t i :
    tracks finalizers ns name x m t →
    let post : Actuator.world TW IW → Prop := λ '(m', (t', i')),
      tracks finalizers ns name x m' t' ∧ only_adds inst name i i' in
    wp (act_Create act) (λ _, post) (λ _, post) (m, (t, i));
  act_Update_law ns name x m t i :
    tracks finalizers ns name x m t →
    let post : Actuator.world TW IW → Prop := λ '(m', (t', i')),
      tracks finalizers ns name x m' t' ∧ at_most_purged inst doomed name i i' in
    wp (act_Update act) (λ _, post) (λ _, post) (m, (t, i));
  act_Delete_law ns name x m t i :
    tracks statics ns name x m t →
    let post : Actuator.world TW IW → Prop := λ '(m', (t', i')),
      tracks statics ns name x m' t' ∧ only_removes inst name i i' in
    wp (act_Delete act) (λ _, post) (λ _ w', post w' ∧ ¬ deletable m) (m, (t, i));
  act_Exists_law m t i :
    wp (act_Exists act)
      (λ '(b, err) w', w' = (m, (t, i)) ∧ (err = None → b = true ↔ inst i (Mapi.GetName m)))
      no_panic (m, (t, i))
}.

Section reconcile.
Context {TW IW : Type} `{!TenantApi TW, !EventRecorder TW, !NodeApi TW, !MachineApi TW,
  !StatusConverter, !TenantView (TW:=TW), !EventLaws TW, !MachineLaws (TW:=TW)}.
Context (act : MachineActuator (TW * IW)) (inst doomed : IW → string → Prop)
  (deletable : Mapi.Machine → Prop) `{!ActuatorLaws act inst doomed deletable}.
Context (ns name : string) (x : list string).
Abbreviation world := (Actuator.world TW IW).
Abbreviation steady i := (steady (IW:=IW) finalizers ns name x i True).
Abbreviation tracked := (tracked (IW:=IW) finalizers ns name x).

Definition stored_finalizers (t : TW) : option (list string) :=
  finalizers <$> machine_at t ns name.

(** *** A machine that is being deleted

    At the end its metadata and specification are as they were, or the
    finalizer has been given up while there was no instance. *)
Abbreviation held m := (MachineController.tracked (IW:=IW) statics ns name (statics m)).

Definition kept_or_gone (m : Mapi.Machine) (t' : TW) (i' : IW) : Prop :=
  statics <$> machine_at t' ns name = Some (statics m) ∨
  (¬ inst i' name ∧
   match stored_finalizers t' with
   | Some l => l = Filter (finalizers m) Mapi.MachineFinalizer
   | None => Filter (finalizers m) Mapi.MachineFinalizer = []
   end ∧ ∀ m', machine_at t' ns name = Some m' → deletion_time m' = deletion_time m).

Lemma held_kept m i w : held m i w → kept_or_gone m w.2.1 w.2.2.
Proof. intros [(_ & _ & _ & Hat) _]. by left. Qed.

Lemma finalizers_of_statics m m' : statics m' = statics m → finalizers m' = finalizers m.
Proof. intros Hst. apply (f_equal (λ p, Meta.Finalizers p.1) Hst). Qed.

Lemma deletion_time_statics m m' : statics m' = statics m → deletion_time m' = deletion_time m.
Proof. intros Hst. apply (f_equal (λ p, Meta.DeletionTimestamp p.1) Hst). Qed.

Lemma stored_of_statics m t :
  statics <$> machine_at t ns name = Some (statics m) → stored_finalizers t = Some (finalizers m).
Proof.
  intros (m' & Hat & Hst)%fmap_Some. unfold stored_finalizers. rewrite Hat. simpl. f_equal.
  by apply finalizers_of_statics.
Qed.

(** The finalizer is not there any more. *)
Definition released (t : TW) : Prop :=
  match stored_finalizers t with
  | Some l => Mapi.MachineFinalizer ∉ l
  | None => True
  end.

Lemma wp_give_up m i w :
  held m i w → ¬ inst i name →
  wp (update_finalizers (λ l, Filter l Mapi.MachineFinalizer))
    (λ r w', kept_or_gone m w'.2.1 w'.2.2 ∧ w'.2.2 = i ∧ (r = None → released w'.2.1)) no_panic w.
Proof.
  destruct w as [m1 [t j]]. intros [(Hns & Hn & Hst & Hat) Hj] Hinst. simpl in *. subst j.
  unfold update_finalizers, change_machine. do 3 go_step. simpl. unfold on_tenant. go_step.
  eapply wp_mono; [apply machine_Update_spec| |done].
  set (m2 := Mapi.set_Finalizers _ m1).
  assert (∀ t', update_done m2 t t' →
    match stored_finalizers t' with
    | Some l => l = Filter (finalizers m) Mapi.MachineFinalizer
    | None => Filter (finalizers m) Mapi.MachineFinalizer = []
    end ∧ ∀ m', machine_at t' ns name = Some m' → deletion_time m' = deletion_time m) as Hdone.
  { intros t'. unfold update_done, stored_finalizers.
    change (Mapi.GetNamespace m2) with (Mapi.GetNamespace m1).
    change (Mapi.GetName m2) with (Mapi.GetName m1).
    change (finalizers m2) with (Filter (finalizers m1) Mapi.MachineFinalizer).
    change (deletion_time m2) with (deletion_time m1).
    rewrite Hns, Hn, (finalizers_of_statics _ _ Hst), (deletion_time_statics _ _ Hst).
    apply fmap_Some in Hat as (st & -> & Hst'). symmetry in Hst'. destruct (machine_at t' ns name); [|done].
    intros [Hf Hd]. split; [done|]. intros m' [= ->].
    pose proof (deletion_time_statics _ _ Hst') as Hsame. rewrite <-Hsame. by apply Hd. }
  intros [e|] [m' t'] Hup; cbn [fst snd].
  - split; [|done]. destruct Hup as [Hsame|Hup]; [left; by rewrite Hsame|right].
    split; [done|by apply Hdone].
  - apply Hdone in Hup as [Hup Hdel]. split; [by right|]. split; [done|]. intros _. unfold released.
    destruct (stored_finalizers t') as [l|]; [|done]. rewrite Hup. by intros [_ ?]%elem_of_Filter.
Qed.

(** Only a machine with the finalizer has its instance deleted. *)
Definition removed (m : Mapi.Machine) (i i' : IW) : Prop :=
  same_instances inst i i' ∨
  (Mapi.MachineFinalizer ∈ finalizers m ∧ only_removes inst name i i').

(** What a call for a machine under deletion leaves, and what it means when
    it reports that it is done. *)
Definition deletion_step (m : Mapi.Machine) (i : IW) (w : world) : Prop :=
  kept_or_gone m w.2.1 w.2.2 ∧ removed m i w.2.2.
Definition deletion_post m i (r : Result * option goerror) (w : world) : Prop :=
  deletion_step m i w ∧ (r = (noResult, None) → released w.2.1).
(** A call panics only where Delete of the actuator does. *)
Definition deletion_panics m i (w : world) : Prop := deletion_step m i w ∧ ¬ deletable m.

Lemma held_step m i j w : removed m i j → held m j w → deletion_step m i w.
Proof. intros Hj Hw. split; [by eapply held_kept|]. by destruct Hw as [_ ->]. Qed.

Lemma deletion_kept m i j r w :
  removed m i j → held m j w → r ≠ (noResult, None) → deletion_post m i r w.
Proof. intros Hj Hw Hr. split; [by eapply held_step|done]. Qed.

Lemma delay_not_done err : delayIfRequeueAfterError err ≠ (noResult, None).
Proof. unfold delayIfRequeueAfterError. by destruct (as_requeue_after err). Qed.

Lemma reconcile_delete_spec m i w :
  held m i w → Mapi.MachineFinalizer ∈ finalizers m →
  wp (reconcile_delete (Some act)) (deletion_post m i) (λ _, deletion_panics m i) w.
Proof.
  destruct w as [m0 [t j]]. intros [Ht Hj] Hfin. simpl in *. subst j.
  assert (∀ i', only_removes inst name i i' → removed m i i') as Hremoved by by right.
  unfold reconcile_delete. go_step. unfold call at 1.
  eapply wp_mono; [by apply (act_Delete_law ns name (statics m))| |].
  2: { intros s [m' [t' i']] [[Ht' Hi'] Hd]. split.
       - eapply held_step; [by apply Hremoved|by split].
       - intros Hm. apply Hd. eapply deletable_statics, Hm. by destruct Ht as (_ & _ & ? & _). }
  intros r [m1 [t1 i1]] [Ht1 Hi1%Hremoved]. cbn beta. apply wp_bind, wp_the_machine. cbn [fst].
  destruct (match r with Some _ => _ | None => _ end) as [err|].
  { go_step. apply (deletion_kept m i i1); [done|by split|apply delay_not_done]. }
  go_step. unfold call. eapply wp_mono; [apply (act_Exists_law m1 t1 i1)| |done].
  intros [b [err|]] w [-> Hex]; cbn beta iota zeta; [go_step; by apply (deletion_kept m i i1)|].
  destruct b; [go_step; by apply (deletion_kept m i i1)|].
  assert (¬ inst i1 name) as Hno.
  { destruct Ht1 as (_ & <- & _). rewrite <-(Hex eq_refl). done. }
  eapply (wp_steady statics ns name (statics m) i1 False); [auto with go|by split| |done].
  intros m2 w2 Hw2. eapply (wp_steady statics ns name (statics m) i1 False); [|exact Hw2| |done].
  { destruct (Mapi.NodeRef _); [apply steady_deleteNode|auto with go]. }
  intros [err|] w3 Hw3; [go_step; by apply (deletion_kept m i i1)|].
  go_step. eapply wp_mono; [by apply wp_give_up| |done].
  intros r' w4 (Hk & Hi4 & Hr). cbn beta. go_step. split; [split; [done|by rewrite Hi4]|].
  intros [= ->]. by apply Hr.
Qed.

Lemma held_updateStatus_deleting m i orig :
  MachineController.steady (IW:=IW) statics ns name (statics m) i False
    (updateStatus phaseDeleting None orig).
Proof. apply steady_updateStatus; [intros ???; apply status_patch_statics|done|by left]. Qed.

Lemma reconcile_deleted_spec m i w orig :
  held m i w →
  wp (reconcile_deleted (Some act) orig) (deletion_post m i) (λ _, deletion_panics m i) w.
Proof.
  intros Hw. unfold reconcile_deleted.
  assert (removed m i i) as Hi by by left.
  eapply (wp_steady statics ns name (statics m) i False); [|exact Hw| |done].
  { apply held_updateStatus_deleting. }
  intros [err|] w1 Hw1; [go_step; by apply (deletion_kept m i i)|].
  assert (finalizers w1.1 = finalizers m) as Hf1.
  { apply finalizers_of_statics. by destruct Hw1 as [(_ & _ & ? & _) _]. }
  unfold finalizers at 1 in Hf1.
  apply wp_bind, wp_the_machine. rewrite Hf1. destruct (Contains _ _) eqn:Hc; simpl.
  - eapply (wp_steady statics ns name (statics m) i False); [|exact Hw1| |done].
    { destruct (map_index _ _); [auto with go|]. destruct (Mapi.NodeRef _); [|auto with go].
      apply steady_drainNode. }
    intros [err|] w2 Hw2.
    { go_step. apply (deletion_kept m i i); [done..|apply delay_not_done]. }
    apply reconcile_delete_spec; [done|by apply Contains_spec].
  - go_step. split; [by eapply held_step|]. intros _. destruct Hw1 as [(_ & _ & _ & Hat) _].
    unfold released. rewrite (stored_of_statics m) by done. intros Hin%Contains_spec. congruence.
Qed.

(** *** A machine that is not being deleted *)
Definition under_deletion (m : Mapi.Machine) : bool :=
  negb (time_IsZero (Meta.DeletionTimestamp (Mapi.MachineMeta m))).

(** When an instance may be created for a machine. *)
Record creation_due (m : Mapi.Machine) : Prop := {
  due_valid : Validate m = [];
  due_kept : under_deletion m = false;
  due_finalizer : Mapi.MachineFinalizer ∈ finalizers m;
  due_not_failed : machineIsFailed m = false;
  due_not_provisioned : machineIsProvisioned m = false;
  due_phase : stringPointerDeref (phase m) ≠ ""
}.

(** When an instance may be deleted. *)
Record deletion_due (m : Mapi.Machine) : Prop := {
  del_valid : Validate m = [];
  del_asked : under_deletion m = true;
  del_finalizer : Mapi.MachineFinalizer ∈ finalizers m
}.

(** No instance changes but one that [may] appear, or is doomed. *)
Definition added (i : IW) (may : Prop) (i' : IW) : Prop :=
  at_most_purged inst doomed name i i' ∨ (may ∧ only_adds inst name i i').

(** The finalizers are kept as well. *)
Definition present_post (i : IW) (may : Prop) (w : world) : Prop :=
  let '(m, (t, i')) := w in
  tracks finalizers ns name x m t ∧ added i may i'.

Lemma tracked_present i j may w :
  added i may j → tracked j w → present_post i may w.
Proof. destruct w as [m [t j']]. intros Hj [Ht Heq]. simpl in *. subst. by split. Qed.

Lemma present_tracked i may m t j :
  present_post i may (m, (t, j)) → tracked j (m, (t, j)).
Proof. by intros [? _]. Qed.

(** A steady computation at the end of a path. *)
Lemma wp_steady_end {A} i j may (c : Go world A) w :
  steady j c → tracked j w → added i may j →
  wp c (λ _ w', present_post i may w') (λ _ w', present_post i may w') w.
Proof.
  intros Hc Hw Hj. eapply wp_mono; [by apply (Hc w)|by intros; eapply tracked_present|].
  intros s w' [Hw' _]. by eapply tracked_present.
Qed.

Lemma steady_reconcile_tail {A} j (c : Go world (option goerror)) (k : option goerror → A) :
  steady j c → steady j (r ← c; mret (k r)).
Proof. intros Hc. apply steady_bind; [done|auto with go]. Qed.

Lemma reconcile_exists_spec i may orig m t :
  tracks finalizers ns name x m t →
  wp (reconcile_exists (Some act) orig)
    (λ _ w', present_post i may w') (λ _ w', present_post i may w') (m, (t, i)).
Proof.
  intros Ht. unfold reconcile_exists, call. apply wp_bind.
  eapply wp_mono; [by apply (act_Update_law ns name x)| |];
    [|by intros s [m' [t' i']] [? ?]; split; [done|left]].
  intros r [m1 [t1 i1]] [Ht1 Hi1]. cbn beta.
  apply (wp_steady_end i i1); [|by split|by left]. destruct r as [err|].
  - apply steady_reconcile_tail, finalizers_updateStatus_same.
  - steady_step. intros z. apply steady_bind.
    { apply finalizers_MarkTrue. }
    intros _. steady_step. intros m2. destruct (machineIsProvisioned m2); simpl.
    + destruct (machineHasNode m2); simpl; apply steady_bind; auto with go;
        apply finalizers_updateStatus.
    + apply steady_reconcile_tail, finalizers_updateStatus_same.
Qed.

Lemma reconcile_missing_spec i orig m t :
  tracks finalizers ns name x m t →
  let may := machineIsProvisioned m = false ∧ stringPointerDeref (phase m) ≠ "" in
  wp (reconcile_missing (Some act) orig)
    (λ _ w', present_post i may w') (λ _ w', present_post i may w') (m, (t, i)).
Proof.
  intros Ht may. unfold reconcile_missing. apply wp_bind, wp_the_machine. cbn [fst].
  destruct (machineIsProvisioned m) eqn:Hp.
  - apply (wp_steady_end i i); [|by split|by left; left].
    apply steady_bind; [apply finalizers_set_condition|intros _].
    apply steady_bind; [apply finalizers_updateStatus|auto with go].
  - eapply (wp_steady finalizers ns name x i True); [apply finalizers_set_condition|by split| |].
    2: { intros s w _ Hw. eapply tracked_present, Hw. by left; left. }
    intros _ w1 Hw1. case_bool_decide as Hph.
    { apply (wp_steady_end i i); [|done|by left; left].
      apply steady_reconcile_tail, finalizers_updateStatus. }
    assert (may) as Hmay by done. destruct w1 as [m1 [t1 i1]].
    apply wp_bind. unfold call. eapply wp_mono; [apply (act_Create_law ns name x), Hw1| |].
    2: { intros s [m' [t' i']] [Ht' Hi']. cbn [snd] in Hi'. split; [done|]. right.
         by destruct Hw1 as [_ <-]. }
    intros r [m2 [t2 i2]] [Ht2 Hi2]. cbn beta. apply (wp_steady_end i i2); [|by split|].
    2: { right. by destruct Hw1 as [_ <-]. }
    destruct r as [err|]; [|auto with go].
    destruct (isInvalidMachineConfigurationError err); [|auto with go].
    apply steady_reconcile_tail, finalizers_updateStatus.
Qed.

Lemma reconcile_present_spec i orig m t :
  tracks finalizers ns name x m t →
  let may := machineIsFailed m = false ∧ machineIsProvisioned m = false ∧
             stringPointerDeref (phase m) ≠ "" in
  wp (reconcile_present (Some act) orig)
    (λ _ w', present_post i may w') (λ _ w', present_post i may w') (m, (t, i)).
Proof.
  intros Ht may. unfold reconcile_present. apply wp_bind, wp_the_machine. cbn [fst].
  destruct (machineIsFailed m) eqn:Hf; [go_step; split; [done|by left; left]|].
  apply wp_bind. unfold call at 1. eapply wp_mono; [apply (act_Exists_law m t i)| |done].
  intros [b [err|]] w [-> Hex]; cbn beta iota zeta.
  - apply (wp_steady_end i i); [|by split|by left; left].
    apply steady_bind; [apply finalizers_set_condition|intros _].
    apply steady_bind; [apply finalizers_updateStatus_same|auto with go].
  - destruct b; [by apply reconcile_exists_spec|].
    eapply wp_mono; [by apply (reconcile_missing_spec i)|..];
      intros ? [m' [t' i']] [Hm' Hi']; (split; [done|]);
      (destruct Hi' as [|[Hmay ?]]; [by left|right]); split_and!; by try apply Hmay.
Qed.

(** *** The whole reconciliation

    The finalizers of the machine [m] that was read are as they were, or have
    been given up without an instance, or the finalizer was added. *)
Definition finalizers_step (m : Mapi.Machine) (t' : TW) (i' : IW) : Prop :=
  let fin := Mapi.MachineFinalizer in
  stored_finalizers t' = Some (finalizers m) ∨
  (under_deletion m = true ∧ ¬ inst i' name ∧
   match stored_finalizers t' with
   | Some l => l = Filter (finalizers m) fin
   | None => Filter (finalizers m) fin = []
   end) ∨
  (under_deletion m = false ∧ (fin ∉ finalizers m) ∧
   stored_finalizers t' = Some (finalizers m ++ [fin])).

(** When an instance may be updated. *)
Record update_due (m : Mapi.Machine) : Prop := {
  upd_valid : Validate m = [];
  upd_kept : under_deletion m = false;
  upd_finalizer : Mapi.MachineFinalizer ∈ finalizers m
}.

(** The instances are as they were, or the machine's has been removed as it
    is under deletion, or added as it was due, or it was doomed and is gone
    with an update. *)
Definition instances_step (m : Mapi.Machine) (i i' : IW) : Prop :=
  same_instances inst i i' ∨ (deletion_due m ∧ only_removes inst name i i') ∨
  (creation_due m ∧ only_adds inst name i i') ∨
  (update_due m ∧ doomed i name ∧ only_removes inst name i i').

Lemma finalizer_kept m t' i' :
  finalizers_step m t' i' → Mapi.MachineFinalizer ∈ finalizers m →
  (∃ l, stored_finalizers t' = Some l ∧ Mapi.MachineFinalizer ∈ l) ∨ ¬ inst i' name.
Proof. intros [?|[(_ & ? & _)|(_ & ? & _)]] Hf; [by left; eexists|by right|done]. Qed.

Lemma instance_due m i i' :
  instances_step m i i' → inst i' name → inst i name ∨ creation_due m.
Proof.
  intros [Hs|[[_ [_ Hr]]|[[Hdue _]|(_ & _ & [_ Hr])]]] Hin;
    [left; by apply Hs|left; by apply Hr|by right|left; by apply Hr].
Qed.

Lemma instances_others m i i' n :
  instances_step m i i' → n ≠ name → inst i' n ↔ inst i n.
Proof.
  intros [Hs|[[_ [Ho _]]|[[_ [Ho _]]|(_ & _ & [Ho _])]]] Hn; [apply Hs|by apply Ho..].
Qed.

Lemma removal_due m i i' :
  instances_step m i i' → inst i name →
  inst i' name ∨ deletion_due m ∨ (update_due m ∧ doomed i name).
Proof.
  intros [Hs|[[Hdue _]|[[_ [_ Ha]]|(? & ? & _)]]] Hin;
    [left; by apply Hs|by right; left|left; by apply Ha|by right; right].
Qed.

Definition reconciled (m : Mapi.Machine) (i : IW) (w : world) : Prop :=
  finalizers_step m w.2.1 w.2.2 ∧ instances_step m i w.2.2.

Lemma held_reconciled m i w : held m i w → reconciled m i w.
Proof.
  intros [(_ & _ & _ & Hat) Hi]. split; left; [by apply stored_of_statics|by rewrite Hi].
Qed.

(** The finalizer is added, and no instance touched. *)
Lemma wp_add_finalizer i m t :
  tracked i (m, (t, i)) → Mapi.MachineFinalizer ∉ finalizers m → under_deletion m = false →
  wp (update_finalizers (λ l, l ++ [Mapi.MachineFinalizer])) (λ _, reconciled m i) no_panic
    (m, (t, i)).
Proof.
  intros [(Hns & Hn & Hx & Hat) _] Hfin Hud. simpl in *.
  unfold update_finalizers, change_machine. do 3 go_step. simpl. unfold on_tenant. go_step.
  set (m' := Mapi.set_Finalizers _ m).
  assert (∀ t', update_done m' t t' ∨ machines_same t t' → finalizers_step m t' i) as Hstep.
  { intros t' [Hup|Hsame].
    - right; right. split_and!; [done..|]. unfold update_done, stored_finalizers in *.
      change (Mapi.GetNamespace m') with (Mapi.GetNamespace m) in Hup.
      change (Mapi.GetName m') with (Mapi.GetName m) in Hup. rewrite Hns, Hn in Hup.
      destruct (machine_at t' ns name); simpl; [by destruct Hup as [-> _]|]. by apply app_nil in Hup as [_ ?].
    - left. unfold stored_finalizers. by rewrite Hsame, Hx. }
  eapply wp_mono; [apply machine_Update_spec| |done].
  intros [e|] [m1 t'] Hup; (split; [apply Hstep|by left]); [by destruct Hup; auto|by auto].
Qed.

Lemma present_reconciled m i w :
  finalizers m = x → Validate m = [] → under_deletion m = false →
  Mapi.MachineFinalizer ∈ finalizers m →
  present_post i (machineIsFailed m = false ∧ machineIsProvisioned m = false ∧
                  stringPointerDeref (phase m) ≠ "") w → reconciled m i w.
Proof.
  destruct w as [m' [t' i']]. intros Hx Hv Hud Hf [(_ & _ & _ & Hat) Hi'].
  split; [left; by rewrite Hx|].
  destruct Hi' as [[|]|[(? & ? & ?) ?]]; [by left|by right; right; right|right; right; left]. by split.
Qed.

Lemma deletion_reconciled m i w :
  Validate m = [] → under_deletion m = true → deletion_step m i w → reconciled m i w.
Proof.
  intros Hv Hud [Hk Hi']. split.
  - destruct Hk as [Hst|(? & ? & _)]; [left; by apply stored_of_statics|by right; left].
  - destruct Hi' as [|[? ?]]; [by left|right; left]. by split.
Qed.

(** A panic in a deletion is one of Delete. *)
Definition deletion_panic (m : Mapi.Machine) : Prop :=
  under_deletion m = true → Validate m = [] → ¬ deletable m.

Lemma reconcile_machine_spec m t i :
  machine_at t ns name = Some m → finalizers m = x →
  wp (reconcile_machine (Some act))
    (λ r w', reconciled m i w' ∧
       (under_deletion m = true → kept_or_gone m w'.2.1 w'.2.2 ∧
          (Validate m = [] → r = (noResult, None) → released w'.2.1)))
    (λ _ w', reconciled m i w' ∧ (under_deletion m = true → kept_or_gone m w'.2.1 w'.2.2) ∧
             deletion_panic m) (m, (t, i)).
Proof.
  intros Hat Hx. destruct (machine_at_named _ _ _ _ Hat) as [Hns Hn].
  assert (tracks finalizers ns name x m t) as Ht.
  { split_and!; try done. by rewrite Hat, <-Hx. }
  assert (held m i (m, (t, i))) as Hheld.
  { split; [|done]. split_and!; try done. simpl. by rewrite Hat. }
  unfold reconcile_machine. apply wp_bind, wp_the_machine. cbn [fst].
  unfold deletion_panic. destruct (Validate m) as [|e errs] eqn:Hv.
  2: { eapply (wp_steady statics ns name (statics m) i False); [solve [auto with go]|done| |done].
       intros r w' Hw'. go_step. split; [by apply held_reconciled|].
       intros _. split; [by eapply held_kept|done]. }
  destruct (time_IsZero _) eqn:Hz.
  - assert (under_deletion m = false) as Hud by (unfold under_deletion; by rewrite Hz).
    rewrite Hud. destruct (Contains _ _) eqn:Hc; simpl.
    + apply Contains_spec in Hc.
      eapply wp_mono; [by apply (reconcile_present_spec i)| |]; intros ? w' Hpost;
        (split; [|done]); by apply present_reconciled.
    + apply wp_bind. eapply wp_mono; [apply wp_add_finalizer; [by split| |done]| |done].
      { intros Hf%Contains_spec. unfold finalizers in Hf. congruence. }
      intros r w' Hw'. cbn beta. go_step. by split.
  - assert (under_deletion m = true) as Hud by (unfold under_deletion; by rewrite Hz).
    eapply wp_mono; [by apply (reconcile_deleted_spec m i)| |].
    + intros r w' [Hstep Hd]. split; [by apply deletion_reconciled|]. intros _.
      split; [apply Hstep|by intros _].
    + intros s w' [Hstep Hd]. split; [by apply deletion_reconciled|].
      split; [intros _; apply Hstep|by intros _ _].
Qed.
End reconcile.

Section reconcile_request.
Context {TW IW : Type} `{!TenantApi TW, !EventRecorder TW, !NodeApi TW, !MachineApi TW,
  !StatusConverter, !TenantView (TW:=TW), !EventLaws TW, !MachineLaws (TW:=TW)}.
Context (act : MachineActuator (TW * IW)) (inst doomed : IW → string → Prop)
  (deletable : Mapi.Machine → Prop) `{!ActuatorLaws act inst doomed deletable}.

Lemma wp_with_machine {A} m (c : Go (Actuator.world TW IW) A)
    (Q : A → TW * IW → Prop) (E : string → TW * IW → Prop) w :
  wp c (λ a w', Q a w'.2) (λ s w', E s w'.2) (m, w) → wp (with_machine m c) Q E w.
Proof. unfold wp, with_machine. by destruct (c (m, w)) as [[a|s] [m' w']]. Qed.

Lemma request_spec ns name m t i :
  machine_at t ns name = Some m →
  let safe : TW * IW → Prop := λ '(t', i'),
    finalizers_step inst ns name m t' i' ∧ instances_step inst doomed name m i i' ∧
    (under_deletion m = true → kept_or_gone inst ns name m t' i') in
  wp (Reconcile (Some act) ns name)
    (λ r w', safe w' ∧ (under_deletion m = true → Validate m = [] →
                        r = (noResult, None) → released ns name w'.1))
    (λ _ w', safe w' ∧ deletion_panic deletable m) (t, i).
Proof.
  intros Hm safe. unfold Reconcile. do 2 go_step. go_call machine_Get_spec.
  intros [m'|e] t' [-> Hr].
  - rewrite Hm in Hr. injection Hr as <-. apply wp_with_machine.
    eapply wp_mono; [by apply (reconcile_machine_spec act inst doomed deletable ns name (finalizers m))|..].
    + intros r [m' [t' i']] [[? ?] Hd].
      split; [split_and!; [done..|]|]; intros Hud; by apply (Hd Hud).
    + intros s [m' [t' i']] [[? ?] [? ?]]. by split_and!.
  - assert (safe (t, i)) as Hsafe.
    { split; [left|split; [by left|intros _; left]]; [unfold stored_finalizers|]; by rewrite Hm. }
    destruct (IsNotFound e) eqn:He; go_step; (split; [done|]); intros _ _ [=].
    rewrite Hr in Hm by done. done.
Qed.
End reconcile_request.
