(* ===== verification/TenantServer.v ===== *)
(** * A reference tenant cluster

    Machines, secrets, config maps, nodes and events.  It shows that the
    promises of [TenantCluster], [Actuator] and [NodeUpdate] can be kept, and
    the examples run on it.  A patch is a merge patch: it stores the fields that
    differ from the original, under a new resource version, and is refused
    when it carries a resource version that is not the stored one. *)

From S2P Require Import Prelude GoStd GoErrors Json ApiTypes ProviderConfig TenantCluster.
From S2P Require Import MachineScope InfraCluster InfraServer Kubevirt Actuator NodeUpdate.
From S2P Require Import Conditions MachineController.

Record tenant := MkTenant {
  t_machines : gmap (string * string) Mapi.Machine;
  t_secrets : gmap (string * string) Core.Secret;
  t_configmaps : gmap (string * string) Core.ConfigMap;
  t_nodes : gmap string Core.Node;
  t_events : list (string * string)
}.

Definition set_machines (f : gmap (string * string) Mapi.Machine →
    gmap (string * string) Mapi.Machine) (t : tenant) : tenant :=
  MkTenant (f (t_machines t)) (t_secrets t) (t_configmaps t) (t_nodes t) (t_events t).
Definition set_nodes (f : gmap string Core.Node → gmap string Core.Node) (t : tenant) : tenant :=
  MkTenant (t_machines t) (t_secrets t) (t_configmaps t) (f (t_nodes t)) (t_events t).

(** Machines are reported with the name they are stored under. *)
Definition machine_named_at (ns name : string) (m : Mapi.Machine) : Mapi.Machine :=
  Mapi.MkMachine (at_name ns name (Mapi.MachineMeta m)) (Mapi.Spec m) (Mapi.Status m).
Definition stored_machine (t : tenant) (ns name : string) : option Mapi.Machine :=
  machine_named_at ns name <$> t_machines t !! (ns, name).
Definition stored_next (stored m : Mapi.Machine) : Mapi.Machine :=
  stamped (next_version (Meta.ResourceVersion (Mapi.MachineMeta stored))) m.

(** A merge patch carries what differs from the original, the resource version
    too. *)
Definition version (m : Mapi.Machine) : string := Meta.ResourceVersion (Mapi.MachineMeta m).

Definition tenant_patch (origin : Mapi.Machine) (apply : Mapi.Machine → Mapi.Machine → Mapi.Machine)
    : Go (Mapi.Machine * tenant) (option goerror) := λ '(m, t),
  let ns := Mapi.GetNamespace m in
  let name := Mapi.GetName m in
  match stored_machine t ns name with
  | None => (Ret (Some not_found), (m, t))
  | Some stored =>
      if bool_decide (version m = version origin ∨ version m = version stored) then
        let m' := stored_next stored (apply m stored) in
        (Ret None, (m', set_machines <[(ns, name) := m']> t))
      else (Ret (Some conflict), (m, t))
  end.

Definition merge_field `{EqDecision X} (origin m stored : X) : X :=
  if decide (m = origin) then stored else m.

(** Of a map the entries are merged; a map without entries is left out of an
    object, so that one that has lost its last entry is removed. *)
Definition merge_map (origin m stored : gomap string) : gomap string :=
  if decide (stored = origin) then m
  else
    let o := default ∅ origin in
    let n := default ∅ m in
    if decide (n = o) then stored
    else if decide (n = ∅) then None
    else Some (filter (λ kv, o !! kv.1 ≠ Some kv.2) n ∪ (default ∅ stored ∖ (o ∖ n))).

Definition merge_main (origin m stored : Mapi.Machine) : Mapi.Machine :=
  let meta := Mapi.MachineMeta in
  let field {X} `{EqDecision X} (f : Mapi.Machine → X) : X :=
    merge_field (f origin) (f m) (f stored) in
  Mapi.MkMachine
    (Meta.MkObjectMeta (field (λ m, Meta.Name (meta m))) (field (λ m, Meta.Namespace (meta m)))
       (field (λ m, Meta.UID (meta m))) (version stored)
       (field (λ m, Meta.CreationTimestamp (meta m))) (field (λ m, Meta.DeletionTimestamp (meta m)))
       (merge_map (Meta.Labels (meta origin)) (Meta.Labels (meta m)) (Meta.Labels (meta stored)))
       (merge_map (Meta.Annotations (meta origin)) (Meta.Annotations (meta m))
          (Meta.Annotations (meta stored)))
       (field (λ m, Meta.OwnerReferences (meta m))) (field (λ m, Meta.Finalizers (meta m)))
       (field (λ m, Meta.ClusterName (meta m))))
    (Mapi.MkMachineSpec (field (λ m, Mapi.ProviderSpecValue (Mapi.Spec m)))
       (field (λ m, Mapi.ProviderID (Mapi.Spec m))))
    (Mapi.Status stored).

Definition merge_status (origin m stored : Mapi.MachineStatus) : Mapi.MachineStatus :=
  let field {X} `{EqDecision X} (f : Mapi.MachineStatus → X) : X :=
    merge_field (f origin) (f m) (f stored) in
  Mapi.MkMachineStatus (field Mapi.NodeRef) (field Mapi.LastUpdated) (field Mapi.ErrorReason)
    (field Mapi.ErrorMessage) (field Mapi.ProviderStatus) (field Mapi.Addresses)
    (field Mapi.Phase) (field Mapi.Conditions).
Definition merge_patched (origin m stored : Mapi.Machine) : Mapi.Machine :=
  Mapi.MkMachine (Mapi.MachineMeta stored) (Mapi.Spec stored)
    (merge_status (Mapi.Status origin) (Mapi.Status m) (Mapi.Status stored)).

#[export] Instance tenant_api : TenantApi tenant := {|
  runtime_Patch origin := tenant_patch origin (merge_main origin);
  runtime_Status_Patch origin := tenant_patch origin (merge_patched origin);
  secrets_Get ns name t :=
    (Ret match t_secrets t !! (ns, name) with Some s => inl s | None => inr not_found end, t);
  configmaps_Get ns name t :=
    (Ret match t_configmaps t !! (ns, name) with Some c => inl c | None => inr not_found end, t)
|}.

#[export] Instance tenant_view : TenantView (TW:=tenant) := {|
  machine_at := stored_machine;
  secret_at t ns name := t_secrets t !! (ns, name);
  configmap_at t ns name := t_configmaps t !! (ns, name)
|}.

#[export] Instance tenant_recorder : EventRecorder tenant := {|
  Event _ ty _ msg := go_modify (λ t, MkTenant (t_machines t) (t_secrets t) (t_configmaps t)
                                        (t_nodes t) (t_events t ++ [(ty, msg)]))
|}.

(** Nodes are reported with the name they are stored under. *)
Definition node_named_at (name : string) (n : Core.Node) : Core.Node :=
  Core.MkNode (at_name (Meta.Namespace (Core.NodeMeta n)) name (Core.NodeMeta n))
    (Core.NodeProviderID n) (Core.NodeConditions n).

#[export] Instance tenant_nodes : NodeView (TW:=tenant) := {|
  node_at t name := node_named_at name <$> t_nodes t !! name
|}.

#[export] Instance tenant_node_api : NodeApi tenant := {|
  node_Get _ name t :=
    (Ret match t_nodes t !! name with Some n => inl (node_named_at name n)
         | None => inr not_found end, t);
  node_Delete n t := (Ret None, set_nodes (delete (node_Name n)) t);
  node_Update n t :=
    match t_nodes t !! node_Name n with
    | None => (Ret (Some not_found), t)
    | Some _ => (Ret None, set_nodes <[node_Name n := n]> t)
    end
|}.

(** An update of a machine leaves its status alone; the last finalizer of a
    machine under deletion takes the machine with it. *)
Definition tenant_update : Go (Mapi.Machine * tenant) (option goerror) := λ '(m, t),
  let ns := Mapi.GetNamespace m in
  let name := Mapi.GetName m in
  match stored_machine t ns name with
  | None => (Ret (Some not_found), (m, t))
  | Some stored =>
      if bool_decide (finalizers m = []) && under_deletion stored then
        (Ret None, (m, set_machines (delete (ns, name)) t))
      else
        let m' := stored_next stored (patched m stored) in
        (Ret None, (m', set_machines <[(ns, name) := m']> t))
  end.

(** The clock stands still, drains succeed. *)
Definition example_now : Z := 1600000000 * conditions.second.

#[export] Instance tenant_machine_api : MachineApi tenant := {|
  machine_Get ns name t :=
    (Ret match stored_machine t ns name with Some m => inl m | None => inr not_found end, t);
  machine_Update := tenant_update;
  validation_text errs _ :=
    match errs with
    | MissingClusterLabel :: _ => "spec.labels"
    | _ => "spec.spec.providerspec"
    end;
  quote_text s := quote +:+ s +:+ quote;
  NewForConfig := mret None;
  kube_node_Get name := node_Get "" name;
  RunCordonOrUncordon _ _ _ := mret None;
  RunNodeDrain _ _ := mret None;
  now := mret example_now;
  observe_phase _ _ := mret tt
|}.

(** The converter on text that is a JSON object; [null] reads as an empty one. *)
#[export] Instance json_status : StatusConverter := {|
  ToUnstructured raw :=
    match decode_document (Raw raw) with
    | Some JNull => Ret (inl [])
    | Some v => match to_any v with
                | (AMap m, true) => Ret (inl m)
                | (_, true) => Panic "reflect.Set"
                | (_, false) => Ret (inr (ErrorString "number out of range"))
                end
    | None => Ret (inr (ErrorString "invalid JSON"))
    end;
  FromUnstructured m _ := inl (MkRawExtension (encode (AMap m)))
|}.

(** ** It keeps the promises *)
Lemma machine_named_at_id ns name m :
  Mapi.GetNamespace m = ns → Mapi.GetName m = name → machine_named_at ns name m = m.
Proof. by intros <- <-; destruct m as [[] ? ?]. Qed.

Lemma stored_machine_named t ns name m :
  stored_machine t ns name = Some m → Mapi.GetNamespace m = ns ∧ Mapi.GetName m = name.
Proof. unfold stored_machine. by intros (m0 & _ & ->)%fmap_Some. Qed.

(** A machine of this name is stored as it is. *)
Lemma stored_machine_insert t ns name m :
  Mapi.GetNamespace m = ns → Mapi.GetName m = name →
  stored_machine (set_machines <[(ns, name) := m]> t) ns name = Some m.
Proof.
  intros Hns Hn. unfold stored_machine. simpl. rewrite lookup_insert_eq. simpl.
  by rewrite machine_named_at_id.
Qed.

Lemma stored_machine_insert_ne t ns name ns' name' m :
  (ns', name') ≠ (ns, name) →
  stored_machine (set_machines <[(ns, name) := m]> t) ns' name' = stored_machine t ns' name'.
Proof. intros Hne. unfold stored_machine. simpl. by rewrite lookup_insert_ne by congruence. Qed.

Lemma merge_field_stored `{EqDecision X} (origin m : X) : merge_field origin m origin = m.
Proof. unfold merge_field. by case_decide. Qed.

Lemma merge_status_stored origin m : merge_status origin m origin = m.
Proof. unfold merge_status. rewrite !merge_field_stored. by destruct m. Qed.

Lemma merge_field_same `{EqDecision X} (origin m stored : X) :
  stored = origin → merge_field origin m stored = m.
Proof. intros ->. apply merge_field_stored. Qed.

(** What the first patch stores when the machine is as it was read. *)
Lemma merge_main_stored origin m stored :
  Mapi.MachineMeta stored = Mapi.MachineMeta origin → Mapi.Spec stored = Mapi.Spec origin →
  ∀ rv, stamped rv (merge_main origin m stored) = stamped rv (patched m stored).
Proof.
  intros Hmeta Hspec rv. unfold stamped, merge_main, patched, merge_map, Meta.set_ResourceVersion. cbn.
  rewrite Hmeta, Hspec, !merge_field_stored, !decide_True by done.
  by destruct m as [[] [] ?].
Qed.

(** The names of an object are no part of a patch. *)
Lemma merge_main_named origin m stored :
  Mapi.GetNamespace stored = Mapi.GetNamespace m → Mapi.GetName stored = Mapi.GetName m →
  Mapi.GetNamespace (merge_main origin m stored) = Mapi.GetNamespace m ∧
  Mapi.GetName (merge_main origin m stored) = Mapi.GetName m.
Proof.
  unfold Mapi.GetNamespace, Mapi.GetName, merge_main, merge_field. cbn.
  intros Hns Hn. split; by case_decide.
Qed.

Lemma tenant_patch_ok origin (applicable : Mapi.Machine → Prop) apply result m t
    (Hres : ∀ stored rv, applicable stored →
       stamped rv (apply m stored) = stamped rv (result m stored))
    (Hnamed : ∀ stored, Mapi.GetNamespace stored = Mapi.GetNamespace m →
       Mapi.GetName stored = Mapi.GetName m →
       Mapi.GetNamespace (apply m stored) = Mapi.GetNamespace m ∧
       Mapi.GetName (apply m stored) = Mapi.GetName m) :
  wp (tenant_patch origin apply) (patch_post applicable (result m) m t) no_panic (m, t).
Proof.
  unfold wp, tenant_patch, patch_post.
  destruct (stored_machine t (Mapi.GetNamespace m) (Mapi.GetName m)) as [st|] eqn:Hst.
  - case_bool_decide; [|by split; [|split; [|left]]]. split.
    + split_and!; try done. intros ns name Hne. by apply stored_machine_insert_ne.
    + exists st. split; [done|]. intros Hst'. eexists. unfold stored_next. rewrite Hres by done.
      split; [done|]. destruct (stored_machine_named _ _ _ _ Hst) as [Hns Hn].
      rewrite <-Hres by done. destruct (Hnamed st Hns Hn). by apply stored_machine_insert.
  - split; [done|]. split; [done|]. left. done.
Qed.

#[export] Instance tenant_laws : TenantLaws (TW:=tenant).
Proof.
  split.
  - intros origin m t. apply tenant_patch_ok; [|apply merge_main_named].
    intros stored rv ->. by apply merge_main_stored.
  - intros origin m t. apply tenant_patch_ok; [|done]. intros stored rv (_ & _ & Hs).
    unfold merge_patched, status_patched. by rewrite Hs, merge_status_stored.
  - intros ns name t. unfold wp; simpl. by destruct (t_secrets t !! (ns, name)).
  - intros ns name t. unfold wp; simpl. by destruct (t_configmaps t !! (ns, name)).
Qed.

#[export] Instance tenant_event_laws : EventLaws tenant.
Proof. done. Qed.

Lemma node_becomes_insert name n t :
  node_becomes name (Some (node_named_at name n)) t (set_nodes <[name := n]> t).
Proof.
  split_and!; try done; simpl; [by rewrite lookup_insert_eq|].
  intros name' Hne. by rewrite lookup_insert_ne.
Qed.

#[export] Instance tenant_node_laws : NodeLaws (TW:=tenant).
Proof.
  split.
  - intros t name n. simpl. by intros (x & _ & ->)%fmap_Some.
  - intros ns name t. unfold wp; simpl. by destruct (t_nodes t !! name).
  - intros n t. left. split_and!; try done; simpl; [by rewrite lookup_delete_eq|].
    intros name' Hne. by rewrite lookup_delete_ne.
  - intros n t. unfold wp; simpl. destruct (t_nodes t !! node_Name n); [|by left].
    eexists. split; [apply node_becomes_insert|done].
Qed.

Lemma stored_next_named stored m :
  Mapi.GetNamespace (stored_next stored m) = Mapi.GetNamespace m ∧
  Mapi.GetName (stored_next stored m) = Mapi.GetName m.
Proof. done. Qed.

Lemma tenant_update_ok m t :
  wp tenant_update
    (λ r '(_, t'), match r with
                   | None => update_done m t t'
                   | Some _ => machines_same t t' ∨ update_done m t t'
                   end) no_panic (m, t).
Proof.
  unfold wp, tenant_update, update_done. simpl.
  destruct (stored_machine t (Mapi.GetNamespace m) (Mapi.GetName m)) as [st|]; [|by left].
  destruct (bool_decide (finalizers m = []) && under_deletion st) eqn:Hgone; simpl.
  - apply andb_prop in Hgone as [Hf%bool_decide_eq_true _]. unfold stored_machine. simpl.
    by rewrite lookup_delete_eq.
  - rewrite stored_machine_insert by done. split; [done|]. by intros st' [= <-].
Qed.

(** A patch, as far as [p] goes, when [p] does not see resource versions. *)
Lemma tenant_patch_tracks {X} (p : Mapi.Machine → X) origin apply ns name x m t :
  (∀ rv m, p (stamped rv m) = p m) →
  (∀ stored, p stored = x → p (apply m stored) = x ∧
     (Mapi.GetNamespace stored = ns → Mapi.GetName stored = name →
      Mapi.GetNamespace (apply m stored) = ns ∧ Mapi.GetName (apply m stored) = name)) →
  tracks p ns name x m t →
  wp (tenant_patch origin apply) (λ _ '(m', t'), tracks p ns name x m' t') no_panic (m, t).
Proof.
  intros Hrv Hp (Hns & Hn & Hm & Hat). unfold wp, tenant_patch. rewrite Hns, Hn.
  simpl in Hat. apply fmap_Some in Hat as (st & Hst & Hx). rewrite Hst. symmetry in Hx.
  case_bool_decide.
  2: { split_and!; try done. simpl. by rewrite Hst, <-Hx. }
  destruct (stored_machine_named _ _ _ _ Hst) as [Hns' Hn'].
  destruct (Hp st Hx) as [Hpa Hname]. destruct (Hname Hns' Hn') as [Hns2 Hn2].
  split_and!; try done.
  - unfold stored_next. by rewrite Hrv.
  - simpl. rewrite stored_machine_insert by done. simpl. f_equal. unfold stored_next. by rewrite Hrv.
Qed.

#[export] Instance tenant_machine_laws : MachineLaws (TW:=tenant).
Proof.
  split; try by (intros; intros t; apply wp_ret).
  - intros ns name t m. apply stored_machine_named.
  - intros ns name t. unfold wp; simpl. by destruct (stored_machine t ns name).
  - apply tenant_update_ok.
  - intros origin ns name x m t Ht Ho. pose proof Ht as (Hns & Hn & Hx & _).
    apply tenant_patch_tracks; [done| |done]. intros st Hst. split.
    + unfold finalizers, merge_main, merge_field in *. cbn. by case_decide.
    + intros Hns' Hn'. destruct (merge_main_named origin m st); [congruence..|split; congruence].
  - intros origin ns name x m t Ht. by apply tenant_patch_tracks.
  - intros origin ns name x m t Ht. by apply tenant_patch_tracks.
  - intros origin m t. unfold wp; simpl.
    destruct (stored_machine t (Mapi.GetNamespace m) (Mapi.GetName m)) as [st|] eqn:Hst; simpl.
    + case_bool_decide; [|left; by rewrite Hst].
      destruct (stored_machine_named _ _ _ _ Hst). rewrite stored_machine_insert by done. simpl.
      change (phase _) with
        (merge_field (Mapi.Phase (Mapi.Status origin)) (Mapi.Phase (Mapi.Status m))
           (Mapi.Phase (Mapi.Status st))) at 1 3.
      unfold merge_field. case_decide; [by left|by right].
    + left. by rewrite Hst.
Qed.

(** ** An example *)
Definition q (s : string) : string := quote +:+ s +:+ quote.
Definition example_tenant : tenant :=
  MkTenant
    {[ ("openshift-machine-api", "worker-0") := example_machine ]}
    {[ ("openshift-machine-api", "worker-user-data") :=
         Core.MkSecret Meta.empty (Some {[ userDataKey := UserData.test_source ]}) ]}
    {[ (configMapNamespace, configMapName) :=
         Core.MkConfigMap Meta.empty (Some {[ configMapDataKeyName :=
           "{" +:+ q "namespace" +:+ ":" +:+ q "infra" +:+ "," +:+ q "infraID" +:+ ":"
           +:+ q "id" +:+ "}" ]}) ]}
    {[ "worker-0" := Core.MkNode Meta.empty "" [] ]}
    [].

#[export] Instance example_yaml : YamlLib := json_yaml.
Definition example_actuator : actuator := MkActuator "id" "infra".

Example New_example :
  New example_tenant = (Ret (inl (Some example_actuator)), example_tenant).
Proof. vm_compute. reflexivity. Qed.

(** A virtual machine is created, and is not ready. *)
Definition example_world : world tenant server := (example_machine, (example_tenant, empty_server)).

Example Create_example :
  (Create example_actuator example_world).1 = Ret (Some not_ready_error).
Proof. vm_compute. reflexivity. Qed.
