(* ===== verification/Patches.v ===== *)
(** * Patches while others write

    patchMachine writes a machine with two merge patches, one for the machine
    and one for its status.  Here others write before each of them, in any
    way: what they write is kept, in every field that the actuator has not
    changed, and the second patch is refused when the first one wrote and
    others wrote since. *)

From S2P Require Import Prelude GoStd GoErrors Json ApiTypes ProviderConfig TenantCluster.
From S2P Require Import MachineScope InfraCluster InfraServer Kubevirt Actuator NodeUpdate.
From S2P Require Import Conditions MachineController TenantServer.

(** ** Merge patches

    A merge patch carries the fields that differ from the original: the others
    stay as they are stored, and these are taken over when nobody else has
    changed them. *)
Definition merges {X} (origin m stored x : X) : Prop :=
  (m = origin → x = stored) ∧ (stored = origin → x = m).

Definition status_merges (origin m stored s : Mapi.MachineStatus) : Prop :=
  let field {X} (f : Mapi.MachineStatus → X) := merges (f origin) (f m) (f stored) (f s) in
  field Mapi.NodeRef ∧ field Mapi.LastUpdated ∧ field Mapi.ErrorReason ∧
  field Mapi.ErrorMessage ∧ field Mapi.ProviderStatus ∧ field Mapi.Addresses ∧
  field Mapi.Phase ∧ field Mapi.Conditions.

(** Of a map the entries are merged, unless its last entry was removed, which
    takes the whole map with it. *)
Definition map_merges (origin m stored x : gomap string) : Prop :=
  default ∅ m ≠ ∅ ∨ default ∅ origin = ∅ →
  ∀ key, merges (map_index origin key) (map_index m key) (map_index stored key) (map_index x key).

Definition main_merges (origin m stored x : Mapi.Machine) : Prop :=
  let maps (f : Meta.ObjectMeta → gomap string) :=
    map_merges (f (Mapi.MachineMeta origin)) (f (Mapi.MachineMeta m))
      (f (Mapi.MachineMeta stored)) (f (Mapi.MachineMeta x)) in
  let field {X} (f : Mapi.Machine → X) := merges (f origin) (f m) (f stored) (f x) in
  maps Meta.Labels ∧ maps Meta.Annotations ∧ field finalizers ∧
  field (λ m, Meta.OwnerReferences (Mapi.MachineMeta m)) ∧
  field (λ m, Mapi.ProviderID (Mapi.Spec m)) ∧
  field (λ m, Mapi.ProviderSpecValue (Mapi.Spec m)).

(** The resource version is a field as any other: a patch that carries one is
    for that version only. *)
Definition fresh (origin m stored : Mapi.Machine) : Prop :=
  version m ≠ "" → version m = version origin ∨ version m = version stored.

Class MergeLaws TW `{!TenantApi TW, !TenantView (TW:=TW)} := {
  merge_patch_spec origin m (t : TW) :
    let at_name t := machine_at t (Mapi.GetNamespace m) (Mapi.GetName m) in
    wp (runtime_Patch origin)
      (λ r '(m', t'),
         match r with
         | None => ∃ stored, at_name t = Some stored ∧ at_name t' = Some m' ∧
             version m' ≠ "" ∧ Mapi.GetNamespace m' = Mapi.GetNamespace m ∧
             Mapi.GetName m' = Mapi.GetName m ∧ main_merges origin m stored m' ∧
             Mapi.Status m' = Mapi.Status stored
         | Some _ => m' = m
         end) no_panic (m, t);
  merge_status_spec origin m (t : TW) :
    let at_name t := machine_at t (Mapi.GetNamespace m) (Mapi.GetName m) in
    wp (runtime_Status_Patch origin)
      (λ r '(m', t'),
         match r with
         | None => ∃ stored, at_name t = Some stored ∧ at_name t' = Some m' ∧
             fresh origin m stored ∧ statics m' = statics stored ∧
             status_merges (Mapi.Status origin) (Mapi.Status m) (Mapi.Status stored) (Mapi.Status m')
         | Some _ => m' = m ∧
             (at_name t' = at_name t ∨ ∃ stored, at_name t = Some stored ∧ fresh origin m stored)
         end) no_panic (m, t)
}.

(** ** Others act before each request *)
Section interference.
Context {TW : Type} `{!TenantApi TW} (others : nat → TW → TW).

(** The requests so far are counted: [others k] comes before request [k]. *)
Definition raced {A} (c : Go (Mapi.Machine * TW) A) : Go (Mapi.Machine * (nat * TW)) A :=
  λ '(m, (k, t)), let '(o, (m', t')) := c (m, others k t) in (o, (m', (S k, t'))).
Definition raced_read {A} (c : Go TW A) : Go (nat * TW) A := λ '(k, t),
  let '(o, t') := c (others k t) in (o, (S k, t')).

#[local] Instance racing : TenantApi (nat * TW) := {|
  runtime_Patch origin := raced (runtime_Patch origin);
  runtime_Status_Patch origin := raced (runtime_Status_Patch origin);
  secrets_Get ns name := raced_read (secrets_Get ns name);
  configmaps_Get ns name := raced_read (configmaps_Get ns name)
|}.

(** [patchMachine] of the actuator in a busy cluster. *)
Definition busy_patchMachine (origin : Mapi.Machine) :
    Go (Mapi.Machine * (nat * TW)) (option goerror) := patchMachine origin.

Lemma wp_raced {A} (c : Go (Mapi.Machine * TW) A) Q E m k t :
  wp c (λ x '(m', t'), Q x (m', (S k, t'))) (λ s '(m', t'), E s (m', (S k, t'))) (m, others k t) →
  wp (raced c) Q E (m, (k, t)).
Proof. unfold wp, raced. by destruct (c (m, others k t)) as [[x|s] [m' t']]. Qed.

(** The outcome is one of a run. *)
Lemma wp_runs {W A} (c : Go W A) Q E w :
  wp c Q E w → wp c (λ x w', c w = (Ret x, w') ∧ Q x w') E w.
Proof. unfold wp. by destruct (c w) as [[x|s] w']. Qed.

Context `{!TenantView (TW:=TW), !MergeLaws TW}.
Implicit Types (origin m stored : Mapi.Machine) (t : TW).

(** The first request, answered with [m1] and leaving the cluster [t1]. *)
Definition first_merged (ns name : string) origin m k t m1 t1 : Prop :=
  runtime_Patch origin (m, others k t) = (Ret None, (m1, t1)) ∧
  machine_at t1 ns name = Some m1 ∧
  ∃ stored, machine_at (others k t) ns name = Some stored ∧ main_merges origin m stored m1.

(** The second one, answered with [m'] and leaving [t']. *)
Definition then_merged (ns name : string) origin m k m1 t1 m' t' : Prop :=
  machine_at t' ns name = Some m' ∧
  ∃ stored, machine_at (others (S k) t1) ns name = Some stored ∧
    statics m' = statics stored ∧
    status_merges (Mapi.Status origin) (Mapi.Status m) (Mapi.Status stored) (Mapi.Status m') ∧
    (version m1 = version origin ∨ version stored = version m1).

(** Others wrote the machine between the two requests, the first of which had
    written it too. *)
Definition overtaken (ns name : string) origin k m1 t1 : Prop :=
  version m1 ≠ version origin ∧
  ∀ stored, machine_at (others (S k) t1) ns name = Some stored → version stored ≠ version m1.

(** C8: patchMachine loses nothing that others write: when it reports no error,
    each of its two requests has left the fields, the labels and the
    annotations that the actuator did not change as others had them by then,
    and has stored the actuator's where others had changed nothing (labels or
    annotations of which the actuator has removed the last one apart).  When the
    first request wrote the machine and others wrote it since, the second one
    is refused: patchMachine reports an error, and the machine is as they left
    it. *)
Theorem patchMachine_loses_nothing origin m k t :
  let ns := Mapi.GetNamespace m in
  let name := Mapi.GetName m in
  wp (busy_patchMachine origin)
    (λ r '(m', (k', t')),
       match r with
       | None => ∃ m1 t1, first_merged ns name origin m k t m1 t1 ∧
           then_merged ns name origin m k m1 t1 m' t' ∧ ¬ overtaken ns name origin k m1 t1
       | Some _ => k' = S k ∧ m' = m ∨
           ∃ m1 t1, first_merged ns name origin m k t m1 t1 ∧
             (overtaken ns name origin k m1 t1 →
              machine_at t' ns name = machine_at (others (S k) t1) ns name)
       end)
    no_panic (m, (k, t)).
Proof.
  cbv zeta. unfold busy_patchMachine, patchMachine. do 3 go_step. simpl. go_step.
  apply wp_raced. eapply wp_mono; [apply wp_runs, (merge_patch_spec origin)| |by intros ? []].
  intros r [m1 t1] [Hrun H1]. destruct r as [e|]; [go_step; by left|].
  destruct H1 as (stored & Hst & Hat1 & Hv1 & Hns1 & Hn1 & Hmain & _).
  assert (first_merged (Mapi.GetNamespace m) (Mapi.GetName m) origin m k t m1 t1) as Hfirst
    by (split_and!; [done..|by exists stored]).
  do 3 go_step. simpl. go_step. apply wp_raced.
  set (m2 := Mapi.set_Status (Mapi.Status m) m1).
  eapply wp_mono; [apply (merge_status_spec origin m2)| |by intros ? []].
  change (Mapi.GetNamespace m2) with (Mapi.GetNamespace m1).
  change (Mapi.GetName m2) with (Mapi.GetName m1). rewrite Hns1, Hn1.
  intros [e|] [m' t'] H2; go_step.
  - right. exists m1, t1. split; [done|]. intros [Hne Hstale].
    destruct H2 as [_ [->|(st & Hst' & Hfresh)]]; [done|].
    by destruct (Hfresh Hv1) as [?|Hv]; [|destruct (Hstale st Hst')].
  - destruct H2 as (stored1 & Hst1 & Hat' & Hfresh & Hs & Hmerge).
    exists m1, t1. split_and!; [done|split; [done|exists stored1]|].
    + split_and!; try done. destruct (Hfresh Hv1) as [?|Hv]; [by left|by right].
    + intros [Hne Hstale]. by destruct (Hfresh Hv1) as [?|Hv]; [|destruct (Hstale stored1 Hst1)].
Qed.
End interference.

(** ** The reference cluster merges *)
Lemma merge_field_merges `{EqDecision X} (origin m stored : X) :
  merges origin m stored (merge_field origin m stored).
Proof. unfold merges, merge_field. case_decide; naive_solver. Qed.

Lemma map_index_default {V} (m : gomap V) k : map_index m k = default ∅ m !! k.
Proof. by destruct m. Qed.

Lemma merge_entry (n o s : gmap string string) k :
  merges (o !! k) (n !! k) (s !! k) ((filter (λ kv, o !! kv.1 ≠ Some kv.2) n ∪ (s ∖ (o ∖ n))) !! k).
Proof.
  unfold merges. rewrite lookup_union, map_lookup_filter, !lookup_difference.
  destruct (n !! k) as [v|] eqn:Hn, (o !! k) as [u|] eqn:Ho; simpl;
    try case_guard; simpl; destruct (s !! k); naive_solver.
Qed.

Lemma merge_map_merges origin m stored : map_merges origin m stored (merge_map origin m stored).
Proof.
  intros Hne k. rewrite !map_index_default. unfold merge_map.
  case_decide as Hs; [subst; by split|].
  case_decide as Hno; [rewrite Hno; split; congruence|].
  case_decide as Hn; [destruct Hne; congruence|]. apply merge_entry.
Qed.

Lemma merge_main_merges origin m stored rv :
  main_merges origin m stored (stamped rv (merge_main origin m stored)).
Proof. split_and!; first [apply merge_map_merges | apply merge_field_merges]. Qed.

Lemma merge_status_merges origin m stored :
  status_merges origin m stored (merge_status origin m stored).
Proof. split_and!; apply merge_field_merges. Qed.

#[export] Instance tenant_merges : MergeLaws tenant.
Proof.
  split; intros origin m t; unfold wp; cbn; unfold tenant_patch;
    destruct (stored_machine t (Mapi.GetNamespace m) (Mapi.GetName m)) as [st|] eqn:Hst.
  - case_bool_decide; [|done]. exists st. split; [done|].
    destruct (stored_machine_named _ _ _ _ Hst) as [Hns Hn].
    destruct (merge_main_named origin m st Hns Hn) as [Hns' Hn'].
    split; [by apply stored_machine_insert|]. split_and!; try done. apply merge_main_merges.
  - done.
  - case_bool_decide as Hv; [|by split; [|left]]. exists st. split; [done|].
    destruct (stored_machine_named _ _ _ _ Hst) as [Hns Hn].
    split; [by apply stored_machine_insert|]. split; [by intros _|]. split; [done|].
    apply merge_status_merges.
  - split; [done|by left].
Qed.

(** ** An example *)

(** Others give the stored machine a label, before the requests [when] says. *)
Definition labelled (v : string) : Mapi.Machine → Mapi.Machine :=
  Mapi.set_Labels (Some {[ "zone" := v ]}).
Definition labeller (when : nat → bool) (k : nat) (t : tenant) : tenant :=
  match stored_machine t "openshift-machine-api" "worker-0" with
  | Some st =>
      if when k then
        set_machines <[("openshift-machine-api", "worker-0") :=
          stored_next st (labelled (if k is O then "a" else "b") st)]> t
      else t
  | None => t
  end.

(** The actuator sets the provider id and an address. *)
Definition example_addresses : list Core.NodeAddress := [Core.MkNodeAddress "InternalDNS" "worker-0"].
Definition changed_machine : Mapi.Machine :=
  Mapi.set_Status (Mapi.with_Addresses example_addresses (Mapi.Status example_machine))
    (Mapi.set_ProviderID (Some "kubevirt://id") example_machine).
Definition raced_example (when : nat → bool) :
    outcome (option goerror) * option (option string * option string * list Core.NodeAddress) :=
  let '(r, (_, (_, t))) :=
    busy_patchMachine (labeller when) example_machine (changed_machine, (O, example_tenant)) in
  (r, (λ m, (map_index (Meta.Labels (Mapi.MachineMeta m)) "zone",
             Mapi.ProviderID (Mapi.Spec m), Mapi.Addresses (Mapi.Status m)))
        <$> stored_machine t "openshift-machine-api" "worker-0").

(** A label written before the first request is kept; one that comes between
    the two is kept too, and the addresses are not stored then. *)
Example raced_examples :
  raced_example (λ k, k =? 0)%nat =
    (Ret None, Some (Some "a", Some "kubevirt://id", example_addresses)) ∧
  raced_example (λ k, k =? 1)%nat =
    (Ret (Some (Wrap conflict "failed to patch machine status")),
     Some (Some "b", Some "kubevirt://id", [])).
Proof. split; vm_compute; reflexivity. Qed.

Lemma patchMachine_loses_nothing_witness :
  let others := labeller (λ k, k =? 0)%nat in
  let run := busy_patchMachine others example_machine (changed_machine, (O, example_tenant)) in
  let '(o, (m', (_, t'))) := run in
  o = Ret None ∧
  ∃ m1 t1,
    first_merged others "openshift-machine-api" "worker-0" example_machine changed_machine O example_tenant m1 t1 ∧
    then_merged others "openshift-machine-api" "worker-0" example_machine changed_machine O m1 t1 m' t' ∧
    ¬ overtaken others "openshift-machine-api" "worker-0" example_machine O m1 t1.
Proof.
  intros others run.
  pose proof (patchMachine_loses_nothing others example_machine changed_machine O example_tenant)
    as Hrun.
  assert (run.1 = Ret None) as Ho by (vm_compute; reflexivity).
  cbv zeta in Hrun. unfold wp in Hrun. fold run in Hrun. revert Ho Hrun.
  destruct run as [o [m' [k' t']]]. cbn [fst snd]. intros -> Hrun. by split.
Defined.
