(* ===== verification/Stubs.v ===== *)
(** * The stubs of the unit tests (pkg/testutils/stubs.go)

    The unit tests compare what the provider builds with objects written out
    by hand: a machine, its virtual machine, its ignition secret.  Here the
    same objects are an independent description of the provider's output, and
    the scope is proved to build them from the stub machine. *)

From S2P Require Import Prelude GoStd GoErrors Quantity Json ApiTypes ProviderConfig UserData.
From S2P Require Import MachineScope InfraCluster InfraServer TenantCluster Kubevirt Actuator.
From S2P Require Import TenantServer.
From Stdlib Require Import Ascii.

Module testutils.
Definition MachineName := "test-machine-name".
Definition InfraID := "test-infra-id".
Definition InfraNamespace := "test-infra-namespace".
Definition IgnitionSecretName := "test-ignition-secret-name".
Definition SrcUserData : string := ticks
  "{'ignition':{'config':{'merge':[{'source':'https://192.168.123.15:22623/config/worker'}]},'security':{'tls':{'certificateAuthorities':[{'source':'data:text/plain;charset=utf-8;base64,LS0tLCg=='}]}},'version':'3.1.0'}}".
(** A format with one operand, as the function of it. *)
Definition FullUserDataFmt (name : string) : string := ticks
  ("{'ignition':{'config':{'merge':[{'source':'https://192.168.123.15:22623/config/worker'}]},'security':{'tls':{'certificateAuthorities':[{'source':'data:text/plain;charset=utf-8;base64,LS0tLCg=='}]}},'version':'3.1.0'},'storage':{'files':[{'contents':{'source':'data:,"
   +:+ name +:+ "'},'filesystem':'root','mode':420,'path':'/etc/hostname'}]}}").

Definition machineNamespace := "test-machine-namespace".
Definition clusterID := "test-cluster-id".
Definition clusterName := "test-cluster-name".
Definition sourcePvcName := "test-source-pvc-name".
Definition networkName := "test-network-name".
Definition accessMode := Core.ReadWriteOnce.
Definition memory := "123456M".
Definition storage := "666Gi".
Definition cpu : Z := 77.
Definition storageClassName := "test-storage-class".

Definition labels : gomap string := Some {[ Mapi.MachineClusterIDLabel := clusterID ]}.

Definition ProviderSpec : Provider.KubevirtMachineProviderSpec :=
  Provider.MkProviderSpec Meta.noType sourcePvcName "test-credentials-secret-name" memory cpu
    storage storageClassName IgnitionSecretName networkName "" accessMode.

Definition deepCopyMap (src : gomap string) : gmap string string := map_range_assign src ∅.

Definition StringPointer (src : string) : option string := Some src.

Definition StubVirtualMachineInstance : KV.VirtualMachineInstance :=
  KV.MkVMI Meta.noType
    (Meta.MkObjectMeta "localhost" "" "" "" 0 None None None [] [] "").

Definition StubIgnitionSecret : Core.Secret :=
  let ignitionSecretName := MachineName +:+ "-ignition" in
  let labels : gmap string string :=
    {[ "tenantcluster-" +:+ InfraID +:+ "-machine.openshift.io" := "owned" ]} in
  Core.MkSecret
    (Meta.MkObjectMeta ignitionSecretName InfraNamespace "" "" 0 None (Some labels) None [] [] "")
    (Some {[ "userdata" := FullUserDataFmt MachineName ]}).

Definition StubMachine : result Mapi.Machine :=
  match RawExtensionFromProviderSpec (Some ProviderSpec) with
  | inr providerSpecValueErr =>
      inr (ErrorString ("codec.EncodeProviderSpec failed: " +:+ Error providerSpecValueErr))
  | inl providerSpecValue =>
      let providerID := "kubevirt" in
      inl (Mapi.MkMachine
        (Meta.MkObjectMeta MachineName machineNamespace "" "" 0 None (Some (deepCopyMap labels))
           None [] [] clusterName)
        (Mapi.MkMachineSpec (Some providerSpecValue) (Some providerID))
        (Mapi.MkMachineStatus None None None None None [] None []))
  end.

(** The data volume template and the template of the instance, two parts of
    the composite literal. *)
Definition stub_data_volume (storage : Quantity) : CDI.DataVolume :=
  CDI.MkDataVolume
    (Meta.MkTypeMeta "" CDI.SchemeGroupVersion)
    (Meta.MkObjectMeta (MachineName +:+ "-bootvolume") InfraNamespace "" "" 0 None None None
       [] [] "")
    (CDI.MkDataVolumeSpec
       (Some (CDI.MkSourcePVC InfraNamespace sourcePvcName))
       (Some (Core.MkPVCSpec [accessMode] {[ Core.ResourceStorage := storage ]}
          (if bool_decide (storageClassName = "") then None else Some storageClassName)))).

Definition stub_template (memory cpu : Quantity) : KV.VirtualMachineInstanceTemplateSpec :=
  KV.MkTemplate
    (Meta.MkObjectMeta "" "" "" "" 0 None
       (Some {[ "kubevirt.io/vm" := MachineName; "name" := MachineName ]}) None [] [] "")
    (KV.MkVMISpec
       (KV.MkDomainSpec {[ Core.ResourceMemory := memory; Core.ResourceCPU := cpu ]} ""
          (KV.MkDevices
             [KV.MkDisk "datavolumedisk1" (Some "virtio");
              KV.MkDisk "cloudinitdisk" (Some "virtio")]
             [KV.MkInterface "main" (KV.MkBinding true false)]))
       (Some 600)
       [KV.MkVolume "datavolumedisk1" (KV.VSDataVolume (MachineName +:+ "-bootvolume"));
        KV.MkVolume "cloudinitdisk" (KV.VSCloudInitConfigDrive (MachineName +:+ "-ignition"))]
       [KV.MkNetwork "main" (Some networkName)]).

Definition StubVirtualMachine (name namespace UID : option string) : outcome KV.VirtualMachine :=
  storageQuantity ← MustParse storage;
  memoryQuantity ← MustParse memory;
  cpuQuantity ← MustParse (Strconv.itoa cpu);
  let vmLabels :=
    <["tenantcluster-" +:+ InfraID +:+ "-machine.openshift.io" := "owned"]>
      (deepCopyMap labels) in
  mret (KV.MkVM
    (Meta.MkTypeMeta "VirtualMachine" (KV.GroupName +:+ "/" +:+ KV.ApiLatestVersion))
    (Meta.MkObjectMeta (default MachineName name) (default InfraNamespace namespace)
       (default "" UID) "" 0 None (Some vmLabels) None [] [] clusterName)
    (KV.MkVMSpec (Some KV.RunStrategyAlways)
       (Some (stub_template memoryQuantity cpuQuantity)) [stub_data_volume storageQuantity])
    KV.noStatus).
End testutils.
Import testutils.

(** The stub machine's provider spec is what its raw extension holds. *)
Lemma stub_spec_wf : Provider.wf_spec ProviderSpec.
Proof. split; vm_compute; congruence. Qed.

Lemma stub_spec_coerced : coerced ProviderSpec = ProviderSpec.
Proof. vm_compute. reflexivity. Qed.

Definition stub_scope : machineScope := MkScope (Some ProviderSpec) InfraNamespace InfraID.

(** The machine of the stubs, and the documents that go with it. *)
Definition stub_machine : Mapi.Machine :=
  match StubMachine with inl m => m | inr _ => example_machine end.

(** ** The provider builds them *)

Lemma stub_scope_made `{!YamlLib}
    (Hyaml : reads_json TProviderSpec (encode (AMap (spec_fields ProviderSpec)))) :
  CreateMachineScope stub_machine InfraNamespace InfraID = inl stub_scope.
Proof.
  unfold CreateMachineScope. rewrite bool_decide_eq_false_2 by (vm_compute; congruence).
  change (Mapi.ProviderSpecValue (Mapi.Spec stub_machine))
    with (Some (MkRawExtension (encode (AMap (spec_fields ProviderSpec))))).
  by rewrite (ProviderSpec_read _ stub_spec_wf Hyaml), stub_spec_coerced.
Qed.

(** Only the metadata of the stub virtual machine depend on the arguments. *)
Lemma StubVirtualMachine_renamed name namespace UID vm :
  StubVirtualMachine None None None = Ret vm →
  StubVirtualMachine name namespace UID = Ret (KV.MkVM (KV.VMType vm)
    (Meta.MkObjectMeta (default (KV.vm_Name vm) name) (default (KV.vm_Namespace vm) namespace)
       (default "" UID) "" 0 None (Meta.Labels (KV.VMMeta vm)) None [] []
       (Meta.ClusterName (KV.VMMeta vm)))
    (KV.VMSpec vm) (KV.VMStatus vm)).
Proof.
  unfold StubVirtualMachine. generalize (MustParse storage), (MustParse memory), (MustParse (Strconv.itoa cpu)).
  intros [] [] []; [|done..]. by intros [= <-].
Qed.

(** The provider builds the objects the unit tests expect: from the stub
    machine, at the stub place in the infra cluster, the scope makes exactly
    the stub virtual machine, and from the stub user data the manager makes
    exactly the stub ignition secret. *)
Lemma scope_builds_stubs `{!YamlLib}
    (Hyaml : reads_json TProviderSpec (encode (AMap (spec_fields ProviderSpec)))) :
  ∃ machine scope vm userData,
    StubMachine = inl machine ∧
    CreateMachineScope machine InfraNamespace InfraID = inl scope ∧
    StubVirtualMachine None None None = Ret vm ∧
    CreateVirtualMachineFromMachine scope machine = Ret (inl vm) ∧
    addHostnameToUserData SrcUserData (Mapi.GetName machine) = Ret (inl userData) ∧
    CreateIgnitionSecretFromMachine scope machine userData = StubIgnitionSecret.
Proof.
  eexists stub_machine, stub_scope, _, _. split; [done|].
  split; [by apply stub_scope_made|].
  split; [vm_compute; reflexivity|]. split; [vm_compute; reflexivity|].
  split; [vm_compute; reflexivity|]. vm_compute; reflexivity.
Qed.

Lemma scope_builds_stubs_witness :
  ∃ machine scope vm userData,
    StubMachine = inl machine ∧
    CreateMachineScope machine InfraNamespace InfraID = inl scope ∧
    StubVirtualMachine None None None = Ret vm ∧
    CreateVirtualMachineFromMachine scope machine = Ret (inl vm) ∧
    addHostnameToUserData SrcUserData (Mapi.GetName machine) = Ret (inl userData) ∧
    CreateIgnitionSecretFromMachine scope machine userData = StubIgnitionSecret.
Proof. apply scope_builds_stubs, json_yaml_reads. Defined.

(** ** From end to end

    The actuator creates them in the infra cluster: the tenant holds the
    stub machine and the secret with the source of its user data. *)
Definition stub_tenant : tenant :=
  MkTenant {[ (machineNamespace, MachineName) := stub_machine ]}
    {[ (machineNamespace, IgnitionSecretName) :=
         Core.MkSecret Meta.empty (Some {[ userDataKey := SrcUserData ]}) ]} ∅ ∅ [].

Example stub_objects_created :
  let w := (Actuator.Create (MkActuator InfraID InfraNamespace)
              (stub_machine, (stub_tenant, empty_server))).2.2.2 in
  s_secrets w !! (InfraNamespace, MachineName +:+ "-ignition") = Some StubIgnitionSecret ∧
  (Ret ∘ KV.set_ResourceVersion "" <$> s_vms w !! (InfraNamespace, MachineName)) =
    Some (StubVirtualMachine None None None).
Proof. vm_compute. done. Qed.
