(* ===== verification/Controllers.v ===== *)
(** * Properties of the actuator and of the node controller

    What the machine controller and the node controller can rely on, from
    their calls down to both clusters, each with an example on the reference
    clusters of [InfraServer] and [TenantServer]. *)

From S2P Require Import Prelude GoStd GoErrors Json ApiTypes ProviderConfig TenantCluster.
From S2P Require Import UserData MachineScope InfraCluster InfraServer Kubevirt Actuator.
From S2P Require Import NodeUpdate TenantServer.
From Stdlib Require Import Ascii.

(** ** The actuator *)
Section any_clients.
Context {TW IW : Type} `{!TenantCluster.Client TW, !EventRecorder TW, !KubevirtVM IW, !YamlLib}.

(** C17: Whatever the clients do, an error of Create, Update or Delete is a
    plain text: the machine controller never recognises an invalid
    configuration, a NotFound or a requeue request in it. *)
Theorem actuator_errors_opaque (a : actuator) (c : Go (world TW IW) (option goerror))
    (w : world TW IW) :
  c = Create a ∨ c = Update a ∨ c = Delete a →
  wp c (λ err _, ∀ e, err = Some e →
    isInvalidMachineConfigurationError e = false ∧ IsNotFound e = false ∧
    as_requeue_after e = None) (λ _ _, True) w.
Proof.
  intros Hc. assert (wp c (λ err _, reports_opaque err) (λ _ _, True) w) as Hwp.
  { destruct Hc as [->|[->| ->]]; [apply Create_opaque|apply Update_opaque|
      apply Delete_opaque]. }
  eapply wp_mono; [exact Hwp| |done]. intros err w' Herr e He.
  apply Herr in He. auto with go.
Qed.

End any_clients.

Section nil_spec.
Context {TW IW : Type} `{!TenantCluster.Client TW, !EventRecorder TW, !YamlLib}
  `{!InfraCluster.Client IW, !Resolver IW}.

Lemma manager_nil_spec sc (mw : Mapi.Machine * IW) :
  machineProviderSpec sc = None →
  (∃ msg, manager.Update sc mw = (Panic msg, mw)) ∧
  (∃ msg, manager.Delete sc mw = (Panic msg, mw)).
Proof.
  destruct mw as [m i]. intros Hs. destruct (create_nil sc m Hs) as [msg Hp].
  unfold manager.Update, manager.Delete, go_fst, go_get, go_lift, mbind, go_bind. simpl.
  rewrite Hp. split; by eexists.
Qed.

(** C32: A machine whose provider spec is an empty raw extension crashes the
    controller: Create, Update and Delete panic before any call, although
    the scope of the machine is created without an error. *)
Theorem empty_spec_panics (a : actuator) (m : Mapi.Machine) (t : TW) (i : IW)
    (Hlabel : default "" (map_index (Meta.Labels (Mapi.MachineMeta m))
                            Mapi.MachineClusterIDLabel) ≠ "")
    (Hraw : Mapi.ProviderSpecValue (Mapi.Spec m) = Some (MkRawExtension ""))
    (Hyaml : yamlToJSON TProviderSpec "" = inl JNull) :
  (∃ sc, createMachineScope a m = inl sc) ∧
  (∃ msg, Create (IW:=IW) a (m, (t, i)) = (Panic msg, (m, (t, i)))) ∧
  (∃ msg, Update a (m, (t, i)) = (Panic msg, (m, (t, i)))) ∧
  (∃ msg, Delete a (m, (t, i)) = (Panic msg, (m, (t, i)))).
Proof.
  set (sc := MkScope None (a_infraNamespace a) (a_infraID a)).
  assert (createMachineScope a m = inl sc) as Hsc.
  { unfold createMachineScope, CreateMachineScope. rewrite bool_decide_eq_false_2 by done.
    rewrite Hraw. unfold ProviderSpecFromRawExtension, yaml_Unmarshal. cbn [Raw]. by rewrite Hyaml. }
  destruct (manager_nil_spec sc (m, i) eq_refl) as [[msg Hu] [msg' Hd]].
  split; [by eexists|].
  unfold Create, Update, Delete, the_machine, go_fst, go_get, mbind, go_bind. simpl.
  rewrite Hsc. unfold in_tenant, on_infra, go_zoom. cbn [fst snd].
  rewrite Hu, Hd. split_and!; by eexists.
Qed.
End nil_spec.

Section laws.
Context {TW IW : Type}
  `{!TenantCluster.Client TW, !EventRecorder TW, !TenantView (TW:=TW),
    !TenantCluster.ClientLaws (TW:=TW), !EventLaws TW, !YamlLib}
  `{!InfraCluster.Client IW, !Resolver IW, !InfraCluster.ClientView (IW:=IW),
    !InfraCluster.ClientLaws (IW:=IW), !ResolverLaws IW}.
Implicit Types (a : actuator) (m origin : Mapi.Machine) (t : TW) (i : IW).

(** C10: When Create is called with the machine that the tenant cluster stores
    and reports success, the secret and the virtual machine were created, the
    virtual machine is ready, and the tenant cluster stores the machine
    synchronised with it, status included, under the resource version the
    caller's machine has now. *)
Theorem Create_success_stored a origin t i
    (Hat : machine_at t (Mapi.GetNamespace origin) (Mapi.GetName origin) = Some origin) :
  wp (W:=world TW IW) (Create a)
    (λ err w', err = None → machine_created a origin t i w') (λ _ _, True) (origin, (t, i)).
Proof. by apply Create_end_to_end. Qed.

(** When Update reports success, the virtual machine was written over
    the one that was there, it is ready, and the tenant cluster stores the
    machine synchronised with it. *)
Lemma Update_success_stored a origin t i
    (Hat : machine_at t (Mapi.GetNamespace origin) (Mapi.GetName origin) = Some origin) :
  wp (W:=world TW IW) (Update a)
    (λ err w', err = None → machine_updated a origin i w') (λ _ _, True) (origin, (t, i)).
Proof. by apply Update_end_to_end. Qed.

(** When Delete reports success, the virtual machine was absent or is
    deleted or marked for deletion, and neither the caller's machine nor
    any stored machine changed. *)
Lemma Delete_success a m t i :
  wp (W:=world TW IW) (Delete a)
    (λ err w', err = None → machine_deleted a m t i w') (λ _ _, True) (m, (t, i)).
Proof. apply Delete_end_to_end. Qed.

(** The patch stores the machine, specification and status, and gives
    it back as it is stored, although the server's answer to the first of
    its two requests carries the old status; no other machine changes,
    even when it fails. *)
Lemma patchMachine_stores origin m t
    (Hn : Mapi.GetName m = Mapi.GetName origin)
    (Hns : Mapi.GetNamespace m = Mapi.GetNamespace origin)
    (Hat : machine_at t (Mapi.GetNamespace origin) (Mapi.GetName origin) = Some origin) :
  wp (patchMachine origin)
    (λ err '(m', t'), frame_but (Mapi.GetNamespace origin) (Mapi.GetName origin) t t' ∧
       (err = None → stored_as m m' ∧
          machine_at t' (Mapi.GetNamespace origin) (Mapi.GetName origin) = Some m'))
    no_panic (m, t).
Proof. by apply patchMachine_spec. Qed.

(** Building the actuator changes nothing; without the cluster's config
    map it gives a nil actuator and no error, and an actuator it gives
    holds the two values of the configuration. *)
Lemma New_result t :
  wp New
    (λ r t', t' = t ∧ match r with
       | inl (Some a) => ∃ c v,
           configmap_at t configMapNamespace configMapName = Some c ∧
           config_value c configMapDataKeyName = Some v ∧
           map_index v configMapInfraIDKeyName = Some (a_infraID a) ∧
           map_index v configMapInfraNamespaceKeyName = Some (a_infraNamespace a)
       | inl None => True
       | inr e => isInvalidMachineConfigurationError e = true ∧
           is_Some (configmap_at t configMapNamespace configMapName)
       end) no_panic t.
Proof. apply New_spec. Qed.

(** Reading the user data never reports NotFound, and panics only for a
    nil provider spec; what it returns is the value stored in the secret
    the spec names. *)
Lemma getUserData_result sc m t :
  wp (getUserData sc m)
    (λ r t', t' = t ∧ match r with
       | inl userData => ∃ spec s, machineProviderSpec sc = Some spec ∧
           secret_at t (Mapi.GetNamespace m) (Provider.IgnitionSecretName spec) = Some s ∧
           map_index (Core.SecretData s) userDataKey = Some userData
       | inr e => IsNotFound e = false
       end)
    (λ _ t', t' = t ∧ machineProviderSpec sc = None) t.
Proof. apply getUserData_spec. Qed.
End laws.

(** A failure is reported with the text of its cause, when neither the
    text nor the machine's name contains a percent sign. *)
Lemma failure_text {TW IW} `{!EventRecorder TW} (action : string) (err : goerror)
    (w : world TW IW)
    (Hname : char_in "%" (Mapi.GetName w.1) = false) (Haction : char_in "%" action = false)
    (Herr : char_in "%" (Error err) = false) :
  wp (handleMachineError action err)
    (λ e _, Error e = Mapi.GetName w.1 +:+ ": kubevirt wrapper failed to " +:+ action +:+ ": "
                      +:+ Error err) (λ _ _, True) w.
Proof.
  destruct w as [m [t i]]. simpl in *. unfold handleMachineError, the_machine.
  do 3 go_step. simpl. go_step.
  eapply wp_mono with (Q := λ _ _, True) (E := λ _ _, True); [|intros [] w' _|done].
  { unfold wp. by destruct (in_tenant _ _) as [[?|?] ?]. }
  apply wp_ret. apply Errorf_plain.
  by rewrite !char_in_append, Hname, Haction, Herr.
Qed.

Lemma failure_text_witness :
  wp (handleMachineError createEventAction (StatusError "Forbidden" "quota exceeded"))
    (λ e _, Error e = "worker-0: kubevirt wrapper failed to create machine: quota exceeded")
    (λ _ _, True) example_world.
Proof.
  apply (failure_text createEventAction (StatusError "Forbidden" "quota exceeded") example_world);
    reflexivity.
Defined.

(** A percent sign in the cause is read as a verb. *)
Example failure_text_mangled :
  (handleMachineError createEventAction (ErrorString "disk 100% full") example_world).1 =
    Ret (ErrorString "worker-0: kubevirt wrapper failed to create machine: disk 100%!f(MISSING)ull").
Proof. vm_compute. reflexivity. Qed.

(** ** The node controller *)
Section nodes.
Context {TW IW : Type}
  `{!TenantCluster.Client TW, !TenantView (TW:=TW), !TenantCluster.ClientLaws (TW:=TW),
    !NodeApi TW, !NodeView (TW:=TW), !NodeLaws (TW:=TW)}
  `{!InfraCluster.Client IW, !InfraCluster.ClientView (IW:=IW),
    !InfraCluster.ClientLaws (IW:=IW)}.
Implicit Types (t : TW) (i : IW) (name : string).

(** C11: A reconciliation never panics and never changes the infra cluster.
    It deletes the node only when the configured namespace has no virtual
    machine of its name, and writes it only when that virtual machine is
    ready and the node has no provider ID yet, to set the provider ID. *)
Theorem Reconcile_actions namespace name t i :
  wp (Reconcile namespace name)
    (λ _ '(t', i'), i' = i ∧ node_action name t i t') no_panic (t, i).
Proof.
  eapply wp_mono; [apply Reconcile_spec| |done].
  by intros [r err] [t' i'] (-> & Ha & _).
Qed.

(** When a reconciliation reports no error, either it asks to come back
    in a minute, because the virtual machine is not ready, and has changed
    nothing, or the node is absent, or is removed with its virtual machine
    gone, or has a provider ID with its virtual machine ready. *)
Lemma Reconcile_done namespace name t i :
  wp (Reconcile namespace name)
    (λ '(r, err) '(t', _), err = None →
       if Requeue r then RequeueAfter r = requeueDurationWhenVMNotReady ∧
                         node_waiting name t i ∧ t' = t
       else node_settled name t i t') no_panic (t, i).
Proof.
  eapply wp_mono; [apply Reconcile_spec| |done].
  by intros [r err] [t' i'] (_ & _ & Hr).
Qed.
End nodes.

(** ** On the reference clusters *)

(** The first run of the machine: its virtual machine is ready at once. *)
Definition ready_server : server :=
  MkServer ∅ {[ ("infra", "worker-0") := KV.MkVMI Meta.noType Meta.empty ]} ∅
    {[ "worker-0" := [[10; 0; 0; 1]] ]} true.

Example Create_example_ready :
  (Create example_actuator (example_machine, (example_tenant, ready_server))).1 = Ret None.
Proof. vm_compute. reflexivity. Qed.

Definition running : world tenant server :=
  (Create example_actuator (example_machine, (example_tenant, ready_server))).2.

Example Update_example : (Update example_actuator running).1 = Ret None.
Proof. vm_compute. reflexivity. Qed.

Definition empty_spec_machine : Mapi.Machine :=
  Mapi.MkMachine (Mapi.MachineMeta example_machine)
    (Mapi.MkMachineSpec (Some (MkRawExtension "")) None) (Mapi.Status example_machine).

Lemma actuator_errors_opaque_witness :
  wp (Create example_actuator : Go (world tenant server) _)
    (λ err _, ∀ e, err = Some e →
      isInvalidMachineConfigurationError e = false ∧ IsNotFound e = false ∧
      as_requeue_after e = None) (λ _ _, True) example_world.
Proof. apply (actuator_errors_opaque example_actuator). by left. Defined.

Lemma empty_spec_panics_witness :
  let w := (empty_spec_machine, (example_tenant, empty_server)) in
  (∃ sc, createMachineScope example_actuator empty_spec_machine = inl sc) ∧
  (∃ msg, Create example_actuator w = (Panic msg, w)) ∧
  (∃ msg, Update example_actuator w = (Panic msg, w)) ∧
  (∃ msg, Delete example_actuator w = (Panic msg, w)).
Proof. apply empty_spec_panics; [vm_compute; congruence|reflexivity..]. Defined.

Lemma Create_success_stored_witness :
  wp (Create example_actuator)
    (λ err w', err = None →
       machine_created example_actuator example_machine example_tenant ready_server w')
    (λ _ _, True) (example_machine, (example_tenant, ready_server)).
Proof. apply Create_success_stored. vm_compute. reflexivity. Defined.

Lemma Update_success_stored_witness :
  wp (Update example_actuator)
    (λ err w', err = None → machine_updated example_actuator running.1 running.2.2 w')
    (λ _ _, True) (running.1, (running.2.1, running.2.2)).
Proof. apply Update_success_stored. vm_compute. reflexivity. Defined.

Lemma Delete_success_witness :
  wp (Delete example_actuator)
    (λ err w', err = None →
       machine_deleted example_actuator running.1 running.2.1 running.2.2 w')
    (λ _ _, True) (running.1, (running.2.1, running.2.2)).
Proof. apply Delete_success. Defined.

Lemma patchMachine_stores_witness :
  let m := synced example_vm None "id" example_machine in
  wp (patchMachine example_machine)
    (λ err '(m', t'), frame_but "openshift-machine-api" "worker-0" example_tenant t' ∧
       (err = None → stored_as m m' ∧
          machine_at t' "openshift-machine-api" "worker-0" = Some m'))
    no_panic (m, example_tenant).
Proof. apply patchMachine_stores; vm_compute; reflexivity. Defined.

Lemma New_result_witness :
  wp New
    (λ r t', t' = example_tenant ∧ match r with
       | inl (Some a) => ∃ c v,
           configmap_at example_tenant configMapNamespace configMapName = Some c ∧
           config_value c configMapDataKeyName = Some v ∧
           map_index v configMapInfraIDKeyName = Some (a_infraID a) ∧
           map_index v configMapInfraNamespaceKeyName = Some (a_infraNamespace a)
       | inl None => True
       | inr e => isInvalidMachineConfigurationError e = true ∧
           is_Some (configmap_at example_tenant configMapNamespace configMapName)
       end) no_panic example_tenant.
Proof. apply New_result. Defined.

Lemma getUserData_result_witness :
  wp (getUserData example_scope example_machine)
    (λ r t', t' = example_tenant ∧ match r with
       | inl userData => ∃ spec s, machineProviderSpec example_scope = Some spec ∧
           secret_at example_tenant "openshift-machine-api"
             (Provider.IgnitionSecretName spec) = Some s ∧
           map_index (Core.SecretData s) userDataKey = Some userData
       | inr e => IsNotFound e = false
       end)
    (λ _ t', t' = example_tenant ∧ machineProviderSpec example_scope = None) example_tenant.
Proof. apply (getUserData_result example_scope example_machine example_tenant). Defined.

Lemma Reconcile_actions_witness :
  wp (Reconcile "" "worker-0")
    (λ _ '(t', i'), i' = running.2.2 ∧ node_action "worker-0" example_tenant running.2.2 t')
    no_panic (example_tenant, running.2.2).
Proof. apply Reconcile_actions. Defined.

Lemma Reconcile_done_witness :
  wp (Reconcile "" "worker-0")
    (λ '(r, err) '(t', _), err = None →
       if Requeue r then RequeueAfter r = requeueDurationWhenVMNotReady ∧
                         node_waiting "worker-0" example_tenant running.2.2 ∧
                         t' = example_tenant
       else node_settled "worker-0" example_tenant running.2.2 t')
    no_panic (example_tenant, running.2.2).
Proof. apply Reconcile_done. Defined.
