(* ===== verification/Runs.v ===== *)
(** * Runs

    A run is a sequence of worlds.  At some turns the controller acts, at the
    others somebody else does.  What holds of one step is put together here to
    what happens in the end. *)

From S2P Require Import Prelude.

Section runs.
Context {W : Type} (turn : nat → bool) (run : nat → W).
Implicit Types (P Q R : W → Prop) (n k : nat).

(** Whenever [P] holds, [Q] does then or later. *)
Definition leads_to P Q : Prop := ∀ n, P (run n) → ∃ k, (n ≤ k)%nat ∧ Q (run k).

(** Once [P] holds it stays. *)
Definition stable P : Prop := ∀ n, P (run n) → P (run (S n)).

Lemma leads_to_trans P Q R : leads_to P Q → leads_to Q R → leads_to P R.
Proof.
  intros HPQ HQR n Hn. destruct (HPQ n Hn) as (k & Hk & HQ). destruct (HQR k HQ) as (l & Hl & HR).
  exists l. split; [lia|done].
Qed.

Lemma stable_later P n k : stable P → (n ≤ k)%nat → P (run n) → P (run k).
Proof. intros HP Hle Hn. induction Hle; [done|by apply HP]. Qed.

(** What is stable holds along with what it leads to. *)
Lemma leads_to_stable P Q : stable P → leads_to P Q → leads_to P (λ w, P w ∧ Q w).
Proof.
  intros HP HPQ n Hn. destruct (HPQ n Hn) as (k & Hk & HQ). exists k. split; [done|].
  split; [by eapply stable_later|done].
Qed.

(** The first turn of the controller. *)
Lemma next_turn n k :
  (n ≤ k)%nat → turn k = true →
  ∃ j, turn (n + j)%nat = true ∧ ∀ l, (n ≤ l < n + j)%nat → turn l = false.
Proof.
  intros Hle Hk. remember (k - n)%nat as d eqn:Hd. revert n Hle Hd.
  induction d as [|d IH]; intros n Hle Hd.
  - exists 0%nat. rewrite Nat.add_0_r. split; [by replace n with k by lia|lia].
  - destruct (turn n) eqn:Hn; [exists 0%nat; rewrite Nat.add_0_r; split; [done|lia]|].
    destruct (IH (S n)) as (j & Hj & Hall); [lia..|]. exists (S j).
    rewrite <-Nat.add_succ_comm. split; [done|]. intros l Hl.
    destruct (decide (l = n)) as [->|]; [done|]. apply Hall. lia.
Qed.

(** A measure goes down at each turn of the controller, and nobody else puts
    it up: it comes to its end when turns keep coming. *)
Section measure.
Context (P : nat → W → Prop) (Q : W → Prop).
Context (Hothers : ∀ n k, turn n = false → P k (run n) → P k (run (S n)) ∨ Q (run (S n))).
Context (Hturn : ∀ n k, turn n = true → P k (run n) →
  Q (run (S n)) ∨ ((0 < k)%nat ∧ P (pred k) (run (S n)))).
Context (Hcome : ∀ n k, P k (run n) → ∃ j, (n ≤ j)%nat ∧ turn j = true).

(** Others may act for a while. *)
Lemma others_wait n k j :
  P k (run n) → (∀ l, (n ≤ l < n + j)%nat → turn l = false) →
  (∃ l, (n ≤ l)%nat ∧ Q (run l)) ∨ P k (run (n + j)%nat).
Proof.
  intros Hn. induction j as [|j IH]; intros Hq; [rewrite Nat.add_0_r; by right|].
  destruct IH as [?|IH]; [intros; apply Hq; lia|by left|].
  destruct (Hothers (n + j)%nat k) as [?|?]; [apply Hq; lia|done| |].
  - right. by rewrite Nat.add_succ_r.
  - left. exists (S (n + j)). split; [lia|done].
Qed.

Lemma measure_ends k : leads_to (P k) Q.
Proof.
  induction k as [k IH] using lt_wf_ind. intros n Hn.
  destruct (Hcome n k Hn) as (k0 & Hle & Hk0). destruct (next_turn n k0 Hle Hk0) as (j & Hj & Hq).
  destruct (others_wait n k j Hn Hq) as [?|Hn']; [done|].
  destruct (Hturn _ k Hj Hn') as [?|[Hpos Hnext]]; [exists (S (n + j)); split; [lia|done]|].
  destruct (IH (pred k) ltac:(lia) _ Hnext) as (l & Hl & HQ). exists l. split; [lia|done].
Qed.
End measure.

(** A run in which nothing happens any more from some time on. *)
Section settled.
Context (last : nat) (Hend : ∀ n, run (last + n)%nat = run last).

Lemma last_worlds n : (last ≤ n)%nat → run n = run last.
Proof. intros Hn. replace n with (last + (n - last))%nat by lia. apply Hend. Qed.

(** What holds of the first worlds holds of all. *)
Lemma first_worlds P : Forall (λ n, P (run n)) (seq 0 (S last)) → ∀ n, P (run n).
Proof.
  intros HP n. rewrite Forall_forall in HP. destruct (decide (last ≤ n)%nat) as [Hn|Hn].
  - rewrite last_worlds by done. apply (HP last), elem_of_seq. lia.
  - apply (HP n), elem_of_seq. lia.
Qed.
End settled.
End runs.
