(* ===== verification/MachineLifecycle.v ===== *)
(** * The life of a machine under the machine controller

    The provider's actuator keeps the promises the machine controller needs,
    and with it the controller neither forgets a virtual machine nor creates
    one it should not.  The last part is about a machine the actuator cannot
    handle. *)

From S2P Require Import Prelude GoStd GoErrors Json ApiTypes ProviderConfig TenantCluster.
From S2P Require Import UserData MachineScope InfraCluster InfraServer Kubevirt Actuator.
From S2P Require Import Conditions NodeUpdate MachineController TenantServer.
From Stdlib Require Import Ascii.
#[local] Open Scope Z_scope.

(** ** The provider keeps the promises *)
Section provider_laws.
Context {TW IW : Type} `{!TenantApi TW, !EventRecorder TW, !NodeApi TW, !MachineApi TW,
  !TenantView (TW:=TW), !TenantLaws (TW:=TW), !EventLaws TW, !MachineLaws (TW:=TW), !YamlLib}
  `{!InfraCluster.Client IW, !Resolver IW, !InfraCluster.ClientView (IW:=IW),
    !InfraCluster.ClientLaws (IW:=IW), !ResolverLaws IW}.
Context (a : actuator).

(** The instance of a machine: the virtual machine of its name. *)
Definition provider_instance (i : IW) (name : string) : Prop :=
  is_Some (vm_at i (a_infraNamespace a) name).

(** It was deleted, and waits for its finalizers. *)
Definition provider_doomed (i : IW) (name : string) : Prop :=
  ∃ vm, vm_at i (a_infraNamespace a) name = Some vm ∧ marked_vm vm.

(** A machine whose virtual machine can be built, or is refused with an
    error: its texts of quantities parse, its spec is not nil. *)
Definition buildable (m : Mapi.Machine) : Prop :=
  match createMachineScope a m with
  | inl sc => outcome_is_panic (CreateVirtualMachineFromMachine sc m) = false
  | inr _ => True
  end.

Lemma createMachineScope_statics m m' :
  statics m' = statics m → createMachineScope a m' = createMachineScope a m.
Proof.
  intros Hst. unfold createMachineScope, CreateMachineScope.
  pose proof (f_equal (λ p, Meta.Labels p.1) Hst) as Hl.
  pose proof (f_equal (λ p, Meta.Name p.1) Hst) as Hn.
  pose proof (f_equal snd Hst) as Hspec. simpl in *. unfold Mapi.GetName.
  by rewrite Hl, Hn, Hspec.
Qed.

Lemma CreateVirtualMachine_statics sc m m' :
  statics m' = statics m →
  CreateVirtualMachineFromMachine sc m' = CreateVirtualMachineFromMachine sc m.
Proof.
  intros Hst. destruct m as [[] [] ?], m' as [[] [] ?]. unfold statics in Hst. simpl in Hst.
  by simplify_eq.
Qed.

Lemma buildable_statics m m' : statics m' = statics m → buildable m → buildable m'.
Proof.
  intros Hst. unfold buildable. rewrite (createMachineScope_statics m m' Hst).
  destruct (createMachineScope a m) as [sc|e]; [|done].
  by rewrite (CreateVirtualMachine_statics sc m m').
Qed.

(** *** The instances

    What the calls of the manager do to them. *)
Section instances.
Context (name : string).
Abbreviation only_adds := (only_adds provider_instance name).
Abbreviation only_removes := (only_removes provider_instance name).
Abbreviation same_instances := (same_instances provider_instance).
Abbreviation at_most_purged := (at_most_purged provider_instance provider_doomed name).

Lemma same_same i i' : InfraCluster.same i i' → same_instances i i'.
Proof. intros (Hs & _) n. unfold provider_instance. by rewrite Hs. Qed.

Lemma vm_becomes_others o i i' :
  vm_becomes (a_infraNamespace a) name o i i' → others_kept provider_instance name i i'.
Proof.
  intros (_ & Hs & _) n Hn. unfold provider_instance. rewrite Hs by congruence. done.
Qed.

Lemma created_adds secret full i i' :
  create_effect (a_infraNamespace a) secret name full i i' → only_adds i i'.
Proof.
  intros (Hs & _ & _ & Hvm). split.
  - intros n Hn. unfold provider_instance. rewrite Hs by congruence. done.
  - unfold provider_instance. intros Hsome.
    destruct Hvm as [[_ ->]|(_ & _ & [->|(Hnone & _)])]; [done..|].
    rewrite Hnone in Hsome. by destruct Hsome.
Qed.

Lemma secret_adds s i i' :
  secret_created (a_infraNamespace a) s i i' → only_adds i i'.
Proof.
  intros (_ & _ & _ & _ & _ & Hs & _). apply same_only_adds. intros n.
  unfold provider_instance. by rewrite Hs.
Qed.

Lemma updated_purged new i i' :
  vm_updated (a_infraNamespace a) name new i i' → at_most_purged i i'.
Proof.
  intros (old & Hold & _ & _ & [Hb|[Hm Hb]] & _).
  - left. intros n. destruct (decide (n = name)) as [->|Hn]; [|by apply (vm_becomes_others _ _ _ Hb)].
    unfold provider_instance. destruct Hb as [-> _]. rewrite Hold. by split.
  - right. split; [by exists old|]. split; [by apply (vm_becomes_others _ _ _ Hb)|].
    unfold provider_instance. rewrite Hold. by eexists.
Qed.

Lemma deleted_removes i i' :
  deleted_or_marked (a_infraNamespace a) name i i' → only_removes i i'.
Proof.
  intros [Hb|(Hsome & vm & Hb & _)]; (split; [by apply (vm_becomes_others _ _ _ Hb)|]); [|done].
  unfold provider_instance. destruct Hb as [-> _]. by intros [].
Qed.

End instances.

(** *** A machine that is tracked *)
Section tracked_machine.
Context {X : Type} (p : Mapi.Machine → X) (ns name : string) (x : X).
Abbreviation tracks := (tracks p ns name x).

Lemma wp_failed_tracks action err m t i (P : IW → Prop) E :
  tracks m t → P i →
  wp (failed action err)
    (λ _ '(m', (t', i')), tracks m' t' ∧ P i') E (m, (t, i) : TW * IW).
Proof.
  intros Ht HP. unfold failed, handleMachineError. apply wp_bind, wp_bind, wp_the_machine.
  apply wp_bind. unfold in_tenant. go_step. go_call (Event_spec (TW:=TW)).
  intros [] t' [Hm _]. do 2 go_step. split; [|done].
  destruct Ht as (? & ? & ? & ?). split_and!; try done. simpl. by rewrite Hm.
Qed.

Lemma wp_event_tracks m0 ty r msg m t i (Q : unit → Actuator.world TW IW → Prop) E :
  tracks m t → (∀ t', tracks m t' → Q tt (m, (t', i))) →
  wp (in_tenant (Event m0 ty r msg)) Q E (m, (t, i)).
Proof.
  intros (? & ? & ? & Hat) HQ. apply wp_event. intros t' Ht'. apply HQ.
  split_and!; try done. by rewrite Ht'.
Qed.

(** The machine is tracked, the infra cluster in [P]. *)
Definition leaves (P : IW → Prop) (w : Actuator.world TW IW) : Prop :=
  let '(m', (t', i')) := w in tracks m' t' ∧ P i'.

Lemma wp_failed_leaves action err m t i (P : IW → Prop) E :
  tracks m t → P i → wp (failed action err) (λ _, leaves P) E (m, (t, i)).
Proof. apply wp_failed_tracks. Qed.

End tracked_machine.

(** *** The operations *)
Section one_machine.
Context (ns name : string) (x : list string).
Abbreviation tracks := (tracks finalizers ns name x).
Abbreviation only_adds := (only_adds provider_instance name).
Abbreviation only_removes := (only_removes provider_instance name).
Abbreviation same_instances := (same_instances provider_instance).
Abbreviation at_most_purged := (at_most_purged provider_instance provider_doomed name).
Abbreviation leaves := (leaves finalizers ns name x).

Lemma patchMachine_tracks origin m t :
  tracks m t → finalizers origin = x →
  wp (patchMachine origin) (λ _ '(m', t'), tracks m' t') no_panic (m, t).
Proof.
  intros Ht Ho. unfold patchMachine. do 3 go_step. simpl. go_step.
  eapply wp_mono; [by eapply patch_finalizers| |done].
  intros [e|] [m1 t1] Ht1; cbn beta iota; [by go_step|]. do 2 go_step. simpl. go_step.
  go_step. eapply wp_mono; [eapply status_patch_finalizers| |done].
  - by apply Ht1.
  - intros [e|] [m2 t2] Ht2; cbn beta iota; by go_step.
Qed.

Lemma wp_patched_tracks origin m t i (Q : option goerror → Actuator.world TW IW → Prop) E :
  tracks m t → finalizers origin = x →
  (∀ r m' t', tracks m' t' → Q r (m', (t', i))) →
  wp (on_tenant (patchMachine origin)) Q E (m, (t, i)).
Proof.
  intros Ht Ho HQ. unfold on_tenant. go_step. go_call patchMachine_tracks; [done..|].
  intros r [m' t'] Ht'. by apply HQ.
Qed.

Lemma tracks_synced vm ad p m t : tracks m t → tracks (synced vm ad p m) t.
Proof. by intros (? & ? & ? & ?). Qed.

Lemma provider_Create m t i :
  tracks m t →
  wp (Actuator.Create a) (λ _, leaves (only_adds i)) (λ _, leaves (only_adds i)) (m, (t, i)).
Proof.
  intros Ht. assert (finalizers m = x) as Hx by by destruct Ht as (_ & _ & ? & _).
  assert (Mapi.GetName m = name) as Hname by by destruct Ht as (_ & ? & _).
  assert (only_adds i i) as Hi by by apply same_only_adds.
  unfold Actuator.Create. apply wp_bind, wp_the_machine. cbn [fst].
  destruct (createMachineScope a m) as [sc|e] eqn:Hsc; [|by apply wp_failed_leaves].
  destruct (createMachineScope_scope a m sc Hsc) as [Hns _].
  go_step. unfold in_tenant at 1. go_step. go_call getUserData_spec.
  2: { by intros s t' [-> _]. }
  intros [userData|e] t' [-> _]; [|by apply wp_failed_leaves].
  go_step. unfold on_infra. go_step. simpl. go_call Create_spec.
  2: { intros s [m' i'] [-> [Hs|(full & _ & Hs)]]; rewrite ?Hns in Hs; (split; [done|]);
         [by apply same_only_adds, same_same|by eapply secret_adds]. }
  rewrite Hns, Hname. intros [ready err] [m1 i1] (full & _ & Heff & Herr). go_step.
  apply created_adds in Heff.
  assert (tracks m1 t) as Ht1.
  { destruct err as [e|]; [by destruct Herr as [_ ->]|].
    destruct Herr as (_ & _ & _ & vm & ad & _ & -> & _). by apply tracks_synced. }
  apply wp_patched_tracks; [done..|]. intros r m2 t2 Ht2.
  destruct r as [e|]; [by apply wp_failed_leaves|]. destruct err as [e|]; [by apply wp_failed_leaves|].
  apply wp_bind, wp_the_machine. go_step. eapply wp_event_tracks; [exact Ht2|].
  intros t3 Ht3. by go_step.
Qed.

Lemma provider_Update m t i :
  tracks m t →
  wp (Actuator.Update a) (λ _, leaves (at_most_purged i)) (λ _, leaves (at_most_purged i))
    (m, (t, i)).
Proof.
  intros Ht. assert (finalizers m = x) as Hx by by destruct Ht as (_ & _ & ? & _).
  assert (Mapi.GetName m = name) as Hname by by destruct Ht as (_ & ? & _).
  unfold Actuator.Update. apply wp_bind, wp_the_machine. cbn [fst].
  destruct (createMachineScope a m) as [sc|e] eqn:Hsc;
    [|apply wp_failed_leaves; [done|by left]].
  destruct (createMachineScope_scope a m sc Hsc) as [Hns _].
  go_step. unfold on_infra. go_step. simpl. go_call Update_spec.
  2: { intros s [m' i'] [= -> ->]. by split; [|left]. }
  rewrite Hns, Hname. intros [[wasUpdated ready] err] [m1 i1] Herr. go_step.
  assert (tracks m1 t ∧ at_most_purged i i1) as [Ht1 Hi].
  { destruct err as [e|].
    - destruct Herr as (_ & -> & [Hs|[new Hup]]); (split; [done|]);
        [by left; apply same_same|by eapply updated_purged].
    - destruct Herr as (old & new & ad & _ & Hup & _ & _ & -> & _).
      split; [by apply tracks_synced|by eapply updated_purged]. }
  apply wp_patched_tracks; [done..|]. intros r m2 t2 Ht2.
  destruct r as [e|]; [by apply wp_failed_leaves|].
  destruct err as [e|]; [by apply wp_failed_leaves|].
  apply wp_bind, wp_the_machine. go_step. destruct wasUpdated.
  - eapply wp_event_tracks; [exact Ht2|]. intros t3 Ht3. by go_step.
  - go_step. by go_step.
Qed.

End one_machine.

Lemma provider_Delete ns name x m t i :
  tracks statics ns name x m t →
  let post := leaves statics ns name x (only_removes provider_instance name i) in
  wp (Actuator.Delete a) (λ _, post) (λ _ w', post w' ∧ ¬ buildable m) (m, (t, i)).
Proof.
  intros Ht post. assert (Mapi.GetName m = name) as Hname by by destruct Ht as (_ & ? & _).
  assert (only_removes provider_instance name i i) as Hi0 by by apply same_only_removes.
  unfold Actuator.Delete. apply wp_bind, wp_the_machine. cbn [fst].
  destruct (createMachineScope a m) as [sc|e] eqn:Hsc; [|by apply wp_failed_leaves].
  destruct (createMachineScope_scope a m sc Hsc) as [Hns _].
  go_step. unfold on_infra. go_step. simpl. go_call Delete_spec.
  2: { intros s [m' i'] [[= -> ->] Hp]. split; [done|]. unfold buildable. by rewrite Hsc, Hp. }
  rewrite Hns, Hname. intros err [m1 i1] [-> Herr]. cbn beta iota zeta.
  assert (only_removes provider_instance name i i1) as Hi.
  { destruct err as [e|]; [destruct Herr as [_ [Hs|Hd]]|destruct Herr as [[_ ->]|[_ ?]]];
      [by apply same_only_removes, same_same|by apply deleted_removes|done|by apply deleted_removes]. }
  destruct err as [e|]; [by apply wp_failed_leaves|].
  apply wp_bind, wp_the_machine. go_step. eapply wp_event_tracks; [exact Ht|].
  intros t3 Ht3. by go_step.
Qed.

Lemma provider_Exists m t i :
  wp (Actuator.Exists a)
    (λ '(b, err) (w' : Actuator.world TW IW), w' = (m, (t, i)) ∧
       (err = None → b = true ↔ provider_instance i (Mapi.GetName m)))
    no_panic (m, (t, i)).
Proof.
  unfold Actuator.Exists. apply wp_bind, wp_the_machine. unfold in_infra. go_step. simpl.
  go_call Exists_spec. intros [b err] i' [-> Herr]. split; [done|]. by intros ->.
Qed.

#[export] Instance provider_laws : ActuatorLaws (TW:=TW) (provider a) provider_instance
    provider_doomed buildable.
Proof.
  split.
  - apply buildable_statics.
  - apply provider_Create.
  - apply provider_Update.
  - apply provider_Delete.
  - apply provider_Exists.
Qed.
End provider_laws.

(** ** A machine the actuator rejects

    Its provider spec cannot be read, say. *)
Section misconfigured.
Context {TW IW : Type} `{!TenantApi TW, !EventRecorder TW, !NodeApi TW, !MachineApi TW,
  !StatusConverter, !TenantView (TW:=TW), !TenantLaws (TW:=TW), !EventLaws TW,
  !MachineLaws (TW:=TW), !YamlLib}
  `{!InfraCluster.Client IW, !Resolver IW, !InfraCluster.ClientView (IW:=IW),
    !InfraCluster.ClientLaws (IW:=IW), !ResolverLaws IW}.
Context (a : actuator) (ns name : string).
Implicit Types (m : Mapi.Machine) (t : TW) (i : IW).

(** The whole call: an event, and an error the controller does not
    recognise. *)
Lemma wp_rejected action e m t i (Q : option goerror → Actuator.world TW IW → Prop) E :
  (∀ e' t', opaque_error e' → machines_same t t' → Q (Some e') (m, (t', i))) →
  wp (failed action e) Q E (m, (t, i)).
Proof.
  intros HQ. unfold failed, handleMachineError. apply wp_bind, wp_bind, wp_the_machine.
  apply wp_bind. unfold in_tenant. go_step. go_call (Event_spec (TW:=TW)).
  intros [] t' [Hm _]. do 2 go_step. apply HQ; [apply opaque_Errorf|done].
Qed.

(** *** It is never deleted *)
Definition still_there m i (w : Actuator.world TW IW) : Prop :=
  tracked statics ns name (statics m) i w.
Definition to_retry m i (r : Result * option goerror) (w : Actuator.world TW IW) : Prop :=
  still_there m i w ∧ (r.2 = None → Requeue r.1 = true).

Lemma delay_retries err : (delayIfRequeueAfterError err).2 = None →
  Requeue (delayIfRequeueAfterError err).1 = true.
Proof. unfold delayIfRequeueAfterError. by destruct (as_requeue_after err). Qed.

Lemma rejected_delete m i e w :
  createMachineScope a m = inr e → still_there m i w →
  wp (reconcile_delete (Some (provider a))) (to_retry m i) no_panic w.
Proof.
  intros Hsc [Ht Hi]. destruct w as [m1 [t1 i1]]. simpl in *. subst i1.
  assert (createMachineScope a m1 = inr e) as Hsc1.
  { rewrite <-Hsc. apply createMachineScope_statics. by destruct Ht as (_ & _ & ? & _). }
  unfold reconcile_delete, call. apply wp_bind. simpl. unfold Actuator.Delete.
  apply wp_bind, wp_the_machine. cbn [fst]. rewrite Hsc1. apply wp_rejected.
  intros e' t' He' Hm. apply wp_bind, wp_the_machine. cbn [fst].
  rewrite (opaque_not_invalid e' He'), orb_true_r. go_step. split; [|apply delay_retries].
  destruct Ht as (? & ? & ? & ?). split; [|done]. split_and!; try done. simpl. by rewrite Hm.
Qed.

Lemma rejected_deletion m t i e :
  machine_at t ns name = Some m → Validate m = [] → under_deletion m = true →
  Mapi.MachineFinalizer ∈ finalizers m → createMachineScope a m = inr e →
  wp (reconcile_machine (Some (provider a))) (to_retry m i) no_panic
    (m, (t, i)).
Proof.
  intros Hat Hv Hd Hf Hsc. destruct (machine_at_named _ _ _ _ Hat) as [Hns Hn].
  unfold reconcile_machine. apply wp_bind, wp_the_machine. cbn [fst]. rewrite Hv.
  unfold under_deletion in Hd. destruct (time_IsZero _); [done|]. unfold reconcile_deleted.
  eapply (wp_steady statics ns name (statics m) i False); [| | |done].
  { apply steady_updateStatus; [intros ???; apply status_patch_statics|done|by left]. }
  { split; [|done]. split_and!; try done. simpl. by rewrite Hat. }
  intros [err|] w1 Hw1; [go_step; by split|]. apply wp_bind, wp_the_machine.
  assert (finalizers w1.1 = finalizers m) as Hf1.
  { apply finalizers_of_statics. by destruct Hw1 as [(_ & _ & ? & _) _]. }
  assert (Contains (Meta.Finalizers (Mapi.MachineMeta w1.1)) Mapi.MachineFinalizer = true) as ->.
  { apply Contains_spec. unfold finalizers in *. by rewrite Hf1. }
  eapply (wp_steady statics ns name (statics m) i False); [|exact Hw1| |done].
  { destruct (map_index _ _); [auto with go|]. destruct (Mapi.NodeRef _); [|auto with go].
    apply steady_drainNode. }
  intros [err|] w2 Hw2; [|by eapply rejected_delete].
  go_step. split; [done|apply delay_retries].
Qed.

(** *** It is never marked as failed *)
Definition phase_kept m i (w : Actuator.world TW IW) : Prop :=
  w.2.2 = i ∧ phase <$> machine_at w.2.1 ns name = Some (phase m).

Lemma wp_set_condition c m t i (Q : unit → Actuator.world TW IW → Prop) E :
  (∀ cs t', machines_same t t' → Q tt (Mapi.set_Conditions cs m, (t', i))) →
  wp (set_condition_now c) Q E (m, (t, i)).
Proof.
  intros HQ. unfold set_condition_now, change_machine. apply wp_bind, wp_in_tenant; [auto with go|].
  intros z t' Ht'. do 2 go_step. by apply HQ.
Qed.

(** An update of the status that tells the phase the machine has. *)
Lemma updateStatus_phase ph m m0 t i orig :
  phase m0 = Some ph → ph ≠ phaseFailed → Mapi.GetNamespace m = ns → Mapi.GetName m = name →
  phase <$> machine_at t ns name = Some (Some ph) →
  wp (updateStatus ph None orig) (λ _ w', phase_kept m0 i w') no_panic (m, (t, i)).
Proof.
  intros Hph Hne Hns Hn Hat. unfold updateStatus. apply wp_bind, wp_the_machine.
  rewrite (bool_decide_eq_false_2 (ph = phaseFailed)) by done. do 2 go_step. unfold patch_status.
  apply wp_bind, wp_the_machine. apply wp_bind. unfold change_machine at 1. do 2 go_step.
  apply wp_bind, wp_the_machine. rewrite (bool_decide_eq_false_2 (ph = phaseFailed)) by done. do 2 go_step.
  apply wp_bind. unfold change_machine at 1. do 2 go_step. apply wp_bind, wp_the_machine.
  cbn [fst]. set (m1 := Mapi.set_Status _ _).
  assert (∀ m2 t2, phase m2 = Some ph → Mapi.GetNamespace m2 = ns → Mapi.GetName m2 = name →
    machines_same t t2 →
    wp (r ← on_tenant (runtime_Status_Patch (Mapi.set_Conditions orig m));
        match r with
        | Some err => mret (Some err)
        | None =>
            _ ← (if bool_decide (ph = phaseDeleting) then mret tt
                 else t ← in_tenant now;
                      machine ← the_machine;
                      in_tenant (observe_phase ph
                        (t - Meta.CreationTimestamp (Mapi.MachineMeta machine))));
            mret None
        end) (λ _ w', phase_kept m0 i w') no_panic (m2, (t2, i))) as Hpatch.
  { intros m2 t2 Hph2 Hns2 Hn2 Hsame. unfold on_tenant. do 2 go_step.
    eapply wp_mono; [apply status_patch_phase| |done].
    intros r [m3 t3] Hor. cbn [fst snd] in Hor. rewrite Hns2, Hn2, Hsame, Hat, Hph2 in Hor. assert (phase <$> machine_at t3 ns name = Some (phase m0)) as Hat3.
    { rewrite Hph. by destruct Hor. }
    cbn beta iota zeta. destruct r as [err|]; [by go_step|]. go_step.
    case_bool_decide; [by go_steps|]. apply wp_bind, wp_in_tenant; [auto with go|].
    intros z t4 Ht4. apply wp_bind, wp_the_machine, wp_in_tenant; [auto with go|].
    intros _ t5 Ht5. go_step. split; [done|]. simpl in *. by rewrite Ht5, Ht4. }
  apply wp_bind. destruct (bool_decide (Mapi.Status _ = Mapi.Status _)).
  - go_step. by apply Hpatch.
  - apply wp_bind, wp_in_tenant; [auto with go|]. intros z t' Ht'.
    unfold change_machine. do 2 go_step. by apply Hpatch.
Qed.

Lemma rejected_creation m t i e :
  machine_at t ns name = Some m → creation_due m → createMachineScope a m = inr e →
  vm_at i (a_infraNamespace a) name = None →
  wp (reconcile_machine (Some (provider a)))
    (λ r w', r.2 ≠ None ∧ r.1 = noResult ∧ phase_kept m i w') no_panic (m, (t, i)).
Proof.
  intros Hat [Hv Hd Hf Hnf Hnp Hph] Hsc Hvm. destruct (machine_at_named _ _ _ _ Hat) as [Hns Hn].
  destruct (phase m) as [ph|] eqn:Hphm; [|done]. simpl in Hph.
  assert (ph ≠ phaseFailed) as Hne.
  { unfold machineIsFailed, phase in *. rewrite Hphm in Hnf. by apply bool_decide_eq_false in Hnf. }
  unfold reconcile_machine. apply wp_bind, wp_the_machine. cbn [fst]. rewrite Hv.
  unfold under_deletion in Hd. destruct (time_IsZero _); [|done].
  unfold finalizers in Hf. apply Contains_spec in Hf. rewrite Hf. unfold reconcile_present.
  apply wp_bind, wp_the_machine. cbn [fst]. rewrite Hnf. apply wp_bind. unfold call at 1.
  eapply wp_mono; [apply provider_Exists| |done].
  intros [b [err|]] w [-> Hex]; cbn beta iota zeta.
  - apply wp_bind, wp_set_condition. intros cs t' Ht'. apply wp_bind. unfold updateStatus_same.
    apply wp_bind, wp_the_machine. cbn [fst]. unfold phase in Hphm.
    change (Mapi.Phase (Mapi.Status (Mapi.set_Conditions cs m))) with (Mapi.Phase (Mapi.Status m)).
    rewrite Hphm. eapply wp_mono; [apply (updateStatus_phase ph _ m)| |done]; try done.
    { by rewrite Ht', Hat, <-Hphm. }
  - destruct b.
    { destruct (proj1 (Hex eq_refl) eq_refl) as [vm Hsome]. by rewrite Hn, Hvm in Hsome. }
    unfold reconcile_missing. apply wp_bind, wp_the_machine. cbn [fst]. rewrite Hnp.
    apply wp_bind, wp_set_condition. intros cs t' Ht'. unfold phase in Hphm. rewrite Hphm.
    rewrite bool_decide_eq_false_2 by done. apply wp_bind. unfold call. simpl.
    unfold Actuator.Create. apply wp_bind, wp_the_machine. cbn [fst].
    rewrite (createMachineScope_statics a m), Hsc by done. apply wp_rejected. intros e' t2 He' Ht2.
    rewrite (opaque_not_invalid e' He'). go_step. unfold delayIfRequeueAfterError.
    rewrite (opaque_not_requeue e' He'). split_and!; [done|done|]. split; [done|].
    cbn [fst snd]. by rewrite (Ht2 ns name), (Ht' ns name), Hat.
Qed.
End misconfigured.

(** ** Properties *)
Section properties.
Context {TW IW : Type} `{!TenantApi TW, !EventRecorder TW, !NodeApi TW, !MachineApi TW,
  !StatusConverter, !TenantView (TW:=TW), !TenantLaws (TW:=TW), !EventLaws TW,
  !MachineLaws (TW:=TW), !YamlLib}
  `{!InfraCluster.Client IW, !Resolver IW, !InfraCluster.ClientView (IW:=IW),
    !InfraCluster.ClientLaws (IW:=IW), !ResolverLaws IW}.
Context (a : actuator) (ns name : string).
Implicit Types (m : Mapi.Machine) (t : TW) (i : IW).
Abbreviation Reconcile := (Reconcile (Some (provider a)) ns name).

Definition has_finalizer t : Prop :=
  ∃ m, machine_at t ns name = Some m ∧ Mapi.MachineFinalizer ∈ finalizers m.

Lemma stored_finalizer t :
  has_finalizer t ↔ ∃ l, stored_finalizers ns name t = Some l ∧ Mapi.MachineFinalizer ∈ l.
Proof.
  unfold has_finalizer, stored_finalizers. split.
  - intros (m & -> & Hf). by eexists.
  - intros (l & (m & Hm & ->)%fmap_Some & Hf). by exists m.
Qed.

Lemma no_instance i : ¬ provider_instance a i name → vm_at i (a_infraNamespace a) name = None.
Proof. unfold provider_instance. apply eq_None_not_Some. Qed.

(** What [request_spec] says of this actuator. *)
Lemma request_provider m t i :
  machine_at t ns name = Some m →
  let safe : TW * IW → Prop := λ '(t', i'),
    finalizers_step (provider_instance a) ns name m t' i' ∧
    instances_step (provider_instance a) (provider_doomed a) name m i i' ∧
    (under_deletion m = true → kept_or_gone (provider_instance a) ns name m t' i') in
  wp Reconcile
    (λ r w', safe w' ∧ (under_deletion m = true → Validate m = [] →
                        r = (noResult, None) → released ns name w'.1))
    (λ _ w', safe w' ∧ deletion_panic (buildable a) m) (t, i).
Proof.
  intros Hat.
  by apply (request_spec (provider a) (provider_instance a) (provider_doomed a) (buildable a)).
 Qed.

(** C2: A virtual machine is never forgotten: whatever a reconciliation does,
    and even when it panics, the machine keeps its finalizer as long as the
    infra cluster has its virtual machine. *)
Theorem vm_never_forgotten m t i
    (Hat : machine_at t ns name = Some m) (Hfin : Mapi.MachineFinalizer ∈ finalizers m) :
  let safe : TW * IW → Prop := λ '(t', i'),
    has_finalizer t' ∨ vm_at i' (a_infraNamespace a) name = None in
  wp Reconcile (λ _, safe) (λ _, safe) (t, i).
Proof.
  intros safe. assert (∀ t' i', finalizers_step (provider_instance a) ns name m t' i' → safe (t', i'))
    as Hsafe.
  { intros t' i' [?|?]%finalizer_kept; [left; by apply stored_finalizer|right|done].
    by apply no_instance. }
  eapply wp_mono; [by apply request_provider|..]; intros ? [t' i'] [[? _] _]; by apply Hsafe.
Qed.

(** C19: A reconciliation of a valid machine under deletion, if its virtual
    machine can be built or is refused, does not panic, and when it reports that
    nothing is left to do, the finalizer has been given up, and the virtual
    machine of a machine that had it is gone. *)
Theorem deletion_completes m t i
    (Hat : machine_at t ns name = Some m) (Hdel : under_deletion m = true)
    (Hvalid : Validate m = []) (Hbuild : buildable a m) :
  wp Reconcile
    (λ r '(t', i'), r = (noResult, None) →
       ¬ has_finalizer t' ∧
       (Mapi.MachineFinalizer ∈ finalizers m → vm_at i' (a_infraNamespace a) name = None))
    no_panic (t, i).
Proof.
  eapply wp_mono; [by apply request_provider|..].
  2: { intros s w [_ Hpanic]. by apply Hpanic. }
  intros r [t' i'] [[Hsafe _] Hdone] Hr. specialize (Hdone Hdel Hvalid Hr). unfold released in Hdone.
  assert (¬ has_finalizer t') as Hno.
  { intros (l & Hl & Hin)%stored_finalizer. simpl in Hdone. by rewrite Hl in Hdone. }
  split; [done|]. intros Hf. destruct (finalizer_kept _ _ _ _ _ _ Hsafe Hf) as [H'|H']; [|by apply no_instance].
  by destruct Hno; apply stored_finalizer.
Qed.

(** C15: A reconciliation brings a virtual machine into being only for a
    machine that is valid, has its finalizer, is not being deleted and not
    failed, has no provider ID and no address yet, and has been through the
    provisioning phase. *)
Theorem vm_created_only_when_due m t i
    (Hat : machine_at t ns name = Some m) (Hvm : vm_at i (a_infraNamespace a) name = None) :
  let safe : TW * IW → Prop := λ '(_, i'),
    is_Some (vm_at i' (a_infraNamespace a) name) → creation_due m in
  wp Reconcile (λ _, safe) (λ _, safe) (t, i).
Proof.
  assert (¬ provider_instance a i name) as Hno.
  { unfold provider_instance. rewrite Hvm. by intros []. }
  intros safe. eapply wp_mono; [by apply request_provider|..]; intros ? [t' i'] [(_ & Hstep & _) _] Hsome;
    by destruct (instance_due _ _ _ _ _ _ Hstep Hsome).
Qed.

(** C16: A reconciliation removes a virtual machine only for a machine that is
    valid, under deletion and has its finalizer, or, when others had marked the
    virtual machine for deletion already, for a valid machine with its
    finalizer that is updated; and in any case, whether it creates, updates or
    deletes, it neither creates nor removes the virtual machine of another
    machine. *)
Theorem vm_deleted_only_when_due m t i (Hat : machine_at t ns name = Some m) :
  let has_vm i n := is_Some (vm_at i (a_infraNamespace a) n) in
  let safe : TW * IW → Prop := λ '(_, i'),
    (has_vm i name → ¬ has_vm i' name →
     deletion_due m ∨ (update_due m ∧ provider_doomed a i name)) ∧
    (∀ n, n ≠ name → has_vm i' n ↔ has_vm i n) in
  wp Reconcile (λ _, safe) (λ _, safe) (t, i).
Proof.
  intros has_vm safe. eapply wp_mono; [by apply request_provider|..];
    intros ? [t' i'] [(_ & Hstep & _) _];
    (split; [|intros n; by apply (instances_others _ _ _ _ _ _ _ Hstep)]);
    intros Hvm Hno; by destruct (removal_due _ _ _ _ _ _ Hstep Hvm).
Qed.

Lemma wp_Reconcile m t i (Q : Result * option goerror → TW * IW → Prop) E
    (Hat : machine_at t ns name = Some m)
    (Herr : ∀ e, Q (noResult, Some e) (t, i))
    (Hrun : wp (reconcile_machine (Some (provider a))) (λ r w, Q r w.2) (λ s w, E s w.2)
              (m, (t, i))) :
  wp Reconcile Q E (t, i).
Proof.
  unfold MachineController.Reconcile. do 2 go_step. go_call machine_Get_spec.
  intros [m'|e] t' [-> Hr].
  - rewrite Hat in Hr. injection Hr as <-. by apply wp_with_machine.
  - destruct (IsNotFound e); [rewrite Hr in Hat; done|]. go_step. apply Herr.
Qed.

(** C26: A valid machine under deletion, with the finalizer, whose spec the
    provider cannot read is never deleted: while it is as it is, every
    reconciliation leaves its metadata, finalizer included, and its
    specification in place and the infra cluster alone, and reports an error
    or asks to be repeated; none panics. *)
Theorem misconfigured_never_deleted m t i e
    (Hat : machine_at t ns name = Some m) (Hvalid : Validate m = [])
    (Hdel : under_deletion m = true) (Hfin : Mapi.MachineFinalizer ∈ finalizers m)
    (Hbad : createMachineScope a m = inr e) :
  let same : TW * IW → Prop := λ '(t', i'),
    i' = i ∧ statics <$> machine_at t' ns name = Some (statics m) in
  wp Reconcile (λ r w, same w ∧ (r.2 = None → Requeue r.1 = true)) no_panic (t, i).
Proof.
  intros same. apply (wp_Reconcile m); [done|intros e'; split; [|done]; split; [done|by rewrite Hat]|].
  eapply wp_mono; [by eapply rejected_deletion| |done].
  intros r [m' [t' i']] [[(_ & _ & _ & ?) ?] ?]. by split.
Qed.

(** C27: A machine that is due for creation (valid, not under deletion, with
    the finalizer, not failed, not provisioned yet, and in some phase) and has
    no virtual machine, whose spec the provider cannot read, is never marked
    as failed, although the error of the scope is an invalid configuration:
    every reconciliation reports an error to be retried, keeps the phase and
    leaves the infra cluster alone. *)
Theorem misconfigured_retried m t i e
    (Hat : machine_at t ns name = Some m) (Hdue : creation_due m)
    (Hvm : vm_at i (a_infraNamespace a) name = None)
    (Hbad : createMachineScope a m = inr e) :
  wp Reconcile
    (λ r '(t', i'), r.2 ≠ None ∧ r.1 = noResult ∧ i' = i ∧
       phase <$> machine_at t' ns name = Some (phase m)) no_panic (t, i).
Proof.
  apply (wp_Reconcile m); [done|intros e'; split_and!; [done..|by rewrite Hat]|].
  eapply wp_mono; [by eapply rejected_creation| |done].
  by intros r [m' [t' i']] (? & ? & ? & ?).
Qed.
End properties.

(** ** On the reference clusters *)
Definition with_finalizer : Mapi.Machine :=
  Mapi.set_Finalizers [Mapi.MachineFinalizer] example_machine.
(** After the finalizer and the first phase. *)
Definition provisioning (m : Mapi.Machine) : Mapi.Machine :=
  Mapi.set_Status (with_phase phaseProvisioning (None, None) (Mapi.Status m)) m.
Definition deleted (m : Mapi.Machine) : Mapi.Machine :=
  let meta := Mapi.MachineMeta m in
  Mapi.MkMachine
    (Meta.MkObjectMeta (Meta.Name meta) (Meta.Namespace meta) (Meta.UID meta)
       (Meta.ResourceVersion meta) (Meta.CreationTimestamp meta) (Some example_now)
       (Meta.Labels meta) (Meta.Annotations meta) (Meta.OwnerReferences meta)
       (Meta.Finalizers meta) (Meta.ClusterName meta)) (Mapi.Spec m) (Mapi.Status m).
Definition unreadable (m : Mapi.Machine) : Mapi.Machine :=
  Mapi.MkMachine (Mapi.MachineMeta m)
    (Mapi.MkMachineSpec (Some (MkRawExtension "[")) (Mapi.ProviderID (Mapi.Spec m))) (Mapi.Status m).

Abbreviation machine_ns := "openshift-machine-api".
Definition tenant_with (m : Mapi.Machine) : tenant :=
  set_machines <[(machine_ns, "worker-0") := m]> example_tenant.
Definition reconcile_example (w : tenant * server) :=
  Reconcile (Some (provider example_actuator)) machine_ns "worker-0" w.

(** A virtual machine that is there, for a machine under deletion. *)
Definition with_vm : server :=
  (reconcile_example (tenant_with (provisioning with_finalizer), empty_server)).2.2.

Example create_then_delete :
  let created := reconcile_example (tenant_with (provisioning with_finalizer), empty_server) in
  let t := tenant_with (deleted (provisioning with_finalizer)) in
  let gone := reconcile_example (t, created.2.2) in
  bool_decide (is_Some (vm_at created.2.2 "infra" "worker-0")) = true ∧
  gone.1 = Ret (noResult, None) ∧ vm_at gone.2.2 "infra" "worker-0" = None ∧
  machine_at gone.2.1 machine_ns "worker-0" = None.
Proof. vm_compute. done. Qed.

Lemma vm_never_forgotten_witness :
  let m := deleted (provisioning with_finalizer) in
  let safe : tenant * server → Prop := λ '(t', i'),
    has_finalizer machine_ns "worker-0" t' ∨ vm_at i' "infra" "worker-0" = None in
  wp (Reconcile (Some (provider example_actuator)) machine_ns "worker-0")
    (λ _, safe) (λ _, safe) (tenant_with m, with_vm).
Proof.
  apply (vm_never_forgotten example_actuator machine_ns "worker-0"
           (deleted (provisioning with_finalizer)));
    [vm_compute; reflexivity|by left].
Defined.

Lemma deletion_completes_witness :
  let m := deleted (provisioning with_finalizer) in
  wp (Reconcile (Some (provider example_actuator)) machine_ns "worker-0")
    (λ r '(t', i'), r = (noResult, None) →
       ¬ has_finalizer machine_ns "worker-0" t' ∧
       (Mapi.MachineFinalizer ∈ finalizers m → vm_at i' "infra" "worker-0" = None))
    no_panic (tenant_with m, with_vm).
Proof.
  apply (deletion_completes example_actuator machine_ns "worker-0"
           (deleted (provisioning with_finalizer))); vm_compute; reflexivity.
Defined.

Lemma vm_created_only_when_due_witness :
  let m := provisioning with_finalizer in
  let safe : tenant * server → Prop := λ '(_, i'),
    is_Some (vm_at i' "infra" "worker-0") → creation_due m in
  wp (Reconcile (Some (provider example_actuator)) machine_ns "worker-0")
    (λ _, safe) (λ _, safe) (tenant_with m, empty_server).
Proof.
  apply (vm_created_only_when_due example_actuator machine_ns "worker-0"
           (provisioning with_finalizer)); vm_compute; reflexivity.
Defined.

Lemma vm_deleted_only_when_due_witness :
  let m := deleted (provisioning with_finalizer) in
  let has_vm i n := is_Some (vm_at i "infra" n) in
  let safe : tenant * server → Prop := λ '(_, i'),
    (has_vm with_vm "worker-0" → ¬ has_vm i' "worker-0" →
     deletion_due m ∨ (update_due m ∧ provider_doomed example_actuator with_vm "worker-0")) ∧
    (∀ n, n ≠ "worker-0" → has_vm i' n ↔ has_vm with_vm n) in
  wp (Reconcile (Some (provider example_actuator)) machine_ns "worker-0")
    (λ _, safe) (λ _, safe) (tenant_with m, with_vm).
Proof.
  apply (vm_deleted_only_when_due example_actuator machine_ns "worker-0"
           (deleted (provisioning with_finalizer))). vm_compute. reflexivity.
Defined.

(** A machine for which a virtual machine may be created. *)
Lemma provisioning_due : creation_due (unreadable (provisioning with_finalizer)).
Proof. split; try (vm_compute; reflexivity); [by left|done]. Qed.

Lemma misconfigured_never_deleted_witness :
  let m := deleted (unreadable (provisioning with_finalizer)) in
  let same : tenant * server → Prop := λ '(t', i'),
    i' = with_vm ∧ statics <$> machine_at t' machine_ns "worker-0" = Some (statics m) in
  wp (Reconcile (Some (provider example_actuator)) machine_ns "worker-0")
    (λ r w, same w ∧ (r.2 = None → Requeue r.1 = true)) no_panic (tenant_with m, with_vm).
Proof.
  apply (misconfigured_never_deleted example_actuator machine_ns "worker-0"
           (deleted (unreadable (provisioning with_finalizer))) _ _
           (InvalidMachineConfiguration
              ("failed to get machine config: error unmarshalling providerSpec: "
               +:+ "error converting YAML to JSON: yaml: unmarshal errors")));
    [vm_compute; reflexivity..|by left|vm_compute; reflexivity].
Defined.

Lemma misconfigured_retried_witness :
  let m := unreadable (provisioning with_finalizer) in
  wp (Reconcile (Some (provider example_actuator)) machine_ns "worker-0")
    (λ r '(t', i'), r.2 ≠ None ∧ r.1 = noResult ∧ i' = empty_server ∧
       phase <$> machine_at t' machine_ns "worker-0" = Some (phase m)) no_panic
    (tenant_with m, empty_server).
Proof.
  apply (misconfigured_retried example_actuator machine_ns "worker-0"
           (unreadable (provisioning with_finalizer)) _ _
           (InvalidMachineConfiguration
              ("failed to get machine config: error unmarshalling providerSpec: "
               +:+ "error converting YAML to JSON: yaml: unmarshal errors")));
    [vm_compute; reflexivity|apply provisioning_due|vm_compute; reflexivity..].
Defined.
