(* ===== verification/Neighbours.v ===== *)
(** * Nodes of other machines

    A reconciliation of a machine touches no node but the one its own status
    refers to, and that only when the machine is under deletion: the other
    nodes, and the provider's configuration, are as they were, whatever the
    reconciliation returns and also when it panics. *)

From S2P Require Import Prelude GoStd GoErrors Json ApiTypes ProviderConfig TenantCluster.
From S2P Require Import UserData MachineScope InfraCluster InfraServer Kubevirt Actuator.
From S2P Require Import Conditions NodeUpdate MachineController TenantServer Patches.
From S2P Require Import MachineLifecycle.
From Stdlib Require Import Ascii.
#[local] Open Scope Z_scope.

Definition node_ref (m : Mapi.Machine) : option string := Mapi.NodeRef (Mapi.Status m).

(** ** Requests and nodes

    A request that writes a machine or an event writes no node and no config
    map; cordoning and draining a node change that node at most. *)
Section requests.
Context {TW : Type} `{!TenantView (TW:=TW), !NodeView (TW:=TW)}.
Implicit Types (t : TW) (name : string).

Definition nodes_but name t t' : Prop :=
  (∀ n, n ≠ name → node_at t' n = node_at t n) ∧
  (∀ ns n, configmap_at t' ns n = configmap_at t ns n).

Class NodeRequests `{!TenantApi TW, !EventRecorder TW, !MachineApi TW} := {
  nodes_Patch origin m t :
    wp (runtime_Patch origin) (λ _ mt', nodes_same t mt'.2) no_panic (m, t);
  nodes_Status_Patch origin m t :
    wp (runtime_Status_Patch origin) (λ _ mt', nodes_same t mt'.2) no_panic (m, t);
  nodes_machine_Update m t : wp machine_Update (λ _ mt', nodes_same t mt'.2) no_panic (m, t);
  nodes_Event m ty reason msg t :
    wp (Event m ty reason msg) (λ _ t', nodes_same t t') no_panic t;
  nodes_NewForConfig t : wp NewForConfig (λ _ t', nodes_same t t') no_panic t;
  nodes_now t : wp now (λ _ t', nodes_same t t') no_panic t;
  nodes_observe_phase ph z t : wp (observe_phase ph z) (λ _ t', nodes_same t t') no_panic t;
  nodes_kube_node_Get name t :
    wp (kube_node_Get name)
      (λ r t', nodes_same t t' ∧ match r with inl n => node_Name n = name | inr _ => True end)
      no_panic t;
  nodes_Cordon h n b t :
    wp (RunCordonOrUncordon h n b) (λ _ t', nodes_but (node_Name n) t t') no_panic t;
  nodes_Drain h name t : wp (RunNodeDrain h name) (λ _ t', nodes_but name t t') no_panic t
}.

(** This node and the configuration are as they were. *)
Definition spared name t t' : Prop :=
  node_at t' name = node_at t name ∧ ∀ ns n, configmap_at t' ns n = configmap_at t ns n.

#[export] Instance spared_preorder name : PreOrder (spared name).
Proof.
  split; [done|]. intros t1 t2 t3 [N C] [N' C']. split; [by rewrite N'|]. intros. by rewrite C'.
Qed.

Lemma same_spared name t t' : nodes_same t t' → spared name t t'.
Proof. by intros [N C]. Qed.
Lemma but_spared name name' t t' : name ≠ name' → nodes_but name' t t' → spared name t t'.
Proof. intros Hne [N C]. split; auto. Qed.
Lemma removed_spared name name' t t' : name ≠ name' → node_removed name' t t' → spared name t t'.
Proof. intros Hne [(_ & N & C)|(n & (_ & N & C) & _)]; split; auto. Qed.

Lemma spared_namespace name t t' : spared name t t' → infra_namespace t' = infra_namespace t.
Proof. intros [_ C]. unfold infra_namespace. by rewrite C. Qed.
End requests.
#[global] Arguments NodeRequests TW {_ _ _ _ _}.

(** ** Computations that spare a node *)
Section sparing.
Context {TW IW : Type} `{!TenantApi TW, !EventRecorder TW, !NodeApi TW, !MachineApi TW,
  !StatusConverter, !TenantView (TW:=TW), !NodeView (TW:=TW), !TenantLaws (TW:=TW),
  !NodeLaws (TW:=TW), !MachineLaws (TW:=TW), !NodeRequests TW, !YamlLib}
  `{!InfraCluster.Client IW, !Resolver IW, !InfraCluster.ClientView (IW:=IW),
    !InfraCluster.ClientLaws (IW:=IW), !ResolverLaws IW}.
Context (name : string).
Implicit Types (m : Mapi.Machine) (t : TW) (i : IW).
Abbreviation world := (Actuator.world TW IW).

Definition sparing {A} (c : Go world A) : Prop :=
  ∀ w, wp c (λ _ w', spared name w.2.1 w'.2.1) (λ _ w', spared name w.2.1 w'.2.1) w.

(** And that leave the machine in hand. *)
Definition holding_on {A} (c : Go world A) : Prop :=
  ∀ w, wp c (λ _ w', w'.1 = w.1 ∧ spared name w.2.1 w'.2.1) (λ _ w', spared name w.2.1 w'.2.1) w.

Lemma holding_sparing {A} (c : Go world A) : holding_on c → sparing c.
Proof. intros Hc w. eapply wp_mono; [apply Hc|by intros ? ? []|done]. Qed.

Lemma sparing_ret {A} (x : A) : sparing (mret x).
Proof. by intros w. Qed.
Lemma holding_ret {A} (x : A) : holding_on (mret x).
Proof. by intros w. Qed.

Lemma sparing_bind {A B} (c : Go world A) (f : A → Go world B) :
  sparing c → (∀ x, sparing (f x)) → sparing (c ≫= f).
Proof.
  intros Hc Hf w. apply wp_bind. eapply wp_mono; [apply Hc| |done].
  intros x w1 Ha. eapply wp_mono; [apply Hf|..]; intros y w2 Hb; (etrans; [exact Ha|exact Hb]).
Qed.
Lemma holding_bind {A B} (c : Go world A) (f : A → Go world B) :
  holding_on c → (∀ x, holding_on (f x)) → holding_on (c ≫= f).
Proof.
  intros Hc Hf w. apply wp_bind. eapply wp_mono; [apply Hc| |done].
  intros x w1 [Hm1 Ha]. eapply wp_mono; [apply Hf|..].
  - intros y w2 [Hm2 Hb]. split; [congruence|etrans; [exact Ha|exact Hb]].
  - intros y w2 Hb. (etrans; [exact Ha|exact Hb]).
Qed.

Lemma holding_on_the_machine : holding_on (the_machine : Go world Mapi.Machine).
Proof. intros w. by apply wp_the_machine. Qed.

Lemma sparing_lift {A} (o : outcome A) : sparing (go_lift o).
Proof. intros w. apply wp_lift. by destruct o. Qed.
Lemma sparing_panic {A} s : sparing (go_panic s : Go world A).
Proof. by intros w. Qed.

Lemma sparing_change f : sparing (change_machine f : Go world unit).
Proof. intros [m [t i]]. unfold change_machine. by do 2 go_step. Qed.

(** What happens in the infra cluster is no matter to nodes. *)
Lemma sparing_on_infra {A} (c : Go (Mapi.Machine * IW) A) : sparing (on_infra c : Go world A).
Proof. intros [m [t i]]. unfold on_infra. go_step. unfold wp. by destruct (c _) as [[] ?]. Qed.
Lemma holding_in_infra {A} (c : Go IW A) : holding_on (in_infra c : Go world A).
Proof. intros [m [t i]]. unfold in_infra. go_step. unfold wp. by destruct (c _) as [[] ?]. Qed.

Lemma holding_in_tenant {A} (c : Go TW A) :
  (∀ t, wp c (λ _ t', spared name t t') (λ _ t', spared name t t') t) →
  holding_on (in_tenant c : Go world A).
Proof. intros Hc [m [t i]]. unfold in_tenant. go_step. by eapply wp_mono; [apply Hc|..]. Qed.

Lemma holding_quiet {A} (c : Go TW A) :
  (∀ t, wp c (λ _ t', nodes_same t t') no_panic t) → holding_on (in_tenant c : Go world A).
Proof.
  intros Hc. apply holding_in_tenant. intros t. eapply wp_mono; [apply Hc| |done].
  intros x t' Ht. by apply same_spared.
Qed.

Lemma sparing_on_tenant {A} (c : Go (Mapi.Machine * TW) A) :
  (∀ m t, wp c (λ _ mt', nodes_same t mt'.2) no_panic (m, t)) → sparing (on_tenant c : Go world A).
Proof.
  intros Hc [m [t i]]. unfold on_tenant. go_step. eapply wp_mono; [apply Hc| |done].
  intros x [m' t'] Ht. by apply same_spared.
Qed.
End sparing.
#[export] Hint Resolve sparing_ret holding_ret holding_on_the_machine sparing_lift sparing_panic
  sparing_change sparing_on_infra holding_in_infra : go.
#[export] Hint Extern 1 (holding_on _ (in_tenant _)) =>
  apply holding_quiet; intros;
  first [apply nodes_Event|apply nodes_NewForConfig|apply nodes_now|apply nodes_observe_phase] : go.
#[export] Hint Extern 1 (sparing _ (on_tenant _)) =>
  apply sparing_on_tenant; intros;
  first [apply nodes_Patch|apply nodes_Status_Patch|apply nodes_machine_Update] : go.
#[export] Hint Extern 2 (sparing _ _) => apply holding_sparing : go.

(** Through a computation, call by call. *)
Ltac spare :=
  repeat first
    [ progress (intros; cbv beta zeta)
    | solve [auto with go]
    | apply sparing_bind
    | apply holding_bind
    | match goal with
      | |- sparing _ (match ?x with _ => _ end) => destruct x
      | |- holding_on _ (match ?x with _ => _ end) => destruct x
      end ].

(** ** The actuator *)
Section actuator.
Context {TW IW : Type} `{!TenantApi TW, !EventRecorder TW, !NodeApi TW, !MachineApi TW,
  !StatusConverter, !TenantView (TW:=TW), !NodeView (TW:=TW), !TenantLaws (TW:=TW),
  !NodeLaws (TW:=TW), !MachineLaws (TW:=TW), !NodeRequests TW, !YamlLib}
  `{!InfraCluster.Client IW, !Resolver IW, !InfraCluster.ClientView (IW:=IW),
    !InfraCluster.ClientLaws (IW:=IW), !ResolverLaws IW}.
Context (a : actuator) (name : string).
Implicit Types (m : Mapi.Machine) (t : TW) (i : IW).
Abbreviation world := (Actuator.world TW IW).
Abbreviation sparing := (sparing (TW:=TW) (IW:=IW) name).
Abbreviation holding_on := (holding_on (TW:=TW) (IW:=IW) name).

Lemma holding_failed action e : holding_on (failed action e).
Proof. unfold failed, handleMachineError. spare. Qed.

Lemma holding_getUserData sc m : holding_on (in_tenant (getUserData sc m)).
Proof.
  apply holding_in_tenant. intros t.
  eapply wp_mono; [apply getUserData_spec|..]; [by intros r t' [-> _]|by intros s t' [-> _]].
Qed.

Lemma sparing_patchMachine origin : sparing (on_tenant (patchMachine origin)).
Proof.
  intros [m [t i]]. unfold on_tenant, patchMachine. do 4 go_step. simpl. go_step.
  eapply wp_mono; [apply (nodes_Patch origin)| |done].
  intros r [m1 t1] Ha. apply (same_spared name) in Ha. cbn [fst snd] in *.
  destruct r as [e|]; [by go_step|]. do 3 go_step. simpl. go_step.
  eapply wp_mono; [apply (nodes_Status_Patch origin)| |done].
  intros r [m2 t2] Hb. apply (same_spared name) in Hb. cbn [fst snd] in *.
  go_step. etrans; [exact Ha|exact Hb].
Qed.

(** Delete leaves the machine as it is. *)
Lemma holding_manager_Delete sc : holding_on (on_infra (manager.Delete sc)).
Proof.
  intros [m [t i]]. unfold on_infra. go_step. cbn [fst snd].
  eapply wp_mono; [apply Delete_spec|..]; [by intros r [m' i'] [-> _]|done].
Qed.
#[local] Hint Resolve holding_failed holding_getUserData sparing_patchMachine
  holding_manager_Delete : go.

Lemma holding_Delete : holding_on (act_Delete (provider a)).
Proof.
  cbn [act_Delete provider]. unfold Actuator.Delete. cbn [vm_Delete manager.manager]. spare.
Qed.

Lemma holding_Exists : holding_on (act_Exists (provider a)).
Proof. cbn [act_Exists provider]. unfold Actuator.Exists. spare. Qed.

Lemma sparing_Create : sparing (act_Create (provider a)).
Proof.
  cbn [act_Create provider]. unfold Actuator.Create. cbn [vm_Create manager.manager]. spare.
Qed.

Lemma sparing_Update : sparing (act_Update (provider a)).
Proof.
  cbn [act_Update provider]. unfold Actuator.Update. cbn [vm_Update manager.manager]. spare.
Qed.
End actuator.

(** ** The controller *)
Section controller.
Context {TW IW : Type} `{!TenantApi TW, !EventRecorder TW, !NodeApi TW, !MachineApi TW,
  !StatusConverter, !TenantView (TW:=TW), !NodeView (TW:=TW), !TenantLaws (TW:=TW),
  !EventLaws TW, !NodeLaws (TW:=TW), !MachineLaws (TW:=TW), !MergeLaws TW, !NodeRequests TW,
  !YamlLib}
  `{!InfraCluster.Client IW, !Resolver IW, !InfraCluster.ClientView (IW:=IW),
    !InfraCluster.ClientLaws (IW:=IW), !ResolverLaws IW}.
Context (a : actuator) (name : string).
Implicit Types (m : Mapi.Machine) (t : TW) (i : IW).
Abbreviation world := (Actuator.world TW IW).
Abbreviation sparing := (sparing (TW:=TW) (IW:=IW) name).
Abbreviation holding_on := (holding_on (TW:=TW) (IW:=IW) name).

Lemma sparing_updateStatus ph cause orig : sparing (updateStatus ph cause orig).
Proof. unfold updateStatus, patchFailedMachineInstanceAnnotation, patch_status. spare. Qed.

Lemma sparing_set_condition c : sparing (set_condition_now c).
Proof. unfold set_condition_now. spare. Qed.

Lemma sparing_update_finalizers f : sparing (update_finalizers f).
Proof. unfold update_finalizers. spare. Qed.

(** Draining and deleting another node. *)
Lemma holding_drainNode n : n ≠ name → holding_on (drainNode n).
Proof.
  intros Hne w. unfold drainNode. apply wp_bind.
  eapply wp_mono; [eapply (holding_quiet name); intros; apply nodes_NewForConfig| |done].
  intros [e|] w1 [Hm1 Ha]; [by go_step|]. destruct w as [m [t i]], w1 as [m1 [t1 i1]]. cbn [fst snd] in *.
  apply wp_bind. unfold in_tenant at 1. go_step. cbn [fst snd].
  eapply wp_mono; [apply nodes_kube_node_Get| |done].
  intros [nd|e] t2 [Hb Hnd]; apply (same_spared name) in Hb.
  2: { destruct (IsNotFound e); go_step; (split; [done|]); (etrans; [exact Ha|exact Hb]). }
  assert (spared name t t2) as Hc by (etrans; [exact Ha|exact Hb]). apply wp_bind. unfold in_tenant at 1. go_step. cbn [fst snd].
  eapply wp_mono; [apply nodes_Cordon| |done].
  intros r t3 Hd. rewrite Hnd in Hd. apply (but_spared name n) in Hd; [|done].
  destruct r as [e|]; [go_step; split; [done|etrans; [exact Hc|exact Hd]]|].
  apply wp_bind. unfold in_tenant at 1. go_step. cbn [fst snd]. rewrite Hnd.
  eapply wp_mono; [apply nodes_Drain| |done].
  intros r t4 He. apply (but_spared name n) in He; [|done].
  assert (spared name t t4) as Hf by (etrans; [exact Hc|etrans; [exact Hd|exact He]]).
  destruct r as [e|]; [by go_step|].
  assert (∀ c : Go world (option goerror), holding_on c →
    wp c (λ _ w', w'.1 = m ∧ spared name t w'.2.1) (λ _ w', spared name t w'.2.1) (m1, (t4, i1))) as Hend.
  { intros c Hh. eapply wp_mono; [apply Hh|..]; cbn [fst snd].
    - intros x w' [Hm Hg]. split; [congruence|etrans; [exact Hf|exact Hg]].
    - intros x w' Hg. etrans; [exact Hf|exact Hg]. }
  apply Hend. spare.
Qed.

Lemma holding_deleteNode n : n ≠ name → holding_on (deleteNode n).
Proof.
  intros Hne [m [t i]]. unfold deleteNode. apply wp_bind. unfold in_tenant at 1. go_step. cbn [fst snd].
  eapply wp_mono; [apply node_Get_spec| |done]. intros [nd|e] t1 [-> Hnd].
  2: { by destruct (IsNotFound e); go_step. }
  unfold in_tenant. go_step. cbn [fst snd]. eapply wp_mono; [apply node_Delete_spec| |done].
  intros r t' Hr. split; [done|]. rewrite (node_at_named _ _ _ Hnd) in Hr.
  destruct r; [destruct Hr as [Hr|Hr]; [by apply same_spared|]|]; by apply (removed_spared name n).
Qed.
#[local] Hint Resolve sparing_updateStatus sparing_set_condition sparing_update_finalizers : go.
#[local] Hint Extern 1 (sparing (act_Create _)) => apply sparing_Create : go.
#[local] Hint Extern 1 (sparing (act_Update _)) => apply sparing_Update : go.
#[local] Hint Extern 1 (holding_on (act_Exists _)) => apply holding_Exists : go.

Lemma sparing_reconcile_present orig : sparing (reconcile_present (Some (provider a)) orig).
Proof.
  unfold reconcile_present, reconcile_exists, reconcile_missing, updateStatus_same, call. spare.
Qed.

(** The status patch of a machine under deletion keeps its node reference. *)
Lemma ref_status_patch origin m t st :
  machine_at t (Mapi.GetNamespace m) (Mapi.GetName m) = Some st →
  node_ref m = node_ref origin → node_ref st = node_ref m →
  wp (runtime_Status_Patch origin)
    (λ _ mt', node_ref mt'.1 = node_ref m ∧ nodes_same t mt'.2) no_panic (m, t).
Proof.
  intros Hat Ho Hst. eapply wp_mono;
    [apply wp_and; [apply (merge_status_spec origin)|apply (nodes_Status_Patch origin)]| |by intros ? ? []].
  intros [e|] [m' t'] [Hm Hn]; (split; [|done]); cbn [fst]; [by destruct Hm as [-> _]|].
  destruct Hm as (st' & Hat' & _ & _ & _ & (Hkeep & _) & _). rewrite Hat in Hat'.
  injection Hat' as <-. unfold node_ref in *. by rewrite Hkeep.
Qed.

Lemma ref_updateStatus m t i orig :
  machine_at t (Mapi.GetNamespace m) (Mapi.GetName m) = Some m →
  wp (updateStatus phaseDeleting None orig)
    (λ _ w', node_ref w'.1 = node_ref m ∧ spared name t w'.2.1) no_panic
    (m, (t, i) : TW * IW).
Proof.
  intros Hat. unfold updateStatus. apply wp_bind, wp_the_machine.
  rewrite (bool_decide_eq_false_2 (phaseDeleting = phaseFailed)) by done. do 2 go_step.
  unfold patch_status. apply wp_bind, wp_the_machine. apply wp_bind. unfold change_machine at 1.
  do 2 go_step. apply wp_bind, wp_the_machine.
  rewrite (bool_decide_eq_false_2 (phaseDeleting = phaseFailed)) by done. do 2 go_step.
  apply wp_bind. unfold change_machine at 1. do 2 go_step. apply wp_bind, wp_the_machine.
  cbn [fst]. set (m1 := Mapi.set_Status _ _). set (base := Mapi.set_Conditions orig m).
  rewrite (bool_decide_eq_true_2 (phaseDeleting = phaseDeleting)) by done.
  assert (∀ m2 t2, node_ref m2 = node_ref m → Mapi.GetNamespace m2 = Mapi.GetNamespace m ∧ Mapi.GetName m2 = Mapi.GetName m →
    machines_same t t2 → nodes_same t t2 →
    wp (r ← on_tenant (runtime_Status_Patch base);
        match r with Some err => mret (Some err) | None => _ ← mret tt; mret None end)
      (λ _ (w' : world), node_ref w'.1 = node_ref m ∧ spared name t w'.2.1) no_panic
      (m2, (t2, i))) as Hpatch.
  { intros m2 t2 Hr [Hns Hn] Hsame Hnodes. unfold on_tenant. do 2 go_step. cbn [fst snd].
    eapply wp_mono; [apply (ref_status_patch base m2 t2 m)| |done]; try done.
    { by rewrite Hns, Hn, Hsame. }
    intros r [m3 t3] [Hr3 Hn3]. cbn [fst snd] in *.
    assert (spared name t t3) as Hs by (etrans; apply same_spared; [exact Hnodes|exact Hn3]).
    destruct r; repeat go_step; cbn [fst snd]; (split; [congruence|done]). }
  apply wp_bind. case_bool_decide; [go_step; by apply Hpatch|].
  apply wp_bind. unfold in_tenant. go_step. cbn [fst snd].
  eapply wp_mono; [apply wp_and; [apply quiet_now|apply nodes_now]| |by intros ? ? []].
  intros z t' [Hsame Hnodes]. unfold change_machine. do 2 go_step. by apply Hpatch.
Qed.

(** A machine under deletion whose node is another one. *)
Lemma spared_reconcile_deleted m t i orig :
  machine_at t (Mapi.GetNamespace m) (Mapi.GetName m) = Some m → node_ref m ≠ Some name →
  let spares (w' : world) := spared name t w'.2.1 in
  wp (reconcile_deleted (Some (provider a)) orig) (λ _, spares) (λ _, spares) (m, (t, i)).
Proof.
  intros Hat Hne spares. unfold reconcile_deleted. apply wp_bind.
  eapply wp_mono; [by apply ref_updateStatus| |done]. intros r w1 [Hr1 Hs1].
  assert (∀ (w w2 : world), spared name w.2.1 w2.2.1 → spares w → spares w2) as Hstep.
  { intros w w2 Hb Ha. unfold spares. etrans; [exact Ha|exact Hb]. }
  destruct r as [err|]; [by go_step|]. apply wp_bind, wp_the_machine.
  destruct (negb _); [by go_step|]. apply wp_bind.
  assert (∀ n, node_ref w1.1 = Some n → n ≠ name) as Hother by (intros n; rewrite Hr1; congruence).
  assert (holding_on (match map_index (Meta.Annotations (Mapi.MachineMeta w1.1))
                              ExcludeNodeDrainingAnnotation, Mapi.NodeRef (Mapi.Status w1.1) with
                      | None, Some nodeName => drainNode nodeName
                      | _, _ => mret None
                      end : Go world (option goerror))) as Hdrain.
  { destruct (map_index _ _), (Mapi.NodeRef (Mapi.Status w1.1)) as [n|] eqn:Hn;
      try apply holding_ret. apply holding_drainNode. exact (Hother n Hn). }
  eapply wp_mono; [apply Hdrain| |intros s w2 Hb; exact (Hstep _ _ Hb Hs1)].
  intros r w2 [Hm2 Hb]. pose proof (Hstep _ _ Hb Hs1) as Hs2.
  destruct r as [err|]; [by go_step|]. unfold reconcile_delete, call. apply wp_bind.
  eapply wp_mono; [apply holding_Delete| |intros s w3 Hc; exact (Hstep _ _ Hc Hs2)].
  intros r w3 [Hm3 Hc]. pose proof (Hstep _ _ Hc Hs2) as Hs3. apply wp_bind, wp_the_machine.
  destruct (match r with Some _ => _ | None => _ end); [by go_step|]. apply wp_bind.
  eapply wp_mono; [apply holding_Exists| |intros s w4 Hd; exact (Hstep _ _ Hd Hs3)].
  intros [b err] w4 [Hm4 Hd]. pose proof (Hstep _ _ Hd Hs3) as Hs4. cbn beta iota zeta.
  destruct err as [err|]; [by go_step|]. destruct b; [by go_step|].
  apply wp_bind, wp_the_machine, wp_bind.
  assert (holding_on (match Mapi.NodeRef (Mapi.Status w4.1) with
                      | Some nodeName => deleteNode nodeName
                      | None => mret None
                      end : Go world (option goerror))) as Hdel.
  { rewrite Hm4, Hm3, Hm2. destruct (Mapi.NodeRef (Mapi.Status w1.1)) as [n|] eqn:Hn;
      [|apply holding_ret]. apply holding_deleteNode. exact (Hother n Hn). }
  eapply wp_mono; [apply Hdel| |intros s w5 He; exact (Hstep _ _ He Hs4)].
  intros r' w5 [_ He]. pose proof (Hstep _ _ He Hs4) as Hs5.
  destruct r' as [err|]; [by go_step|].
  assert (sparing (r ← update_finalizers (λ l, Filter l Mapi.MachineFinalizer);
                   mret (noResult, r))) as Hend by spare.
  eapply wp_mono; [apply Hend|..]; intros ? w6 Hf; exact (Hstep _ _ Hf Hs5).
Qed.

Lemma spared_reconcile_machine m t i :
  machine_at t (Mapi.GetNamespace m) (Mapi.GetName m) = Some m →
  (under_deletion m = true → node_ref m ≠ Some name) →
  let spares (w' : world) := spared name t w'.2.1 in
  wp (reconcile_machine (Some (provider a))) (λ _, spares) (λ _, spares) (m, (t, i)).
Proof.
  intros Hat Hne spares. unfold reconcile_machine. apply wp_bind, wp_the_machine. cbn [fst].
  assert (∀ A (c : Go world A), sparing c → wp c (λ _, spares) (λ _, spares) (m, (t, i))) as Hend
    by (intros A c Hc; apply Hc).
  destruct (Validate m); [|apply Hend; spare]. unfold under_deletion in Hne.
  destruct (time_IsZero _).
  - apply Hend. destruct (Contains _ _); cbn [negb]; [apply sparing_reconcile_present|spare].
  - by apply spared_reconcile_deleted; [|apply Hne].
Qed.
End controller.

(** ** The property *)
Section properties.
Context {TW IW : Type} `{!TenantApi TW, !EventRecorder TW, !NodeApi TW, !MachineApi TW,
  !StatusConverter, !TenantView (TW:=TW), !NodeView (TW:=TW), !TenantLaws (TW:=TW),
  !EventLaws TW, !NodeLaws (TW:=TW), !MachineLaws (TW:=TW), !MergeLaws TW, !NodeRequests TW,
  !YamlLib}
  `{!InfraCluster.Client IW, !Resolver IW, !InfraCluster.ClientView (IW:=IW),
    !InfraCluster.ClientLaws (IW:=IW), !ResolverLaws IW}.
Context (a : actuator).
Implicit Types (t : TW) (i : IW) (ns name : string).

(** A machine of this name that is under deletion refers to another node. *)
Definition refers_elsewhere ns name node t : Prop :=
  ∀ m, machine_at t ns name = Some m → under_deletion m = true → node_ref m ≠ Some node.

Lemma spared_Reconcile ns name node t i :
  refers_elsewhere ns name node t →
  wp (Reconcile (Some (provider a)) ns name) (λ _ w', spared node t w'.1)
    (λ _ w', spared node t w'.1) (t, i).
Proof.
  intros Hne. unfold Reconcile. do 2 go_step. go_call machine_Get_spec. intros [m|e] t' [-> Hm].
  - destruct (machine_at_named _ _ _ _ Hm) as [Hns Hn]. apply wp_with_machine.
    apply (spared_reconcile_machine a node m t i); [by rewrite Hns, Hn|by apply Hne].
  - by destruct (IsNotFound e); go_step.
Qed.

(** C24: A reconciliation of a machine touches no node but its own: whatever it
    returns, and also when it panics, every node is as it was, but for the one
    that the status of the machine refers to, and that one too unless the
    machine is under deletion.  The provider's config map is left alone, so
    that the infra namespace stays what it was. *)
Theorem nodes_spared ns name t i m (Hat : machine_at t ns name = Some m) :
  let safe : TW * IW → Prop := λ w',
    (∀ node, (under_deletion m = false ∨ node_ref m ≠ Some node) →
       node_at w'.1 node = node_at t node) ∧
    infra_namespace w'.1 = infra_namespace t in
  wp (Reconcile (Some (provider a)) ns name) (λ _, safe) (λ _, safe) (t, i).
Proof.
  intros safe. destruct (Reconcile (Some (provider a)) ns name (t, i)) as [o w'] eqn:Hrun.
  assert (∀ node, (under_deletion m = false ∨ node_ref m ≠ Some node) → spared node t w'.1)
    as Hspared.
  { intros node Hne. pose proof (spared_Reconcile ns name node t i) as Hwp.
    unfold wp in Hwp. rewrite Hrun in Hwp.
    assert (refers_elsewhere ns name node t) as Hr
      by (intros m' Hm' Hud; rewrite Hat in Hm'; injection Hm' as <-; by destruct Hne; [congruence|]).
    destruct o; by apply Hwp. }
  assert (safe w') as Hsafe.
  { split; [intros node Hne; by apply Hspared|].
    eapply (spared_namespace (if decide (node_ref m = Some "a") then "b" else "a")), Hspared.
    right. destruct (decide _) as [->|]; [|done]. congruence. }
  unfold wp. rewrite Hrun. by destruct o.
Qed.
End properties.

(** ** On the reference cluster *)
#[export] Instance tenant_node_requests : NodeRequests tenant.
Proof.
  assert (∀ origin apply m t,
    wp (tenant_patch origin apply) (λ _ mt', nodes_same t mt'.2) no_panic (m, t)) as Hpatch.
  { intros origin apply m t. unfold wp, tenant_patch. destruct (stored_machine t _ _); [|done].
    by case_bool_decide. }
  split; try done.
  - intros origin m t. apply Hpatch.
  - intros origin m t. apply Hpatch.
  - intros m t. unfold wp. simpl. unfold tenant_update. destruct (stored_machine t _ _); [|done].
    by destruct (_ && _).
  - intros name t. unfold wp. simpl. split; [done|].
    destruct (t_nodes t !! name) as [n|]; [done|done].
Qed.

(** The machine under deletion has a node, and another one is there. *)
Definition noded (m : Mapi.Machine) : Mapi.Machine :=
  let s := Mapi.Status m in
  Mapi.set_Status (Mapi.MkMachineStatus (Some "worker-0") (Mapi.LastUpdated s) (Mapi.ErrorReason s)
    (Mapi.ErrorMessage s) (Mapi.ProviderStatus s) (Mapi.Addresses s) (Mapi.Phase s)
    (Mapi.Conditions s)) m.
Definition two_nodes : tenant :=
  set_nodes <["worker-1" := Core.MkNode Meta.empty "" []]>
    (tenant_with (noded (deleted (provisioning with_finalizer)))).

Example nodes_spared_example :
  let t' := (reconcile_example (two_nodes, empty_server)).2.1 in
  (bool_decide (node_at t' "worker-0" = None), bool_decide (is_Some (node_at t' "worker-1"))) =
  (true, true).
Proof. vm_compute. reflexivity. Qed.

Lemma nodes_spared_witness :
  let safe : tenant * server → Prop := λ w',
    (∀ node, (true = false ∨ Some "worker-0" ≠ Some node) →
       node_at w'.1 node = node_at two_nodes node) ∧
    infra_namespace w'.1 = infra_namespace two_nodes in
  wp (Reconcile (Some (provider example_actuator)) machine_ns "worker-0")
    (λ _, safe) (λ _, safe) (two_nodes, empty_server).
Proof.
  apply (nodes_spared example_actuator machine_ns "worker-0" two_nodes empty_server
           (noded (deleted (provisioning with_finalizer)))). vm_compute. reflexivity.
Defined.
