(* ===== verification/Isolation.v ===== *)
(** * Machines do not see each other

    A reconciliation of one machine, whatever it returns and even when it
    panics, leaves every other machine alone: the stored object in the tenant
    cluster, and the virtual machine, its instance and its ignition secret in
    the infra cluster. *)

From S2P Require Import Prelude GoStd GoErrors Json ApiTypes ProviderConfig TenantCluster.
From S2P Require Import UserData MachineScope InfraCluster InfraServer Kubevirt Actuator.
From S2P Require Import Conditions NodeUpdate MachineController TenantServer MachineLifecycle.
From Stdlib Require Import Ascii.
#[local] Open Scope Z_scope.

(** ** Requests reach the object they name

    The API server answers a request with the object the request names, and
    an update changes no other. *)
Definition same_object (m m' : Mapi.Machine) : Prop :=
  Mapi.GetNamespace m' = Mapi.GetNamespace m ∧ Mapi.GetName m' = Mapi.GetName m.

Definition machines_but {TW} `{!TenantView (TW:=TW)} (ns name : string) (t t' : TW) : Prop :=
  ∀ ns' name', (ns', name') ≠ (ns, name) → machine_at t' ns' name' = machine_at t ns' name'.

Class Addressed TW `{!TenantApi TW, !NodeApi TW, !MachineApi TW, !TenantView (TW:=TW)} := {
  patch_addressed origin m (t : TW) :
    wp (runtime_Patch origin) (λ _ mt', same_object m mt'.1) no_panic (m, t);
  status_patch_addressed origin m (t : TW) :
    wp (runtime_Status_Patch origin) (λ _ mt', same_object m mt'.1) no_panic (m, t);
  update_addressed m (t : TW) :
    wp machine_Update
      (λ _ mt', same_object m mt'.1 ∧
                machines_but (Mapi.GetNamespace m) (Mapi.GetName m) t mt'.2) no_panic (m, t)
}.

(** ** Computations that keep to themselves *)
Section isolated.
Context {TW IW : Type} `{!TenantApi TW, !EventRecorder TW, !NodeApi TW, !MachineApi TW,
  !StatusConverter, !TenantView (TW:=TW), !TenantLaws (TW:=TW), !EventLaws TW,
  !MachineLaws (TW:=TW), !Addressed TW, !YamlLib}
  `{!InfraCluster.Client IW, !Resolver IW, !InfraCluster.ClientView (IW:=IW),
    !InfraCluster.ClientLaws (IW:=IW), !ResolverLaws IW}.
Context (a : actuator) (ns name : string).
Implicit Types (m : Mapi.Machine) (t : TW) (i : IW).
Abbreviation world := (Actuator.world TW IW).

(** The objects of the infra cluster that are not the machine's. *)
Definition infra_but i i' : Prop :=
  let infra := a_infraNamespace a in
  (∀ ns' n, (ns', n) ≠ (infra, name) → vm_at i' ns' n = vm_at i ns' n) ∧
  (∀ ns' n, vmi_at i' ns' n = vmi_at i ns' n) ∧
  (∀ ns' n, (ns', n) ≠ (infra, buildIgnitionSecretName name) →
     isecret_at i' ns' n = isecret_at i ns' n).

Definition apart (w w' : TW * IW) : Prop := machines_but ns name w.1 w'.1 ∧ infra_but w.2 w'.2.

#[export] Instance apart_preorder : PreOrder apart.
Proof.
  split; [done|]. intros w1 w2 w3 (M & V & I & S) (M' & V' & I' & S').
  split; [|split_and!]; intros ns' n; intros; by rewrite ?M', ?V', ?I', ?S', ?M, ?V, ?I, ?S.
Qed.

(** The machine in hand is the one the reconciliation is about. *)
Definition own m : Prop := Mapi.GetNamespace m = ns ∧ Mapi.GetName m = name.

Definition isolated {A} (c : Go world A) : Prop :=
  ∀ w, own w.1 → wp c (λ _ w', own w'.1 ∧ apart w.2 w'.2) (λ _ w', apart w.2 w'.2) w.

Lemma isolated_ret {A} (x : A) : isolated (mret x).
Proof. by intros w Hw. Qed.

Lemma isolated_bind {A B} (c : Go world A) (f : A → Go world B) :
  isolated c → (∀ x, isolated (f x)) → isolated (c ≫= f).
Proof.
  intros Hc Hf w Hw. apply wp_bind. eapply wp_mono; [by apply Hc| |done].
  intros x w1 [Hw1 Ha1]. eapply wp_mono; [by apply Hf|..].
  - intros y w2 [Hw2 Ha2]. split; [done|by etrans].
  - intros s w2 Ha2. by etrans.
Qed.

Lemma isolated_the_machine : isolated (the_machine : Go world Mapi.Machine).
Proof. intros w Hw. by apply wp_the_machine. Qed.

(** What is read of the machine is its own. *)
Lemma isolated_on_machine {B} (f : Mapi.Machine → Go world B) :
  (∀ m, own m → isolated (f m)) → isolated (the_machine ≫= f).
Proof. intros Hf w Hw. apply wp_bind, wp_the_machine. by apply Hf. Qed.

Lemma isolated_lift {A} (o : outcome A) : isolated (go_lift o).
Proof. intros w Hw. apply wp_lift. by destruct o. Qed.

Lemma isolated_panic {A} s : isolated (go_panic s : Go world A).
Proof. by intros w Hw. Qed.

Lemma isolated_in_tenant {A} (c : Go TW A) : quiet c → isolated (in_tenant c : Go world A).
Proof.
  intros Hc w Hw. apply wp_in_tenant; [done|]. intros x t' Ht'. split; [done|].
  split; [by intros ns' n _|done].
Qed.

Lemma isolated_change f : (∀ m, same_object m (f m)) → isolated (change_machine f : Go world unit).
Proof.
  intros Hf [m [t i]] [Hns Hn]. unfold change_machine. do 2 go_step. split; [|done].
  destruct (Hf m) as [Hns' Hn']. cbn [fst] in *. split; congruence.
Qed.

(** *** Requests *)
Lemma isolated_request {A} (c : Go (Mapi.Machine * TW) A) :
  (∀ m t, own m → wp c (λ _ mt', same_object m mt'.1 ∧ machines_but ns name t mt'.2) no_panic (m, t)) →
  isolated (on_tenant c : Go world A).
Proof.
  intros Hc [m [t i]] [Hns Hn]. unfold on_tenant. go_step. cbn [fst snd] in *.
  eapply wp_mono; [by apply Hc| |done]. intros x [m' t'] [[Hns' Hn'] Ht]. cbn [fst snd] in *.
  split; [split; congruence|by split].
Qed.

Lemma patch_but {r} applicable result m t (m' : Mapi.Machine) t' :
  own m → patch_post applicable result m t r (m', t') → machines_but ns name t t'.
Proof. intros [Hns Hn] [[Hm _] _]. by rewrite Hns, Hn in Hm. Qed.

Lemma isolated_Patch origin : isolated (on_tenant (runtime_Patch origin)).
Proof.
  apply isolated_request. intros m t Hm.
  eapply wp_mono; [apply wp_and; [apply (patch_addressed origin)|apply (api_patch origin)]
                  | |by intros ? ? []].
  intros r [m' t'] [Hs Hp]. split; [done|]. by eapply patch_but.
Qed.

Lemma isolated_Status_Patch origin : isolated (on_tenant (runtime_Status_Patch origin)).
Proof.
  apply isolated_request. intros m t Hm.
  eapply wp_mono; [apply wp_and; [apply (status_patch_addressed origin)|apply (api_status_patch origin)]
                  | |by intros ? ? []].
  intros r [m' t'] [Hs Hp]. split; [done|]. by eapply patch_but.
Qed.

Lemma isolated_Update : isolated (on_tenant machine_Update).
Proof.
  apply isolated_request. intros m t [Hns Hn].
  eapply wp_mono; [apply update_addressed|by rewrite Hns, Hn|done].
Qed.
End isolated.
#[export] Hint Resolve isolated_ret isolated_the_machine isolated_lift isolated_panic
  isolated_in_tenant : go.
#[export] Hint Extern 1 (isolated _ _ _ (on_tenant _)) =>
  first [apply isolated_Patch|apply isolated_Status_Patch|apply isolated_Update] : go.
#[export] Hint Extern 1 (same_object _ _) => done : go.
#[export] Hint Extern 1 (isolated _ _ _ (change_machine _)) => apply isolated_change : go.

(** Through a computation, call by call. *)
Ltac isolate :=
  repeat first
    [ progress (intros; cbv beta zeta)
    | solve [auto with go]
    | apply isolated_on_machine
    | apply isolated_bind
    | match goal with |- isolated _ _ _ (match ?x with _ => _ end) => destruct x end ].

(** ** The actuator *)
Section actuator.
Context {TW IW : Type} `{!TenantApi TW, !EventRecorder TW, !NodeApi TW, !MachineApi TW,
  !StatusConverter, !TenantView (TW:=TW), !TenantLaws (TW:=TW), !EventLaws TW,
  !MachineLaws (TW:=TW), !Addressed TW, !YamlLib}
  `{!InfraCluster.Client IW, !Resolver IW, !InfraCluster.ClientView (IW:=IW),
    !InfraCluster.ClientLaws (IW:=IW), !ResolverLaws IW}.
Context (a : actuator) (ns name : string).
Implicit Types (m : Mapi.Machine) (t : TW) (i : IW).
Abbreviation world := (Actuator.world TW IW).
Abbreviation isolated := (isolated (TW:=TW) (IW:=IW) a ns name).
Abbreviation infra_but := (infra_but a name).

Lemma isolated_failed action e : isolated (failed action e).
Proof. unfold failed, handleMachineError. isolate. Qed.

Lemma isolated_patchMachine origin : isolated (on_tenant (patchMachine origin)).
Proof.
  assert (∀ m t r m' t' applicable result, own ns name m → same_object m m' →
    patch_post applicable result m t r (m', t') → own ns name m' ∧ machines_but ns name t t') as Hstep.
  { intros m t r m' t' ap res [Hns Hn] [Hns' Hn'] Hp. split; [split; congruence|].
    by eapply patch_but. }
  apply isolated_request. intros m t Hm. unfold patchMachine. do 3 go_step. simpl. go_step.
  eapply wp_mono; [apply wp_and; [apply (patch_addressed origin)|apply (api_patch origin)]
                  | |by intros ? ? []].
  intros r [m1 t1] [Hs1 Hp1]. destruct (Hstep _ _ _ _ _ _ _ Hm Hs1 Hp1) as [Hm1 Ht1].
  destruct r as [e|]; cbv iota; [by go_step|]. do 3 go_step. simpl. go_step.
  eapply wp_mono; [apply wp_and; [apply (status_patch_addressed origin)|apply (api_status_patch origin)]
                  | |by intros ? ? []].
  intros r [m2 t2] [Hs2 Hp2]. destruct (Hstep _ _ _ _ _ _ _ (Hm1 : own ns name (Mapi.set_Status (Mapi.Status m) m1)) Hs2 Hp2)
    as [[Hns2 Hn2] Ht2].
  cbn [fst snd] in *. destruct Hm as [Hns Hn]. go_step. split; [split; cbn [fst]; congruence|].
  intros ns' n Hne. cbn [snd]. by rewrite Ht2, Ht1.
Qed.

(** A call of the manager, by what it does to both. *)
Lemma isolated_manager {A} (c : Go (Mapi.Machine * IW) A) :
  (∀ m i, own ns name m →
     wp c (λ _ mi', same_object m mi'.1 ∧ infra_but i mi'.2) (λ _ mi', infra_but i mi'.2) (m, i)) →
  isolated (on_infra c : Go world A).
Proof.
  intros Hc [m [t i]] [Hns Hn]. unfold on_infra. go_step. cbn [fst snd] in *.
  eapply wp_mono; [by apply Hc|..].
  - intros x [m' i'] [[Hns' Hn'] Hi]. cbn [fst snd] in *. split; [split; congruence|by split].
  - intros s [m' i'] Hi. by split.
Qed.

Lemma same_but i i' : InfraCluster.same i i' → infra_but i i'.
Proof. intros (V & I & S). split_and!; intros ns' n; intros; by rewrite ?V, ?I, ?S. Qed.

Lemma becomes_but o i i' : vm_becomes (a_infraNamespace a) name o i i' → infra_but i i'.
Proof. intros (_ & V & I & S). by split_and!; intros ns' n; intros; rewrite ?V, ?I, ?S by done. Qed.

Lemma effect_but full i i' :
  create_effect (a_infraNamespace a) (buildIgnitionSecretName name) name full i i' → infra_but i i'.
Proof. by intros (V & I & S & _). Qed.

Lemma secret_but sc m full i i' :
  Mapi.GetName m = name →
  secret_created (a_infraNamespace a) (CreateIgnitionSecretFromMachine sc m full) i i' →
  infra_but i i'.
Proof.
  intros Hn (_ & s & _ & _ & S & V & I).
  change (Meta.Name _) with (buildIgnitionSecretName (Mapi.GetName m)) in S. rewrite Hn in S.
  by split_and!; intros ns' n; intros; rewrite ?V, ?I, ?S by done.
Qed.

Lemma marked_but i i' : deleted_or_marked (a_infraNamespace a) name i i' → infra_but i i'.
Proof. intros [Hb|(_ & vm & Hb & _)]; by eapply becomes_but. Qed.

Lemma updated_but new i i' : vm_updated (a_infraNamespace a) name new i i' → infra_but i i'.
Proof. intros (old & _ & _ & _ & [Hb|[_ Hb]] & _); by eapply becomes_but. Qed.

Lemma infra_but_refl i : infra_but i i.
Proof. done. Qed.

#[local] Hint Resolve same_but effect_but secret_but marked_but updated_but infra_but_refl : go.

Lemma isolated_Create sc userData :
  infraNamespace sc = a_infraNamespace a → isolated (on_infra (manager.Create sc userData)).
Proof.
  intros Hns. apply isolated_manager. intros m i [_ Hn].
  eapply wp_mono; [apply Create_spec|..]; rewrite ?Hns, ?Hn.
  - intros [ready err] [m' i'] (full & _ & Heff & Hr). split; [|by eapply effect_but].
    destruct err as [e|]; [by destruct Hr as [_ ->]|].
    by destruct Hr as (_ & _ & _ & vm & ad & _ & -> & _).
  - intros s [m' i'] [_ [Hs|(full & _ & Hs)]]; [by apply same_but|]. by eapply secret_but.
Qed.

Lemma isolated_manager_Update sc :
  infraNamespace sc = a_infraNamespace a → isolated (on_infra (manager.Update sc)).
Proof.
  intros Hns. apply isolated_manager. intros m i [_ Hn].
  eapply wp_mono; [apply Update_spec|..]; rewrite ?Hns, ?Hn.
  - intros [[u ready] err] [m' i'] Hr. destruct err as [e|].
    + destruct Hr as (_ & -> & [Hs|[new Hu]]); (split; [done|]); eauto with go.
    + destruct Hr as (old & new & ad & _ & Hu & _ & _ & -> & _). split; eauto with go.
  - by intros s mi ->.
Qed.

Lemma isolated_Delete sc :
  infraNamespace sc = a_infraNamespace a → isolated (on_infra (manager.Delete sc)).
Proof.
  intros Hns. apply isolated_manager. intros m i [_ Hn].
  eapply wp_mono; [apply Delete_spec|..]; rewrite ?Hns, ?Hn.
  - intros err [m' i'] [-> Hr]. split; [done|]. cbn [snd].
    destruct err as [e|]; [destruct Hr as [_ [Hs|Hd]]|destruct Hr as [[_ ->]|[_ Hd]]]; eauto with go.
  - by intros s mi [-> _].
Qed.

Lemma isolated_getUserData sc m : isolated (in_tenant (getUserData sc m)).
Proof.
  intros [m0 [t i]] Hw. unfold in_tenant. go_step. cbn [fst snd].
  eapply wp_mono; [apply getUserData_spec|..]; [by intros r t' [-> _]|by intros s t' [-> _]].
Qed.

Lemma isolated_Exists n : isolated (in_infra (manager.Exists n (a_infraNamespace a))).
Proof.
  intros [m [t i]] Hw. unfold in_infra. go_step. cbn [fst snd].
  eapply wp_mono; [apply Exists_spec| |done]. by intros [b err] i' [-> _].
Qed.
#[local] Hint Resolve isolated_failed isolated_patchMachine isolated_Create isolated_manager_Update
  isolated_Delete isolated_getUserData isolated_Exists : go.

(** The scope is the machine's, in the actuator's namespace. *)
Lemma isolated_scope {A} m (f : machineScope → Go world A) (g : goerror → Go world A) :
  (∀ sc, infraNamespace sc = a_infraNamespace a → isolated (f sc)) → (∀ e, isolated (g e)) →
  isolated (match createMachineScope a m with inl sc => f sc | inr e => g e end).
Proof.
  intros Hf Hg. destruct (createMachineScope a m) as [sc|e] eqn:Hsc; [|done].
  apply Hf. by destruct (createMachineScope_scope a m sc Hsc).
Qed.

Lemma provider_isolated :
  isolated (act_Create (provider a)) ∧ isolated (act_Update (provider a)) ∧
  isolated (act_Delete (provider a)) ∧ isolated (act_Exists (provider a)).
Proof.
  cbn [act_Create act_Update act_Delete act_Exists provider].
  unfold Actuator.Create, Actuator.Update, Actuator.Delete, Actuator.Exists.
  cbn [vm_Create vm_Update vm_Delete vm_Exists manager.manager].
  split_and!; (apply isolated_on_machine; intros m Hm; try apply isolated_scope); intros; isolate.
Qed.
End actuator.

(** ** The controller *)
Section controller.
Context {TW IW : Type} `{!TenantApi TW, !EventRecorder TW, !NodeApi TW, !MachineApi TW,
  !StatusConverter, !TenantView (TW:=TW), !TenantLaws (TW:=TW), !EventLaws TW,
  !MachineLaws (TW:=TW), !Addressed TW, !YamlLib}
  `{!InfraCluster.Client IW, !Resolver IW, !InfraCluster.ClientView (IW:=IW),
    !InfraCluster.ClientLaws (IW:=IW), !ResolverLaws IW}.
Context (a : actuator) (ns name : string).
Implicit Types (m : Mapi.Machine) (t : TW) (i : IW).
Abbreviation isolated := (isolated (TW:=TW) (IW:=IW) a ns name).
Abbreviation apart := (apart a ns name).

Lemma isolated_call {A} (method : MachineActuator (TW * IW) → Go (Actuator.world TW IW) A) :
  isolated (method (provider a)) → isolated (call (Some (provider a)) method).
Proof. done. Qed.

Lemma isolated_updateStatus ph cause orig : isolated (updateStatus ph cause orig).
Proof. unfold updateStatus, patchFailedMachineInstanceAnnotation, patch_status. isolate.
Qed.

Lemma isolated_set_condition c : isolated (set_condition_now c).
Proof. unfold set_condition_now. isolate. Qed.

Lemma isolated_update_finalizers f : isolated (update_finalizers f).
Proof. unfold update_finalizers. isolate. Qed.

Lemma isolated_drainNode n : isolated (drainNode n).
Proof. unfold drainNode. isolate. Qed.

Lemma isolated_deleteNode n : isolated (deleteNode n).
Proof. unfold deleteNode. isolate. Qed.

#[local] Hint Resolve isolated_call isolated_updateStatus isolated_set_condition
  isolated_update_finalizers isolated_drainNode isolated_deleteNode : go.
#[local] Hint Extern 1 (isolated (act_Create _)) => apply provider_isolated : go.
#[local] Hint Extern 1 (isolated (act_Update _)) => apply provider_isolated : go.
#[local] Hint Extern 1 (isolated (act_Delete _)) => apply provider_isolated : go.
#[local] Hint Extern 1 (isolated (act_Exists _)) => apply provider_isolated : go.

Lemma isolated_reconcile_machine : isolated (reconcile_machine (Some (provider a))).
Proof.
  unfold reconcile_machine, reconcile_deleted, reconcile_delete, reconcile_present, reconcile_exists,
    reconcile_missing, updateStatus_same.
  isolate.
Qed.
End controller.

(** ** The property *)
Section properties.
Context {TW IW : Type} `{!TenantApi TW, !EventRecorder TW, !NodeApi TW, !MachineApi TW,
  !StatusConverter, !TenantView (TW:=TW), !TenantLaws (TW:=TW), !EventLaws TW,
  !MachineLaws (TW:=TW), !YamlLib}
  `{!InfraCluster.Client IW, !Resolver IW, !InfraCluster.ClientView (IW:=IW),
    !InfraCluster.ClientLaws (IW:=IW), !ResolverLaws IW}.
Context (a : actuator).
Implicit Types (t : TW) (i : IW) (ns name : string).

(** What there is of a machine in the two clusters. *)
Definition belongings ns name (w : TW * IW) :
    option Mapi.Machine * option KV.VirtualMachine * option KV.VirtualMachineInstance *
    option Core.Secret :=
  (machine_at w.1 ns name, vm_at w.2 (a_infraNamespace a) name,
   vmi_at w.2 (a_infraNamespace a) name,
   isecret_at w.2 (a_infraNamespace a) (buildIgnitionSecretName name)).

Lemma secret_name_inj name name' :
  buildIgnitionSecretName name' = buildIgnitionSecretName name → name' = name.
Proof. unfold buildIgnitionSecretName. by intros ?%append_inj_l. Qed.

Lemma apart_belongings ns name ns' name' w w' :
  apart a ns name w w' → name' ≠ name → belongings ns' name' w' = belongings ns' name' w.
Proof.
  intros (M & V & I & S) Hne. unfold belongings.
  rewrite M, V, I, S by (try intros ?%(f_equal snd)%secret_name_inj; congruence). done.
Qed.

Lemma isolated_Reconcile ns name t i `{!Addressed TW} :
  wp (Reconcile (Some (provider a)) ns name) (λ _, apart a ns name (t, i))
    (λ _, apart a ns name (t, i)) (t, i).
Proof.
  unfold Reconcile. do 2 go_step. go_call machine_Get_spec. intros [m|e] t' [-> Hm].
  - apply wp_with_machine.
    eapply wp_mono; [apply (isolated_reconcile_machine a ns name (m, (t, i)));
                     by apply (machine_at_named ns name t m)|..].
    + by intros r w' [_ ?].
    + by intros s w' ?.
  - by destruct (IsNotFound e); go_step.
Qed.

(** C5: Machines do not see each other: a reconciliation of one machine,
    whatever it returns, and also when it panics, writes no other machine of
    the tenant cluster, and in the infra cluster nothing but its own virtual
    machine and ignition secret: what there is of a machine of another name is
    as it was. *)
Theorem machines_isolated ns name t i (Haddressed : Addressed TW) :
  let safe w' :=
    apart a ns name (t, i) w' ∧
    ∀ ns' name', name' ≠ name → belongings ns' name' w' = belongings ns' name' (t, i) in
  wp (Reconcile (Some (provider a)) ns name) (λ _, safe) (λ _, safe) (t, i).
Proof.
  intros safe. eapply wp_mono; [by apply isolated_Reconcile|..]; intros r w' Ha; (split; [done|]);
    intros ns' name'; by apply apart_belongings with ns.
Qed.
End properties.

(** ** On the reference clusters *)
#[export] Instance tenant_addressed : Addressed tenant.
Proof.
  assert (∀ origin apply m t,
    (∀ m st, Mapi.GetNamespace st = Mapi.GetNamespace m → Mapi.GetName st = Mapi.GetName m →
             same_object m (apply m st)) →
    wp (tenant_patch origin apply) (λ _ mt', same_object m mt'.1) no_panic (m, t)) as Hpatch.
  { intros origin apply m t Ha. unfold wp, tenant_patch.
    destruct (stored_machine t _ _) as [st|] eqn:Hst; [|done]. case_bool_decide; [|done].
    destruct (stored_machine_named _ _ _ _ Hst). by apply Ha. }
  split.
  - intros origin m t. apply Hpatch. intros m' st Hns Hn. by apply merge_main_named.
  - intros origin m t. by apply Hpatch.
  - intros m t. unfold wp. simpl. unfold tenant_update.
    destruct (stored_machine t _ _) as [st|] eqn:Hst; [|done].
    destruct (bool_decide _ && _); (split; [done|]); intros ns' n Hne; cbn [snd].
    + unfold machine_at; simpl. unfold stored_machine. simpl. by rewrite lookup_delete_ne by congruence.
    + by apply stored_machine_insert_ne.
Qed.

(** Two machines; the first one is reconciled, and its virtual machine
    created. *)
Definition two_machines : tenant :=
  set_machines <[(machine_ns, "worker-1") := example_machine]>
    (tenant_with (provisioning with_finalizer)).

Example machines_isolated_example :
  let w' := (reconcile_example (two_machines, empty_server)).2 in
  (bool_decide (is_Some (vm_at w'.2 "infra" "worker-0")),
   bool_decide (machine_at w'.1 machine_ns "worker-1" = machine_at two_machines machine_ns "worker-1"))
  = (true, true).
Proof. vm_compute. reflexivity. Qed.

Lemma machines_isolated_witness :
  let safe w' :=
    apart example_actuator machine_ns "worker-0" (two_machines, empty_server) w' ∧
    ∀ ns' name', name' ≠ "worker-0" →
      belongings example_actuator ns' name' w' =
      belongings example_actuator ns' name' (two_machines, empty_server) in
  wp (Reconcile (Some (provider example_actuator)) machine_ns "worker-0") (λ _, safe) (λ _, safe)
    (two_machines, empty_server).
Proof.
  apply (machines_isolated example_actuator machine_ns "worker-0" two_machines empty_server
           tenant_addressed).
Defined.
