(* ===== verification/Lifecycle.v ===== *)
(** * The life of a machine, abstractly

    What the machine controller with the provider promises about one machine
    and its virtual machine, as a small transition system, and the proof that
    every run refines it: any sequence of reconciliations, with any outcome,
    between which others act on the clusters. *)

From S2P Require Import Prelude GoStd GoErrors Json ApiTypes ProviderConfig TenantCluster.
From S2P Require Import UserData MachineScope InfraCluster InfraServer Kubevirt Actuator.
From S2P Require Import Conditions NodeUpdate MachineController TenantServer MachineLifecycle.
From Stdlib Require Import Ascii.

(** ** The specification *)

(** Whether the machine has the finalizer, and whether it has a virtual
    machine. *)
Record life := MkLife { l_finalizer : bool; l_vm : bool }.

(** What a reconciliation does, of a machine that is being deleted or not, and
    whose virtual machine was marked for deletion or not when it began: the
    virtual machine is created behind the finalizer, deleted only with the
    machine or when it was marked, and the finalizer is given up only without
    it. *)
Inductive life_step (deleting marked : bool) : life → life → Prop :=
  | LFinalize vm : deleting = false → life_step deleting marked (MkLife false vm) (MkLife true vm)
  | LCreate : deleting = false → life_step deleting marked (MkLife true false) (MkLife true true)
  | LDelete : deleting = true → life_step deleting marked (MkLife true true) (MkLife true false)
  | LPurge : deleting = false → marked = true →
      life_step deleting marked (MkLife true true) (MkLife true false)
  | LRelease : deleting = true →
      life_step deleting marked (MkLife true false) (MkLife false false).
#[export] Hint Constructors life_step : go.

(** What others may do: they can set the finalizer, not remove it, and remove
    the virtual machine, not create it. *)
Inductive outside_step : life → life → Prop :=
  | OFinalize vm : outside_step (MkLife false vm) (MkLife true vm)
  | ODelete f : outside_step (MkLife f true) (MkLife f false).
#[export] Hint Constructors outside_step : go.

Inductive event := Reconciled (deleting marked : bool) | Outside.

(** An event takes any number of these steps. *)
Definition life_event (e : event) : life → life → Prop :=
  match e with
  | Reconciled deleting marked => rtc (life_step deleting marked)
  | Outside => rtc outside_step
  end.

(** A run: the events in their order. *)
Inductive runs {S} (step : event → S → S → Prop) : list event → S → S → Prop :=
  | runs_nil s : runs step [] s s
  | runs_cons e es s1 s2 s3 : step e s1 s2 → runs step es s2 s3 → runs step (e :: es) s1 s3.

(** A forward simulation, event by event. *)
Lemma runs_refine {S S'} (step : event → S → S → Prop) (step' : event → S' → S' → Prop)
    (abs : S → S') es s1 s2 :
  (∀ e s s', step e s s' → step' e (abs s) (abs s')) →
  runs step es s1 s2 → runs step' es (abs s1) (abs s2).
Proof. intros Hsim. induction 1; econstructor; eauto. Qed.

(** ** What holds of the specification *)
Definition sheltered (s : life) : Prop := l_vm s = true → l_finalizer s = true.

Lemma rtc_preserves {S} (R : S → S → Prop) (P : S → Prop) s s' :
  (∀ s s', R s s' → P s → P s') → rtc R s s' → P s → P s'.
Proof. intros HR. induction 1; eauto. Qed.

Lemma life_sheltered es s s' : runs life_event es s s' → sheltered s → sheltered s'.
Proof.
  induction 1 as [|[d k|] es s1 s2 s3 Hs _ IH]; [done|..]; intros Hsh; apply IH;
    (eapply rtc_preserves, Hsh; [|exact Hs]); unfold sheltered;
    by inversion 1; subst; simpl in *; auto.
Qed.

(** ** The runs of the controller *)
Section runs.
Context {TW IW : Type} `{!TenantApi TW, !EventRecorder TW, !NodeApi TW, !MachineApi TW,
  !StatusConverter, !TenantView (TW:=TW), !TenantLaws (TW:=TW), !EventLaws TW,
  !MachineLaws (TW:=TW), !YamlLib}
  `{!InfraCluster.Client IW, !Resolver IW, !InfraCluster.ClientView (IW:=IW),
    !InfraCluster.ClientLaws (IW:=IW), !ResolverLaws IW}.
Context (a : actuator) (ns name : string).
Implicit Types (m : Mapi.Machine) (t : TW) (i : IW).
Abbreviation Reconcile := (Reconcile (Some (provider a)) ns name).

Definition stored_finalizer_b t : bool :=
  match machine_at t ns name with
  | Some m => bool_decide (Mapi.MachineFinalizer ∈ finalizers m)
  | None => false
  end.
Definition has_vm_b i : bool := bool_decide (is_Some (vm_at i (a_infraNamespace a) name)).
Definition life_of (w : TW * IW) : life := MkLife (stored_finalizer_b w.1) (has_vm_b w.2).

Definition deleting t : bool :=
  match machine_at t ns name with Some m => under_deletion m | None => false end.
Definition marked_b i : bool :=
  match vm_at i (a_infraNamespace a) name with
  | Some vm => bool_decide (Meta.DeletionTimestamp (KV.VMMeta vm) ≠ None)
  | None => false
  end.

(** A reconciliation that returned or panicked, or an action of others, who
    do not remove the finalizer and do not create the virtual machine. *)
Inductive controller_event : event → TW * IW → TW * IW → Prop :=
  | CReconcile t i o w' : Reconcile (t, i) = (o, w') →
      controller_event (Reconciled (deleting t) (marked_b i)) (t, i) w'
  | COutside t i t' i' :
      (stored_finalizer_b t = true → stored_finalizer_b t' = true) →
      (has_vm_b i' = true → has_vm_b i = true) →
      controller_event Outside (t, i) (t', i').

(** Without the machine nothing happens. *)
Lemma absent_untouched t i :
  machine_at t ns name = None → wp Reconcile (λ _ w', w' = (t, i)) no_panic (t, i).
Proof.
  intros Hat. unfold MachineController.Reconcile. do 2 go_step. go_call machine_Get_spec.
  intros [m'|e] t' [-> Hr]; [by rewrite Hat in Hr|]. destruct (IsNotFound e); by go_step.
Qed.

Lemma has_vm_iff i : has_vm_b i = true ↔ provider_instance a i name.
Proof. apply bool_decide_eq_true. Qed.

Lemma stored_finalizer_iff t :
  stored_finalizer_b t = true ↔
  ∃ l, stored_finalizers ns name t = Some l ∧ Mapi.MachineFinalizer ∈ l.
Proof.
  unfold stored_finalizer_b, stored_finalizers. destruct (machine_at t ns name) as [m|]; simpl.
  - rewrite bool_decide_eq_true. split; [by eexists|]. by intros (l & [= <-] & ?).
  - by split; [|intros (l & ? & _)].
Qed.

Lemma stored_finalizer_false t l :
  stored_finalizers ns name t = Some l → Mapi.MachineFinalizer ∉ l → stored_finalizer_b t = false.
Proof.
  intros Hl Hin. destruct (stored_finalizer_b t) eqn:Hb; [|done].
  apply stored_finalizer_iff in Hb as (l' & Hl' & ?). congruence.
Qed.

Lemma finalizer_stored m t :
  machine_at t ns name = Some m →
  stored_finalizer_b t = bool_decide (Mapi.MachineFinalizer ∈ finalizers m).
Proof. intros Hat. unfold stored_finalizer_b. by rewrite Hat. Qed.

Lemma marked_doomed i : provider_doomed a i name → marked_b i = true.
Proof. intros (vm & Hvm & Hm). unfold marked_b. rewrite Hvm. by apply bool_decide_eq_true. Qed.

(** The virtual machine is as it was, deleted as that is due, created as that
    is due, or purged. *)
Lemma vm_step m i i' :
  instances_step (provider_instance a) (provider_doomed a) name m i i' →
  has_vm_b i' = has_vm_b i ∨
  (deletion_due m ∧ has_vm_b i = true ∧ has_vm_b i' = false) ∨
  (creation_due m ∧ has_vm_b i = false ∧ has_vm_b i' = true) ∨
  (update_due m ∧ marked_b i = true ∧ has_vm_b i = true ∧ has_vm_b i' = false).
Proof.
  assert (∀ i, (provider_instance a i name ∧ has_vm_b i = true) ∨
               (¬ provider_instance a i name ∧ has_vm_b i = false)) as Hb.
  { intros j. unfold has_vm_b. by case_bool_decide; [left|right]. }
  intros [Hs|[[Hdue [_ Hr]]|[[Hdue [_ Ha]]|(Hdue & Hm%marked_doomed & [_ Hr])]]];
    [specialize (Hs name)|..];
    destruct (Hb i) as [[? ->]|[? ->]], (Hb i') as [[? ->]|[? ->]]; tauto.
Qed.

(** The finalizer is as it was, given up without a virtual machine, or
    added. *)
Lemma finalizer_step m t t' i' :
  machine_at t ns name = Some m →
  finalizers_step (provider_instance a) ns name m t' i' →
  stored_finalizer_b t' = stored_finalizer_b t ∨
  (under_deletion m = true ∧ has_vm_b i' = false ∧ stored_finalizer_b t' = false) ∨
  (under_deletion m = false ∧ stored_finalizer_b t = false ∧ stored_finalizer_b t' = true).
Proof.
  intros Hat [Hkept|[(Hud & Hno & Hgone)|(Hud & Hnot & Hadd)]].
  - left. rewrite (finalizer_stored m t Hat). case_bool_decide.
    + apply stored_finalizer_iff. by eexists.
    + by eapply stored_finalizer_false.
  - right; left. split_and!; [done|by apply bool_decide_eq_false|].
    destruct (stored_finalizer_b t') eqn:Hb; [|done].
    apply stored_finalizer_iff in Hb as (l & Hl & Hin). rewrite Hl in Hgone. subst l.
    by apply elem_of_Filter in Hin as [_ ?].
  - right; right. rewrite (finalizer_stored m t Hat). split_and!; [done|by apply bool_decide_eq_false|].
    apply stored_finalizer_iff. eexists. split; [done|]. apply list_elem_of_In, in_or_app. right; by left.
Qed.

Lemma reconciled_life m t i t' i' :
  machine_at t ns name = Some m →
  finalizers_step (provider_instance a) ns name m t' i' →
  instances_step (provider_instance a) (provider_doomed a) name m i i' →
  rtc (life_step (under_deletion m) (marked_b i)) (life_of (t, i)) (life_of (t', i')).
Proof.
  intros Hat Hfin Hinst. unfold life_of. cbn [fst snd].
  assert (Mapi.MachineFinalizer ∈ finalizers m → stored_finalizer_b t = true) as Hhas.
  { intros ?. rewrite (finalizer_stored m t Hat). by apply bool_decide_eq_true. }
  apply vm_step in Hinst as [Hvm|[([_ Hud Hin] & Hv & Hv')|[([_ Hud Hin _ _ _] & Hv & Hv')
                                 |([_ Hud Hin] & Hk & Hv & Hv')]]];
    apply (finalizer_step m t t' i' Hat) in Hfin as [Hf|[(Hud' & Hno & Hf)|(Hud' & Hf & Hf')]];
    try (apply Hhas in Hin); try congruence.
  - by rewrite Hvm, Hf.
  - rewrite Hno in *. rewrite <-Hvm, Hf. destruct (stored_finalizer_b t); [|done].
    apply rtc_once. auto with go.
  - rewrite Hvm, Hf, Hf'. apply rtc_once. auto with go.
  - rewrite Hf, Hv, Hv', Hin. apply rtc_once. auto with go.
  - rewrite Hf, Hv, Hv', Hin. eapply rtc_l, rtc_once; auto with go.
  - rewrite Hf, Hv, Hv', Hin. apply rtc_once. auto with go.
  - rewrite Hf, Hv, Hv', Hin. apply rtc_once. auto with go.
Qed.

Lemma outside_life t i t' i' :
  (stored_finalizer_b t = true → stored_finalizer_b t' = true) →
  (has_vm_b i' = true → has_vm_b i = true) →
  rtc outside_step (life_of (t, i)) (life_of (t', i')).
Proof.
  intros Hf Hv. unfold life_of. cbn [fst snd].
  trans (MkLife (stored_finalizer_b t') (has_vm_b i)).
  - destruct (stored_finalizer_b t), (stored_finalizer_b t'); try done; [by destruct Hf|].
    apply rtc_once. auto with go.
  - destruct (has_vm_b i), (has_vm_b i'); try done; [|by destruct Hv].
    apply rtc_once. auto with go.
Qed.

Lemma controller_event_life e w w' :
  controller_event e w w' → life_event e (life_of w) (life_of w').
Proof.
  intros [t i o w2 Hrun|t i t' i' Hf Hv]; [|by apply outside_life]. simpl.
  unfold deleting. destruct (machine_at t ns name) as [m|] eqn:Hat.
  - pose proof (request_provider a ns name m t i Hat) as Hwp. unfold wp in Hwp.
    rewrite Hrun in Hwp. destruct w2 as [t' i']. apply reconciled_life; [done|..];
      by destruct o; destruct Hwp as [(? & ? & _) _].
  - pose proof (absent_untouched t i Hat) as Hwp. unfold wp in Hwp. rewrite Hrun in Hwp.
    by destruct o; [subst|].
Qed.
End runs.

(** ** Properties *)
Section properties.
Context {TW IW : Type} `{!TenantApi TW, !EventRecorder TW, !NodeApi TW, !MachineApi TW,
  !StatusConverter, !TenantView (TW:=TW), !TenantLaws (TW:=TW), !EventLaws TW,
  !MachineLaws (TW:=TW), !YamlLib}
  `{!InfraCluster.Client IW, !Resolver IW, !InfraCluster.ClientView (IW:=IW),
    !InfraCluster.ClientLaws (IW:=IW), !ResolverLaws IW}.
Context (a : actuator) (ns name : string).

(** C9: Every run of the controller with the provider refines the life of a
    machine: over any reconciliations, whether they return or panic, and
    anything others do that neither removes the finalizer nor creates the
    virtual machine, the finalizer and the virtual machine change only by the
    steps of the specification, in their order: the machine's virtual machine
    is created behind the finalizer, deleted with the machine only, unless it
    was marked for deletion already, and the finalizer given up without it.  So a run that starts without
    a virtual machine never has one without the finalizer. *)
Theorem lifecycle_refines (es : list event) (w w' : TW * IW)
    (Hrun : runs (controller_event a ns name) es w w') :
  runs life_event es (life_of a ns name w) (life_of a ns name w') ∧
  (sheltered (life_of a ns name w) → sheltered (life_of a ns name w')).
Proof.
  apply (runs_refine _ life_event (life_of a ns name)) in Hrun; [|apply controller_event_life].
  split; [done|]. by eapply life_sheltered.
Qed.
End properties.

(** ** A run on the reference clusters

    The virtual machine is created, the machine deleted by its owner, and the
    controller cleans up. *)
Definition run_created : tenant * server :=
  (reconcile_example (tenant_with (provisioning with_finalizer), empty_server)).2.
Definition run_deleted : tenant * server :=
  (tenant_with (deleted (provisioning with_finalizer)), run_created.2).
Definition run_gone : tenant * server := (reconcile_example run_deleted).2.

Abbreviation example_life := (life_of example_actuator machine_ns "worker-0").

Example run_lives :
  map example_life [(tenant_with (provisioning with_finalizer), empty_server);
                    run_created; run_deleted; run_gone] =
  [MkLife true false; MkLife true true; MkLife true true; MkLife false false].
Proof. vm_compute. reflexivity. Qed.

Lemma example_event w d k :
  deleting machine_ns "worker-0" w.1 = d → marked_b example_actuator "worker-0" w.2 = k →
  controller_event example_actuator machine_ns "worker-0" (Reconciled d k) w
    (reconcile_example w).2.
Proof. destruct w as [t i]. intros <- <-. eapply CReconcile. apply surjective_pairing. Qed.

Lemma lifecycle_refines_witness :
  let w := (tenant_with (provisioning with_finalizer), empty_server) in
  let es := [Reconciled false false; Outside; Reconciled true false] in
  runs life_event es (example_life w) (example_life run_gone) ∧
  (sheltered (example_life w) → sheltered (example_life run_gone)).
Proof.
  apply lifecycle_refines. apply runs_cons with run_created.
  { apply example_event; vm_compute; reflexivity. }
  apply runs_cons with run_deleted.
  { destruct run_created as [t i] eqn:Hw. apply COutside; [intros _; vm_compute; reflexivity|].
    change i with (t, i).2. rewrite <-Hw. intros _. vm_compute. reflexivity. }
  apply runs_cons with run_gone; [|apply runs_nil].
  apply example_event; vm_compute; reflexivity.
Defined.
