(* ===== verification/Liveness.v ===== *)
(** * A deletion comes to its end

    The other files say what holds whatever the clusters answer.  Here they
    answer: while they are up, the calls a deletion makes succeed, or report
    that the object is not there.  A machine under deletion that is reconciled
    often enough while the clusters are up, and whose virtual machine the
    infra cluster removes after it was marked, is released. *)

From S2P Require Import Prelude GoStd GoErrors Json ApiTypes ProviderConfig TenantCluster.
From S2P Require Import UserData MachineScope InfraCluster InfraServer Kubevirt Actuator.
From S2P Require Import Conditions NodeUpdate MachineController TenantServer MachineLifecycle.
From S2P Require Import Lifecycle.
From Stdlib Require Import Ascii.
#[local] Open Scope Z_scope.

(** ** Clusters that answer *)

(** While [up] holds the call returns something in [P], and [up] holds on.
    A write succeeds when it carries the resource version that is stored. *)
Definition answers {W A} (up : W → Prop) (P : A → Prop) (c : Go W A) : Prop :=
  ∀ w, up w → wp c (λ a w', P a ∧ up w') no_panic w.

Definition succeeds (r : option goerror) : Prop := r = None.
(** The object, or that it is not there. *)
Definition answered {A} (r : result A) : Prop :=
  match r with inl _ => True | inr e => IsNotFound e = true end.

Class AnsweringTenant {TW} `{!TenantApi TW, !EventRecorder TW, !NodeApi TW, !MachineApi TW,
    !TenantView (TW:=TW)} (up : TW → Prop) := {
  live_machine_Get ns name : answers up answered (machine_Get ns name);
  live_machine_Update m st t :
    up t → machine_at t (Mapi.GetNamespace m) (Mapi.GetName m) = Some st →
    Meta.ResourceVersion (Mapi.MachineMeta m) = Meta.ResourceVersion (Mapi.MachineMeta st) →
    wp machine_Update (λ r '(_, t'), succeeds r ∧ up t') no_panic (m, t);
  live_Status_Patch origin m st t :
    up t → machine_at t (Mapi.GetNamespace m) (Mapi.GetName m) = Some st →
    Meta.ResourceVersion (Mapi.MachineMeta m) = Meta.ResourceVersion (Mapi.MachineMeta st) →
    wp (runtime_Status_Patch origin) (λ r '(_, t'), succeeds r ∧ up t') no_panic (m, t);
  live_Event m ty r msg : answers up (λ _, True) (Event m ty r msg);
  live_now : answers up (λ _, True) now;
  live_observe_phase ph z : answers up (λ _, True) (observe_phase ph z)
}.

(** The calls on nodes that a deletion makes. *)
Class ReliableTenant {TW} `{!TenantApi TW, !EventRecorder TW, !NodeApi TW, !MachineApi TW,
    !TenantView (TW:=TW)} (up : TW → Prop) := {
  reliable_answering :: AnsweringTenant up;
  live_NewForConfig : answers up succeeds NewForConfig;
  live_kube_node_Get name : answers up answered (kube_node_Get name);
  live_RunCordonOrUncordon h n b : answers up succeeds (RunCordonOrUncordon h n b);
  live_RunNodeDrain h name : answers up succeeds (RunNodeDrain h name);
  live_node_Get ns name : answers up answered (node_Get ns name);
  live_node_Delete n : answers up succeeds (node_Delete n)
}.

Class ReliableInfra {IW} `{!InfraCluster.Client IW, !InfraCluster.ClientView (IW:=IW)}
    (up : IW → Prop) := {
  live_GetVirtualMachine ns name options :
    answers up answered (GetVirtualMachine ns name options);
  live_DeleteVirtualMachine ns name options i :
    up i → is_Some (vm_at i ns name) →
    wp (DeleteVirtualMachine ns name options) (λ r i', succeeds r ∧ up i') no_panic i
}.

#[export] Hint Extern 1 (answers _ _ _) =>
  first [apply live_machine_Get|apply live_Event|apply live_NewForConfig
        |apply live_kube_node_Get|apply live_RunCordonOrUncordon|apply live_RunNodeDrain
        |apply live_node_Get|apply live_node_Delete|apply live_now|apply live_observe_phase] : go.

(** ** The manager *)
Section manager.
Context {IW : Type} `{!InfraCluster.Client IW, !Resolver IW, !InfraCluster.ClientView (IW:=IW),
  !InfraCluster.ClientLaws (IW:=IW)} (up : IW → Prop) `{!ReliableInfra up}.

Lemma live_Exists name ns :
  answers up (λ r, r.2 = None) (manager.Exists name ns).
Proof.
  intros i Hi. unfold manager.Exists, manager.getInraClusterVM. apply wp_bind.
  go_call live_GetVirtualMachine; [done|]. intros [vm|e] i' [Hr Hi']; go_step; [done|].
  simpl in Hr. by rewrite Hr.
Qed.

Lemma live_Delete sc m vm i :
  CreateVirtualMachineFromMachine sc m = Ret (inl vm) → up i →
  wp (manager.Delete sc) (λ r '(_, i'), succeeds r ∧ up i') no_panic (m, i).
Proof.
  intros Hvm Hi. unfold manager.Delete. go_step. go_step. go_step. simpl. do 2 go_step.
  rewrite Hvm. apply create_named in Hvm as [-> ->]. go_step. go_step.
  unfold manager.getInraClusterVM.
  eapply wp_mono; [apply wp_and; [apply (live_GetVirtualMachine (up:=up)); exact Hi
                                 |apply GetVirtualMachine_spec]| |by intros ? ? []].
  cbn beta. intros [old|e] i' [[He Hi'] [-> Hold]]; cbn beta iota.
  - destruct (vm_at_named _ _ _ _ Hold) as [Hns Hn]. go_step. go_step.
    unfold KV.vm_Namespace, KV.vm_Name. rewrite Hns, Hn.
    go_call live_DeleteVirtualMachine; [done|by eexists|].
    intros r i' [-> ?]. by go_step.
  - simpl in He. rewrite He. by go_step.
Qed.
End manager.

(** ** The machine in hand

    Between its calls the controller holds the stored machine, but for the
    conditions it has changed; a patch of the status stores the phase and
    gives back what is stored. *)
Section holding.
Context {TW IW : Type} `{!TenantApi TW, !EventRecorder TW, !NodeApi TW, !MachineApi TW,
  !StatusConverter, !TenantView (TW:=TW), !TenantLaws (TW:=TW), !EventLaws TW,
  !MachineLaws (TW:=TW)}
  (upt : TW → Prop) `{!AnsweringTenant upt}.
Context (ns name : string).
Implicit Types (st m : Mapi.Machine) (i : IW).
Abbreviation world := (Actuator.world TW IW).

Definition holding st i (w : world) : Prop :=
  (∃ cs, w.1 = Mapi.set_Conditions cs st) ∧ machine_at w.2.1 ns name = Some st ∧
  upt w.2.1 ∧ w.2.2 = i.

Lemma wp_holding {A} (P : A → Prop) (c : Go TW A) (Q : A → world → Prop) E st i w :
  quiet c → answers upt P c → holding st i w →
  (∀ x w', P x → holding st i w' → w'.1 = w.1 → Q x w') →
  wp (in_tenant c) Q E w.
Proof.
  intros Hq Hc (Hcs & Hat & Hup & Hi) HQ. destruct w as [m [t j]]. cbn [fst snd] in *. subst j.
  unfold in_tenant. go_step. cbn [fst snd].
  eapply wp_mono; [apply (wp_and _ _ _ _ _ _ (Hq t) (Hc t Hup))| |by intros ? ? []].
  intros x t' [Hsame [Hx Hup']]. apply HQ; [done| |done]. split_and!; try done. cbn [fst snd].
  by rewrite Hsame.
Qed.

(** The machine as it is stored. *)
Lemma holding_stored i w :
  machine_at w.2.1 ns name = Some w.1 → upt w.2.1 → w.2.2 = i → holding w.1 i w.
Proof.
  intros Hat Hup Hi. split; [|done]. exists (Mapi.Conditions (Mapi.Status w.1)).
  by destruct w as [[? ? []] ?].
Qed.

Lemma holding_the_machine {B} (f : Mapi.Machine → Go world B) Q E st i w :
  holding st i w → (∀ cs, w.1 = Mapi.set_Conditions cs st → wp (f (Mapi.set_Conditions cs st)) Q E w) →
  wp (the_machine ≫= f) Q E w.
Proof. intros [[cs Hcs] _] Hf. apply wp_bind, wp_the_machine. rewrite Hcs. by apply Hf. Qed.

Lemma holding_set_condition c st i w (Q : unit → world → Prop) E :
  holding st i w → (∀ w', holding st i w' → Q tt w') → wp (set_condition_now c) Q E w.
Proof.
  intros Hw HQ. unfold set_condition_now. apply wp_bind.
  eapply wp_holding; [apply quiet_now|apply (live_now (up:=upt))|exact Hw|].
  intros z [m [t j]] _ ([cs Hcs] & Hat & Hup & Hi) _. unfold change_machine. do 2 go_step.
  apply HQ. split; [|done]. cbn [fst] in *. subst m. by eexists.
Qed.

(** The phase is stored, and the addresses, the node and all but the status
    are as they were. *)
Definition whereabouts st : list Core.NodeAddress * option string :=
  (Mapi.Addresses (Mapi.Status st), Mapi.NodeRef (Mapi.Status st)).

Definition phase_stored ph st i (r : option goerror) (w : world) : Prop :=
  r = None ∧ w.2.2 = i ∧ upt w.2.1 ∧ machine_at w.2.1 ns name = Some w.1 ∧
  statics w.1 = statics st ∧ phase w.1 = Some ph ∧ whereabouts w.1 = whereabouts st.

(** The machine before the patch of its status. *)
Definition status_ready ph st i (w : world) : Prop :=
  machine_at w.2.1 ns name = Some st ∧ upt w.2.1 ∧ w.2.2 = i ∧
  Mapi.MachineMeta w.1 = Mapi.MachineMeta st ∧ Mapi.Spec w.1 = Mapi.Spec st ∧
  whereabouts w.1 = whereabouts st ∧ phase w.1 = Some ph.

Lemma wp_status_patch ph st i w :
  status_ready ph st i w →
  wp (on_tenant (runtime_Status_Patch st)) (phase_stored ph st i) no_panic w.
Proof.
  intros (Hat & Hup & Hi & Hmeta & Hspec & Haddr & Hph). destruct w as [m [t j]].
  cbn [fst snd] in *. subst j. unfold on_tenant. go_step.
  destruct (machine_at_named _ _ _ _ Hat) as [Hns Hn].
  assert (Mapi.GetNamespace m = ns ∧ Mapi.GetName m = name) as [Hns' Hn']
    by (unfold Mapi.GetNamespace, Mapi.GetName in *; by rewrite Hmeta).
  eapply wp_mono; [apply wp_and; [apply (live_Status_Patch (up:=upt) st m st t Hup)
                                 |apply (api_status_patch st m t)]| |by intros ? ? []].
  { by rewrite Hns', Hn'. }
  { by rewrite Hmeta. }
  intros r [m' t'] [[-> Hup'] Hp]. unfold patch_post in Hp. rewrite Hns', Hn' in Hp.
  destruct Hp as [_ (stored & Hst & Hp)]. rewrite Hat in Hst. injection Hst as <-.
  destruct Hp as (rv & -> & Hat'); [done|]. cbn [fst snd].
  split_and!; try done.
Qed.

Lemma live_updateStatus ph st i w :
  ph ≠ phaseFailed → holding st i w →
  wp (updateStatus ph None (Mapi.Conditions (Mapi.Status st))) (phase_stored ph st i) no_panic w.
Proof.
  intros Hnf Hw. unfold updateStatus.
  eapply holding_the_machine; [exact Hw|]. intros cs Hcs.
  rewrite (bool_decide_eq_false_2 (ph = phaseFailed)) by done. go_step. go_step. cbv iota.
  unfold patch_status. eapply holding_the_machine; [exact Hw|]. intros cs' Hcs'.
  destruct Hw as (_ & Hat & Hup & Hi), w as [m [t j]]. cbn [fst snd] in *. subst m j.
  unfold change_machine. do 3 go_step. cbn [fst snd]. apply wp_bind, wp_the_machine. cbn [fst snd].
  rewrite (bool_decide_eq_false_2 (ph = phaseFailed)) by done. do 2 go_step. cbv iota.
  do 3 go_step. cbn [fst snd]. apply wp_bind, wp_the_machine. cbn [fst snd].
  assert (Mapi.set_Conditions (Mapi.Conditions (Mapi.Status st)) (Mapi.set_Conditions cs' st) = st)
    as -> by by destruct st as [? ? []].
  apply wp_bind.
  match goal with |- wp _ _ _ (?m2, _) => assert (status_ready ph st i (m2, (t, i))) as Hr end.
  { split_and!; try done. }
  assert (∀ w', status_ready ph st i w' →
    wp (r ← on_tenant (runtime_Status_Patch st);
        match r with
        | Some err => mret (Some err)
        | None =>
            _ ← (if bool_decide (ph = phaseDeleting) then mret tt
                 else t ← in_tenant now;
                      machine ← the_machine;
                      in_tenant (observe_phase ph
                        (t - Meta.CreationTimestamp (Mapi.MachineMeta machine))));
            mret None
        end) (phase_stored ph st i) no_panic w') as Hrest.
  { intros w' Hw'. apply wp_bind. eapply wp_mono; [by apply wp_status_patch| |done].
    intros r w1 (-> & Hi1 & Hup1 & Hat1 & Hst1). cbv iota.
    apply wp_bind. match goal with |- wp (if ?b then _ else _) _ _ _ => destruct b end.
    { by do 2 go_step. }
    pose proof (holding_stored i w1 Hat1 Hup1 Hi1) as Hh1. apply wp_bind.
    eapply wp_holding; [apply quiet_now|apply live_now|exact Hh1|]. intros z w2 _ Hh2 Hm2.
    apply wp_bind, wp_the_machine.
    eapply wp_holding; [apply quiet_observe_phase|apply live_observe_phase|exact Hh2|].
    intros _ w3 _ (_ & Hat3 & Hup3 & Hi3) Hm3. go_step. rewrite Hm2 in Hm3.
    unfold phase_stored. by rewrite Hm3. }
  match goal with |- wp (if ?b then _ else _) _ _ _ => destruct b end;
    [go_step; by apply Hrest|].
  apply wp_bind. unfold in_tenant at 1. go_step. cbn [fst snd].
  eapply wp_mono; [apply (wp_and _ _ _ _ _ _ (quiet_now t) (live_now (up:=upt) t Hup))|
    |by intros ? ? []].
  intros z t1 [Hsame [_ Hup1]]. do 2 go_step. apply Hrest.
  destruct Hr as (Hat0 & _ & Hi0 & Hm). split_and!; try done. cbn [fst snd] in *. by rewrite Hsame.
Qed.
End holding.

(** ** The controller, up to the deletion *)
Section reading.
Context {TW IW : Type} `{!TenantApi TW, !EventRecorder TW, !NodeApi TW, !MachineApi TW,
  !StatusConverter, !TenantView (TW:=TW), !TenantLaws (TW:=TW), !EventLaws TW,
  !MachineLaws (TW:=TW), !YamlLib}
  `{!InfraCluster.Client IW, !Resolver IW, !InfraCluster.ClientView (IW:=IW)}.
Context (upt : TW → Prop) `{!AnsweringTenant upt} (a : actuator) (ns name : string).

(** The machine is read, and reconciled. *)
Lemma live_read m t i Q :
  machine_at t ns name = Some m → upt t →
  wp (reconcile_machine (Some (provider a))) (λ r w', Q r w'.2) no_panic (m, (t, i)) →
  wp (Reconcile (Some (provider a)) ns name) Q no_panic (t, i).
Proof.
  intros Hat Ht HQ. unfold MachineController.Reconcile. do 2 go_step.
  eapply wp_mono; [apply wp_and; [apply (live_machine_Get (up:=upt)); exact Ht
                                 |apply machine_Get_spec]| |by intros ? ? []].
  intros [m'|e] t' [[He _] [-> Hr]]; cbn beta iota zeta; rewrite Hat in Hr.
  2: { by specialize (Hr He). }
  injection Hr as <-. by apply wp_with_machine.
Qed.
End reading.

Section smooth.
Context {TW IW : Type} `{!TenantApi TW, !EventRecorder TW, !NodeApi TW, !MachineApi TW,
  !StatusConverter, !TenantView (TW:=TW), !TenantLaws (TW:=TW), !EventLaws TW,
  !MachineLaws (TW:=TW)}
  (up : TW → Prop) `{!ReliableTenant up}.
Context (ns name : string) (m : Mapi.Machine) (i : IW).
Abbreviation world := (Actuator.world TW IW).
Abbreviation steady := (steady (IW:=IW) statics ns name (statics m) i False).

Definition ready (w : world) : Prop :=
  tracked statics ns name (statics m) i w ∧ machine_at w.2.1 ns name = Some w.1 ∧ up w.2.1.

(** It returns something in [P], and nothing but the status changes. *)
Definition smooth {A} (P : A → Prop) (c : Go world A) : Prop :=
  ∀ w, ready w → wp c (λ a w', P a ∧ ready w') no_panic w.

Lemma smooth_ret {A} (P : A → Prop) (a : A) : P a → smooth P (mret a).
Proof. intros Ha w Hw. by apply wp_ret. Qed.

Lemma smooth_bind {A B} P (Q : B → Prop) (c : Go world A) (f : A → Go world B) :
  smooth P c → (∀ a, P a → smooth Q (f a)) → smooth Q (c ≫= f).
Proof.
  intros Hc Hf w Hw. apply wp_bind. eapply wp_mono; [by apply Hc| |done].
  intros a w' [Ha Hw']. by apply Hf.
Qed.

(** A smooth computation, then the rest. *)
Lemma wp_smooth {A B} P (c : Go world A) (f : A → Go world B) Q E w :
  smooth P c → ready w → (∀ a w', P a → ready w' → wp (f a) Q E w') → wp (c ≫= f) Q E w.
Proof.
  intros Hc Hw Hf. apply wp_bind. eapply wp_mono; [by apply Hc| |done].
  intros a w' [Ha Hw']. by apply Hf.
Qed.

Lemma smooth_the_machine : smooth (λ _, True) (the_machine : Go world Mapi.Machine).
Proof. intros w Hw. by apply wp_the_machine. Qed.

Lemma smooth_in_tenant {A} P (c : Go TW A) :
  quiet c → answers up P c → smooth P (in_tenant c : Go world A).
Proof.
  intros Hq Hc [m1 [t j]] (Hw & Hex & Hup).
  pose proof (steady_in_tenant statics ns name (statics m) i False c Hq (m1, (t, j)) Hw) as Hs.
  assert (wp (in_tenant c) (λ a (w' : world), P a ∧ machine_at w'.2.1 ns name = Some w'.1 ∧ up w'.2.1)
    no_panic (m1, (t, j))) as Ha.
  { unfold in_tenant. go_step. cbn [fst snd] in *.
    eapply wp_mono; [apply (wp_and _ _ _ _ _ _ (Hq t) (Hc t Hup))| |by intros ? ? []].
    intros x t' [Hsame [Hx Hup']]. split_and!; try done. cbn [fst snd]. by rewrite Hsame. }
  eapply wp_mono; [apply (wp_and _ _ _ _ _ _ Hs Ha)|by intros a w' [? [? ?]]|by intros ? ? [_ []]].
Qed.

(** A phase is stored, for the machine that was read. *)
Lemma smooth_updateStatus w0 :
  ready w0 → ∀ ph, ph ≠ phaseFailed →
  wp (updateStatus ph None (Mapi.Conditions (Mapi.Status w0.1)))
    (λ r w', succeeds r ∧ ready w') no_panic w0.
Proof.
  intros ([(Hns & Hn & Hst & Hat) Hi] & Hex & Hup) ph Hph.
  eapply wp_mono; [apply (live_updateStatus up ns name ph w0.1 i w0 Hph)| |done].
  { by apply holding_stored. }
  intros r w' (-> & Hi' & Hup' & Hat' & Hst' & _). split; [done|]. split; [|done].
  rewrite Hst in Hst'. split; [|done].
  destruct (machine_at_named _ _ _ _ Hat') as [Hns' Hn']. split_and!; try done.
  rewrite Hat'. simpl. by rewrite Hst'.
Qed.

Lemma smooth_drainNode n : smooth succeeds (drainNode n).
Proof.
  unfold drainNode. apply (smooth_bind succeeds); [apply smooth_in_tenant; auto with go|].
  intros _ ->. apply (smooth_bind answered); [apply smooth_in_tenant; auto with go|].
  intros [node|e] Hr; [|simpl in Hr; rewrite Hr; by apply smooth_ret].
  apply (smooth_bind succeeds); [apply smooth_in_tenant; auto with go|]. intros _ ->.
  apply (smooth_bind succeeds); [apply smooth_in_tenant; auto with go|]. intros _ ->.
  apply (smooth_bind (λ _, True)); [apply smooth_the_machine|]. intros m1 _.
  apply (smooth_bind (λ _, True)); [apply smooth_in_tenant; auto with go|]. intros _ _.
  by apply smooth_ret.
Qed.

Lemma smooth_deleteNode n : smooth succeeds (deleteNode n).
Proof.
  unfold deleteNode. apply (smooth_bind answered); [apply smooth_in_tenant; auto with go|].
  intros [node|e] Hr; [apply smooth_in_tenant; auto with go|].
  simpl in Hr. rewrite Hr. by apply smooth_ret.
Qed.
End smooth.

(** ** The deletion *)
Section live.
Context {TW IW : Type} `{!TenantApi TW, !EventRecorder TW, !NodeApi TW, !MachineApi TW,
  !StatusConverter, !TenantView (TW:=TW), !TenantLaws (TW:=TW), !EventLaws TW,
  !MachineLaws (TW:=TW), !YamlLib}
  `{!InfraCluster.Client IW, !Resolver IW, !InfraCluster.ClientView (IW:=IW),
    !InfraCluster.ClientLaws (IW:=IW), !ResolverLaws IW}.
Context (upt : TW → Prop) `{!ReliableTenant upt} (upi : IW → Prop) `{!ReliableInfra upi}.
Context (a : actuator) (ns name : string).
Implicit Types (m : Mapi.Machine) (t : TW) (i : IW).
Abbreviation vm_of i := (vm_at i (a_infraNamespace a) name).
Abbreviation ready := (ready (IW:=IW) upt ns name).

(** The virtual machine of the machine can be built. *)
Definition sound m : Prop :=
  ∃ sc vm, createMachineScope a m = inl sc ∧ CreateVirtualMachineFromMachine sc m = Ret (inl vm).

Lemma sound_by_computation m :
  match createMachineScope a m with
  | inl sc => match CreateVirtualMachineFromMachine sc m with Ret (inl _) => true | _ => false end
  | inr _ => false
  end = true → sound m.
Proof.
  unfold sound. destruct (createMachineScope a m) as [sc|]; [|done].
  destruct (CreateVirtualMachineFromMachine sc m) as [[vm|]|] eqn:Hvm; try done. by exists sc, vm.
Qed.

Lemma sound_statics m m' : statics m' = statics m → sound m → sound m'.
Proof.
  intros Hst (sc & vm & Hsc & Hvm). exists sc, vm.
  by rewrite (createMachineScope_statics a m m'), (CreateVirtualMachine_statics sc m m').
Qed.

Definition gone (w : TW * IW) : Prop := vm_of w.2 = None ∧ released ns name w.1.
(** The virtual machine is there until its finalizers have run. *)
Definition marked i : Prop :=
  ∃ vm, vm_of i = Some vm ∧ Meta.DeletionTimestamp (KV.VMMeta vm) ≠ None.

Lemma ready_name m i w : ready m i w → Mapi.GetName w.1 = name.
Proof. by intros [[(_ & ? & _) _] _]. Qed.

(** Exists tells whether the virtual machine is there. *)
Lemma live_provider_Exists m t i :
  upi i → Mapi.GetName m = name →
  wp (Actuator.Exists a)
    (λ r (w' : Actuator.world TW IW),
       r = (bool_decide (is_Some (vm_of i)), None) ∧ w' = (m, (t, i))) no_panic (m, (t, i)).
Proof.
  intros Hi Hn.
  assert (wp (Actuator.Exists a) (λ r (_ : Actuator.world TW IW), r.2 = None) no_panic
            (m, (t, i))) as Hlive.
  { unfold Actuator.Exists. apply wp_bind, wp_the_machine. unfold in_infra. go_step. simpl.
    eapply wp_mono; [by apply (live_Exists upi)|by intros ? ? []|done]. }
  eapply wp_mono; [apply wp_and; [apply Hlive|apply (provider_Exists a m t i)]| |by intros ? ? []].
  intros [b err] w2 [Herr [-> Hex]]. cbn [snd] in Herr. subst err. split; [|done].
  specialize (Hex eq_refl). rewrite Hn in Hex. f_equal. symmetry. unfold provider_instance in Hex.
  destruct b; [by apply bool_decide_eq_true, Hex|].
  apply bool_decide_eq_false. intros Hsome. by discriminate (proj2 Hex Hsome).
Qed.

Lemma live_provider_Delete m i w :
  sound m → ready m i w → upi i →
  wp (Actuator.Delete a)
    (λ r w', succeeds r ∧ ready m w'.2.2 w' ∧ upi w'.2.2 ∧
       (vm_of w'.2.2 = None ∨ marked w'.2.2)) no_panic w.
Proof.
  intros Hm Hw Hi. pose proof (ready_name m i w Hw) as Hname.
  destruct w as [m1 [t j]], Hw as ([Ht Hj] & Hex & Hup). cbn [fst snd] in *. subst j.
  assert (sound m1) as (sc & vm & Hsc & Hvm).
  { eapply sound_statics, Hm. by destruct Ht as (_ & _ & ? & _). }
  unfold Actuator.Delete. apply wp_bind, wp_the_machine. cbn [fst]. rewrite Hsc.
  destruct (createMachineScope_scope a m1 sc Hsc) as [Hns _].
  go_step. unfold on_infra. go_step. simpl.
  eapply wp_mono; [apply wp_and; [by apply (live_Delete upi sc m1 vm)|apply Delete_spec]| |by intros ? ? []].
  rewrite Hns, Hname. intros r [m2 i2] [[-> Hi2] [-> Hd]]. cbn beta iota.
  apply wp_bind, wp_the_machine.
  eapply (wp_smooth upt ns name m i2 (λ _, True)).
  { apply smooth_in_tenant; auto with go. }
  { by split. }
  intros _ w3 _ Hw3. go_step. assert (w3.2.2 = i2) as -> by by destruct Hw3 as [[_ ?] _].
  split_and!; [done..|]. destruct Hd as [[? ->]|[_ [[? _]|(_ & vm' & [? _] & _ & ?)]]];
    [by left|by left|right; by eexists].
Qed.

Definition deletion_outcome m (r : Result * option goerror) (w : Actuator.world TW IW) : Prop :=
  (r = (noResult, None) ∧ gone w.2) ∨
  (r = (MkResult false requeueAfter, None) ∧ marked w.2.2 ∧ ready m w.2.2 w).

Lemma live_give_up m i w :
  ready m i w → vm_of i = None →
  wp (update_finalizers (λ l, Filter l Mapi.MachineFinalizer))
    (λ r w', succeeds r ∧ gone w'.2) no_panic w.
Proof.
  intros (Hw & Hex & Hup) Hvm.
  assert (wp (update_finalizers (λ l, Filter l Mapi.MachineFinalizer))
    (λ r (_ : Actuator.world TW IW), succeeds r) no_panic w) as Hlive.
  { destruct w as [m1 [t j]], Hw as [(Hns & Hn & _ & Hat) _]. simpl in *.
    unfold update_finalizers, change_machine. do 3 go_step. simpl. unfold on_tenant. go_step.
    eapply wp_mono; [apply (live_machine_Update (up:=upt) _ m1); [done| |done]
                    |by intros r [m2 t2] [? _]|done].
    rewrite <-Hns, <-Hn in Hex. exact Hex. }
  eapply wp_mono; [apply wp_and; [apply Hlive|apply (wp_give_up (provider_instance a) ns name m i); [done|]]| |by intros ? ? []].
  { unfold provider_instance. rewrite Hvm. by intros []. }
  intros r w' [-> (_ & Hi & Hr)]. split; [done|]. split; [by rewrite Hi|by apply Hr].
Qed.

Lemma live_reconcile_delete m i w :
  sound m → ready m i w → upi i →
  wp (reconcile_delete (Some (provider a))) (deletion_outcome m) no_panic w.
Proof.
  intros Hm Hw Hi. unfold reconcile_delete, call. apply wp_bind.
  eapply wp_mono; [by apply (live_provider_Delete m i)| |done].
  intros _ w1 (-> & Hw1 & Hi1 & Hvm). cbn beta iota. apply wp_bind, wp_the_machine. cbn beta iota.
  apply wp_bind. pose proof (ready_name m _ w1 Hw1) as Hname.
  destruct w1 as [m1 [t1 i1]]. cbn [fst snd] in *.
  eapply wp_mono; [by apply live_provider_Exists| |done].
  intros _ w2 [-> ->]. cbn beta iota zeta. case_bool_decide as Hex.
  - go_step. right. split; [done|]. split; [|done].
    destruct Hvm as [Hvm|?]; [|done]. destruct Hex. congruence.
  - assert (vm_of i1 = None) as Hnone by by apply eq_None_not_Some.
    apply wp_bind, wp_the_machine.
    eapply (wp_smooth upt ns name m i1 succeeds); [|exact Hw1|].
    { destruct (Mapi.NodeRef _); [by apply smooth_deleteNode|by apply smooth_ret]. }
    intros _ w3 -> Hw3. cbn beta iota. apply wp_bind.
    eapply wp_mono; [by apply (live_give_up m i1)| |done].
    intros _ w4 [-> Hgone]. go_step. by left.
Qed.

Lemma live_reconcile_deleted m i w orig :
  Mapi.MachineFinalizer ∈ finalizers m → sound m → ready m i w → upi i →
  orig = Mapi.Conditions (Mapi.Status w.1) →
  wp (reconcile_deleted (Some (provider a)) orig) (deletion_outcome m) no_panic w.
Proof.
  intros Hf Hm Hw Hi ->. unfold reconcile_deleted. apply wp_bind.
  eapply wp_mono; [apply (smooth_updateStatus upt ns name m i w Hw phaseDeleting); done| |done].
  intros _ w1 [-> Hw1]. cbn beta iota. apply wp_bind, wp_the_machine.
  assert (finalizers w1.1 = finalizers m) as Hf1.
  { apply finalizers_of_statics. by destruct Hw1 as [[(_ & _ & ? & _) _] _]. }
  unfold finalizers at 1 in Hf1. rewrite Hf1. apply Contains_spec in Hf. rewrite Hf. cbn [negb].
  eapply (wp_smooth upt ns name m i succeeds); [|exact Hw1|].
  { destruct (map_index _ _); [by apply smooth_ret|].
    destruct (Mapi.NodeRef _); [by apply smooth_drainNode|by apply smooth_ret]. }
  intros _ w2 -> Hw2. by apply (live_reconcile_delete m i).
Qed.

Abbreviation Reconcile := (Reconcile (Some (provider a)) ns name).

(** The machine is there, to be deleted, and its virtual machine is one that
    can be built. *)
Definition dying t : Prop :=
  ∃ m, machine_at t ns name = Some m ∧ deletion_due m ∧ sound m.

Lemma dying_statics m t :
  statics <$> machine_at t ns name = Some (statics m) → deletion_due m → sound m → dying t.
Proof.
  intros (m' & Hat & Hst)%fmap_Some [Hv Hd Hf] Hs. exists m'. symmetry in Hst.
  split; [done|]. split; [|by eapply sound_statics].
  destruct m as [[] [] ?], m' as [[] [] ?]. unfold statics in Hst. simpl in Hst. by simplify_eq.
Qed.

Lemma live_Reconcile t i :
  dying t → upt t → upi i →
  wp Reconcile
    (λ r w', (r = (noResult, None) ∧ gone w') ∨
             (r = (MkResult false requeueAfter, None) ∧ marked w'.2 ∧ dying w'.1))
    no_panic (t, i).
Proof.
  intros (m & Hat & Hdue & Hm) Ht Hi. apply (live_read upt a ns name m); [done..|].
  destruct (machine_at_named _ _ _ _ Hat) as [Hns Hn], Hdue as [Hv Hud Hf].
  unfold reconcile_machine. apply wp_bind, wp_the_machine. cbn [fst]. rewrite Hv.
  pose proof Hud as Hud'. unfold under_deletion in Hud'. destruct (time_IsZero _); [done|].
  eapply wp_mono; [apply (live_reconcile_deleted m i); [done|done| |done|done]| |done].
  { split; [|done]. split; [|done]. split_and!; try done. simpl. by rewrite Hat. }
  intros r w' [?|(? & ? & [[(_ & _ & _ & Hst) _] _])]; [by left|right]. split_and!; [done..|].
  by eapply dying_statics.
Qed.

(** Any reconciliation, of clusters that are up or not. *)
Lemma any_Reconcile t i :
  dying t →
  let safe : TW * IW → Prop := λ w',
    (dying w'.1 ∨ gone w') ∧ (vm_of i = None → vm_of w'.2 = None) in
  wp Reconcile (λ _, safe) (λ _, safe) (t, i).
Proof.
  intros (m & Hat & Hdue & Hm) safe. pose proof Hdue as [_ Hud _].
  assert (∀ t' i', instances_step (provider_instance a) (provider_doomed a) name m i i' →
    kept_or_gone (provider_instance a) ns name m t' i' → safe (t', i')) as Hsafe.
  { intros t' i' Hstep Hk. split.
    - destruct Hk as [Hst|(Hno & Hl & _)]; [left; by eapply dying_statics|right].
      split; [by apply no_instance|]. unfold released. cbn [fst].
      destruct (stored_finalizers ns name t'); [subst|done]. by intros [_ ?]%elem_of_Filter.
    - intros Hnone. apply no_instance. intros Hinst.
      destruct (instance_due _ _ _ _ _ _ Hstep Hinst) as [[vm Hvm]|[_ ? _ _ _ _]]; congruence. }
  eapply wp_mono; [by apply request_provider|..]; intros ? [t' i'] [(_ & ? & Hk) _];
    apply Hsafe; auto.
Qed.
End live.

(** ** Fair runs

    At each turn the machine is reconciled or others act.  They let the
    machine be deleted, and do not create its virtual machine; a marked
    virtual machine is removed some day; and again and again the machine is
    reconciled while both clusters are up. *)
Record fair_run {TW IW} `{!TenantApi TW, !EventRecorder TW, !NodeApi TW, !MachineApi TW,
    !StatusConverter, !TenantView (TW:=TW), !YamlLib, !InfraCluster.Client IW, !Resolver IW,
    !InfraCluster.ClientView (IW:=IW)}
    (upt : TW → Prop) (upi : IW → Prop) (a : actuator) (ns name : string)
    (turn : nat → bool) (run : nat → TW * IW) : Prop := {
  run_reconcile n : turn n = true →
    ∃ o, Reconcile (Some (provider a)) ns name (run n) = (o, run (S n));
  run_outside n : turn n = false →
    (dying a ns name (run n).1 → dying a ns name (run (S n)).1) ∧
    (vm_at (run n).2 (a_infraNamespace a) name = None →
     vm_at (run (S n)).2 (a_infraNamespace a) name = None);
  run_turns n : ∃ k, (n ≤ k)%nat ∧ turn k = true ∧ upt (run k).1 ∧ upi (run k).2;
  run_removes n : marked a name (run n).2 →
    ∃ k, (n ≤ k)%nat ∧ vm_at (run k).2 (a_infraNamespace a) name = None
}.

Section fair.
Context {TW IW : Type} `{!TenantApi TW, !EventRecorder TW, !NodeApi TW, !MachineApi TW,
  !StatusConverter, !TenantView (TW:=TW), !TenantLaws (TW:=TW), !EventLaws TW,
  !MachineLaws (TW:=TW), !YamlLib}
  `{!InfraCluster.Client IW, !Resolver IW, !InfraCluster.ClientView (IW:=IW),
    !InfraCluster.ClientLaws (IW:=IW), !ResolverLaws IW}.
Context (upt : TW → Prop) `{!ReliableTenant upt} (upi : IW → Prop) `{!ReliableInfra upi}.
Context (a : actuator) (ns name : string) (turn : nat → bool) (run : nat → TW * IW)
  (Hrun : fair_run upt upi a ns name turn run) (Hstart : dying a ns name (run 0%nat).1).
Abbreviation vm_of w := (vm_at (snd w) (a_infraNamespace a) name).

Definition finished : Prop := ∃ n, gone a ns name (run n).

Lemma run_step n :
  dying a ns name (run n).1 →
  (dying a ns name (run (S n)).1 ∨ gone a ns name (run (S n))) ∧
  (vm_of (run n) = None → vm_of (run (S n)) = None).
Proof.
  intros Hd. destruct (turn n) eqn:Ht.
  - destruct (run_reconcile _ _ _ _ _ _ _ Hrun n Ht) as [o Ho].
    destruct (run n) as [t i]. pose proof (any_Reconcile a ns name t i Hd) as Hwp.
    unfold wp in Hwp. rewrite Ho in Hwp. by destruct o.
  - destruct (run_outside _ _ _ _ _ _ _ Hrun n Ht) as [Hkeep Hvm]. split; [left|]; auto.
Qed.

Lemma run_dying n : finished ∨ dying a ns name (run n).1.
Proof.
  induction n as [|n [?|IH]]; [by right|by left|].
  destruct (run_step n IH) as [[?|?] _]; [by right|left; by eexists].
Qed.

Lemma run_absent n k : (n ≤ k)%nat → vm_of (run n) = None → finished ∨ vm_of (run k) = None.
Proof.
  intros Hle Hnone. induction Hle as [|k Hle [?|IH]]; [by right|by left|].
  destruct (run_dying k) as [?|Hd]; [by left|right]. by apply (run_step k Hd).
Qed.

(** A turn with both clusters up ends the deletion or marks the virtual
    machine. *)
Lemma run_turn n : finished ∨ ∃ k, (n ≤ k)%nat ∧ marked a name (run (S k)).2.
Proof.
  destruct (run_turns _ _ _ _ _ _ _ Hrun n) as (k & Hle & Ht & Hupt & Hupi).
  destruct (run_dying k) as [?|Hd]; [by left|].
  destruct (run_reconcile _ _ _ _ _ _ _ Hrun k Ht) as [o Ho].
  destruct (run k) as [t i] eqn:Hk. cbn [fst snd] in *.
  pose proof (live_Reconcile upt upi a ns name t i Hd Hupt Hupi) as Hwp.
  unfold wp in Hwp. rewrite Ho in Hwp. destruct o as [r|]; [|done].
  destruct Hwp as [[_ ?]|(_ & ? & _)]; [left; by exists (S k)|right].
  by exists k.
Qed.

Lemma run_finishes : finished.
Proof.
  destruct (run_turn 0) as [?|(k0 & _ & Hmark)]; [done|].
  destruct (run_removes _ _ _ _ _ _ _ Hrun _ Hmark) as (k1 & _ & Hnone).
  destruct (run_turn k1) as [?|(k2 & Hle & vm & Hvm & _)]; [done|].
  destruct (run_absent k1 (S k2)) as [?|Hno]; [lia|done|done|congruence].
Qed.
End fair.

(** ** The property *)
Section properties.
Context {TW IW : Type} `{!TenantApi TW, !EventRecorder TW, !NodeApi TW, !MachineApi TW,
  !StatusConverter, !TenantView (TW:=TW), !TenantLaws (TW:=TW), !EventLaws TW,
  !MachineLaws (TW:=TW), !YamlLib}
  `{!InfraCluster.Client IW, !Resolver IW, !InfraCluster.ClientView (IW:=IW),
    !InfraCluster.ClientLaws (IW:=IW), !ResolverLaws IW}.

(** C6: A deletion comes to its end: in a fair run, a valid machine under
    deletion that has the finalizer, and whose virtual machine can be built,
    is released some day, and its virtual machine is gone then.  The run may
    contain any number of reconciliations that fail or are cut short by a
    panic. *)
Theorem deletion_live (upt : TW → Prop) (upi : IW → Prop) (a : actuator) (ns name : string)
    (turn : nat → bool) (run : nat → TW * IW)
    (Ht : ReliableTenant upt) (Hi : ReliableInfra upi)
    (Hrun : fair_run upt upi a ns name turn run) (Hstart : dying a ns name (run 0%nat).1) :
  ∃ n, vm_at (run n).2 (a_infraNamespace a) name = None ∧
       ¬ has_finalizer ns name (run n).1.
Proof.
  destruct (run_finishes upt upi a ns name turn run Hrun Hstart) as (n & Hvm & Hrel).
  exists n. split; [done|]. intros (l & Hl & Hin)%stored_finalizer.
  unfold released in Hrel. by rewrite Hl in Hrel.
Qed.
End properties.

(** ** On the reference clusters, which are always up *)

(** What the calls on machines leave alone. *)
Class Unwritten (P : tenant → Prop) : Prop :=
  unwritten t ms es :
    P t → P (MkTenant ms (t_secrets t) (t_configmaps t) (t_nodes t) es).

#[export] Instance unwritten_always : Unwritten (λ _, True).
Proof. done. Qed.

#[export] Instance answering_tenant P `{!Unwritten P} : AnsweringTenant P.
Proof.
  split; try by (intros; intros t Ht; apply wp_ret).
  - intros ns name t Ht. unfold wp. simpl. by destruct (stored_machine t ns name).
  - intros m st t Ht Hst _. unfold wp. simpl in *. unfold tenant_update. rewrite Hst.
    destruct (bool_decide _ && _); (split; [done|by apply unwritten]).
  - intros origin m st t Ht Hst Hrv. unfold wp. simpl in *. unfold tenant_patch. rewrite Hst.
    rewrite bool_decide_eq_true_2 by by right. split; [done|by apply unwritten].
  - intros m ty r msg t Ht. apply wp_modify. split; [done|by apply unwritten].
Qed.

#[export] Instance reliable_tenant : ReliableTenant (λ _ : tenant, True).
Proof.
  split; try by (intros; intros t _; apply wp_ret).
  - apply _.
  - intros name t _. unfold wp. simpl. by destruct (t_nodes t !! name).
  - intros ns name t _. unfold wp. simpl. by destruct (t_nodes t !! name).
  - done.
Qed.

#[export] Instance reliable_server : ReliableInfra (λ _ : server, True).
Proof.
  split.
  - intros ns name options w _. unfold wp. simpl.
    unfold client.GetVirtualMachine, client.getResource, mbind, go_bind. simpl.
    unfold server_Get. rewrite server_object_vm. by destruct (s_vms w !! (ns, name)).
  - intros ns name options w _ Hvm. unfold wp. simpl in *. unfold server_Delete.
    rewrite server_object_vm in Hvm. destruct (s_vms w !! (ns, name)) as [vm|] eqn:Hst.
    + by destruct (Meta.Finalizers (KV.VMMeta vm)).
    + by destruct Hvm.
Qed.

(** *** A run of them

    The virtual machine has a finalizer of its own: the first reconciliation
    marks it, the infra cluster removes it, and the next one is the last. *)
Definition guarded (vm : KV.VirtualMachine) : KV.VirtualMachine :=
  let m := KV.VMMeta vm in
  KV.MkVM (KV.VMType vm)
    (Meta.MkObjectMeta (Meta.Name m) (Meta.Namespace m) (Meta.UID m) (Meta.ResourceVersion m)
       (Meta.CreationTimestamp m) (Meta.DeletionTimestamp m) (Meta.Labels m)
       (Meta.Annotations m) (Meta.OwnerReferences m) ["foregroundDeletion"] (Meta.ClusterName m))
    (KV.VMSpec vm) (KV.VMStatus vm).

Definition example_turn (n : nat) : bool := negb (n =? 1)%nat.
Fixpoint example_run (n : nat) : tenant * server :=
  match n with
  | O => (tenant_with (deleted (provisioning with_finalizer)), set_vms (fmap guarded) with_vm)
  | S n =>
      let w := example_run n in
      if example_turn n then (reconcile_example w).2
      else (w.1, set_vms (delete ("infra", "worker-0")) w.2)
  end.

Definition vm_deleting (w : tenant * server) : option bool :=
  (λ vm, bool_decide (Meta.DeletionTimestamp (KV.VMMeta vm) ≠ None)) <$> vm_at w.2 "infra" "worker-0".

Example example_run_phases :
  map (λ n, (vm_deleting (example_run n),
             stored_finalizer_b machine_ns "worker-0" (example_run n).1)) [0; 1; 2; 3]%nat =
  [(Some false, true); (Some true, true); (None, true); (None, false)].
Proof. vm_compute. reflexivity. Qed.

Lemma example_run_turn n :
  example_turn n = true → example_run (S n) = (reconcile_example (example_run n)).2.
Proof. intros Hn. cbn [example_run]. by rewrite Hn. Qed.

Lemma example_run_end n : example_run (3 + n) = example_run 3.
Proof.
  induction n as [|n IH]; [done|]. change (3 + S n)%nat with (S (3 + n)).
  change (example_run (S (3 + n))) with (reconcile_example (example_run (3 + n))).2.
  rewrite IH. vm_compute. reflexivity.
Qed.

Lemma example_run_absent n : (2 ≤ n)%nat → vm_at (example_run n).2 "infra" "worker-0" = None.
Proof.
  intros Hn. destruct (decide (n = 2)%nat) as [->|]; [vm_compute; reflexivity|].
  replace n with (3 + (n - 3))%nat by lia. rewrite example_run_end. vm_compute. reflexivity.
Qed.

Lemma example_run_outside : (example_run 2).1 = (example_run 1).1.
Proof. vm_compute. reflexivity. Qed.

Lemma example_run_fair :
  fair_run (λ _, True) (λ _, True) example_actuator machine_ns "worker-0" example_turn example_run.
Proof.
  split.
  - intros n Hn. rewrite example_run_turn by done. eexists. apply surjective_pairing.
  - intros n Hn. assert (n = 1)%nat as ->.
    { unfold example_turn in Hn. destruct (Nat.eqb_spec n 1); [done|by destruct n]. }
    rewrite example_run_outside. split; [exact (λ Hd, Hd)|].
    intros _. apply (example_run_absent 2). lia.
  - intros n. exists (if (n =? 1)%nat then 2 else n)%nat. unfold example_turn.
    destruct (Nat.eqb_spec n 1) as [->|Hn]; split_and!; try done; [lia|].
    by destruct (Nat.eqb_spec n 1).
  - intros n _. exists (2 + n)%nat. split; [lia|]. apply example_run_absent. lia.
Qed.

Lemma example_dying : dying example_actuator machine_ns "worker-0" (example_run 0).1.
Proof.
  exists (deleted (provisioning with_finalizer)). split; [vm_compute; reflexivity|].
  split; [split; [vm_compute; reflexivity..|by left]|].
  apply sound_by_computation. vm_compute. reflexivity.
Qed.

Lemma deletion_live_witness :
  ∃ n, vm_at (example_run n).2 "infra" "worker-0" = None ∧
       ¬ has_finalizer machine_ns "worker-0" (example_run n).1.
Proof.
  apply (deletion_live (λ _ : tenant, True) (λ _ : server, True) example_actuator machine_ns
           "worker-0" example_turn example_run reliable_tenant reliable_server example_run_fair
           example_dying).
Defined.
