(* ===== verification/NodeRuns.v ===== *)
(** * Nodes follow their virtual machines

    What the node controller achieves in a run, while the clusters answer: a
    node whose virtual machine stays away is removed, and one whose virtual
    machine is ready gets its provider ID. *)

From S2P Require Import Prelude GoStd GoErrors Json ApiTypes TenantCluster InfraCluster.
From S2P Require Import InfraServer Kubevirt Actuator NodeUpdate TenantServer.
From S2P Require Import Runs Liveness.

(** ** Clusters that answer the node controller *)
Class ReliableNodes {TW} `{!TenantApi TW, !NodeApi TW, !TenantView (TW:=TW), !NodeView (TW:=TW)}
    (up : TW → Prop) := {
  live_read_node ns name : answers up answered (node_Get ns name);
  live_read_config ns name : answers up answered (configmaps_Get ns name);
  live_remove_node n t :
    up t → node_at t (node_Name n) = Some n →
    wp (node_Delete n) (λ r t', succeeds r ∧ up t') no_panic t;
  live_identify_node n id t :
    up t → node_at t (node_Name n) = Some n →
    wp (node_Update (Core.set_NodeProviderID id n)) (λ r t', succeeds r ∧ up t') no_panic t
}.

Section live.
Context {TW IW : Type}
  `{!TenantApi TW, !TenantView (TW:=TW), !TenantLaws (TW:=TW),
    !NodeApi TW, !NodeView (TW:=TW), !NodeLaws (TW:=TW)}
  `{!InfraCluster.Client IW, !InfraCluster.ClientView (IW:=IW),
    !InfraCluster.ClientLaws (IW:=IW)}.
Context (upt : TW → Prop) `{!ReliableNodes upt} (upi : IW → Prop) `{!ReliableInfra upi}.
Implicit Types (t : TW) (i : IW) (name : string).

Lemma live_config t v :
  upt t →
  (∃ c, configmap_at t configMapNamespace configMapName = Some c ∧
        config_value c configMapDataKeyName = Some v) →
  wp (GetConfigMapValue configMapName configMapNamespace configMapDataKeyName)
    (λ r t', r = inl v ∧ upt t') no_panic t.
Proof.
  intros Hup (c & Hc & Hv). cbn [GetConfigMapValue kubeClient.client].
  unfold kubeClient.GetConfigMapValue. go_step.
  eapply wp_mono; [apply wp_and; [by apply (live_read_config (up:=upt))|apply api_get_configmap]|
    |by intros ? ? []].
  intros [c'|e] t' [[He Hup'] [-> Hr]]; go_step.
  - rewrite Hc in Hr. injection Hr as <-. unfold config_value in Hv.
    destruct (map_index _ _) as [config|]; [|done]. simpl in Hv. by rewrite Hv.
  - simpl in He. specialize (Hr He). congruence.
Qed.

(** Nothing goes wrong when the configuration is there. *)
Lemma live_node_Reconcile namespace name t i :
  upt t → upi i → is_Some (infra_namespace t) →
  wp (Reconcile namespace name) (λ r _, r.2 = None) no_panic (t, i).
Proof.
  intros Hupt Hupi [ns Hns].
  assert (∃ v, (∃ c, configmap_at t configMapNamespace configMapName = Some c ∧
                     config_value c configMapDataKeyName = Some v) ∧
               map_index v configMapInfraNamespaceKeyName = Some ns) as (v & Hv & Hkey).
  { unfold infra_namespace in Hns. destruct (configmap_at _ _ _) as [c|] eqn:Hc; [|done].
    simpl in Hns. destruct (config_value c _) as [v|] eqn:Hv; [|done].
    exists v. split; [by exists c|done]. }
  unfold Reconcile. do 2 go_step.
  eapply wp_mono; [apply wp_and; [by apply (live_read_node (up:=upt))|apply node_Get_spec]|
    |by intros ? ? []].
  intros [node|e] t1 [[He _] [-> Hnode]]; [|cbn in He |- *; rewrite He; by go_step].
  pose proof (node_at_named _ _ _ Hnode) as Hname. do 2 go_step.
  eapply wp_mono; [apply wp_and; [by apply live_config|apply GetConfigMapValue_spec]| |by intros ? ? []].
  intros r t1 [[-> _] [-> _]]. rewrite Hkey. do 2 go_step.
  eapply wp_mono; [by apply (live_GetVirtualMachine (up:=upi))| |done].
  intros [vm|e] i1 [He' _].
  - destruct (KV.Ready (KV.VMStatus vm)); simpl; [|by go_step].
    case_bool_decide; simpl; [|by go_step]. do 2 go_step.
    eapply wp_mono; [apply (live_identify_node (up:=upt)); [done|by rewrite Hname]| |done].
    intros r t2 [-> _]. by go_step.
  - simpl in He'. rewrite He'. do 2 go_step.
    eapply wp_mono; [apply (live_remove_node (up:=upt)); [done|by rewrite Hname]| |done].
    intros r t2 [-> _]. by go_step.
Qed.

(** ** Runs *)

(** The virtual machine of the node, in the configured namespace. *)
Definition vm_gone name (w : TW * IW) : Prop :=
  ∃ ns, infra_namespace w.1 = Some ns ∧ vm_at w.2 ns name = None.
Definition vm_up name (w : TW * IW) : Prop :=
  ∃ ns vm, infra_namespace w.1 = Some ns ∧ vm_at w.2 ns name = Some vm ∧
           KV.Ready (KV.VMStatus vm) = true.

(** The node is removed, or marked until its finalizers have run. *)
Definition node_off name (w : TW * IW) : Prop :=
  ∀ n, node_at w.1 name = Some n → Meta.DeletionTimestamp (Core.NodeMeta n) ≠ None.
(** The node, if it is there, is identified. *)
Definition node_on name (w : TW * IW) : Prop :=
  ∀ n, node_at w.1 name = Some n → Core.NodeProviderID n ≠ "".
(** One reconciliation of the node. *)
Lemma live_node_follows namespace name t i :
  upt t → upi i →
  wp (Reconcile namespace name)
    (λ _ w', (vm_gone name (t, i) → node_off name w') ∧ (vm_up name (t, i) → node_on name w'))
    no_panic (t, i).
Proof.
  intros Hupt Hupi. destruct (infra_namespace t) as [ns|] eqn:Hns.
  2: { eapply wp_mono; [apply Reconcile_spec| |done]. intros _ w' _. unfold vm_gone, vm_up.
       cbn [fst snd]. rewrite Hns. by split; [intros (? & ? & _)|intros (? & ? & ? & _)]. }
  eapply wp_mono; [apply wp_and; [apply (live_node_Reconcile namespace name t i Hupt Hupi); by eexists
                                 |apply (Reconcile_spec namespace name t i)]| |by intros ? ? []].
  intros [r err] [t' i'] [He (_ & _ & Hr)]. specialize (Hr He).
  assert (node_settled name t i t' ∨ node_waiting name t i) as Hdone.
  { destruct (Requeue r); [right; by destruct Hr as (_ & ? & _)|by left]. }
  clear Hr. split.
  - intros (ns1 & Hns1 & Hvm) n' Hn'. cbn [fst snd] in *.
    destruct Hdone as [[(Hno & Hsame & _)|[(ns' & _ & _ & Hrem)|
      (ns' & vm & ? & Hns' & Hvm' & _)]]|(ns' & vm & Hns' & Hvm' & _)]; simplify_eq.
    + by rewrite Hsame, Hno in Hn'.
    + destruct Hrem as [(Hrem & _)|(n2 & (Hrem & _) & Hd)]; by simplify_eq.
  - intros (ns1 & vm & Hns1 & Hvm & Hv) n' Hn'. cbn [fst snd] in *.
    destruct Hdone as [[(Hno & Hsame & _)|[(ns' & Hns' & Hvm' & _)|
      (ns' & vm' & n2 & Hns' & Hvm' & _ & Hn2 & Hid)]]|(ns' & vm' & Hns' & Hvm' & Hnr)]; simplify_eq.
    + by rewrite Hsame, Hno in Hn'.
    + done.
    + congruence.
Qed.
End live.

(** At each turn the node is reconciled while the clusters are up, or others
    act in any way. *)
Record node_run {TW IW} `{!TenantCluster.Client TW, !NodeApi TW, !InfraCluster.Client IW}
    (upt : TW → Prop) (upi : IW → Prop) (name : string)
    (turn : nat → bool) (run : nat → TW * IW) : Prop := {
  node_reconcile n : turn n = true →
    upt (run n).1 ∧ upi (run n).2 ∧ ∃ o, Reconcile "" name (run n) = (o, run (S n));
  node_turns n : ∃ k, (n ≤ k)%nat ∧ turn k = true
}.

Section properties.
Context {TW IW : Type}
  `{!TenantApi TW, !TenantView (TW:=TW), !TenantLaws (TW:=TW),
    !NodeApi TW, !NodeView (TW:=TW), !NodeLaws (TW:=TW)}
  `{!InfraCluster.Client IW, !InfraCluster.ClientView (IW:=IW),
    !InfraCluster.ClientLaws (IW:=IW)}.
Context (upt : TW → Prop) (upi : IW → Prop) (name : string).
Context (turn : nat → bool) (run : nat → TW * IW) (Hrun : node_run upt upi name turn run).

Lemma node_turn `{!ReliableNodes upt, !ReliableInfra upi} n :
  turn n = true →
  (vm_gone name (run n) → node_off name (run (S n))) ∧
  (vm_up name (run n) → node_on name (run (S n))).
Proof.
  intros Ht. destruct (node_reconcile _ _ _ _ _ Hrun n Ht) as (Hupt & Hupi & o & Ho).
  destruct (run n) as [t i].
  pose proof (live_node_follows upt upi "" name t i Hupt Hupi) as Hwp.
  unfold wp in Hwp. rewrite Ho in Hwp. by destruct o.
Qed.

(** C12: Nodes follow their virtual machines: in a run in which the node
    controller comes to a node again and again while the clusters are up, a
    node whose virtual machine stays away is removed some day, or marked for
    deletion, and a node whose virtual machine is ready and stays so has a
    provider ID some day. *)
Theorem nodes_follow (Ht : ReliableNodes upt) (Hi : ReliableInfra upi) (n : nat) :
  ((∀ k, (n ≤ k)%nat → vm_gone name (run k)) → ∃ k, (n ≤ k)%nat ∧ node_off name (run k)) ∧
  ((∀ k, (n ≤ k)%nat → vm_up name (run k)) → ∃ k, (n ≤ k)%nat ∧ node_on name (run k)).
Proof.
  destruct (node_turns _ _ _ _ _ Hrun n) as (k & Hle & Hk).
  split; intros Hvm; exists (S k); (split; [lia|]); by apply (node_turn k Hk), Hvm.
Qed.
End properties.

(** ** On the reference clusters *)

(** What the calls on nodes leave alone. *)
Class Nodeless (P : tenant → Prop) : Prop := nodeless f t : P t → P (set_nodes f t).

#[export] Instance nodeless_always : Nodeless (λ _, True).
Proof. done. Qed.

#[export] Instance reliable_nodes P `{!Nodeless P} : ReliableNodes P.
Proof.
  split.
  - intros ns name t Ht. unfold wp. simpl. by destruct (t_nodes t !! name).
  - intros ns name t Ht. unfold wp. simpl. by destruct (t_configmaps t !! (ns, name)).
  - intros n t Ht _. unfold wp. simpl. split; [done|by apply nodeless].
  - intros n id t Ht Hn. unfold wp. simpl in *.
    change (node_Name (Core.set_NodeProviderID id n)) with (node_Name n).
    destruct (t_nodes t !! node_Name n); [|done]. split; [done|by apply nodeless].
Qed.

(** The example's node, without its virtual machine, and with a ready one. *)
Definition node_server (vm : bool) : server :=
  if vm then
    set_vms <[("infra", "worker-0") := KV.MkVM Meta.noType Meta.empty
      (KV.MkVMSpec None None []) (KV.MkVMStatus true true [] [])]> empty_server
  else empty_server.

Fixpoint node_example (vm : bool) (n : nat) : tenant * server :=
  match n with
  | O => (example_tenant, node_server vm)
  | S n => (Reconcile "" "worker-0" (node_example vm n)).2
  end.

Lemma node_example_end vm n : node_example vm (S n) = node_example vm 1.
Proof.
  induction n as [|n IH]; [done|]. cbn [node_example] in *. rewrite IH.
  destruct vm; vm_compute; reflexivity.
Qed.

Lemma node_example_run vm :
  node_run (λ _, True) (λ _, True) "worker-0" (λ _, true) (node_example vm).
Proof.
  split; [|by intros n; exists n]. intros n _. split_and!; [done..|]. eexists. apply surjective_pairing.
Qed.

Lemma nodes_follow_witness :
  (∃ k, (0 ≤ k)%nat ∧ node_off "worker-0" (node_example false k)) ∧
  (∃ k, (0 ≤ k)%nat ∧ node_on "worker-0" (node_example true k)).
Proof.
  pose proof (λ vm, nodes_follow (λ _ : tenant, True) (λ _ : server, True) "worker-0" (λ _, true)
    (node_example vm) (node_example_run vm) (reliable_nodes _) reliable_server 0) as Hf.
  split; apply Hf.
  - intros k _. exists "infra". destruct k; [vm_compute; by split|].
    rewrite node_example_end. vm_compute. by split.
  - intros k _. destruct k; [|rewrite node_example_end];
      (exists "infra"; eexists; split; [vm_compute; reflexivity|]; vm_compute; by split).
Defined.
