(* ===== verification/Creation.v ===== *)
(** * A machine gets its virtual machine

    The counterpart of a deletion: a machine that is wanted and reconciled
    while the clusters answer has its virtual machine after three
    reconciliations, which give it the finalizer, the phase Provisioning and
    the virtual machine, with any changes by others in between that leave it
    wanted. *)

From S2P Require Import Prelude GoStd GoErrors Json ApiTypes ProviderConfig TenantCluster.
From S2P Require Import UserData MachineScope InfraCluster InfraServer Kubevirt Actuator.
From S2P Require Import Conditions NodeUpdate MachineController TenantServer MachineLifecycle.
From S2P Require Import Runs Lifecycle Liveness.
From Stdlib Require Import Ascii.
#[local] Open Scope Z_scope.

(** ** Clusters that answer, on the way to a virtual machine

    An update of a machine writes its metadata and its specification, and
    leaves the stored status. *)
Class CreatingTenant {TW} `{!TenantApi TW, !EventRecorder TW, !NodeApi TW, !MachineApi TW,
    !TenantView (TW:=TW)} (up : TW → Prop) := {
  creating_answering :: AnsweringTenant up;
  live_secrets_Get ns name : answers up answered (secrets_Get ns name);
  live_Update_stores m st t :
    up t → machine_at t (Mapi.GetNamespace m) (Mapi.GetName m) = Some st →
    Meta.ResourceVersion (Mapi.MachineMeta m) = Meta.ResourceVersion (Mapi.MachineMeta st) →
    finalizers m ≠ [] →
    wp machine_Update
      (λ r '(_, t'), succeeds r ∧ ∃ rv,
         machine_at t' (Mapi.GetNamespace m) (Mapi.GetName m) = Some (stamped rv (patched m st)))
      no_panic (m, t)
}.

Definition given {A} (r : result A) : Prop := ∃ x, r = inl x.

Class CreatingInfra {IW} `{!InfraCluster.Client IW, !InfraCluster.ClientView (IW:=IW)}
    (up : IW → Prop) := {
  creating_infra_reliable :: ReliableInfra up;
  live_CreateSecret s i :
    let ns := Meta.Namespace (Core.SecretMeta s) in
    up i → isecret_at i ns (Meta.Name (Core.SecretMeta s)) = None →
    wp (CreateSecret ns s) (λ r i', given r ∧ up i') no_panic i;
  live_CreateVirtualMachine vm i :
    let ns := KV.vm_Namespace vm in
    up i → vm_at i ns (KV.vm_Name vm) = None →
    wp (CreateVirtualMachine ns vm) (λ r i', given r ∧ up i') no_panic i
}.

(** ** The manager creates the virtual machine *)
Section manager.
Context {IW : Type} `{!InfraCluster.Client IW, !Resolver IW, !InfraCluster.ClientView (IW:=IW),
  !InfraCluster.ClientLaws (IW:=IW), !ResolverLaws IW} (up : IW → Prop) `{!CreatingInfra up}.

Lemma live_manager_Create sc m vm userData full i :
  CreateVirtualMachineFromMachine sc m = Ret (inl vm) →
  addHostnameToUserData userData (Mapi.GetName m) = Ret (inl full) →
  up i → vm_at i (infraNamespace sc) (Mapi.GetName m) = None →
  isecret_at i (infraNamespace sc) (buildIgnitionSecretName (Mapi.GetName m)) = None →
  wp (manager.Create sc userData)
    (λ _ w', vm_stands (infraNamespace sc) (Mapi.GetName m) w'.2) no_panic (m, i).
Proof.
  intros Hvm Hfull Hi Hnone Hsec. unfold manager.Create. do 3 go_step. simpl. do 2 go_step.
  rewrite Hfull. do 2 go_step.
  set (s := CreateIgnitionSecretFromMachine sc m full).
  eapply wp_mono; [apply wp_and; [apply (live_CreateSecret (up:=up) s); done
                                 |apply (CreateSecret_spec (infraNamespace sc) s)]| |by intros ? ? []].
  intros r i1 [[[s' ->] Hi1] Hs]; cbn beta iota in Hs.
  apply create_effect_secret in Hs as (_ & _ & _ & Hv). do 2 go_step. rewrite Hvm.
  apply create_named in Hvm as [Hname Hns]. do 2 go_step.
  eapply wp_mono; [apply wp_and; [apply (live_CreateVirtualMachine (up:=up) vm); [done|]
                                 |apply CreateVirtualMachine_spec]| |by intros ? ? []].
  { by rewrite Hname, Hns, Hv. }
  rewrite Hname, Hns. intros r i2 [[[created ->] _] Hc]; cbn beta iota in Hc.
  destruct Hc as (_ & _ & Hm & Hc). go_step. go_call syncMachine_spec.
  intros err [m' w'] [Hsame _]; go_step. rewrite Hsame in Hc. destruct Hc as [Hc _].
  by exists created.
Qed.
End manager.

(** ** Wanted machines *)
Section wanted.
Context `{!YamlLib} (a : actuator).
Implicit Types (m : Mapi.Machine).

(** A valid machine that nobody deletes, that has no virtual machine yet as
    far as its status goes, and whose virtual machine can be built. *)
Record prospect m : Prop := {
  pro_valid : Validate m = [];
  pro_kept : under_deletion m = false;
  pro_sound : sound a m;
  pro_unprovisioned : machineIsProvisioned m = false;
  pro_not_failed : machineIsFailed m = false
}.

(** How many reconciliations come before the one that creates. *)
Definition stage m : nat :=
  if negb (Contains (finalizers m) Mapi.MachineFinalizer) then 2
  else if bool_decide (stringPointerDeref (phase m) = "") then 1 else 0.

(** What this depends on, other than the finalizers and the phase. *)
Definition outlook m : Meta.ObjectMeta * Mapi.MachineSpec * list Core.NodeAddress :=
  (statics (Mapi.set_Finalizers [] m), Mapi.Addresses (Mapi.Status m)).

Lemma outlook_statics m m' :
  statics m' = statics m → Mapi.Addresses (Mapi.Status m') = Mapi.Addresses (Mapi.Status m) →
  outlook m' = outlook m.
Proof.
  intros Hst Ha. unfold outlook. rewrite Ha. f_equal.
  destruct m as [[] [] ?], m' as [[] [] ?]. unfold statics in Hst. simpl in Hst. by simplify_eq.
Qed.

Lemma prospect_outlook m m' :
  outlook m' = outlook m → machineIsFailed m' = false → prospect m → prospect m'.
Proof.
  intros Ho Hf [Hv Hk (sc & vm & Hsc & Hvm) Hp _].
  destruct m as [[] [] []], m' as [[] [] []]. unfold outlook, statics in Ho. simpl in Ho.
  simplify_eq. split; try done. by exists sc, vm.
Qed.
End wanted.

(** ** One reconciliation of a wanted machine *)
Section step.
Context {TW IW : Type} `{!TenantApi TW, !EventRecorder TW, !NodeApi TW, !MachineApi TW,
  !StatusConverter, !TenantView (TW:=TW), !TenantLaws (TW:=TW), !EventLaws TW,
  !MachineLaws (TW:=TW), !YamlLib}
  `{!InfraCluster.Client IW, !Resolver IW, !InfraCluster.ClientView (IW:=IW),
    !InfraCluster.ClientLaws (IW:=IW), !ResolverLaws IW}.
Context (upt : TW → Prop) `{!CreatingTenant upt} (upi : IW → Prop) `{!CreatingInfra upi}.
Context (a : actuator) (ns name : string).
Implicit Types (m st : Mapi.Machine) (t : TW) (i : IW).
Abbreviation vm_of i := (vm_at i (a_infraNamespace a) name).
Abbreviation stands := (vm_stands (a_infraNamespace a) name).
Abbreviation secret_of i := (isecret_at i (a_infraNamespace a) (buildIgnitionSecretName name)).
Abbreviation world := (Actuator.world TW IW).
Abbreviation holding := (holding (IW:=IW) upt ns name).

(** The user data of the machine is there, and is a document a file can be
    added to. *)
Definition user_data_ready m t : Prop :=
  ∃ sc spec s userData full,
    createMachineScope a m = inl sc ∧ machineProviderSpec sc = Some spec ∧
    secret_at t ns (Provider.IgnitionSecretName spec) = Some s ∧
    map_index (Core.SecretData s) userDataKey = Some userData ∧
    addHostnameToUserData userData name = Ret (inl full).

(** The machine [st] is wanted, and nothing of its virtual machine is there. *)
Definition waiting (k : nat) (w : TW * IW) : Prop :=
  (∃ st, machine_at w.1 ns name = Some st ∧ prospect a st ∧ (stage st ≤ k)%nat) ∧
  vm_of w.2 = None ∧ secret_of w.2 = None.

(** *** The actuator creates the virtual machine *)
Abbreviation created := (λ i, stands i).

Lemma live_getUserData sc spec m s userData t :
  machineProviderSpec sc = Some spec → Mapi.GetNamespace m = ns →
  secret_at t ns (Provider.IgnitionSecretName spec) = Some s →
  map_index (Core.SecretData s) userDataKey = Some userData → upt t →
  wp (getUserData sc m) (λ r t', r = inl userData ∧ t' = t) no_panic t.
Proof.
  intros Hspec Hns Hs Hd Hup. unfold getUserData, GetIgnitionSecretName, spec_field.
  rewrite Hspec, Hns. do 3 go_step.
  eapply wp_mono; [apply (wp_and _ _ _ _ _ _ (live_secrets_Get (up:=upt) ns _ t Hup)
                            (api_get_secret ns _ t))| |by intros ? ? []].
  intros [s'|e] t' [[He _] [-> Hr]]; go_step.
  - rewrite Hs in Hr. injection Hr as <-. by rewrite Hd.
  - specialize (Hr He). congruence.
Qed.

(** What Create does once the manager is done. *)
Definition create_tail (origin : Mapi.Machine) (r : bool * option goerror)
    : Go world (option goerror) :=
  let '(ready, err) := r in
  patchErr ← on_tenant (patchMachine origin);
  match (match patchErr with Some e => Some e | None => err end) with
  | Some err => failed createEventAction err
  | None =>
      machine ← the_machine;
      _ ← in_tenant (Event machine Core.EventTypeNormal createEventAction
                       ("Created Machine " +:+ Mapi.GetName machine));
      mret (if ready then None else Some not_ready_error)
  end.

(** The machine in hand after the manager. *)
Definition same_or_synced m m1 : Prop :=
  m1 = m ∨ ∃ vm ad, m1 = synced vm ad (FormatProviderID (a_infraNamespace a) name) m.

(** The virtual machine is there when the machine is patched. *)
Lemma wp_live_Create st cs t i (Q : option goerror → world → Prop) :
  let m := Mapi.set_Conditions cs st in
  prospect a st → machine_at t ns name = Some st → user_data_ready st t → upt t → upi i →
  vm_of i = None → secret_of i = None →
  (∀ m1 i1 r, created i1 → same_or_synced m m1 → wp (create_tail m r) Q no_panic (m1, (t, i1))) →
  wp (Actuator.Create a) Q no_panic (m, (t, i)).
Proof.
  intros m Hp Hat (sc & spec & s & userData & full & Hsc & Hspec & Hs & Hd & Hfull) Hupt Hupi
    Hvm Hsec HQ.
  destruct (machine_at_named _ _ _ _ Hat) as [Hns Hn].
  destruct (pro_sound _ _ Hp) as (sc' & vm & Hsc' & Hbuild).
  rewrite Hsc in Hsc'. injection Hsc' as <-.
  assert (createMachineScope a m = inl sc) as Hscm by done.
  assert (CreateVirtualMachineFromMachine sc m = Ret (inl vm)) as Hvmm by done.
  assert (Mapi.GetName m = name ∧ Mapi.GetNamespace m = ns) as [Hnm Hnsm] by done.
  clearbody m. destruct (createMachineScope_scope a st sc Hsc) as [Hins _].
  unfold Actuator.Create. apply wp_bind, wp_the_machine. cbn [fst]. rewrite Hscm.
  go_step. unfold in_tenant at 1. go_step. cbn [fst snd].
  eapply wp_mono; [by apply (live_getUserData sc spec m s userData t)| |by intros ? ? []].
  intros _ _ [-> ->]. cbv iota. go_step. unfold on_infra. go_step. cbn [fst snd].
  eapply wp_mono; [apply wp_and; [by apply (live_manager_Create upi sc m vm userData full i);
    rewrite ?Hnm, ?Hins|apply Create_spec]| |by intros ? ? []].
  rewrite Hins, Hnm. intros [ready err] [m1 i1] [Hcr (full' & _ & _ & Herr)]. cbn [fst snd] in *.
  apply (HQ m1 i1 (ready, err)); [done|]. destruct err as [e|]; [left; by destruct Herr|right].
  destruct Herr as (_ & _ & _ & vm' & ad & _ & -> & _). exists vm', ad. by rewrite Hins, Hnm.
Qed.

Lemma live_provider_Create st cs t i :
  prospect a st → machine_at t ns name = Some st → user_data_ready st t → upt t → upi i →
  vm_of i = None → secret_of i = None →
  wp (Actuator.Create a) (λ _ w', created w'.2.2) no_panic
    (Mapi.set_Conditions cs st, (t, i) : TW * IW).
Proof.
  intros Hp Hat Hdata Hupt Hupi Hvm Hsec. destruct (machine_at_named _ _ _ _ Hat) as [Hns Hn].
  apply wp_live_Create; try done. intros m1 i1 [ready err] Hcr Hm1.
  assert (tracks finalizers ns name (finalizers st) m1 t) as Htr1.
  { assert (tracks finalizers ns name (finalizers st) (Mapi.set_Conditions cs st) t) as Htr.
    { split_and!; try done. by rewrite Hat. }
    destruct Hm1 as [->|(vm & ad & ->)]; [done|by apply tracks_synced]. }
  eapply wp_mono with (Q := λ _, leaves (TW:=TW) (IW:=IW) finalizers ns name (finalizers st) created)
    (E := no_panic); [|by intros _ [m' [t' i']] [_ ?]|done].
  unfold create_tail. go_step. apply (wp_patched_tracks ns name (finalizers st)); [done..|].
  intros r m2 t2 Ht2. destruct r as [e|]; [by apply wp_failed_leaves|].
  destruct err as [e|]; [by apply wp_failed_leaves|].
  apply wp_bind, wp_the_machine. go_step. eapply wp_event_tracks; [exact Ht2|].
  intros t3 Ht3. by go_step.
Qed.

(** *** The controller *)


(** Where Create leads to. *)
Context (arrived : TW * IW → Prop)
  (Hcreate : ∀ st cs t i,
     prospect a st → (stage st < 2)%nat → machine_at t ns name = Some st →
     user_data_ready st t → upt t → upi i → vm_of i = None → secret_of i = None →
     wp (Actuator.Create a) (λ _ w', arrived w'.2) no_panic
       (Mapi.set_Conditions cs st, (t, i) : TW * IW)).

(** The machine is there, or a stage further. *)
Definition advanced (k : nat) (w : TW * IW) : Prop :=
  arrived w ∨ ((0 < k)%nat ∧ waiting (pred k) w).

Lemma stage_finalizer st : (stage st < 2)%nat ↔ Mapi.MachineFinalizer ∈ finalizers st.
Proof.
  unfold stage. rewrite <-Contains_spec. destruct (Contains _ _); simpl; [|split; [lia|done]].
  split; [done|]. intros _. case_bool_decide; lia.
Qed.

Lemma live_finalizer st t i :
  prospect a st → machine_at t ns name = Some st → upt t → stage st = 2%nat →
  vm_of i = None → secret_of i = None →
  wp (update_finalizers (λ l, l ++ [Mapi.MachineFinalizer]))
    (λ _ (w' : world), advanced (stage st) w'.2) no_panic (st, (t, i)).
Proof.
  intros Hp Hat Hup Hst Hvm Hsec. destruct (machine_at_named _ _ _ _ Hat) as [Hns Hn].
  unfold update_finalizers, change_machine. do 3 go_step. cbn [fst snd]. unfold on_tenant. go_step.
  cbn [fst snd]. set (m := Mapi.set_Finalizers _ st).
  assert (Mapi.GetNamespace m = ns ∧ Mapi.GetName m = name) as [Hns' Hn'] by done.
  eapply wp_mono; [apply (live_Update_stores (up:=upt) m st t); try done| |done].
  { by rewrite Hns', Hn'. }
  { subst m. cbn. by destruct (Meta.Finalizers _). }
  rewrite Hns', Hn'. intros r [m' t'] (_ & rv & Hat'). cbn [fst snd]. right. rewrite Hst.
  split; [lia|]. split; [|done]. exists (stamped rv (patched m st)). split; [done|]. split.
  - eapply prospect_outlook, Hp; [done|]. apply Hp.
  - apply Nat.lt_succ_r, stage_finalizer. unfold finalizers, stamped, patched, m.
    destruct st as [[] ? ?]. cbn. apply elem_of_app. right. by apply list_elem_of_singleton.
Qed.

Lemma live_missing st i w :
  prospect a st → (stage st < 2)%nat → holding st i w →
  (∀ w', holding st i w' → user_data_ready st w'.2.1) → upi i →
  vm_of i = None → secret_of i = None →
  wp (reconcile_missing (Some (provider a)) (Mapi.Conditions (Mapi.Status st)))
    (λ _ w', advanced (stage st) w'.2) no_panic w.
Proof.
  intros Hp Hst Hw Hdata Hupi Hvm Hsec. unfold reconcile_missing.
  eapply (holding_the_machine upt ns name); [exact Hw|]. intros cs Hcs.
  assert (machineIsProvisioned (Mapi.set_Conditions cs st) = false) as -> by apply Hp.
  apply wp_bind. eapply (holding_set_condition upt ns name); [exact Hw|]. intros w1 Hw1.
  change (Mapi.Phase (Mapi.Status (Mapi.set_Conditions cs st))) with (phase st).
  unfold stage. apply stage_finalizer, Contains_spec in Hst. rewrite Hst. cbn [negb].
  case_bool_decide as Hph.
  - apply wp_bind. eapply wp_mono; [by apply (live_updateStatus upt ns name)| |done].
    intros r [st' [t2 i2]] (-> & Hi2 & _ & Hat & Hstat & Hp' & Hadr). cbn [fst snd] in *. subst i2.
    go_step. right. split; [lia|]. split; [|done].
    exists st'. split; [done|]. split.
    + eapply prospect_outlook, Hp; [apply outlook_statics; [done|by injection Hadr]|]. unfold machineIsFailed.
      change (Mapi.Phase (Mapi.Status st')) with (phase st'). by rewrite Hp'.
    + unfold stage. by rewrite (finalizers_of_statics st st' Hstat), Hst, Hp'.
  - apply wp_bind. pose proof (Hdata w1 Hw1) as Hd. destruct Hw1 as ([cs1 Hcs1] & Hat1 & Hup1 & Hi1).
    destruct w1 as [m1 [t1 i1]]. cbn [fst snd] in *. subst m1 i1.
    eapply wp_mono; [apply wp_and; [apply (Hcreate st cs1 t1 i); try done
                                   |apply (Create_opaque a (Mapi.set_Conditions cs1 st, (t1, i)))]
                    | |by intros ? ? []].
    { by apply stage_finalizer, Contains_spec. }
    intros [err|] w2 [Hcr Hop]; cbv iota; [|go_step; by left].
    rewrite (opaque_not_invalid err) by by apply Hop. go_step. by left.
Qed.

Lemma live_present st t i :
  prospect a st → machine_at t ns name = Some st → (stage st < 2)%nat → upt t →
  (∀ t', machine_at t' ns name = Some st → upt t' → user_data_ready st t') → upi i →
  vm_of i = None → secret_of i = None →
  wp (reconcile_present (Some (provider a)) (Mapi.Conditions (Mapi.Status st)))
    (λ _ (w' : world), advanced (stage st) w'.2) no_panic (st, (t, i)).
Proof.
  intros Hp Hat Hst Hup Hdata Hupi Hvm Hsec. destruct (machine_at_named _ _ _ _ Hat) as [_ Hn].
  unfold reconcile_present. apply wp_bind, wp_the_machine. cbn [fst].
  rewrite (pro_not_failed _ _ Hp). apply wp_bind.
  eapply wp_mono; [by apply (live_provider_Exists upi a name)| |done].
  intros _ w2 [-> ->]. cbn beta iota zeta. rewrite Hvm.
  rewrite (bool_decide_eq_false_2 (is_Some None)) by by intros [].
  apply (live_missing st i); try done.
  - split; [|done]. exists (Mapi.Conditions (Mapi.Status st)). by destruct st as [? ? []].
  - intros w' (_ & ? & ? & _). by apply Hdata.
Qed.

Abbreviation Reconcile := (Reconcile (Some (provider a)) ns name).

Lemma waiting_advances k t i :
  waiting k (t, i) → upt t → upi i →
  (∀ st t', machine_at t ns name = Some st → upt t' → user_data_ready st t') →
  wp Reconcile (λ _, advanced k) no_panic (t, i).
Proof.
  intros [(st & Hat & Hp & Hk) [Hvm Hsec]] Hupt Hupi Hdata. cbn [fst snd] in *.
  assert (∀ w, advanced (stage st) w → advanced k w) as Hadv.
  { intros w [?|[? [(st' & ? & ? & ?) ?]]]; [by left|right]. split; [lia|]. split; [|done].
    exists st'. split_and!; try done. lia. }
  apply (live_read upt a ns name st); [done..|].
  eapply wp_mono with (Q := λ _ w', advanced (stage st) w'.2) (E := no_panic);
    [|by intros; apply Hadv|done].
  unfold reconcile_machine. apply wp_bind, wp_the_machine. cbn [fst]. rewrite (pro_valid _ _ Hp).
  pose proof (pro_kept _ _ Hp) as Hkept. unfold under_deletion in Hkept.
  destruct (time_IsZero _); [|done].
  destruct (Contains (Meta.Finalizers (Mapi.MachineMeta st)) Mapi.MachineFinalizer) eqn:Hf; cbn [negb].
  - apply live_present; try done; [|by intros; apply Hdata].
    by apply stage_finalizer, Contains_spec.
  - apply wp_bind. eapply wp_mono; [apply live_finalizer; try done| |done].
    { unfold stage, finalizers. by rewrite Hf. }
    intros r w' ?. by go_step.
Qed.
End step.

(** ** Runs

    At each turn the machine is reconciled while the clusters are up, or
    others act, who leave the machine wanted or create its virtual machine
    themselves; while there is none, turns of the controller keep coming.  A
    tenant cluster that is up has the user data.  (A reconciliation that is cut short between
    the secret and the virtual machine would block all later ones: a secret
    that exists is an error.) *)
Record creating_run {TW IW} `{!TenantApi TW, !EventRecorder TW, !NodeApi TW, !MachineApi TW,
    !StatusConverter, !TenantView (TW:=TW), !YamlLib, !InfraCluster.Client IW, !Resolver IW,
    !InfraCluster.ClientView (IW:=IW)}
    (upt : TW → Prop) (upi : IW → Prop) (a : actuator) (ns name : string)
    (turn : nat → bool) (run : nat → TW * IW) : Prop := {
  creating_reconcile n : turn n = true →
    upt (run n).1 ∧ upi (run n).2 ∧
    ∃ o, Reconcile (Some (provider a)) ns name (run n) = (o, run (S n));
  creating_outside n k : turn n = false → waiting a ns name k (run n) →
    waiting a ns name k (run (S n)) ∨
    vm_stands (a_infraNamespace a) name (run (S n)).2;
  creating_turns n : vm_at (run n).2 (a_infraNamespace a) name = None →
    ∃ k, (n ≤ k)%nat ∧ turn k = true;
  creating_data n st t : machine_at (run n).1 ns name = Some st → upt t →
    user_data_ready a ns name st t
}.

Section properties.
Context {TW IW : Type} `{!TenantApi TW, !EventRecorder TW, !NodeApi TW, !MachineApi TW,
  !StatusConverter, !TenantView (TW:=TW), !TenantLaws (TW:=TW), !EventLaws TW,
  !MachineLaws (TW:=TW), !YamlLib}
  `{!InfraCluster.Client IW, !Resolver IW, !InfraCluster.ClientView (IW:=IW),
    !InfraCluster.ClientLaws (IW:=IW), !ResolverLaws IW}.
Context (upt : TW → Prop) (upi : IW → Prop) (a : actuator) (ns name : string).
Context (turn : nat → bool) (run : nat → TW * IW).
Abbreviation created w := (vm_stands (a_infraNamespace a) name (snd w)).

Lemma run_creates `{!CreatingTenant upt, !CreatingInfra upi} k :
  creating_run upt upi a ns name turn run →
  leads_to run (waiting a ns name k) (λ w, created w).
Proof.
  intros Hrun. apply (measure_ends turn run (waiting a ns name)).
  - intros n j. by apply (creating_outside _ _ _ _ _ _ _ Hrun).
  - intros n j Ht Hw.
    destruct (creating_reconcile _ _ _ _ _ _ _ Hrun n Ht) as (Hupt & Hupi & o & Ho).
    pose proof (creating_data _ _ _ _ _ _ _ Hrun n) as Hdata.
    destruct (run n) as [t i]. cbn [fst snd] in *.
    eassert (wp (Reconcile (Some (provider a)) ns name)
      (λ _, advanced a ns name (λ w, created w) j) no_panic (t, i)) as Hwp.
    { apply (waiting_advances upt upi); try done.
      intros. by apply (live_provider_Create upt upi a ns name). }
    unfold wp in Hwp. rewrite Ho in Hwp. destruct o; [apply Hwp|by destruct Hwp].
  - intros n j [_ [Hvm _]]. by apply (creating_turns _ _ _ _ _ _ _ Hrun).
Qed.

(** A machine that is wanted gets its virtual machine: in a run in which
    the controller comes to a valid machine while the clusters are up, with
    neither a virtual machine nor its ignition secret there at first, the
    virtual machine exists some day.  Others may act in between, as long as
    the machine stays one that is wanted. *)
Lemma creation_live (Ht : CreatingTenant upt) (Hi : CreatingInfra upi)
    (Hrun : creating_run upt upi a ns name turn run) (Hstart : waiting a ns name 2 (run 0%nat)) :
  ∃ n, vm_stands (a_infraNamespace a) name (run n).2.
Proof. destruct (run_creates 2 Hrun 0%nat Hstart) as (n & _ & Hn). by exists n. Qed.
End properties.

(** ** On the reference clusters *)

(** The tenant cluster is up while it has the secret with the user data. *)
Definition user_data_key : string * string := (machine_ns, "worker-user-data").
Definition has_secrets (t : tenant) : Prop :=
  t_secrets t !! user_data_key = t_secrets example_tenant !! user_data_key.

#[export] Instance unwritten_secrets : Unwritten has_secrets.
Proof. by intros t ms es Ht. Qed.

#[export] Instance creating_tenant P `{!Unwritten P} : CreatingTenant P.
Proof.
  split; [apply _|..].
  - intros ns name t Ht. unfold wp. simpl. by destruct (t_secrets t !! (ns, name)).
  - intros m st t _ Hst _ Hf. unfold wp. simpl in *. rewrite Hst.
    rewrite (bool_decide_eq_false_2 (finalizers m = [])) by done. simpl. split; [done|].
    eexists. by rewrite stored_machine_insert.
Qed.

#[export] Instance creating_server : CreatingInfra (λ _ : server, True).
Proof.
  split; [apply reliable_server|..].
  - intros s w ns _ Hnone. unfold wp. simpl in *. unfold server_create_secret.
    subst ns. rewrite Hnone. simpl. split; [by eexists|done].
  - intros vm w ns _ Hnone. unfold wp. simpl in *.
    unfold client.CreateVirtualMachine, client.createResource, mbind, go_bind. simpl.
    unfold server_Create. rewrite decide_True by done. subst ns.
    rewrite server_object_vm in Hnone.
    destruct (s_vms w !! (KV.vm_Namespace vm, KV.vm_Name vm)); [done|]. simpl.
    split; [by eexists|done].
Qed.

(** Three reconciliations of the example machine, then nothing. *)
Definition creating_turn (n : nat) : bool := (n <? 3)%nat.
Fixpoint creating_example (n : nat) : tenant * server :=
  match n with
  | O => (tenant_with example_machine, empty_server)
  | S n => if creating_turn n then (reconcile_example (creating_example n)).2 else creating_example n
  end.

Definition example_phase (w : tenant * server) : option (option string) :=
  phase <$> machine_at w.1 machine_ns "worker-0".

Example creating_example_phases :
  map (λ n, (stored_finalizer_b machine_ns "worker-0" (creating_example n).1,
             example_phase (creating_example n),
             bool_decide (is_Some (vm_at (creating_example n).2 "infra" "worker-0"))))
    [0; 1; 2; 3]%nat =
  [(false, Some None, false); (true, Some None, false); (true, Some (Some "Provisioning"), false);
   (true, Some (Some "Provisioning"), true)].
Proof. vm_compute. reflexivity. Qed.

Lemma creating_example_end n : creating_example (3 + n) = creating_example 3.
Proof. by induction n as [|n IH]. Qed.

Lemma creating_last n : (3 ≤ n)%nat → creating_example n = creating_example 3.
Proof. apply (last_worlds creating_example), creating_example_end. Qed.

Lemma creating_worlds P : Forall (λ n, P (creating_example n)) (seq 0 4) → ∀ n, P (creating_example n).
Proof. apply (first_worlds creating_example), creating_example_end. Qed.

Definition example_ready_b (m : Mapi.Machine) : bool :=
  match createMachineScope example_actuator m with
  | inl sc =>
      match machineProviderSpec sc with
      | Some spec =>
          match t_secrets example_tenant !! user_data_key with
          | Some s =>
              bool_decide (Provider.IgnitionSecretName spec = "worker-user-data") &&
              match map_index (Core.SecretData s) userDataKey with
              | Some d =>
                  match addHostnameToUserData d "worker-0" with Ret (inl _) => true | _ => false end
              | None => false
              end
          | None => false
          end
      | None => false
      end
  | inr _ => false
  end.

Lemma user_data_by_computation m t :
  example_ready_b m = true → has_secrets t →
  user_data_ready example_actuator machine_ns "worker-0" m t.
Proof.
  unfold example_ready_b, user_data_ready, has_secrets. intros Hb Ht.
  destruct (createMachineScope example_actuator m) as [sc|]; [|done].
  destruct (machineProviderSpec sc) as [spec|] eqn:Hspec; [|done].
  destruct (_ !! _) as [s|] eqn:Hs; [|done]. apply andb_prop in Hb as [Hn%bool_decide_eq_true Hb].
  destruct (map_index _ _) as [d|] eqn:Hd; [|done].
  destruct (addHostnameToUserData d "worker-0") as [[full|]|] eqn:Hf; try done.
  exists sc, spec, s, d, full. split_and!; try done. rewrite Hn. by etrans; [exact Ht|].
Qed.

Lemma creating_example_run :
  creating_run has_secrets (λ _, True) example_actuator machine_ns "worker-0"
    creating_turn creating_example.
Proof.
  split.
  - intros n Hn. split; [|split; [done|]].
    + apply (creating_worlds (λ w, has_secrets w.1)). repeat constructor; vm_compute; reflexivity.
    + cbn [creating_example]. rewrite Hn. eexists. apply surjective_pairing.
  - intros n k Hn (_ & Hvm & _). exfalso. unfold creating_turn in Hn. apply Nat.ltb_ge in Hn.
    rewrite creating_last in Hvm by done.
    vm_compute in Hvm. discriminate Hvm.
  - intros n Hvm. exists n. split; [done|]. apply Nat.ltb_lt, Nat.nle_gt. intros Hn.
    rewrite creating_last in Hvm by done.
    vm_compute in Hvm. discriminate Hvm.
  - intros n st t Hat. apply user_data_by_computation.
    assert (example_ready_b <$> machine_at (creating_example n).1 machine_ns "worker-0" = Some true) as Hr.
    { apply (creating_worlds (λ w, example_ready_b <$> machine_at w.1 machine_ns "worker-0" = Some true)).
      repeat constructor; vm_compute; reflexivity. }
    rewrite Hat in Hr. by injection Hr.
Qed.

Lemma creation_live_witness :
  ∃ n, vm_stands "infra" "worker-0" (creating_example n).2.
Proof.
  apply (creation_live has_secrets (λ _ : server, True) example_actuator machine_ns "worker-0"
           creating_turn creating_example (creating_tenant _) creating_server creating_example_run).
  split; [|vm_compute; split; reflexivity].
  eexists. split; [vm_compute; reflexivity|]. split; [|vm_compute; lia].
  split; [vm_compute; reflexivity..| |vm_compute; reflexivity|vm_compute; reflexivity].
  apply sound_by_computation. vm_compute. reflexivity.
Defined.
