(* ===== verification/Running.v ===== *)
(** * A machine runs in the end

    The rest of the way of a machine: once its virtual machine is there, each
    reconciliation updates it and stores what was learned; when the virtual
    machine is ready and the machine has its node, the phase Running is
    stored.  With [Creation] this is the whole way, from a machine that is
    wanted to one that runs. *)

From S2P Require Import Prelude GoStd GoErrors Json ApiTypes ProviderConfig TenantCluster.
From S2P Require Import UserData MachineScope InfraCluster InfraServer Kubevirt Actuator.
From S2P Require Import Conditions NodeUpdate MachineController TenantServer Patches Runs MachineLifecycle.
From S2P Require Import Lifecycle Liveness Creation.
From Stdlib Require Import Ascii.
#[local] Open Scope Z_scope.

(** ** Clusters that answer, when the virtual machine is there *)
Class RunningTenant {TW} `{!TenantApi TW, !EventRecorder TW, !NodeApi TW, !MachineApi TW,
    !TenantView (TW:=TW)} (up : TW → Prop) := {
  running_creating :: CreatingTenant up;
  live_Patch origin m st t :
    let ns := Mapi.GetNamespace m in
    let name := Mapi.GetName m in
    up t → machine_at t ns name = Some st →
    Mapi.MachineMeta st = Mapi.MachineMeta origin → Mapi.Spec st = Mapi.Spec origin →
    Meta.ResourceVersion (Mapi.MachineMeta m) = Meta.ResourceVersion (Mapi.MachineMeta st) →
    finalizers m = finalizers origin →
    wp (runtime_Patch origin)
      (λ r '(m', t'), succeeds r ∧ up t' ∧ machine_at t' ns name = Some m' ∧
         ∃ rv, m' = stamped rv (patched m st)) no_panic (m, t);
  live_Status_Patch_merges origin m st t :
    let ns := Mapi.GetNamespace m in
    let name := Mapi.GetName m in
    up t → machine_at t ns name = Some st →
    Mapi.MachineMeta st = Mapi.MachineMeta m → Mapi.Spec st = Mapi.Spec m →
    wp (runtime_Status_Patch origin)
      (λ r '(m', t'), succeeds r ∧ up t' ∧ machine_at t' ns name = Some m' ∧
         statics m' = statics m ∧
         status_merges (Mapi.Status origin) (Mapi.Status m) (Mapi.Status st) (Mapi.Status m'))
      no_panic (m, t)
}.

(** An update writes the virtual machine and leaves its status. *)
Class RunningInfra {IW} `{!InfraCluster.Client IW, !Resolver IW, !InfraCluster.ClientView (IW:=IW)}
    (up : IW → Prop) := {
  running_infra_creating :: CreatingInfra up;
  live_UpdateVirtualMachine ns vm old i :
    up i → vm_at i ns (KV.vm_Name vm) = Some old →
    KV.vm_ResourceVersion vm = KV.vm_ResourceVersion old →
    wp (UpdateVirtualMachine ns vm)
      (λ r i', (∃ new, r = inl new ∧ KV.VMStatus new = KV.VMStatus old) ∧ up i') no_panic i;
  live_GetVirtualMachineInstance ns name options :
    answers up answered (GetVirtualMachineInstance ns name options);
  live_LookupIP name : answers up (λ _, True) (LookupIP name)
}.

(** ** The manager updates the virtual machine *)
Section manager.
Context {IW : Type} `{!InfraCluster.Client IW, !Resolver IW, !InfraCluster.ClientView (IW:=IW),
  !InfraCluster.ClientLaws (IW:=IW), !ResolverLaws IW} (up : IW → Prop) `{!RunningInfra up}.
Implicit Types (ns name : string) (i : IW).

Definition vm_ready ns name i : Prop :=
  (∃ vm, vm_at i ns name = Some vm ∧ KV.Ready (KV.VMStatus vm) = true) ∧
  is_Some (vmi_at i ns name).

Lemma live_syncMachine vm sc n op m i :
  up i →
  wp (manager.syncMachine vm sc n op)
    (λ err w', up w'.2 ∧
       (KV.Ready (KV.VMStatus vm) = true →
        is_Some (vmi_at i (KV.vm_Namespace vm) (KV.vm_Name vm)) → err = None)) no_panic (m, i).
Proof.
  intros Hi. unfold manager.syncMachine. apply wp_bind.
  assert (∀ vmi w, up w.2 → wp (err ← SyncMachine vm vmi
      (FormatProviderID (KV.vm_Namespace vm) (KV.vm_Name vm));
      mret match err with
           | Some err => Some (operation_error n op "sync the Machine" err)
           | None => None
           end) (λ err w', up w'.2 ∧ err = None) no_panic w) as Hsync.
  { intros vmi [m1 i1] Hi1. apply wp_bind.
    apply (SyncMachine_spec (λ _ _ w w', up w → up w')).
    - intros name w. destruct (LookupIP name w) as [o w'] eqn:Hl.
      assert (up w → wp (LookupIP name) (λ _, up) no_panic w) as Hup.
      { intros Hw. eapply wp_mono; [by apply (live_LookupIP (up:=up))|by intros ? ? [_ ?]|done]. }
      pose proof (LookupIP_same name w) as Hs. unfold wp in *. rewrite Hl in Hup, Hs |- *. by destruct o.
    - destruct vmi; [intros r w' Hw|]; go_step; (split; [|done]); [by apply Hw|done]. }
  destruct (KV.Ready (KV.VMStatus vm)) eqn:Hr.
  - go_step. go_step.
    eapply wp_mono; [apply wp_and; [by apply (live_GetVirtualMachineInstance (up:=up))
                                   |apply GetVirtualMachineInstance_spec]| |by intros ? ? []].
    intros [vmi|e] i1 [[He Hi1] [-> Hv]]; go_step; cbv iota.
    + eapply wp_mono; [by apply Hsync|by intros err w' [? ->]|done].
    + go_step. split; [done|]. intros _ [vmi Hvmi]. simpl in He. by rewrite (Hv He) in Hvmi.
  - go_step. cbv iota. eapply wp_mono; [by apply Hsync|by intros err w' [? ->]|done].
Qed.

Lemma live_manager_Update sc m vm i :
  let ns := infraNamespace sc in
  let name := Mapi.GetName m in
  CreateVirtualMachineFromMachine sc m = Ret (inl vm) → up i → vm_stands ns name i →
  wp (manager.Update sc)
    (λ r w', vm_stands ns name w'.2 ∧
       (vm_ready ns name i → vm_ready ns name w'.2 ∧ r.2 = None ∧ r.1.2 = true))
    no_panic (m, i).
Proof.
  intros ns name Hvm Hi Hsome. unfold manager.Update. go_step. go_step. go_step. simpl. do 2 go_step.
  rewrite Hvm. apply create_named in Hvm as [Hname Hns]. rewrite Hname, Hns. do 2 go_step.
  unfold manager.getInraClusterVM.
  eapply wp_mono; [apply wp_and; [by apply (live_GetVirtualMachine (up:=up))
                                 |apply GetVirtualMachine_spec]| |by intros ? ? []].
  intros [old|e] i1 [[He Hi1] [-> Hold]]; cbn beta iota.
  2: { simpl in He. specialize (Hold He). destruct Hsome as (vm0 & Hvm0 & _).
       subst ns name. congruence. }
  change (KV.vm_Namespace (KV.set_ResourceVersion _ vm)) with (KV.vm_Namespace vm).
  rewrite Hns. do 2 go_step. set (vm' := KV.set_ResourceVersion _ vm).
  assert (KV.vm_Name vm' = name) as Hname' by done.
  eapply wp_mono; [apply wp_and; [apply (live_UpdateVirtualMachine (up:=up) ns vm' old); [done| |done]
                                 |apply (UpdateVirtualMachine_spec ns vm')]| |by intros ? ? []].
  { by rewrite Hname'. }
  unfold vm_replaced. rewrite Hname'. intros r i1 [[(new & -> & Hst) Hi2] [Hup _]]. go_step.
  destruct Hup as (old' & Hold' & [Hnn Hnns] & Hmark & Hb & _).
  destruct Hsome as (vm0 & Hvm0 & Hnm). assert (vm0 = old') as -> by (subst ns name; congruence).
  destruct Hb as [(Hat & _ & Hvmi & _)|[? _]]; [|done].
  eapply wp_mono; [apply wp_and; [by apply live_syncMachine|apply syncMachine_spec]| |by intros ? ? []].
  intros err [m' i2] [[_ Herr] [(V & I & _) _]]. go_step. cbn [fst snd] in *.
  split; [exists new; rewrite V, Hmark; by split|]. intros [(vm0 & Hvm1 & Hr) Hinst].
  subst ns name. rewrite Hold in Hvm1. injection Hvm1 as <-. rewrite <-Hst in Hr.
  split_and!; [split; [exists new|]| |done].
  - by rewrite V, Hat.
  - by rewrite I, Hvmi.
  - apply Herr; [done|]. unfold KV.vm_Namespace, KV.vm_Name. by rewrite Hnn, Hnns, Hvmi.
Qed.
End manager.

(** ** Machines on the way *)
Section settled.
Context `{!YamlLib} (a : actuator).
Implicit Types (m : Mapi.Machine).

(** A valid machine that nobody deletes, that has the finalizer and has not
    failed, and whose virtual machine can be built. *)
Record settled m : Prop := {
  set_valid : Validate m = [];
  set_kept : under_deletion m = false;
  set_sound : sound a m;
  set_finalizer : Mapi.MachineFinalizer ∈ finalizers m;
  set_not_failed : machineIsFailed m = false
}.

(** What this depends on, other than the phase.  The labels, the annotations
    and the provider ID that are synchronised are no part of it. *)
Definition standing m : string * string * option Z * list string * option RawExtension :=
  (Mapi.GetName m,
   default "" (map_index (Meta.Labels (Mapi.MachineMeta m)) Mapi.MachineClusterIDLabel),
   Meta.DeletionTimestamp (Mapi.MachineMeta m), finalizers m, Mapi.ProviderSpecValue (Mapi.Spec m)).

Lemma standing_statics m m' : statics m' = statics m → standing m' = standing m.
Proof.
  intros Hst. destruct m as [[] [] ?], m' as [[] [] ?]. unfold statics in Hst. simpl in Hst.
  by simplify_eq.
Qed.

Lemma standing_synced vm ad p m : standing (synced vm ad p m) = standing m.
Proof.
  unfold standing, synced; simpl. do 3 f_equal. unfold synced_labels.
  destruct m as [[? ? ? ? ? ? Labels] ? ?]; simpl.
  destruct (KV.Template _); [rewrite lookup_insert_ne by done|]; by destruct Labels.
Qed.

(** A virtual machine is built for the name and the provider spec alone, as
    far as errors go. *)
Lemma build_by_name sc m m' vm :
  Mapi.GetName m' = Mapi.GetName m → CreateVirtualMachineFromMachine sc m = Ret (inl vm) →
  ∃ vm', CreateVirtualMachineFromMachine sc m' = Ret (inl vm').
Proof.
  intros Hn. unfold CreateVirtualMachineFromMachine, assertMandatoryParams, buildVMITemplate.
  rewrite Hn. intros Hvm.
  repeat match goal with
         | H : ?o ≫= _ = Ret _ |- _ => apply outcome_bind_ret in H as (? & -> & H); simpl
         | |- context [match ?x with _ => _ end] => destruct x; simpl; try discriminate
         end.
  all: by eexists.
Qed.

Lemma sound_standing m m' : standing m' = standing m → sound a m → sound a m'.
Proof.
  intros Hst (sc & vm & Hsc & Hvm). unfold standing in Hst. injection Hst as Hn Hl _ _ Hspec.
  destruct (build_by_name sc m m' vm Hn Hvm) as [vm' Hvm']. exists sc, vm'. split; [|done].
  unfold createMachineScope, CreateMachineScope in *. rewrite Hl, Hspec, Hn. exact Hsc.
Qed.

Lemma settled_standing m m' :
  standing m' = standing m → machineIsFailed m' = false → settled m → settled m'.
Proof.
  intros Hst Hnf [Hv Hk Hs Hf _]. pose proof Hst as Hst'. unfold standing in Hst'.
  injection Hst' as Hn Hl Hd Hfin Hspec. split; try done.
  - unfold Validate in *. by rewrite Hl, Hspec.
  - unfold under_deletion in *. by rewrite Hd.
  - by eapply sound_standing.
  - by rewrite Hfin.
Qed.

Lemma not_failed_phase m m' : phase m' = phase m → machineIsFailed m' = machineIsFailed m.
Proof. unfold machineIsFailed, phase. by intros ->. Qed.

Lemma settled_statics m m' ph :
  statics m' = statics m → phase m' = Some ph → ph ≠ phaseFailed → settled m → settled m'.
Proof.
  intros Hst Hph Hne. apply settled_standing; [by apply standing_statics|].
  unfold machineIsFailed. change (Mapi.Phase (Mapi.Status m')) with (phase m'). rewrite Hph.
  by apply bool_decide_eq_false_2.
Qed.

Lemma prospect_settled m : prospect a m → (stage m < 2)%nat → settled m.
Proof. intros [] Hst. split; try done. by apply stage_finalizer. Qed.
End settled.

(** ** The actuator, while the clusters are up *)
Section actuator.
Context {TW IW : Type} `{!TenantApi TW, !EventRecorder TW, !NodeApi TW, !MachineApi TW,
  !StatusConverter, !TenantView (TW:=TW), !TenantLaws (TW:=TW), !EventLaws TW,
  !MachineLaws (TW:=TW), !YamlLib}
  `{!InfraCluster.Client IW, !Resolver IW, !InfraCluster.ClientView (IW:=IW),
    !InfraCluster.ClientLaws (IW:=IW), !ResolverLaws IW}.
Context (upt : TW → Prop) `{!RunningTenant upt} (upi : IW → Prop) `{!RunningInfra upi}.
Context (a : actuator) (ns name : string).
Implicit Types (m st origin : Mapi.Machine) (t : TW) (i : IW).
Abbreviation world := (Actuator.world TW IW).
Abbreviation holding := (holding (IW:=IW) upt ns name).
Abbreviation vm_of i := (vm_at i (a_infraNamespace a) name).
Abbreviation stands := (vm_stands (a_infraNamespace a) name).
Abbreviation vm_ready := (vm_ready (a_infraNamespace a) name).
Abbreviation providerID := (FormatProviderID (a_infraNamespace a) name).

(** Both patches go through, and the machine in hand is the stored one. *)
Lemma live_patchMachine origin m st t i :
  machine_at t ns name = Some st → Mapi.GetNamespace m = ns → Mapi.GetName m = name →
  Mapi.MachineMeta st = Mapi.MachineMeta origin → Mapi.Spec st = Mapi.Spec origin →
  Meta.ResourceVersion (Mapi.MachineMeta m) = Meta.ResourceVersion (Mapi.MachineMeta origin) →
  finalizers m = finalizers origin → upt t →
  wp (on_tenant (patchMachine origin))
    (λ r w', r = None ∧ holding w'.1 i w' ∧ statics w'.1 = statics m ∧
       status_merges (Mapi.Status origin) (Mapi.Status m) (Mapi.Status st) (Mapi.Status w'.1))
    no_panic (m, (t, i)).
Proof.
  intros Hat Hns Hn Hmeta Hspec Hrv Hf Hup. unfold on_tenant, patchMachine. do 4 go_step. simpl. go_step.
  eapply wp_mono; [apply (live_Patch (up:=upt) origin m st t)| |done];
    rewrite ?Hns, ?Hn; try done; [by rewrite Hmeta|].
  intros r [m1 t1] (-> & Hup1 & Hat1 & rv & ->). cbv iota. do 3 go_step. simpl. go_step.
  set (m2 := Mapi.set_Status _ _). set (st2 := stamped rv (patched m st)) in *.
  eapply wp_mono; [apply (live_Status_Patch_merges (up:=upt) origin m2 st2 t1)| |done]; try done.
  { change (machine_at t1 (Mapi.GetNamespace m) (Mapi.GetName m) = Some st2). by rewrite Hns, Hn. }
  intros r [m' t'] (-> & Hup' & Hat' & Hst' & Hm'). go_step. cbn [fst snd].
  change (Mapi.GetNamespace m2) with (Mapi.GetNamespace m) in Hat'.
  change (Mapi.GetName m2) with (Mapi.GetName m) in Hat'. rewrite Hns, Hn in Hat'.
  split_and!; try done. by apply (holding_stored upt ns name i (m', (t', i))).
Qed.

(** Events and errors keep the machine in hand. *)
Definition keeps (st : Mapi.Machine) i (w w' : world) : Prop := holding st i w' ∧ w'.1 = w.1.

Lemma live_event m ty reason msg st i w (Q : unit → world → Prop) E :
  holding st i w → (∀ w', keeps st i w w' → Q tt w') →
  wp (in_tenant (Event m ty reason msg)) Q E w.
Proof.
  intros Hw HQ. eapply wp_holding; [apply quiet_Event|apply live_Event|exact Hw|].
  intros [] w' _ Hw' Hm. by apply HQ.
Qed.

Lemma live_failed action e st i w (Q : option goerror → world → Prop) E :
  holding st i w → (∀ e' w', keeps st i w w' → Q (Some e') w') →
  wp (failed action e) Q E w.
Proof.
  intros Hw HQ. unfold failed, handleMachineError. apply wp_bind, wp_bind, wp_the_machine.
  apply wp_bind. eapply live_event; [exact Hw|]. intros w' Hw'. do 2 go_step. by apply HQ.
Qed.

(** *** Create *)
Definition hosted (w : TW * IW) : Prop :=
  (∃ st, machine_at w.1 ns name = Some st ∧ settled a st) ∧ stands w.2.

Lemma keeps_hosted st i w w' :
  keeps st i w w' → settled a st → stands i → hosted w'.2.
Proof. intros [(_ & Hat & _ & Hi) _] Hst Hvm. split; [by exists st|by rewrite Hi]. Qed.

(** The machine after the patches, when its phase was left alone. *)
Lemma patched_settled origin m st m' :
  settled a st → standing origin = standing st → same_or_synced a name origin m →
  statics m' = statics m →
  status_merges (Mapi.Status origin) (Mapi.Status m) (Mapi.Status st) (Mapi.Status m') →
  phase origin = phase st → settled a m'.
Proof.
  intros Hst Ho Hm Hm' Hs Hph. eapply settled_standing; [| |exact Hst].
  - rewrite (standing_statics m m' Hm'), <-Ho. destruct Hm as [->|(vm & ad & ->)]; [done|].
    apply standing_synced.
  - rewrite <-(set_not_failed _ _ Hst). apply not_failed_phase.
    destruct Hs as (_ & _ & _ & _ & _ & _ & [Hkeep _] & _). apply Hkeep.
    destruct Hm as [->|(vm & ad & ->)]; [done|]. by destruct ad.
Qed.

Lemma same_or_synced_names origin m :
  same_or_synced a name origin m → Mapi.GetNamespace m = Mapi.GetNamespace origin ∧
  Mapi.GetName m = Mapi.GetName origin ∧ finalizers m = finalizers origin ∧
  Meta.ResourceVersion (Mapi.MachineMeta m) = Meta.ResourceVersion (Mapi.MachineMeta origin).
Proof. by intros [->|(vm & ad & ->)]. Qed.

Lemma live_hosted_Create st cs t i :
  prospect a st → (stage st < 2)%nat → machine_at t ns name = Some st →
  user_data_ready a ns name st t → upt t → upi i → vm_of i = None →
  isecret_at i (a_infraNamespace a) (buildIgnitionSecretName name) = None →
  wp (Actuator.Create a) (λ _ w', hosted w'.2) no_panic
    (Mapi.set_Conditions cs st, (t, i) : TW * IW).
Proof.
  intros Hp Hst Hat Hdata Hupt Hupi Hvm Hsec. pose proof (prospect_settled a st Hp Hst) as Hset.
  destruct (machine_at_named _ _ _ _ Hat) as [Hns Hn].
  apply (wp_live_Create upt upi a ns name); try done. intros m1 i1 [ready err] Hcr Hm1.
  destruct (same_or_synced_names _ _ Hm1) as (Hns1 & Hn1 & Hf1 & Hrv1). unfold create_tail. go_step.
  eapply wp_mono; [apply (live_patchMachine (Mapi.set_Conditions cs st) m1 st t i1)| |done];
    rewrite ?Hns1, ?Hn1, ?Hf1, ?Hrv1; try done.
  intros r w' (-> & Hw' & Hst' & Hmerge). cbv iota.
  assert (settled a w'.1) as Hset' by by apply (patched_settled (Mapi.set_Conditions cs st) m1 st).
  destruct err as [e|].
  - eapply live_failed; [exact Hw'|]. intros e' w2 Hw2. by eapply keeps_hosted.
  - apply wp_bind, wp_the_machine, wp_bind. eapply live_event; [exact Hw'|].
    intros w2 Hw2. go_step. by eapply keeps_hosted.
Qed.

(** *** Update *)
Definition updated st i (err : option goerror) (w' : world) : Prop :=
  holding w'.1 w'.2.2 w' ∧ settled a w'.1 ∧ stands w'.2.2 ∧
  Mapi.NodeRef (Mapi.Status w'.1) = Mapi.NodeRef (Mapi.Status st) ∧
  Mapi.Conditions (Mapi.Status w'.1) = Mapi.Conditions (Mapi.Status st) ∧
  (err = None → Mapi.ProviderID (Mapi.Spec w'.1) = Some providerID) ∧
  (vm_ready i → vm_ready w'.2.2 ∧ err = None).

Lemma keeps_updated st i err w w' :
  updated st i err w → keeps w.1 w.2.2 w w' → updated st i err w'.
Proof.
  intros (_ & Hrest) [(Hcs & Hat & Hup & Hi) Hm]. unfold updated. rewrite Hm, Hi. by split.
Qed.

Lemma live_provider_Update st t i :
  settled a st → machine_at t ns name = Some st → upt t → upi i → stands i →
  wp (Actuator.Update a) (updated st i) no_panic (st, (t, i) : TW * IW).
Proof.
  intros Hset Hat Hupt Hupi Hvm. destruct (machine_at_named _ _ _ _ Hat) as [Hns Hn].
  destruct (set_sound _ _ Hset) as (sc & vm & Hsc & Hbuild).
  destruct (createMachineScope_scope a st sc Hsc) as [Hins _].
  unfold Actuator.Update. apply wp_bind, wp_the_machine. cbn [fst]. rewrite Hsc.
  go_step. unfold on_infra. go_step. cbn [fst snd].
  eapply wp_mono; [apply wp_and; [apply (live_manager_Update upi sc st vm i); rewrite ?Hins, ?Hn; done
                                 |apply Update_spec]| |by intros ? ? []].
  rewrite Hins, Hn. intros [[wasUpdated ready] err] [m1 i1] [[Hvm1 Hready] Herr].
  cbn [fst snd] in *. go_step.
  assert (same_or_synced a name st m1 ∧
          (err = None → Mapi.ProviderID (Mapi.Spec m1) = Some providerID)) as [Hm1 Hid].
  { destruct err as [e|]; [by destruct Herr as (_ & -> & _); split; [left|]|].
    destruct Herr as (old & vm' & ad & _ & _ & _ & _ & -> & _). by split; [right; exists vm', ad|]. }
  destruct (same_or_synced_names _ _ Hm1) as (Hns1 & Hn1 & Hf1 & Hrv1).
  eapply wp_mono; [eapply (live_patchMachine st m1 st t i1)| |done];
    rewrite ?Hns1, ?Hn1, ?Hf1, ?Hrv1; try done.
  intros r w' (-> & Hw' & Hst' & Hmerge). cbv iota.
  assert (updated st i err w') as Hup.
  { assert (w'.2.2 = i1) as Hi by by destruct Hw' as (_ & _ & _ & ?).
    unfold updated. rewrite Hi. split; [done|]. split; [by apply (patched_settled st m1 st)|].
    split; [done|]. destruct Hmerge as ([_ Hnode] & _ & _ & _ & _ & _ & _ & [_ Hcond]).
    rewrite Hnode, Hcond by done.
    assert (Mapi.Spec w'.1 = Mapi.Spec m1) as Hspec by by apply (f_equal snd) in Hst'.
    rewrite Hspec. split_and!; [| |done|by intros (? & ? & _)%Hready];
      (destruct Hm1 as [->|(vm' & ad & ->)]; [done|by destruct ad]). }
  destruct err as [e|].
  - eapply live_failed; [exact (proj1 Hup)|]. intros e' w2 Hw2.
    destruct Hup as (Hh & Hset2 & Hvm2 & Hnode & Hcond & _ & Hr).
    eapply keeps_updated; [|exact Hw2]. split_and!; try done. by intros [_ ?]%Hr.
  - apply wp_bind, wp_the_machine, wp_bind.
    assert (∀ w2, updated st i None w2 →
      wp (mret (if ready then None else Some not_ready_error)) (updated st i) no_panic w2) as Hend.
    { intros w2 (Hh & Hset2 & Hvm2 & Hnode & Hcond & Hid2 & Hr). go_step. split_and!; try done.
      - by destruct ready; [|done].
      - intros Hi. destruct (Hr Hi). split; [done|]. by destruct (Hready Hi) as (_ & _ & ->). }
    destruct wasUpdated; [|go_step; by apply Hend].
    eapply live_event; [exact (proj1 Hup)|]. intros w2 Hw2. apply Hend.
    by eapply keeps_updated.
Qed.

(** *** The controller *)

(** The virtual machine is ready, with its instance, and the machine has its
    node. *)
Definition linked (w : TW * IW) : Prop :=
  (∃ st, machine_at w.1 ns name = Some st ∧ is_Some (Mapi.NodeRef (Mapi.Status st))) ∧
  vm_ready w.2.

(** The machine runs, and says which virtual machine it is. *)
Definition running_now (w : TW * IW) : Prop :=
  ∃ st, machine_at w.1 ns name = Some st ∧ phase st = Some phaseRunning ∧
        Mapi.ProviderID (Mapi.Spec st) = Some providerID.

(** A phase is stored for a machine that is on its way, and it stays there. *)
Lemma live_phase ph orig st i w (Q : option goerror → world → Prop) :
  ph ≠ phaseFailed → orig = Mapi.Conditions (Mapi.Status st) → holding st i w →
  settled a st → stands i →
  (∀ w', hosted w'.2 → upt w'.2.1 → phase_stored upt ns name ph st i None w' → Q None w') →
  wp (updateStatus ph None orig) Q no_panic w.
Proof.
  intros Hph -> Hw Hset Hvm HQ. eapply wp_mono; [by apply (live_updateStatus upt ns name)| |done].
  intros r w' Hp. pose proof Hp as (-> & Hi & Hup & Hat & Hstat & Hphase & _). apply HQ; [|done..].
  split; [|by rewrite Hi]. exists w'.1. split; [done|]. by eapply settled_statics.
Qed.

Lemma not_failed_deref st :
  settled a st → stringPointerDeref (phase st) ≠ phaseFailed.
Proof. intros Hset. pose proof (set_not_failed _ _ Hset) as Hnf. by apply bool_decide_eq_false in Hnf. Qed.

#[export] Instance running_now_dec w : Decision (running_now w).
Proof.
  unfold running_now. destruct (machine_at w.1 ns name) as [st|] eqn:Hat.
  - destruct (decide (phase st = Some phaseRunning ∧
                      Mapi.ProviderID (Mapi.Spec st) = Some providerID)) as [Hd|Hd].
    + left. by exists st.
    + right. intros (st' & Hst & Hd'). by simplify_eq.
  - right. by intros (? & ? & _).
Defined.

(** A machine without a virtual machine does not run. *)
Lemma waiting_not_running k w : waiting a ns name k w → ¬ running_now w.
Proof.
  intros [(st & Hat & Hp & _) _] (st' & Hat' & _ & Hid). simplify_eq.
  pose proof (pro_unprovisioned _ _ Hp) as Hup. unfold machineIsProvisioned in Hup.
  rewrite Hid, orb_true_r in Hup. done.
Qed.

Lemma live_reconcile_exists st t i :
  settled a st → machine_at t ns name = Some st → upt t → upi i → stands i →
  wp (reconcile_exists (Some (provider a)) (Mapi.Conditions (Mapi.Status st)))
    (λ _ (w' : world), (hosted w'.2 ∧ upt w'.2.1) ∧
       (linked (t, i) → linked w'.2 ∧ running_now w'.2))
    no_panic (st, (t, i)).
Proof.
  intros Hset Hat Hupt Hupi Hvm. unfold reconcile_exists, call. apply wp_bind.
  eapply wp_mono; [by apply live_provider_Update| |done].
  intros err w1 (Hh & Hset1 & Hvm1 & Hnode & Hcond & Hid & Hready). set (m1 := w1.1) in *.
  set (i1 := w1.2.2) in *. destruct err as [e|].
  - apply wp_bind. unfold updateStatus_same.
    eapply (holding_the_machine upt ns name); [exact Hh|]. intros cs Hcs.
    change (Mapi.Phase (Mapi.Status (Mapi.set_Conditions cs m1))) with (phase m1).
    eapply live_phase; [by apply not_failed_deref|by rewrite Hcond|done..|].
    intros w2 Hhost Hup _. go_step. split; [done|]. by intros [_ [_ ?]%Hready].
  - apply wp_bind. eapply wp_holding; [apply quiet_now|apply (live_now (up:=upt))|exact Hh|].
    intros z w2 _ Hw2 _. apply wp_bind. unfold change_machine.
    destruct w2 as [m2 [t2 i2]]. do 2 go_step. cbn [fst snd].
    set (w3 := (conditions.MarkTrue z conditions.InstanceExistsCondition m2, (t2, i2)) : world).
    assert (holding m1 i1 w3) as Hw3.
    { destruct Hw2 as ([cs Hcs] & Hrest). split; [|exact Hrest]. cbn [fst] in *. subst m2. by eexists. }
    eapply (holding_the_machine upt ns name); [exact Hw3|]. intros cs Hcs.
    assert (machineIsProvisioned (Mapi.set_Conditions cs m1) = true) as ->.
    { unfold machineIsProvisioned. change (Mapi.Spec (Mapi.set_Conditions cs m1)) with (Mapi.Spec m1).
      rewrite (Hid eq_refl). apply orb_true_r. }
    cbn [negb]. unfold machineHasNode.
    change (Mapi.NodeRef (Mapi.Status (Mapi.set_Conditions cs m1)))
      with (Mapi.NodeRef (Mapi.Status m1)). rewrite Hnode.
    case_bool_decide as Hn; cbn [negb]; apply wp_bind.
    + eapply (live_phase phaseRunning); [done|by rewrite Hcond|done..|].
      intros w4 Hhost Hup (_ & Hi4 & _ & Hat4 & Hst4 & Hph4 & Hwh4). go_step. split; [done|].
      intros [_ [Hvr _]%Hready]. injection Hwh4 as _ Hnode4. split; [split|].
      * exists w4.1. split; [done|]. by rewrite Hnode4, Hnode.
      * by rewrite Hi4.
      * exists w4.1. split_and!; try done. apply (f_equal snd) in Hst4.
        change (Mapi.Spec w4.1 = Mapi.Spec m1) in Hst4. by rewrite Hst4, Hid.
    + eapply (live_phase phaseProvisioned); [done|by rewrite Hcond|done..|].
      intros w4 Hhost Hup _. go_step. split; [done|]. intros [(st' & Hst' & ?) _]. cbn [fst] in Hst'.
      rewrite Hat in Hst'. by simplify_eq.
Qed.

Abbreviation Reconcile := (Reconcile (Some (provider a)) ns name).

Lemma live_hosted t i :
  hosted (t, i) → upt t → upi i →
  wp Reconcile
    (λ _ w', (hosted w' ∧ upt w'.1) ∧ (linked (t, i) → linked w' ∧ running_now w'))
    no_panic (t, i).
Proof.
  intros [(st & Hat & Hset) Hvm] Hupt Hupi. cbn [fst snd] in *.
  destruct (machine_at_named _ _ _ _ Hat) as [_ Hn].
  apply (live_read upt a ns name st); [done..|].
  unfold reconcile_machine. apply wp_bind, wp_the_machine. cbn [fst]. rewrite (set_valid _ _ Hset).
  pose proof (set_kept _ _ Hset) as Hk. unfold under_deletion in Hk. destruct (time_IsZero _); [|done].
  pose proof (set_finalizer _ _ Hset) as Hf. apply Contains_spec in Hf. unfold finalizers in Hf.
  rewrite Hf. cbn [negb]. unfold reconcile_present. apply wp_bind, wp_the_machine. cbn [fst].
  rewrite (set_not_failed _ _ Hset). apply wp_bind.
  eapply wp_mono; [by apply (live_provider_Exists upi a name)| |done].
  intros _ w2 [-> ->]. cbn beta iota zeta.
  rewrite bool_decide_eq_true_2 by by apply vm_stands_there.
  by apply live_reconcile_exists.
Qed.
End actuator.

(** ** Runs

    At each turn the machine is reconciled while the clusters are up, or
    others act.  They leave a machine that is wanted as it is, and one that
    has its virtual machine; they may make the virtual machine ready and give
    the machine its node, which happens some day, and then leave that too.
    Until the machine runs, turns of the controller keep coming.  The tenant
    cluster has the user data. *)
Record running_run {TW IW} `{!TenantApi TW, !EventRecorder TW, !NodeApi TW, !MachineApi TW,
    !StatusConverter, !TenantView (TW:=TW), !YamlLib, !InfraCluster.Client IW, !Resolver IW,
    !InfraCluster.ClientView (IW:=IW)}
    (upt : TW → Prop) (upi : IW → Prop) (a : actuator) (ns name : string)
    (turn : nat → bool) (run : nat → TW * IW) : Prop := {
  running_reconcile n : turn n = true →
    upt (run n).1 ∧ upi (run n).2 ∧
    ∃ o, Reconcile (Some (provider a)) ns name (run n) = (o, run (S n));
  running_outside n : turn n = false →
    (∀ k, waiting a ns name k (run n) → waiting a ns name k (run (S n))) ∧
    (hosted a ns name (run n) → hosted a ns name (run (S n))) ∧
    (linked a ns name (run n) → linked a ns name (run (S n)));
  running_turns n : ¬ running_now a ns name (run n) → ∃ k, (n ≤ k)%nat ∧ turn k = true;
  running_links : leads_to run (hosted a ns name) (linked a ns name);
  running_data n st t : machine_at (run n).1 ns name = Some st → upt t →
    user_data_ready a ns name st t
}.

Section properties.
Context {TW IW : Type} `{!TenantApi TW, !EventRecorder TW, !NodeApi TW, !MachineApi TW,
  !StatusConverter, !TenantView (TW:=TW), !TenantLaws (TW:=TW), !EventLaws TW,
  !MachineLaws (TW:=TW), !YamlLib}
  `{!InfraCluster.Client IW, !Resolver IW, !InfraCluster.ClientView (IW:=IW),
    !InfraCluster.ClientLaws (IW:=IW), !ResolverLaws IW}.
Context (upt : TW → Prop) (upi : IW → Prop) (a : actuator) (ns name : string).
Context (turn : nat → bool) (run : nat → TW * IW)
  (Hrun : running_run upt upi a ns name turn run).
Abbreviation hosted := (hosted a ns name).
Abbreviation linked := (linked a ns name).
Abbreviation running_now := (running_now a ns name).

Section steps.
Context `{!RunningTenant upt, !RunningInfra upi}.

Lemma hosted_turn n :
  turn n = true → hosted (run n) →
  hosted (run (S n)) ∧ (linked (run n) → linked (run (S n)) ∧ running_now (run (S n))).
Proof.
  intros Ht Hh. destruct (running_reconcile _ _ _ _ _ _ _ Hrun n Ht) as (Hupt & Hupi & o & Ho).
  destruct (run n) as [t i]. cbn [fst snd] in *.
  pose proof (live_hosted upt upi a ns name t i Hh Hupt Hupi) as Hwp.
  unfold wp in Hwp. rewrite Ho in Hwp. destruct o; [|done]. by destruct Hwp as [[? _] ?].
Qed.

Lemma hosted_stable : stable run hosted.
Proof.
  intros n Hh. destruct (turn n) eqn:Ht; [by apply hosted_turn|].
  by apply (running_outside _ _ _ _ _ _ _ Hrun n Ht).
Qed.

Lemma both_stable : stable run (λ w, hosted w ∧ linked w).
Proof.
  intros n [Hh Hl]. split; [by apply hosted_stable|]. destruct (turn n) eqn:Ht.
  - by apply (hosted_turn n Ht Hh).
  - by apply (running_outside _ _ _ _ _ _ _ Hrun n Ht).
Qed.

Lemma waiting_hosted k : leads_to run (waiting a ns name k) hosted.
Proof.
  apply (measure_ends turn run (waiting a ns name)).
  - intros n j Ht Hw. left. by apply (running_outside _ _ _ _ _ _ _ Hrun n Ht).
  - intros n j Ht Hw.
    destruct (running_reconcile _ _ _ _ _ _ _ Hrun n Ht) as (Hupt & Hupi & o & Ho).
    pose proof (running_data _ _ _ _ _ _ _ Hrun n) as Hdata.
    destruct (run n) as [t i]. cbn [fst snd] in *.
    eassert (wp (Reconcile (Some (provider a)) ns name)
      (λ _, advanced a ns name hosted j) no_panic (t, i)) as Hwp.
    { apply (waiting_advances upt upi); try done.
      intros. by apply (live_hosted_Create upt upi a ns name). }
    unfold wp in Hwp. rewrite Ho in Hwp. destruct o; [apply Hwp|by destruct Hwp].
  - intros n j Hw. by eapply (running_turns _ _ _ _ _ _ _ Hrun), waiting_not_running.
Qed.

Lemma waiting_linked k : leads_to run (waiting a ns name k) (λ w, hosted w ∧ linked w).
Proof.
  eapply leads_to_trans; [apply waiting_hosted|]. apply leads_to_stable; [apply hosted_stable|].
  apply (running_links _ _ _ _ _ _ _ Hrun).
Qed.

Lemma linked_runs : leads_to run (λ w, hosted w ∧ linked w) (λ w, (hosted w ∧ linked w) ∧ running_now w).
Proof.
  apply leads_to_stable; [apply both_stable|]. intros n Hn.
  destruct (decide (running_now (run n))) as [Hr|Hr]; [by exists n|].
  destruct (running_turns _ _ _ _ _ _ _ Hrun n Hr) as (k & Hle & Hk).
  destruct (stable_later run _ n k both_stable Hle Hn) as [Hh Hl].
  exists (S k). split; [lia|]. by apply (hosted_turn k Hk Hh).
Qed.
End steps.

(** C7: A machine that is wanted, whose virtual machine can be built, and of
    which no virtual machine and no ignition secret are left over, runs in the
    end: in a run in which the controller comes to it while the clusters are
    up and its user data is there, in which others leave it and its virtual
    machine alone, and in which the virtual machine, once created, becomes
    ready some day and the machine gets its node, the phase Running and the
    provider ID of the virtual machine are stored some day.  From then on the machine keeps its virtual
    machine, and every further reconciliation stores the same again. *)
Theorem machine_runs (Ht : RunningTenant upt) (Hi : RunningInfra upi)
    (Hstart : waiting a ns name 2 (run 0%nat)) :
  ∃ n, running_now (run n) ∧
       ∀ k, (n ≤ k)%nat → hosted (run k) ∧ (turn k = true → running_now (run (S k))).
Proof.
  destruct (leads_to_trans run _ _ _ (waiting_linked 2) linked_runs 0%nat Hstart)
    as (n & _ & Hb & Hr).
  exists n. split; [done|]. intros k Hle.
  destruct (stable_later run _ n k both_stable Hle Hb) as [Hh Hl]. split; [done|].
  intros Hk. by apply (hosted_turn k Hk Hh).
Qed.
End properties.

(** ** On the reference clusters *)
#[export] Instance running_tenant P `{!Unwritten P} : RunningTenant P.
Proof.
  split; [apply _|..].
  - intros origin m st t ns name Ht Hst Hmeta Hspec Hrv _. unfold wp. simpl in *. unfold tenant_patch.
    subst ns name. rewrite Hst, bool_decide_eq_true_2 by by right.
    unfold stored_next. rewrite merge_main_stored by done. split_and!; [done|by apply unwritten| |by eexists].
    by apply stored_machine_insert.
  - intros origin m st t ns name Ht Hst Hmeta Hspec. unfold wp. simpl in *. unfold tenant_patch.
    subst ns name. rewrite Hst, bool_decide_eq_true_2 by (right; unfold version; by rewrite Hmeta). destruct (stored_machine_named _ _ _ _ Hst).
    split_and!; [done|by apply unwritten|by apply stored_machine_insert| |].
    + unfold statics, stored_next, stamped, merge_patched. simpl. rewrite Hmeta, Hspec.
      by destruct (Mapi.MachineMeta m).
    + cbn [Mapi.Status stored_next stamped merge_patched].
      unfold status_merges, merges, merge_status, merge_field. cbn.
      split_and!; intros ->; by repeat case_decide.
Qed.

#[export] Instance running_server : RunningInfra (λ _ : server, True).
Proof.
  split; [apply creating_server|..].
  - intros ns vm old w _ Hold Hrv. unfold wp. simpl in *.
    unfold client.UpdateVirtualMachine, client.updateResource, mbind, go_bind. simpl.
    unfold server_Update. rewrite server_object_vm in Hold |- *.
    destruct (s_vms w !! (ns, KV.vm_Name vm)) as [vm0|]; [|done]. simpl in *. injection Hold as <-.
    rewrite bool_decide_eq_true_2 by (by right). simpl.
    split; [by eexists|done].
  - intros ns name options w _. unfold wp. simpl.
    unfold client.GetVirtualMachineInstance, client.getResource, mbind, go_bind. simpl.
    unfold server_Get. unfold server_object. rewrite decide_False, decide_True by done.
    by destruct (s_vmis w !! (ns, name)).
  - by intros name w _.
Qed.

(** Three reconciliations of the example machine create its virtual machine;
    then it becomes ready, and the node is linked; the next reconciliation
    finds the machine running. *)
Definition link_node (m : Mapi.Machine) : Mapi.Machine :=
  let s := Mapi.Status m in
  Mapi.set_Status (Mapi.MkMachineStatus (Some "worker-0") (Mapi.LastUpdated s) (Mapi.ErrorReason s)
    (Mapi.ErrorMessage s) (Mapi.ProviderStatus s) (Mapi.Addresses s) (Mapi.Phase s)
    (Mapi.Conditions s)) m.
Definition start_vm (vm : KV.VirtualMachine) : KV.VirtualMachine :=
  KV.MkVM (KV.VMType vm) (KV.VMMeta vm) (KV.VMSpec vm) (KV.MkVMStatus true true [] []).
Definition others (w : tenant * server) : tenant * server :=
  (set_machines (fmap link_node) w.1,
   MkServer (start_vm <$> s_vms w.2) {[ ("infra", "worker-0") := KV.MkVMI Meta.noType Meta.empty ]}
     (s_secrets w.2) {[ "worker-0" := [[10; 0; 0; 1]] ]} (s_autostart w.2)).

Definition running_turn (n : nat) : bool := (n <? 5)%nat && negb (n =? 3)%nat.
Fixpoint running_example (n : nat) : tenant * server :=
  match n with
  | O => (tenant_with example_machine, empty_server)
  | S n =>
      let w := running_example n in
      if running_turn n then (reconcile_example w).2 else if (n =? 3)%nat then others w else w
  end.

Example running_example_phases :
  map (λ n, (example_phase (running_example n),
             bool_decide (is_Some (vm_at (running_example n).2 "infra" "worker-0"))))
    [0; 1; 2; 3; 4; 5]%nat =
  [(Some None, false); (Some None, false); (Some (Some "Provisioning"), false);
   (Some (Some "Provisioning"), true); (Some (Some "Provisioning"), true);
   (Some (Some "Running"), true)].
Proof. vm_compute. reflexivity. Qed.

Lemma running_example_end n : running_example (5 + n) = running_example 5.
Proof.
  induction n as [|n IH]; [done|]. rewrite <-IH. change (5 + S n)%nat with (S (5 + n)).
  cbn [running_example]. unfold running_turn. by destruct n.
Qed.

Lemma running_last n : (5 ≤ n)%nat → running_example n = running_example 5.
Proof. apply (last_worlds running_example), running_example_end. Qed.

Lemma running_worlds P : Forall (λ n, P (running_example n)) (seq 0 6) → ∀ n, P (running_example n).
Proof. apply (first_worlds running_example), running_example_end. Qed.

Abbreviation example_linked := (linked example_actuator machine_ns "worker-0").
Abbreviation example_hosted := (hosted example_actuator machine_ns "worker-0").

Lemma linked_by_computation w :
  match machine_at w.1 machine_ns "worker-0", vm_at w.2 "infra" "worker-0",
        vmi_at w.2 "infra" "worker-0" with
  | Some st, Some vm, Some _ =>
      bool_decide (is_Some (Mapi.NodeRef (Mapi.Status st))) && KV.Ready (KV.VMStatus vm)
  | _, _, _ => false
  end = true → example_linked w.
Proof.
  unfold linked, vm_ready. change (a_infraNamespace example_actuator) with "infra".
  destruct (machine_at _ _ _) as [st|]; [|done]. destruct (vm_at _ _ _) as [vm|]; [|done].
  destruct (vmi_at _ _ _) as [vmi|]; [|done]. intros [Hn%bool_decide_eq_true Hr]%andb_prop.
  split; [by exists st|]. split; [by exists vm|by eexists].
Qed.

Lemma running_example_linked n : (4 ≤ n)%nat → example_linked (running_example n).
Proof.
  intros Hn. destruct (decide (n = 4)%nat) as [->|].
  - apply linked_by_computation. vm_compute. reflexivity.
  - rewrite running_last by lia. apply linked_by_computation. vm_compute. reflexivity.
Qed.

Lemma hosted_by_computation w :
  match machine_at w.1 machine_ns "worker-0" with
  | Some st =>
      bool_decide (Validate st = []) && negb (under_deletion st) && negb (machineIsFailed st) &&
      bool_decide (Mapi.MachineFinalizer ∈ finalizers st) &&
      match createMachineScope example_actuator st with
      | inl sc => match CreateVirtualMachineFromMachine sc st with Ret (inl _) => true | _ => false end
      | inr _ => false
      end && bool_decide (vm_stands "infra" "worker-0" w.2)
  | None => false
  end = true → example_hosted w.
Proof.
  unfold hosted. change (a_infraNamespace example_actuator) with "infra".
  destruct (machine_at _ _ _) as [st|]; [|done].
  intros [[[[[Hv Hk]%andb_prop Hnf]%andb_prop Hf]%andb_prop Hs]%andb_prop Hvm]%andb_prop.
  apply bool_decide_eq_true in Hv, Hf, Hvm. apply negb_true_iff in Hk, Hnf.
  split; [|done]. exists st. split; [done|]. split; try done. by apply sound_by_computation.
Qed.

Lemma running_example_run :
  running_run has_secrets (λ _, True) example_actuator machine_ns "worker-0"
    running_turn running_example.
Proof.
  split.
  - intros n Hn. split; [|split; [done|]].
    + apply (running_worlds (λ w, has_secrets w.1)). repeat constructor; vm_compute; reflexivity.
    + cbn [running_example]. rewrite Hn. eexists. apply surjective_pairing.
  - intros n Hn. destruct (decide (5 ≤ n)%nat) as [Hle|Hlt].
    { rewrite (running_last n Hle), (running_last (S n)) by lia.
      split; [exact (λ _ Hx, Hx)|split; exact (λ Hx, Hx)]. }
    assert (n = 3)%nat as ->.
    { unfold running_turn in Hn. destruct n as [|[|[|[|[|n]]]]]; [done..|lia]. }
    split_and!.
    + intros k (_ & Hvm & _). exfalso. vm_compute in Hvm. discriminate Hvm.
    + intros _. apply hosted_by_computation. vm_compute. reflexivity.
    + intros _. apply running_example_linked. lia.
  - intros n Hr. destruct (decide (5 ≤ n)%nat) as [Hle|Hlt].
    + destruct Hr. rewrite running_last by done. apply (bool_decide_unpack _). vm_compute. reflexivity.
    + exists 4%nat. split; [lia|done].
  - intros n _. exists (4 + n)%nat. split; [lia|]. apply running_example_linked. lia.
  - intros n st t Hat. apply user_data_by_computation.
    assert (example_ready_b <$> machine_at (running_example n).1 machine_ns "worker-0" = Some true) as Hr.
    { apply (running_worlds (λ w, example_ready_b <$> machine_at w.1 machine_ns "worker-0" = Some true)).
      repeat constructor; vm_compute; reflexivity. }
    rewrite Hat in Hr. by injection Hr.
Qed.

Lemma machine_runs_witness :
  ∃ n, running_now example_actuator machine_ns "worker-0" (running_example n) ∧
       ∀ k, (n ≤ k)%nat → example_hosted (running_example k) ∧
         (running_turn k = true → running_now example_actuator machine_ns "worker-0"
                                    (running_example (S k))).
Proof.
  apply (machine_runs has_secrets (λ _ : server, True) example_actuator machine_ns "worker-0"
           running_turn running_example running_example_run (running_tenant _) running_server).
  split; [|vm_compute; split; reflexivity].
  eexists. split; [vm_compute; reflexivity|]. split; [|vm_compute; lia].
  split; [vm_compute; reflexivity..| |vm_compute; reflexivity|vm_compute; reflexivity].
  apply sound_by_computation. vm_compute. reflexivity.
Defined.
