(* ===== verification/System.v ===== *)
(** * The two controllers together

    The process runs the machine controller and the node controller on the
    same two clusters, for any number of machines and nodes.  Their
    reconciliations come in any order, with what others do in between.  None
    is in the way of the others: the node controller writes no machine and
    nothing on the infra cluster, the machine controller writes no node of a
    machine that is wanted, and machines do not see each other.  So a machine
    and its node come to agree on the provider ID. *)

From S2P Require Import Prelude GoStd GoErrors Json ApiTypes ProviderConfig TenantCluster.
From S2P Require Import UserData MachineScope InfraCluster InfraServer Kubevirt Actuator.
From S2P Require Import Conditions NodeUpdate MachineController TenantServer Runs MachineLifecycle.
From S2P Require Import Patches Neighbours Isolation Lifecycle Liveness NodeRuns Creation Running.
From Stdlib Require Import Ascii.
#[local] Open Scope Z_scope.

(** Who acts at a turn: a controller, on the machine or the node of this name,
    or somebody else. *)
Inductive actor := Machines (name : string) | Nodes (name : string) | Others.
#[export] Instance actor_eq_dec : EqDecision actor.
Proof. solve_decision. Defined.

(** ** What the node controller leaves alone *)
Section nodes.
Context {TW IW : Type} `{!TenantApi TW, !TenantView (TW:=TW), !TenantLaws (TW:=TW),
    !EventRecorder TW, !NodeApi TW, !NodeView (TW:=TW), !NodeLaws (TW:=TW),
    !MachineApi TW, !MachineLaws (TW:=TW)}
  `{!InfraCluster.Client IW, !InfraCluster.ClientView (IW:=IW),
    !InfraCluster.ClientLaws (IW:=IW)}.
Implicit Types (t : TW) (i : IW) (name : string).

(** A node that is updated is no machine. *)
Class NodesApart : Prop := quiet_node_Update n : quiet (node_Update n).

Lemma machines_kept `{!NodesApart} namespace name t i :
  wp (NodeUpdate.Reconcile namespace name) (λ _ w', machines_same t w'.1) no_panic (t, i).
Proof.
  unfold NodeUpdate.Reconcile. do 2 go_step. go_call node_Get_spec. intros [node|e] t1 [-> _].
  2: { by destruct (IsNotFound e); go_step. }
  do 2 go_step. go_call GetConfigMapValue_spec. intros [cMap|e] t1 [-> _]; [|by go_step].
  destruct (map_index cMap _) as [ns|]; [|by go_step].
  do 2 go_step. go_call (GetVirtualMachine_spec (IW:=IW)). intros [vm|e] i1 [-> _].
  - destruct (KV.Ready _); simpl; [|by go_step]. case_bool_decide; simpl; [|by go_step].
    do 2 go_step. go_call quiet_node_Update. intros r t' Hs. by destruct r; go_step.
  - destruct (IsNotFound e); [|by go_step]. do 2 go_step. go_call quiet_node_Delete.
    intros r t' Hs. by destruct r; go_step.
Qed.

Lemma node_turn_keeps `{!NodesApart} name t i o t' i' :
  NodeUpdate.Reconcile "" name (t, i) = (o, (t', i')) →
  i' = i ∧ machines_same t t' ∧ node_action name t i t'.
Proof.
  intros Ho. pose proof (wp_and _ _ _ _ _ _ (machines_kept "" name t i)
    (Reconcile_spec "" name t i)) as Hwp.
  unfold wp in Hwp. rewrite Ho in Hwp. destruct o as [[r err]|]; [|by destruct Hwp].
  by destruct Hwp as (? & -> & ? & _).
Qed.

(** Other nodes, and the configuration. *)
Lemma node_action_elsewhere name name' t i t' :
  node_action name' t i t' → name ≠ name' →
  node_at t' name = node_at t name ∧ infra_namespace t' = infra_namespace t.
Proof.
  assert (∀ name' o, node_becomes name' o t t' → name ≠ name' →
    node_at t' name = node_at t name ∧ infra_namespace t' = infra_namespace t) as Hb.
  { intros n o (_ & Ho & Hc) Hne. unfold infra_namespace. rewrite Hc. auto. }
  intros [[Hsame Hc]|nd ns Hnd _ _ [Hdel|(n & Hdel & _)]|nd ns vm Hnd _ _ _ _ (n & Hset & _)] Hne;
    [|by eauto..|].
  - unfold infra_namespace. by rewrite Hc.
  - eapply Hb; [exact Hset|]. by rewrite <-(node_at_named _ _ _ Hnd) in Hne.
Qed.

Lemma nodes_same_namespace t t' : nodes_same t t' → infra_namespace t' = infra_namespace t.
Proof. intros [_ Hc]. unfold infra_namespace. by rewrite Hc. Qed.

Lemma node_becomes_namespace name o t t' :
  node_becomes name o t t' → infra_namespace t' = infra_namespace t.
Proof. intros (_ & _ & Hc). unfold infra_namespace. by rewrite Hc. Qed.
End nodes.
#[global] Arguments NodesApart TW {_ _}.

(** ** A tenant cluster for both controllers

    While it is up both controllers are answered, and what the machine
    controller does for a machine that is wanted leaves the node and the
    configuration as they are. *)
Definition node_as {TW} `{!TenantView (TW:=TW), !NodeView (TW:=TW)} (up : TW → Prop)
    (name : string) (nd : option Core.Node) (infra : option string) (t : TW) : Prop :=
  up t ∧ node_at t name = nd ∧ infra_namespace t = infra.

Class SystemTenant {TW} `{!TenantApi TW, !EventRecorder TW, !NodeApi TW, !MachineApi TW,
    !TenantView (TW:=TW), !NodeView (TW:=TW)} (up : TW → Prop) := {
  system_running :: RunningTenant up;
  system_running_frame name nd infra : RunningTenant (node_as up name nd infra);
  system_nodes :: ReliableNodes up;
  system_addressed :: Addressed TW;
  system_apart :: NodesApart TW;
  system_merges :: MergeLaws TW;
  system_requests :: NodeRequests TW
}.

(** ** What the two bring about *)
Section agreement.
Context {TW IW : Type} `{!TenantApi TW, !EventRecorder TW, !NodeApi TW, !MachineApi TW,
  !StatusConverter, !TenantView (TW:=TW), !NodeView (TW:=TW), !TenantLaws (TW:=TW),
  !EventLaws TW, !NodeLaws (TW:=TW), !MachineLaws (TW:=TW), !YamlLib}
  `{!InfraCluster.Client IW, !Resolver IW, !InfraCluster.ClientView (IW:=IW),
    !InfraCluster.ClientLaws (IW:=IW), !ResolverLaws IW}.
Context (upt : TW → Prop) (upi : IW → Prop).
Context (a : actuator) (ns name : string).
Implicit Types (t : TW) (i : IW).
Abbreviation providerID := (FormatProviderID (a_infraNamespace a) name).
Abbreviation hosted := (hosted a ns name).
Abbreviation linked := (linked a ns name).
Abbreviation running_now := (running_now a ns name).
Abbreviation waiting := (waiting a ns name).

(** The node has the machine's provider ID. *)
Definition identified (w : TW * IW) : Prop :=
  ∃ nd, node_at w.1 name = Some nd ∧ Core.NodeProviderID nd = providerID.

(** The virtual machine is ready and its node has come: it has no provider ID
    yet, or the right one.  The controllers agree on the infra cluster's
    namespace. *)
Definition joined (w : TW * IW) : Prop :=
  linked w ∧ infra_namespace w.1 = Some (a_infraNamespace a) ∧
  ∃ nd, node_at w.1 name = Some nd ∧
        (Core.NodeProviderID nd = "" ∨ Core.NodeProviderID nd = providerID).

(** Where the machine is on its way, whatever happens to nodes. *)
Inductive machine_fact : (TW * IW → Prop) → Prop :=
  | fact_waiting k : machine_fact (waiting k)
  | fact_hosted : machine_fact hosted
  | fact_linked : machine_fact linked.

Lemma machine_fact_same P t t' i :
  machine_fact P → machines_same t t' → P (t, i) → P (t', i).
Proof.
  intros HP Hs. specialize (Hs ns name).
  destruct HP; unfold Running.hosted, Running.linked, Creation.waiting; cbn [fst snd]; by rewrite Hs.
Qed.

(** A reconciliation of another machine. *)
Lemma machine_fact_elsewhere `{!Addressed TW} P name' w w' o :
  machine_fact P → name' ≠ name →
  MachineController.Reconcile (Some (provider a)) ns name' w = (o, w') → P w → P w'.
Proof.
  intros HP Hne Ho. destruct w as [t i].
  pose proof (isolated_Reconcile a ns name' t i) as Hwp. unfold wp in Hwp. rewrite Ho in Hwp.
  assert (apart a ns name' (t, i) w') as Ha by by destruct o.
  apply (apart_belongings a ns name' ns name) in Ha; [|done].
  unfold belongings in Ha. cbn [fst snd] in Ha. injection Ha as Hm Hvm Hvmi Hs.
  destruct HP; unfold Running.hosted, Running.linked, Running.vm_ready, Creation.waiting, vm_stands; cbn [fst snd];
    by rewrite ?Hm, ?Hvm, ?Hvmi, ?Hs.
Qed.

(** And one whose machine has another node. *)
Lemma machine_turn_elsewhere `{!Addressed TW, !MergeLaws TW, !NodeRequests TW} name' t i w' o :
  name' ≠ name → refers_elsewhere ns name' name t →
  MachineController.Reconcile (Some (provider a)) ns name' (t, i) = (o, w') →
  (joined (t, i) → joined w') ∧ (identified (t, i) → identified w').
Proof.
  intros Hne Href Ho. pose proof (spared_Reconcile a ns name' name t i Href) as Hwp.
  unfold wp in Hwp. rewrite Ho in Hwp. assert (spared name t w'.1) as Hs by by destruct o.
  pose proof (spared_namespace _ _ _ Hs) as Hns. destruct Hs as [Hn _]. unfold joined, identified.
  cbn [fst snd]. rewrite Hn, Hns. split; [|done]. intros [Hl Hrest]. split; [|done].
  by apply (machine_fact_elsewhere linked name' (t, i) w' o); [constructor|..].
Qed.

(** A turn of the machine controller, seen from the node. *)
Lemma machine_turn_joined t i o w' :
  SystemTenant upt → RunningInfra upi → hosted (t, i) → joined (t, i) → upt t → upi i →
  MachineController.Reconcile (Some (provider a)) ns name (t, i) = (o, w') →
  (hosted w' ∧ joined w') ∧ running_now w' ∧ (identified (t, i) → identified w').
Proof.
  intros Ht Hi Hh (Hl & Hns & nd & Hnd & Hid) Hupt Hupi Ho. cbn [fst snd] in *.
  pose proof (system_running_frame (up:=upt) name (Some nd) (Some (a_infraNamespace a))) as Hf.
  assert (node_as upt name (Some nd) (Some (a_infraNamespace a)) t) as Hup by by split_and!.
  pose proof (live_hosted _ upi a ns name t i Hh Hup Hupi) as Hwp.
  unfold wp in Hwp. rewrite Ho in Hwp. destruct o as [r|]; [|done].
  destruct Hwp as [[Hh' (_ & Hnd' & Hns')] [Hl' Hr]]; [done|].
  split_and!; try done.
  - split_and!; [done..|]. by exists nd.
  - intros (nd' & Hnd2 & Hpid). cbn [fst] in Hnd2. simplify_eq. by exists nd.
Qed.

(** A turn of the node controller. *)
Lemma node_turn_joined t i o w' :
  NodesApart TW → hosted (t, i) → joined (t, i) →
  NodeUpdate.Reconcile "" name (t, i) = (o, w') →
  (hosted w' ∧ joined w') ∧ (identified (t, i) → identified w').
Proof.
  intros Hap Hh (Hl & Hns & nd & Hnd & Hid) Ho. destruct w' as [t' i'].
  destruct (node_turn_keeps _ _ _ _ _ _ Ho) as (-> & Hs & Hact).
  pose proof (machine_fact_same _ _ _ _ fact_hosted Hs Hh) as Hh'.
  pose proof (machine_fact_same _ _ _ _ fact_linked Hs Hl) as Hl'.
  unfold joined, identified. cbn [fst snd] in *.
  destruct Hact as [Hsame|nd' ns' Hnd' Hns' Hvm|nd' ns' vm Hnd' Hns' Hvm Hready Hempty Hset].
  - rewrite (nodes_same_namespace _ _ Hsame). destruct Hsame as [-> _].
    split_and!; eauto.
  - exfalso. destruct Hl as [_ [(vm & Hvm' & _) _]]. cbn [snd] in Hvm'. by simplify_eq.
  - destruct Hset as (n' & Hb & Hp). rewrite (node_becomes_namespace _ _ _ _ Hb).
    destruct Hb as [Hn' _]. change (node_Name (Core.set_NodeProviderID _ nd')) with (node_Name nd') in Hn'.
    rewrite (node_at_named _ _ _ Hnd') in Hn'. simplify_eq.
    change (Core.NodeProviderID n' = providerID) in Hp.
    split_and!; eauto.
Qed.

(** For another node. *)
Lemma node_turn_elsewhere name' t i o w' :
  NodesApart TW → name ≠ name' → hosted (t, i) → joined (t, i) →
  NodeUpdate.Reconcile "" name' (t, i) = (o, w') →
  (hosted w' ∧ joined w') ∧ (identified (t, i) → identified w').
Proof.
  intros Hap Hne Hh (Hl & Hns & Hnd) Ho. destruct w' as [t' i'].
  destruct (node_turn_keeps _ _ _ _ _ _ Ho) as (-> & Hs & Hact).
  pose proof (machine_fact_same _ _ _ _ fact_hosted Hs Hh) as Hh'.
  pose proof (machine_fact_same _ _ _ _ fact_linked Hs Hl) as Hl'.
  destruct (node_action_elsewhere name name' t i t' Hact Hne) as [Hn Hc].
  unfold joined, identified. cbn [fst snd] in *. rewrite Hn, Hc.
  split; [by split_and!|done].
Qed.

(** One that is answered identifies the node. *)
Lemma node_turn_identifies t i o w' :
  ReliableNodes upt → ReliableInfra upi → upt t → upi i → joined (t, i) →
  NodeUpdate.Reconcile "" name (t, i) = (o, w') → joined w' → identified w'.
Proof.
  intros Hrt Hri Hupt Hupi ((_ & (vm & Hvm & Hr) & _) & Hns & _) Ho (_ & _ & nd & Hnd & Hid).
  pose proof (live_node_follows upt upi "" name t i Hupt Hupi) as Hwp.
  unfold wp in Hwp. rewrite Ho in Hwp. destruct o as [r|]; [|done]. destruct Hwp as [_ Hon].
  exists nd. split; [done|]. destruct Hid as [Hid|]; [|done]. exfalso. eapply Hon; [|done|done].
  by exists (a_infraNamespace a), vm.
Qed.
End agreement.

(** ** Runs

    At each turn one of the controllers acts, for the machine or for another
    one, or somebody else does.  Others leave a machine that is wanted, one
    that has its virtual machine, one whose node has come and a node with its
    provider ID as they are; some day they make the virtual machine ready, and
    let its node come.  Other machines have other nodes: none that is under
    deletion refers to this one's.  Until the machine runs, turns of the machine
    controller keep coming for it, while the clusters are up; the node
    controller's turns keep coming, and again and again while the clusters are
    up. *)
Record system_run {TW IW} `{!TenantApi TW, !EventRecorder TW, !NodeApi TW, !MachineApi TW,
    !StatusConverter, !TenantView (TW:=TW), !NodeView (TW:=TW), !YamlLib,
    !InfraCluster.Client IW, !Resolver IW, !InfraCluster.ClientView (IW:=IW)}
    (upt : TW → Prop) (upi : IW → Prop) (a : actuator) (ns name : string)
    (who : nat → actor) (run : nat → TW * IW) : Prop := {
  sys_machines n name' : who n = Machines name' →
    ∃ o, MachineController.Reconcile (Some (provider a)) ns name' (run n) = (o, run (S n));
  sys_nodes n name' : who n = Nodes name' →
    ∃ o, NodeUpdate.Reconcile "" name' (run n) = (o, run (S n));
  sys_up n : who n = Machines name → upt (run n).1 ∧ upi (run n).2;
  sys_other_nodes n name' : who n = Machines name' → name' ≠ name →
    refers_elsewhere ns name' name (run n).1;
  sys_others n P : who n = Others →
    machine_fact a ns name P ∨ P = joined a ns name ∨ P = identified a name →
    P (run n) → P (run (S n));
  sys_machine_turns n : ¬ running_now a ns name (run n) →
    ∃ k, (n ≤ k)%nat ∧ who k = Machines name;
  sys_node_turns n : ∃ k, (n ≤ k)%nat ∧ who k = Nodes name ∧ upt (run k).1 ∧ upi (run k).2;
  sys_joins : leads_to run (hosted a ns name) (joined a ns name);
  sys_data n st t : machine_at (run n).1 ns name = Some st → upt t →
    user_data_ready a ns name st t
}.

Section properties.
Context {TW IW : Type} `{!TenantApi TW, !EventRecorder TW, !NodeApi TW, !MachineApi TW,
  !StatusConverter, !TenantView (TW:=TW), !NodeView (TW:=TW), !TenantLaws (TW:=TW),
  !EventLaws TW, !NodeLaws (TW:=TW), !MachineLaws (TW:=TW), !YamlLib}
  `{!InfraCluster.Client IW, !Resolver IW, !InfraCluster.ClientView (IW:=IW),
    !InfraCluster.ClientLaws (IW:=IW), !ResolverLaws IW}.
Context (upt : TW → Prop) (upi : IW → Prop) (a : actuator) (ns name : string).
Context (who : nat → actor) (run : nat → TW * IW)
  (Hrun : system_run upt upi a ns name who run).
Abbreviation hosted := (hosted a ns name).
Abbreviation joined := (joined a ns name).
Abbreviation running_now := (running_now a ns name).
Abbreviation identified := (identified a name).
Abbreviation machine_turn := (λ n, bool_decide (who n = Machines name)).

Section steps.
Context (Ht : SystemTenant upt) (Hi : RunningInfra upi).

(** For one machine all the others, and the node controller, are others. *)
Lemma fact_kept n P :
  who n ≠ Machines name → machine_fact a ns name P → P (run n) → P (run (S n)).
Proof.
  intros Hn HP. destruct (who n) as [name'|name'|] eqn:Hw.
  - destruct (sys_machines _ _ _ _ _ _ _ Hrun n name' Hw) as [o Ho].
    apply (machine_fact_elsewhere a ns name P name' _ _ o); [done|congruence|done].
  - destruct (sys_nodes _ _ _ _ _ _ _ Hrun n name' Hw) as [o Ho].
    destruct (run n) as [t i], (run (S n)) as [t' i'].
    destruct (node_turn_keeps _ _ _ _ _ _ Ho) as (-> & Hs & _). by apply (machine_fact_same a ns name).
  - apply (sys_others _ _ _ _ _ _ _ Hrun n P Hw). by left.
Qed.

(** The machine's own turns. *)
Lemma own_turn n :
  who n = Machines name →
  upt (run n).1 ∧ upi (run n).2 ∧
  ∃ o, MachineController.Reconcile (Some (provider a)) ns name (run n) = (o, run (S n)).
Proof.
  intros Hw. destruct (sys_up _ _ _ _ _ _ _ Hrun n Hw). split_and!; [done..|].
  by apply (sys_machines _ _ _ _ _ _ _ Hrun).
Qed.

Lemma system_running_run : running_run upt upi a ns name machine_turn run.
Proof.
  split.
  - intros n Hn%bool_decide_eq_true. by apply own_turn.
  - intros n Hn%bool_decide_eq_false.
    split_and!; [intros k|..]; apply fact_kept; try done; constructor.
  - intros n Hr. destruct (sys_machine_turns _ _ _ _ _ _ _ Hrun n Hr) as (k & Hle & Hk).
    exists k. split; [done|]. by apply bool_decide_eq_true.
  - intros n Hh. destruct (sys_joins _ _ _ _ _ _ _ Hrun n Hh) as (k & Hle & Hl & _).
    by exists k.
  - apply (sys_data _ _ _ _ _ _ _ Hrun).
Qed.

Lemma joined_kept n :
  hosted (run n) → joined (run n) →
  (hosted (run (S n)) ∧ joined (run (S n))) ∧ (identified (run n) → identified (run (S n))).
Proof.
  intros Hh Hj. destruct (who n) as [name'|name'|] eqn:Hw.
  - destruct (decide (name' = name)) as [->|Hne].
    + destruct (own_turn n Hw) as (Hupt & Hupi & o & Ho). destruct (run n) as [t i].
      by destruct (machine_turn_joined upt upi a ns name t i o _ Ht Hi Hh Hj Hupt Hupi Ho) as (? & _ & ?).
    + pose proof (sys_other_nodes _ _ _ _ _ _ _ Hrun n name' Hw Hne) as Href.
      destruct (sys_machines _ _ _ _ _ _ _ Hrun n name' Hw) as [o Ho].
      assert (hosted (run (S n))) as Hh'
        by (apply (fact_kept n); [rewrite Hw; congruence|constructor|done]).
      destruct (run n) as [t i].
      destruct (machine_turn_elsewhere a ns name name' t i _ o Hne Href Ho). auto.
  - destruct (sys_nodes _ _ _ _ _ _ _ Hrun n name' Hw) as [o Ho]. destruct (run n) as [t i].
    destruct (decide (name = name')) as [->|Hne].
    + by apply (node_turn_joined a ns name' t i o _ (system_apart (up:=upt))).
    + by apply (node_turn_elsewhere a ns name name' t i o _ (system_apart (up:=upt)) Hne).
  - pose proof (sys_others _ _ _ _ _ _ _ Hrun n) as Hkeep.
    split; [split|]; eapply Hkeep; eauto using machine_fact.
Qed.

Definition together w : Prop := (hosted w ∧ joined w) ∧ identified w.

Lemma hosted_joined_stable : stable run (λ w, hosted w ∧ joined w).
Proof. intros n [Hh Hj]. by apply joined_kept. Qed.

Lemma together_stable : stable run together.
Proof. intros n [[Hh Hj] Hid]. destruct (joined_kept n Hh Hj) as [? Hk]. split; auto. Qed.

Lemma waiting_joined k : leads_to run (waiting a ns name k) (λ w, hosted w ∧ joined w).
Proof.
  eapply leads_to_trans.
  { apply (waiting_hosted upt upi a ns name machine_turn run system_running_run). }
  apply leads_to_stable; [|apply (sys_joins _ _ _ _ _ _ _ Hrun)].
  apply (hosted_stable upt upi a ns name machine_turn run system_running_run).
Qed.

Lemma joined_together : leads_to run (λ w, hosted w ∧ joined w) together.
Proof.
  intros n Hn. destruct (sys_node_turns _ _ _ _ _ _ _ Hrun n) as (k & Hle & Hw & Hupt & Hupi).
  destruct (stable_later run _ n k hosted_joined_stable Hle Hn) as [Hh Hj].
  destruct (joined_kept k Hh Hj) as [[Hh' Hj'] _].
  destruct (sys_nodes _ _ _ _ _ _ _ Hrun k name Hw) as [o Ho].
  exists (S k). split; [lia|]. split; [done|]. destruct (run k) as [t i].
  by apply (node_turn_identifies upt upi a ns name t i o _ _ _ Hupt Hupi Hj).
Qed.

Lemma machine_turn_runs n :
  who n = Machines name → together (run n) → running_now (run (S n)).
Proof.
  intros Hw [[Hh Hj] _]. destruct (own_turn n Hw) as (Hupt & Hupi & o & Ho).
  destruct (run n) as [t i].
  by destruct (machine_turn_joined upt upi a ns name t i o _ Ht Hi Hh Hj Hupt Hupi Ho) as (_ & ? & _).
Qed.

Lemma together_runs : leads_to run together (λ w, together w ∧ running_now w).
Proof.
  apply leads_to_stable; [apply together_stable|]. intros n Hn.
  destruct (decide (running_now (run n))) as [Hr|Hr]; [by exists n|].
  destruct (sys_machine_turns _ _ _ _ _ _ _ Hrun n Hr) as (k & Hle & Hk).
  exists (S k). split; [lia|]. apply machine_turn_runs; [done|].
  by apply (stable_later run _ n k together_stable).
Qed.
End steps.

(** C3: A machine that is wanted and its node come to agree.  The machine is
    valid, its virtual machine can be built, neither a virtual machine nor an
    ignition secret is left over, and its user data is there.  In the run both
    controllers take their turns, for this and for any other machines and nodes
    and in any order; whenever the machine controller comes to this machine
    both clusters are up, and the node controller comes to its node again and
    again while they are up.  Others leave the machine, its virtual machine and
    its node alone, but for this: once the virtual machine is there, they make
    it ready some day, with its instance, and let the machine and the tenant
    cluster have its node, with no provider ID or the right one, in a
    cluster whose config map names the actuator's namespace; and no other
    machine that is under deletion refers to that node.  Then the machine gets
    its virtual machine and runs some day, with the virtual machine's provider
    ID, and its node has the same provider ID, then and from then on, whatever
    further turns the controllers take. *)
Theorem system_runs (Ht : SystemTenant upt) (Hi : RunningInfra upi)
    (Hstart : waiting a ns name 2 (run 0%nat)) :
  ∃ n, running_now (run n) ∧
       ∀ k, (n ≤ k)%nat → hosted (run k) ∧ identified (run k) ∧
                          (who k = Machines name → running_now (run (S k))).
Proof.
  destruct (leads_to_trans run _ _ _ (waiting_joined Ht Hi 2)
    (leads_to_trans run _ _ _ (joined_together Ht Hi) (together_runs Ht Hi)) 0%nat Hstart)
    as (n & _ & Hb & Hr).
  exists n. split; [done|]. intros k Hle.
  pose proof (stable_later run _ n k (together_stable Ht Hi) Hle Hb) as Hk.
  split_and!; [apply Hk|apply Hk|]. intros Hw. by apply machine_turn_runs.
Qed.
End properties.

(** ** On the reference clusters *)
#[export] Instance unwritten_node_as P name nd infra `{!Unwritten P} :
  Unwritten (node_as P name nd infra).
Proof. intros t ms es (Ht & Hnd & Hi). split; [by apply unwritten|by split]. Qed.

#[export] Instance system_tenant P `{!Unwritten P, !Nodeless P} : SystemTenant P.
Proof.
  split; [apply _|intros; apply _|apply _|apply _| |apply _|apply _].
  intros n t. unfold wp. simpl. by destruct (t_nodes t !! node_Name n).
Qed.

#[export] Instance nodeless_secrets : Nodeless has_secrets.
Proof. by intros f t Ht. Qed.

(** Two machines; the virtual machine of the first one becomes ready and its
    node comes, and when the machine runs the node controller takes its
    turns. *)
Definition system_turns : list actor :=
  let m0 := Machines "worker-0" in
  let m1 := Machines "worker-1" in
  [m0; m1; m0; m1; m0; Others; m0].
Definition system_who (n : nat) : actor := default (Nodes "worker-0") (system_turns !! n).
Definition system_step (w : tenant * server) (x : actor) : tenant * server :=
  match x with
  | Machines name =>
      (MachineController.Reconcile (Some (provider example_actuator)) machine_ns name w).2
  | Nodes name => (NodeUpdate.Reconcile "" name w).2
  | Others => others w
  end.
Fixpoint system_example (n : nat) : tenant * server :=
  match n with
  | O => (set_machines <[(machine_ns, "worker-1") := example_machine]>
            (tenant_with example_machine), empty_server)
  | S n => system_step (system_example n) (system_who n)
  end.

Definition example_node_id (w : tenant * server) : option string :=
  Core.NodeProviderID <$> node_at w.1 "worker-0".

Example system_example_phases :
  map (λ n, let w := system_example n in
            (example_phase w, example_node_id w,
             stored_finalizer_b machine_ns "worker-1" w.1)) [2; 5; 8]%nat =
  [(Some None, Some "", true); (Some (Some "Provisioning"), Some "", true);
   (Some (Some "Running"), Some "kubevirt://infra/worker-0", true)].
Proof. vm_compute. reflexivity. Qed.

Abbreviation example_joined := (joined example_actuator machine_ns "worker-0").
Abbreviation example_identified := (identified example_actuator "worker-0").

Definition joined_b (w : tenant * server) : bool :=
  match machine_at w.1 machine_ns "worker-0", vm_at w.2 "infra" "worker-0",
        vmi_at w.2 "infra" "worker-0" with
  | Some st, Some vm, Some _ =>
      bool_decide (is_Some (Mapi.NodeRef (Mapi.Status st))) && KV.Ready (KV.VMStatus vm)
  | _, _, _ => false
  end && bool_decide (infra_namespace w.1 = Some "infra") &&
  match example_node_id w with
  | Some id => bool_decide (id = "" ∨ id = "kubevirt://infra/worker-0")
  | None => false
  end.

Lemma joined_by_computation w : joined_b w = true → example_joined w.
Proof.
  unfold joined_b, joined. intros [[Hl Hi%bool_decide_eq_true]%andb_prop Hn]%andb_prop.
  split; [by apply linked_by_computation|]. split; [done|]. unfold example_node_id in Hn.
  destruct (node_at w.1 "worker-0") as [nd|]; [|done]. simpl in Hn.
  apply bool_decide_eq_true in Hn. by exists nd.
Qed.

(** Once the node has the machine's provider ID its controller leaves it. *)
Lemma identified_fixed w :
  example_joined w → example_identified w → system_step w (Nodes "worker-0") = w.
Proof.
  destruct w as [t i]. intros ([_ [(vm & Hvm & _) _]] & Hns & _) (nd & Hnd & Hid).
  cbn [fst snd] in *. cbn [system_step].
  assert (wp (NodeUpdate.Reconcile "" "worker-0") (λ _ w', w' = (t, i)) no_panic (t, i)) as Hwp.
  { apply (Reconcile_stable "" "worker-0" t i nd Hnd); [by rewrite Hid|].
    intros ns Hns'. rewrite Hns in Hns'. injection Hns' as <-. by exists vm. }
  unfold wp in Hwp. by destruct (NodeUpdate.Reconcile "" "worker-0" (t, i)) as [[r|] w'].
Qed.

Lemma identified_by_computation w :
  example_node_id w = Some "kubevirt://infra/worker-0" → example_identified w.
Proof. unfold example_node_id. intros (nd & Hnd & Hid)%fmap_Some. by exists nd. Qed.

Lemma system_example_S n : system_example (S n) = system_step (system_example n) (system_who n).
Proof. done. Qed.

Lemma system_example_fixed : system_step (system_example 8) (Nodes "worker-0") = system_example 8.
Proof.
  apply identified_fixed; [apply joined_by_computation|apply identified_by_computation];
    vm_compute; reflexivity.
Qed.

Lemma system_example_end n : system_example (8 + n) = system_example 8.
Proof.
  induction n as [|n IH]; [done|]. change (8 + S n)%nat with (S (8 + n)).
  rewrite system_example_S, IH. apply system_example_fixed.
Qed.

Lemma system_last n : (8 ≤ n)%nat → system_example n = system_example 8.
Proof. apply (last_worlds system_example), system_example_end. Qed.

Lemma system_worlds P : Forall (λ n, P (system_example n)) (seq 0 9) → ∀ n, P (system_example n).
Proof. apply (first_worlds system_example), system_example_end. Qed.

Lemma system_example_joined n : (6 ≤ n)%nat → example_joined (system_example n).
Proof.
  intros Hn. apply joined_by_computation. destruct (decide (n = 6)%nat) as [->|]; [vm_compute; reflexivity|].
  destruct (decide (n = 7)%nat) as [->|]; [vm_compute; reflexivity|].
  rewrite system_last by lia. vm_compute. reflexivity.
Qed.

(** The node has not come before. *)
Definition node_come_b (w : tenant * server) : bool :=
  match machine_at w.1 machine_ns "worker-0" with
  | Some st => bool_decide (is_Some (Mapi.NodeRef (Mapi.Status st)))
  | None => false
  end || bool_decide (example_node_id w = Some "kubevirt://infra/worker-0").

Lemma node_come_joined w : example_joined w ∨ example_identified w → node_come_b w = true.
Proof.
  unfold node_come_b, example_node_id. intros [[[(st & -> & Hst) _] _]|(nd & -> & Hid)].
  - by rewrite bool_decide_eq_true_2.
  - simpl. rewrite Hid. by rewrite (bool_decide_eq_true_2 (Some _ = _)), orb_true_r.
Qed.

Lemma not_come_yet w : node_come_b w = false → ¬ (example_joined w ∨ example_identified w).
Proof. intros Hb Hw. by rewrite (node_come_joined w Hw) in Hb. Qed.

Lemma system_example_early n : (n ≤ 5)%nat → node_come_b (system_example n) = false.
Proof.
  intros Hn. assert (Forall (λ k, node_come_b (system_example k) = false) (seq 0 6)) as Hall.
  { apply (bool_decide_unpack _). vm_compute. reflexivity. }
  rewrite Forall_forall in Hall. apply (Hall n), elem_of_seq. lia.
Qed.

Lemma system_turn n x : system_who n = x → x ≠ Nodes "worker-0" → (n < 7)%nat.
Proof.
  unfold system_who. intros Hx Hne. destruct (system_turns !! n) eqn:Hn; [|by destruct Hne].
  by apply lookup_lt_Some in Hn.
Qed.

Lemma system_example_run :
  system_run has_secrets (λ _, True) example_actuator machine_ns "worker-0" system_who system_example.
Proof.
  split.
  - intros n name' Hn. cbn [system_example]. rewrite Hn. eexists. apply surjective_pairing.
  - intros n name' Hn. cbn [system_example]. rewrite Hn. eexists. apply surjective_pairing.
  - intros n Hn. split; [|done].
    apply (system_worlds (λ w, has_secrets w.1)). repeat constructor; vm_compute; reflexivity.
  - intros n name' Hn Hne m Hat Hud. exfalso.
    assert (name' = "worker-1") as ->.
    { assert (n < 7)%nat by by eapply system_turn.
      do 7 (destruct n as [|n]; [vm_compute in Hn; congruence|]). lia. }
    assert (under_deletion <$> machine_at (system_example n).1 machine_ns "worker-1" = Some false) as Hkept.
    { apply (system_worlds (λ w, under_deletion <$> machine_at w.1 machine_ns "worker-1" = Some false)).
      repeat constructor; vm_compute; reflexivity. }
    rewrite Hat in Hkept. simpl in Hkept. congruence.
  - intros n P Hn HP. assert (n = 5)%nat as ->.
    { assert (n < 7)%nat by by eapply system_turn. by do 7 (destruct n as [|n]; [done|]); lia. }
    destruct HP as [HP|[->| ->]].
    + destruct HP; intros HP.
      * exfalso. destruct HP as (_ & Hvm & _). vm_compute in Hvm. discriminate Hvm.
      * apply hosted_by_computation. vm_compute. reflexivity.
      * by apply system_example_joined.
    + intros _. by apply system_example_joined.
    + intros Hid. destruct (not_come_yet _ (system_example_early 5 (le_n 5)) (or_intror Hid)).
  - intros n Hr. destruct (decide (7 ≤ n)%nat) as [Hle|Hlt]; [|exists 6%nat; split; [lia|done]].
    destruct Hr. destruct (decide (n = 7)%nat) as [->|].
    + apply (bool_decide_unpack _). vm_compute. reflexivity.
    + rewrite system_last by lia. apply (bool_decide_unpack _). vm_compute. reflexivity.
  - intros n. exists (7 + n)%nat. split; [lia|]. split; [done|]. split; [|done].
    apply (system_worlds (λ w, has_secrets w.1)). repeat constructor; vm_compute; reflexivity.
  - intros n _. exists (6 + n)%nat. split; [lia|]. apply system_example_joined. lia.
  - intros n st t Hat. apply user_data_by_computation.
    assert (example_ready_b <$> machine_at (system_example n).1 machine_ns "worker-0" = Some true) as Hr.
    { apply (system_worlds (λ w, example_ready_b <$> machine_at w.1 machine_ns "worker-0" = Some true)).
      repeat constructor; vm_compute; reflexivity. }
    rewrite Hat in Hr. by injection Hr.
Qed.

Lemma system_runs_witness :
  ∃ n, running_now example_actuator machine_ns "worker-0" (system_example n) ∧
       ∀ k, (n ≤ k)%nat → example_hosted (system_example k) ∧ example_identified (system_example k) ∧
         (system_who k = Machines "worker-0" → running_now example_actuator machine_ns "worker-0"
                                      (system_example (S k))).
Proof.
  apply (system_runs has_secrets (λ _ : server, True) example_actuator machine_ns "worker-0"
           system_who system_example system_example_run (system_tenant _) running_server).
  split; [|vm_compute; split; reflexivity].
  eexists. split; [vm_compute; reflexivity|]. split; [|vm_compute; lia].
  split; [vm_compute; reflexivity..| |vm_compute; reflexivity|vm_compute; reflexivity].
  apply sound_by_computation. vm_compute. reflexivity.
Defined.
