(* ===== verification/Retirement.v ===== *)
(** * A machine and its node go together

    The two controllers on a machine under deletion: when the machine
    controller has released it and its virtual machine is gone, the node
    controller takes the node away.  No turn of either brings the virtual
    machine back. *)

From S2P Require Import Prelude GoStd GoErrors Json ApiTypes ProviderConfig TenantCluster.
From S2P Require Import UserData MachineScope InfraCluster InfraServer Kubevirt Actuator.
From S2P Require Import Conditions NodeUpdate MachineController TenantServer Runs MachineLifecycle.
From S2P Require Import Isolation Lifecycle Liveness NodeRuns System.
From Stdlib Require Import Ascii.
#[local] Open Scope Z_scope.

(** ** A machine that was asked to be deleted *)
Section asked.
Context {TW IW : Type} `{!TenantApi TW, !EventRecorder TW, !NodeApi TW, !MachineApi TW,
  !StatusConverter, !TenantView (TW:=TW), !TenantLaws (TW:=TW), !EventLaws TW,
  !MachineLaws (TW:=TW), !YamlLib}
  `{!InfraCluster.Client IW, !Resolver IW, !InfraCluster.ClientView (IW:=IW),
    !InfraCluster.ClientLaws (IW:=IW), !ResolverLaws IW}.
Context (a : actuator) (ns name : string).
Implicit Types (m : Mapi.Machine) (t : TW) (i : IW).
Abbreviation vm_of w := (vm_at (snd w) (a_infraNamespace a) name).

(** It is gone, or waits for its deletion. *)
Definition asked (w : TW * IW) : Prop :=
  ∀ m, machine_at w.1 ns name = Some m → under_deletion m = true.

Definition absent (w : TW * IW) : Prop := vm_of w = None.

Lemma under_deletion_time m m' :
  deletion_time m' = deletion_time m → under_deletion m' = under_deletion m.
Proof. unfold under_deletion, deletion_time. by intros ->. Qed.

Lemma dying_asked w : dying a ns name w.1 → asked w.
Proof. intros (m & Hat & [_ Hud _] & _) m' Hat'. congruence. Qed.

Lemma kept_asked m t i :
  kept_or_gone (provider_instance a) ns name m t i → under_deletion m = true → asked (t, i).
Proof.
  intros Hk Hud m' Hat'. cbn [fst] in Hat'. rewrite <-Hud. apply under_deletion_time.
  destruct Hk as [Hst|(_ & _ & Hd)]; [|by apply Hd].
  rewrite Hat' in Hst. by apply deletion_time_statics, (inj Some).
Qed.

(** No reconciliation takes the deletion back, or makes a virtual machine. *)
Lemma asked_Reconcile t i :
  asked (t, i) →
  let safe w := asked w ∧ (absent (t, i) → absent w) in
  wp (MachineController.Reconcile (Some (provider a)) ns name) (λ _, safe) (λ _, safe) (t, i).
Proof.
  intros Ha safe. destruct (machine_at t ns name) as [m|] eqn:Hat.
  2: { eapply wp_mono; [by apply absent_untouched| |done]. by intros _ _ ->. }
  pose proof (Ha m Hat) as Hud.
  assert (∀ t' i', instances_step (provider_instance a) (provider_doomed a) name m i i' →
    kept_or_gone (provider_instance a) ns name m t' i' → safe (t', i')) as Hsafe.
  { intros t' i' Hstep Hk. split; [by eapply kept_asked|]. intros Hnone. apply no_instance.
    intros [[vm Hvm]|[_ ? _ _ _ _]]%(instance_due _ _ _ _ _ _ Hstep); [|congruence].
    unfold absent in Hnone. cbn [snd] in Hnone. congruence. }
  eapply wp_mono; [by apply request_provider|..]; intros ? [t' i'] [(_ & ? & Hk) _];
    apply Hsafe; auto.
Qed.
End asked.

(** ** Runs

    At each turn one of the controllers acts, for the machine or for another
    one, successfully or not, or somebody else does.  Others let the machine be
    deleted, and do not create its virtual machine; a marked virtual machine
    is removed some day; and both controllers take their turns again and again
    while the clusters are up. *)
Record retiring_run {TW IW} `{!TenantApi TW, !EventRecorder TW, !NodeApi TW, !MachineApi TW,
    !StatusConverter, !TenantView (TW:=TW), !YamlLib,
    !InfraCluster.Client IW, !Resolver IW, !InfraCluster.ClientView (IW:=IW)}
    (upt : TW → Prop) (upi : IW → Prop) (a : actuator) (ns name : string)
    (who : nat → actor) (run : nat → TW * IW) : Prop := {
  ret_machines n name' : who n = Machines name' →
    ∃ o, MachineController.Reconcile (Some (provider a)) ns name' (run n) = (o, run (S n));
  ret_nodes n name' : who n = Nodes name' →
    ∃ o, NodeUpdate.Reconcile "" name' (run n) = (o, run (S n));
  ret_others n : who n = Others →
    (dying a ns name (run n).1 → dying a ns name (run (S n)).1) ∧
    (asked ns name (run n) → asked ns name (run (S n))) ∧
    (absent a name (run n) → absent a name (run (S n)));
  ret_machine_turns n : ∃ k, (n ≤ k)%nat ∧ who k = Machines name ∧ upt (run k).1 ∧ upi (run k).2;
  ret_node_turns n : ∃ k, (n ≤ k)%nat ∧ who k = Nodes name ∧ upt (run k).1 ∧ upi (run k).2 ∧
    infra_namespace (run k).1 = Some (a_infraNamespace a);
  ret_removes n : marked a name (run n).2 → ∃ k, (n ≤ k)%nat ∧ absent a name (run k)
}.

Section properties.
Context {TW IW : Type} `{!TenantApi TW, !EventRecorder TW, !NodeApi TW, !MachineApi TW,
  !StatusConverter, !TenantView (TW:=TW), !NodeView (TW:=TW), !TenantLaws (TW:=TW),
  !EventLaws TW, !NodeLaws (TW:=TW), !MachineLaws (TW:=TW), !YamlLib}
  `{!InfraCluster.Client IW, !Resolver IW, !InfraCluster.ClientView (IW:=IW),
    !InfraCluster.ClientLaws (IW:=IW), !ResolverLaws IW}.
Context (upt : TW → Prop) (upi : IW → Prop) (a : actuator) (ns name : string).
Context (who : nat → actor) (run : nat → TW * IW)
  (Hrun : retiring_run upt upi a ns name who run).
Abbreviation absent := (absent a name).
Abbreviation asked := (asked ns name).

Section steps.
Context (Hap : NodesApart TW) (Haddressed : Addressed TW).

(** A turn that is not the machine's: what there is of it stays. *)
Lemma ret_elsewhere n :
  who n ≠ Machines name → who n ≠ Others →
  machine_at (run (S n)).1 ns name = machine_at (run n).1 ns name ∧
  vm_at (run (S n)).2 (a_infraNamespace a) name = vm_at (run n).2 (a_infraNamespace a) name.
Proof.
  intros Hn Ho. destruct (who n) as [name'|name'|] eqn:Hw; [..|done].
  - destruct (ret_machines _ _ _ _ _ _ _ Hrun n name' Hw) as [o Hr]. destruct (run n) as [t i].
    pose proof (isolated_Reconcile a ns name' t i) as Hwp. unfold wp in Hwp. rewrite Hr in Hwp.
    assert (apart a ns name' (t, i) (run (S n))) as Ha by by destruct o.
    apply (apart_belongings a ns name' ns name) in Ha; [|congruence].
    unfold belongings in Ha. by injection Ha as -> -> _ _.
  - destruct (ret_nodes _ _ _ _ _ _ _ Hrun n name' Hw) as [o Hr].
    destruct (run n) as [t i], (run (S n)) as [t' i'].
    destruct (node_turn_keeps _ _ _ _ _ _ Hr) as (-> & Hs & _).
    cbn [fst snd]. by rewrite (Hs ns name).
Qed.

Lemma retiring_fair : fair_run upt upi a ns name (λ n, bool_decide (who n = Machines name)) run.
Proof.
  split.
  - intros n Hn%bool_decide_eq_true. by apply (ret_machines _ _ _ _ _ _ _ Hrun).
  - intros n Hn%bool_decide_eq_false. destruct (decide (who n = Others)) as [Hw|Hw].
    + by destruct (ret_others _ _ _ _ _ _ _ Hrun n Hw) as (? & _ & ?).
    + destruct (ret_elsewhere n Hn Hw) as [Hm ->]. unfold dying. by rewrite Hm.
  - intros n. destruct (ret_machine_turns _ _ _ _ _ _ _ Hrun n) as (k & Hle & Hk & Hup).
    exists k. split; [done|]. split; [by apply bool_decide_eq_true|done].
  - intros n Hn. by apply (ret_removes _ _ _ _ _ _ _ Hrun).
Qed.

Lemma asked_step n :
  asked (run n) → asked (run (S n)) ∧ (absent (run n) → absent (run (S n))).
Proof.
  intros Ha. destruct (decide (who n = Machines name)) as [Hw|Hw];
    [|destruct (decide (who n = Others)) as [Ho|Ho]].
  - destruct (ret_machines _ _ _ _ _ _ _ Hrun n name Hw) as [o Ho]. destruct (run n) as [t i].
    pose proof (asked_Reconcile a ns name t i Ha) as Hwp. unfold wp in Hwp. rewrite Ho in Hwp.
    by destruct o.
  - destruct (ret_others _ _ _ _ _ _ _ Hrun n Ho) as (_ & ? & ?). auto.
  - destruct (ret_elsewhere n Hw Ho) as [Hm Hvm]. unfold Retirement.absent. cbn [snd]. rewrite Hvm.
    split; [|done]. intros m. rewrite Hm. apply Ha.
Qed.

Lemma asked_stable : stable run asked.
Proof. intros n Ha. by apply asked_step. Qed.

Lemma absent_stable : stable run (λ w, asked w ∧ absent w).
Proof. intros n [Ha Hv]. destruct (asked_step n Ha). auto. Qed.

(** The node goes at the node controller's next turn that is answered. *)
Lemma absent_off (Hn : ReliableNodes upt) (Hi : ReliableInfra upi) :
  leads_to run (λ w, asked w ∧ absent w) (node_off name).
Proof.
  intros n Hn0. destruct (ret_node_turns _ _ _ _ _ _ _ Hrun n) as (k & Hle & Hw & Hupt & Hupi & Hns).
  destruct (stable_later run _ n k absent_stable Hle Hn0) as [_ Hv].
  destruct (ret_nodes _ _ _ _ _ _ _ Hrun k name Hw) as [o Ho]. exists (S k). split; [lia|].
  destruct (run k) as [t i]. cbn [fst snd] in *.
  pose proof (live_node_follows upt upi "" name t i Hupt Hupi) as Hwp.
  unfold wp in Hwp. rewrite Ho in Hwp. destruct o; [|done]. apply Hwp.
  by exists (a_infraNamespace a).
Qed.
End steps.

(** C4: A machine under deletion and its node go together, if the machine is
    valid, has its finalizer and its virtual machine can still be built from
    its spec.  In the run both controllers take their turns, for this and for
    any other machines and nodes and in any order, and may fail or be cut
    short, but each takes one again and again while both clusters are up, the
    node controller while the config map names the actuator's namespace.
    Others let the machine be deleted and do not create its virtual machine,
    and one that is marked is removed some day.  Then the machine is released
    some day, its virtual machine is gone and stays away, whatever further
    turns the controllers take, and its node is removed, or marked for
    deletion, after that. *)
Theorem system_retires (Ht : ReliableTenant upt) (Hn : ReliableNodes upt)
    (Hi : ReliableInfra upi) (Hap : NodesApart TW) (Haddressed : Addressed TW)
    (Hstart : dying a ns name (run 0%nat).1) :
  ∃ n, ¬ has_finalizer ns name (run n).1 ∧
       (∀ k, (n ≤ k)%nat → vm_at (run k).2 (a_infraNamespace a) name = None) ∧
       ∃ k, (n ≤ k)%nat ∧ node_off name (run k).
Proof.
  destruct (run_finishes upt upi a ns name _ run (retiring_fair Hap Haddressed) Hstart) as (n & Hvm & Hrel).
  assert (asked (run n) ∧ absent (run n)) as Hab.
  { split; [|done]. apply (stable_later run _ 0 n (asked_stable Hap Haddressed)); [lia|].
    by eapply dying_asked. }
  exists n. split; [|split].
  - intros (l & Hl & Hin)%stored_finalizer. unfold released in Hrel. by rewrite Hl in Hrel.
  - intros k Hle. by apply (stable_later run _ n k (absent_stable Hap Haddressed)).
  - by apply absent_off.
Qed.
End properties.

(** ** On the reference clusters

    The machine's virtual machine is marked, then removed by the infra
    cluster; from then on the controllers take turns. *)
Definition retiring_who (n : nat) : actor :=
  if (n =? 1)%nat then Others else if Nat.even n then Machines "worker-0" else Nodes "worker-0".
Fixpoint retiring_example (n : nat) : tenant * server :=
  match n with
  | O => example_run 0
  | S n =>
      let w := retiring_example n in
      match retiring_who n with
      | Machines name =>
          (MachineController.Reconcile (Some (provider example_actuator)) machine_ns name w).2
      | Nodes name => (NodeUpdate.Reconcile "" name w).2
      | Others => (w.1, set_vms (delete ("infra", "worker-0")) w.2)
      end
  end.

Example retiring_example_phases :
  map (λ n, let w := retiring_example n in
            (vm_deleting w, stored_finalizer_b machine_ns "worker-0" w.1, example_node_id w))
    [0; 1; 2; 3; 4]%nat =
  [(Some false, true, Some ""); (Some true, true, Some ""); (None, true, Some "");
   (None, false, Some ""); (None, false, None)].
Proof. vm_compute. reflexivity. Qed.

Lemma retiring_example_end n : retiring_example (4 + n) = retiring_example 4.
Proof.
  induction n as [|n IH]; [done|]. change (4 + S n)%nat with (S (4 + n)).
  remember (4 + n)%nat as k eqn:Hk. cbn [retiring_example]. rewrite IH. unfold retiring_who.
  destruct (Nat.eqb_spec k 1); [lia|]. destruct (Nat.even k); vm_compute; reflexivity.
Qed.

Lemma retiring_last n : (4 ≤ n)%nat → retiring_example n = retiring_example 4.
Proof. apply (last_worlds retiring_example), retiring_example_end. Qed.

Lemma retiring_worlds P :
  Forall (λ n, P (retiring_example n)) (seq 0 5) → ∀ n, P (retiring_example n).
Proof. apply (first_worlds retiring_example), retiring_example_end. Qed.

Lemma retiring_example_absent n : (2 ≤ n)%nat → absent example_actuator "worker-0" (retiring_example n).
Proof.
  intros Hn. do 2 (destruct n as [|n]; [lia|]). destruct n as [|[|n]]; [vm_compute; reflexivity..|].
  rewrite retiring_last by lia. vm_compute. reflexivity.
Qed.

Lemma retiring_example_outside : (retiring_example 2).1 = (retiring_example 1).1.
Proof. vm_compute. reflexivity. Qed.

Lemma retiring_example_run :
  retiring_run (λ _, True) (λ _, True) example_actuator machine_ns "worker-0"
    retiring_who retiring_example.
Proof.
  split.
  - intros n name' Hn. cbn [retiring_example]. rewrite Hn. eexists. apply surjective_pairing.
  - intros n name' Hn. cbn [retiring_example]. rewrite Hn. eexists. apply surjective_pairing.
  - intros n Hn. assert (n = 1)%nat as ->.
    { unfold retiring_who in Hn. destruct (Nat.eqb_spec n 1); [done|]. by destruct (Nat.even n). }
    unfold asked. rewrite retiring_example_outside.
    split_and!; [exact (λ Hd, Hd)|exact (λ Hd, Hd)|]. intros _. apply (retiring_example_absent 2). lia.
  - intros n. exists (2 * (S n))%nat. split_and!; [lia| |done..]. unfold retiring_who.
    destruct (Nat.eqb_spec (2 * S n) 1); [lia|]. by rewrite Nat.even_even.
  - intros n. exists (2 * (S n) + 1)%nat. split_and!; [lia| |done..|].
    + unfold retiring_who. destruct (Nat.eqb_spec (2 * S n + 1) 1); [lia|].
      by rewrite Nat.add_1_r, Nat.even_succ, <-Nat.negb_even, Nat.even_even.
    + apply (retiring_worlds (λ w, infra_namespace w.1 = Some "infra")).
      repeat constructor; vm_compute; reflexivity.
  - intros n _. exists (2 + n)%nat. split; [lia|]. apply retiring_example_absent. lia.
Qed.

Lemma system_retires_witness :
  ∃ n, ¬ has_finalizer machine_ns "worker-0" (retiring_example n).1 ∧
       (∀ k, (n ≤ k)%nat → vm_at (retiring_example k).2 "infra" "worker-0" = None) ∧
       ∃ k, (n ≤ k)%nat ∧ node_off "worker-0" (retiring_example k).
Proof.
  apply (system_retires (λ _ : tenant, True) (λ _ : server, True) example_actuator machine_ns
           "worker-0" retiring_who retiring_example retiring_example_run
           reliable_tenant (reliable_nodes _) reliable_server (system_apart (up:=λ _ : tenant, True))
           tenant_addressed example_dying).
Defined.
