(* ===== verification/Main.v ===== *)
(** * Start-up (cmd/manager/main.go)

    main reads the flags, builds the manager, the two clients and the actuator,
    registers the machine controller and the node controller, and starts the
    manager.  Every failure on the way ends the process ([klog.Fatalf]). *)

From S2P Require Import Prelude GoStd GoErrors Json ApiTypes ProviderConfig TenantCluster.
From S2P Require Import UserData MachineScope InfraCluster InfraServer Kubevirt Actuator.
From S2P Require Import Conditions NodeUpdate MachineController TenantServer MachineLifecycle.
From Stdlib Require Import Ascii.
#[local] Open Scope Z_scope.

(** ** Flags and options; durations in seconds *)
Definition leaseDuration : Z := 120.
Definition renewDeadline : Z := 110.
Definition retryPeriod : Z := 20.

Record Flags := MkFlags {
  watchNamespace : string;
  metricsAddr : string;
  healthAddr : string;
  leaderElectResourceNamespace : string;
  leaderElect : bool;
  leaderElectLeaseDuration : Z
}.
(** The values of flags that are not given. *)
Definition default_flags : Flags := MkFlags "" ":8081" ":9440" "" false leaseDuration.

(** [manager.Options], the fields main sets and the one it leaves out; an
    empty namespace is every namespace. *)
Record Options := MkOptions {
  LeaderElection : bool;
  LeaderElectionNamespace : string;
  LeaderElectionID : string;
  LeaseDuration : Z;
  MetricsBindAddress : string;
  HealthProbeBindAddress : string;
  RetryPeriod : Z;
  RenewDeadline : Z;
  SyncPeriod : option Z;
  WatchedNamespace : string
}.
Definition manager_options (flags : Flags) : Options :=
  let opts namespace :=
    MkOptions (leaderElect flags) (leaderElectResourceNamespace flags)
      "cluster-api-provider-kubevirt-leader" (leaderElectLeaseDuration flags) (metricsAddr flags)
      (healthAddr flags) retryPeriod renewDeadline None namespace in
  if bool_decide (watchNamespace flags = "") then opts "" else opts (watchNamespace flags).

(** What main calls of controller-runtime and client-go. *)
Class ManagerLib (TW CFG MGR : Type) := {
  GetConfig : Go TW (result CFG);
  manager_New : CFG → Options → Go TW (result MGR);
  AddToScheme : MGR → Go TW (option goerror);
  clientset_NewForConfig : MGR → Go TW (option goerror);
  controller_New : MGR → string → Go TW (option goerror);
  controller_Watch : MGR → string → string → Go TW (option goerror);
  AddReadyzCheck : MGR → string → Go TW (option goerror);
  AddHealthzCheck : MGR → string → Go TW (option goerror);
  Start : MGR → Go TW (option goerror)
}.

Section main.
Context {TW CFG MGR K D : Type} `{!ManagerLib TW CFG MGR, !TenantApi TW, !Kubeconfig K D}.

(** What is running once the manager was started. *)
Record running := MkRunning {
  r_actuator : option actuator; r_infra : InfraCluster.client.client K D }.

(** [add] of the machine controller and [Add] of the node controller. *)
Definition add_controller (mgr : MGR) (name kind : string) : Go TW (option goerror) :=
  err ← controller_New mgr name;
  match err with
  | Some err => mret (Some err)
  | None => controller_Watch mgr name kind
  end.
Definition AddWithActuator (mgr : MGR) : Go TW (option goerror) :=
  add_controller mgr "machine_controller" "Machine".
Definition Add (mgr : MGR) : Go TW (option goerror) :=
  add_controller mgr "provdierID-controller" "Node".

(** [tenantcluster.New]: the client is the instance in scope. *)
Definition tenantcluster_New (mgr : MGR) : Go TW (option goerror) := clientset_NewForConfig mgr.

(** [klog.Fatalf] of an error ends the process with its text. *)
Definition checked {A B} (what : string) (c : Go TW (result A)) (next : A → Go TW (B + string))
    : Go TW (B + string) :=
  r ← c; match r with inl x => next x | inr err => mret (inr (what +:+ Error err)) end.
Definition checked_ {B} (what : string) (c : Go TW (option goerror)) (next : Go TW (B + string))
    : Go TW (B + string) :=
  r ← c; match r with None => next | Some err => mret (inr (what +:+ Error err)) end.

Definition main (flags : Flags) : Go TW (running + string) :=
  checked "Error getting configuration: " GetConfig (λ cfg,
  checked "failed to set up overall controller manager, with error: "
    (manager_New cfg (manager_options flags)) (λ mgr,
  checked_ "failed to set up scheme, with error: " (AddToScheme mgr) (
  checked_ "failed to create tenantcluster client from configuration, with error: "
    (tenantcluster_New mgr) (
  checked "failed to create infracluster client from configuration, with error: "
    InfraCluster.client.New (λ infraClusterClient,
  checked "failed to create actuator, with error: " Actuator.New (λ machineActuator,
  checked_ "failed to add actuator, with error: " (AddWithActuator mgr) (
  checked_ "failed to add providerID reconciler, with error: " (Add mgr) (
  checked_ "failed to add ReadyzCheck, with error: " (AddReadyzCheck mgr "ping") (
  checked_ "failed to add HealthzCheck, with error: " (AddHealthzCheck mgr "ping") (
  checked_ "failed to start manager, with error: " (Start mgr) (
  mret (inl (MkRunning machineActuator infraClusterClient))))))))))))).
End main.
Arguments running : clear implicits.

(** ** What the libraries promise: a call returns, and the config maps and
    secrets stay as they are. *)
Section laws.
Context {TW CFG MGR K D : Type} `{!ManagerLib TW CFG MGR, !TenantApi TW, !Kubeconfig K D,
  !TenantView (TW:=TW), !TenantLaws (TW:=TW)}.

Definition config_same (t t' : TW) : Prop :=
  (∀ ns name, configmap_at t' ns name = configmap_at t ns name) ∧
  (∀ ns name, secret_at t' ns name = secret_at t ns name).
Definition config_quiet {A} (c : Go TW A) : Prop :=
  ∀ t, wp c (λ _ t', config_same t t') no_panic t.

Class ManagerLaws := {
  quiet_GetConfig : config_quiet GetConfig;
  quiet_manager_New cfg opts : config_quiet (manager_New cfg opts);
  quiet_AddToScheme mgr : config_quiet (AddToScheme mgr);
  quiet_clientset mgr : config_quiet (clientset_NewForConfig mgr);
  quiet_controller_New mgr name : config_quiet (controller_New mgr name);
  quiet_controller_Watch mgr name kind : config_quiet (controller_Watch mgr name kind);
  quiet_AddReadyzCheck mgr name : config_quiet (AddReadyzCheck mgr name);
  quiet_AddHealthzCheck mgr name : config_quiet (AddHealthzCheck mgr name);
  quiet_Start mgr : config_quiet (Start mgr)
}.

Lemma wp_checked {A B} what (c : Go TW (result A)) next (Q : B + string → TW → Prop) t
    (R : result A → TW → Prop) :
  wp c R no_panic t →
  (∀ e t', R (inr e) t' → ∀ msg, Q (inr msg) t') →
  (∀ x t', R (inl x) t' → wp (next x) Q no_panic t') →
  wp (checked what c next) Q no_panic t.
Proof.
  intros Hc He Hn. unfold checked. apply wp_bind. eapply wp_mono; [exact Hc| |done].
  intros [x|e] t' Hr; [by apply Hn|]. apply wp_ret. by eapply He.
Qed.

Lemma wp_checked_ {B} what (c : Go TW (option goerror)) next (Q : B + string → TW → Prop) t
    (R : TW → Prop) :
  wp c (λ _, R) no_panic t → (∀ msg t', Q (inr msg) t') →
  (∀ t', R t' → wp next Q no_panic t') → wp (checked_ what c next) Q no_panic t.
Proof.
  intros Hc He Hn. unfold checked_. apply wp_bind. eapply wp_mono; [exact Hc| |done].
  intros [e|] t' Hr; [apply wp_ret, He|by apply Hn].
Qed.
End laws.
Arguments ManagerLaws TW CFG MGR {_ _}.

(** ** What main has done when it runs *)
Section spec.
Context {TW IW CFG MGR K D : Type} `{!ManagerLib TW CFG MGR, !TenantApi TW, !Kubeconfig K D,
  !TenantView (TW:=TW), !TenantLaws (TW:=TW), !ManagerLaws TW CFG MGR}.
Implicit Types (t : TW) (flags : Flags).

(** The credentials of the infra cluster are there. *)
Definition credentials_at t : Prop :=
  ∃ s, secret_at t defaultCredentialsSecretSecretNamespace defaultCredentialsSecretSecretName
         = Some s ∧
       is_Some (map_index (Core.SecretData s) platformCredentialsKey).

(** The actuator that the config map describes. *)
Definition actuator_from t (a : actuator) : Prop :=
  ∃ c v,
    configmap_at t configMapNamespace configMapName = Some c ∧
    config_value c configMapDataKeyName = Some v ∧
    map_index v configMapInfraIDKeyName = Some (a_infraID a) ∧
    map_index v configMapInfraNamespaceKeyName = Some (a_infraNamespace a).

Lemma infra_New_spec t :
  wp (InfraCluster.client.New : Go TW (result (InfraCluster.client.client K D)))
    (λ r t', t' = t ∧ match r with inl _ => credentials_at t | inr _ => True end) no_panic t.
Proof.
  unfold InfraCluster.client.New. apply wp_bind. go_call GetSecret_spec.
  intros [s|e] t' [-> Hs]; apply wp_ret; (split; [done|]); [|by destruct (IsNotFound e)].
  destruct (map_index _ _) as [creds|] eqn:Hc; [|done].
  destruct (NewClientConfigFromBytes creds) as [cc|]; [|done].
  destruct (client_config cc) as [rc|]; [|done].
  destruct (kubernetes_NewForConfig rc); [|done].
  destruct (dynamic_NewForConfig rc); [|done]. by exists s; rewrite Hc.
Qed.

Lemma config_trans t1 t2 t3 : config_same t1 t2 → config_same t2 t3 → config_same t1 t3.
Proof. intros [C1 S1] [C2 S2]. split; intros; etrans; [apply C2|apply C1|apply S2|apply S1]. Qed.

Lemma add_controller_quiet mgr name kind : config_quiet (add_controller mgr name kind).
Proof.
  intros t. unfold add_controller. apply wp_bind. eapply wp_mono; [apply quiet_controller_New| |done].
  intros [e|] t1 H1; [by apply wp_ret|]. eapply wp_mono; [apply quiet_controller_Watch| |done].
  intros r t2 H2. by eapply config_trans.
Qed.

(** A step that leaves the configuration alone. *)
Lemma wp_quiet_step {A} (c : Go TW A) t0 t :
  config_quiet c → config_same t0 t → wp c (λ _ t', config_same t0 t') no_panic t.
Proof.
  intros Hc Ht. eapply wp_mono; [apply Hc| |done]. intros r t' H'. by eapply config_trans.
Qed.

Lemma main_spec flags t :
  wp (main flags)
    (λ r _, match r with
            | inl run => credentials_at t ∧ (∀ a, r_actuator run = Some a → actuator_from t a) ∧
                (configmap_at t configMapNamespace configMapName = None → r_actuator run = None)
            | inr _ => True
            end) no_panic t.
Proof.
  unfold main. assert (config_same t t) as H0 by done.
  eapply wp_checked; [by apply wp_quiet_step, H0; apply quiet_GetConfig|done|intros cfg t1 H1].
  eapply wp_checked; [by apply wp_quiet_step, H1; apply quiet_manager_New|done|intros mgr t2 H2].
  eapply wp_checked_; [by apply wp_quiet_step, H2; apply quiet_AddToScheme|done|intros t3 H3].
  eapply wp_checked_; [by apply wp_quiet_step, H3; apply quiet_clientset|done|intros t4 H4].
  eapply wp_checked; [apply infra_New_spec|done|intros infra t5 [-> Hcred]].
  eapply wp_checked; [apply New_spec|done|intros act t6 [-> Hact]].
  assert (credentials_at t) as Hcred'.
  { destruct Hcred as (s & Hs & Hk). exists s. by rewrite <-(proj2 H4). }
  assert ((∀ a, act = Some a → actuator_from t a) ∧
          (configmap_at t configMapNamespace configMapName = None → act = None)) as [Hfrom Hnone].
  { rewrite <-(proj1 H4). destruct act as [a|]; [|done]. split.
    - intros ? [= <-]. destruct Hact as (c & v & Hc & ?). exists c, v. by rewrite <-(proj1 H4).
    - destruct Hact as (c & v & Hc & _). congruence. }
  eapply wp_checked_; [apply wp_quiet_step, H4; apply add_controller_quiet|done|intros t7 H7].
  eapply wp_checked_; [apply wp_quiet_step, H7; apply add_controller_quiet|done|intros t8 H8].
  eapply wp_checked_; [by apply wp_quiet_step, H8; apply quiet_AddReadyzCheck|done|intros t9 H9].
  eapply wp_checked_; [by apply wp_quiet_step, H9; apply quiet_AddHealthzCheck|done|intros t10 H10].
  eapply wp_checked_; [by apply wp_quiet_step, H10; apply quiet_Start|done|intros t11 H11].
  by apply wp_ret.
Qed.

(** *** When nothing fails

    Every call of the libraries succeeds, in the given configuration, the
    secret with the credentials can be read, and client-go accepts them. *)
Definition is_inl {A} (r : result A) : Prop := ∃ x, r = inl x.
Definition answers_at {A} t (ok : A → Prop) (c : Go TW A) : Prop :=
  ∀ t', config_same t t' → wp c (λ r _, ok r) no_panic t'.

Record all_answer t : Prop := {
  ok_GetConfig : answers_at t is_inl GetConfig;
  ok_manager_New cfg opts : answers_at t is_inl (manager_New cfg opts);
  ok_AddToScheme mgr : answers_at t (eq None) (AddToScheme mgr);
  ok_clientset mgr : answers_at t (eq None) (clientset_NewForConfig mgr);
  ok_controller_New mgr name : answers_at t (eq None) (controller_New mgr name);
  ok_controller_Watch mgr name kind : answers_at t (eq None) (controller_Watch mgr name kind);
  ok_AddReadyzCheck mgr name : answers_at t (eq None) (AddReadyzCheck mgr name);
  ok_AddHealthzCheck mgr name : answers_at t (eq None) (AddHealthzCheck mgr name);
  ok_Start mgr : answers_at t (eq None) (Start mgr);
  ok_credentials : answers_at t is_inl
    (secrets_Get defaultCredentialsSecretSecretNamespace defaultCredentialsSecretSecretName);
  ok_kubeconfig s creds :
    secret_at t defaultCredentialsSecretSecretNamespace defaultCredentialsSecretSecretName = Some s →
    map_index (Core.SecretData s) platformCredentialsKey = Some creds →
    ∃ cc rc, NewClientConfigFromBytes creds = inl cc ∧ client_config cc = inl rc ∧
             is_inl (kubernetes_NewForConfig rc) ∧ is_inl (dynamic_NewForConfig rc)
}.

Section answered.
Context (t0 : TW) (Hall : all_answer t0).

(** A step that succeeds, and leaves the configuration alone. *)
Lemma wp_answered {A B} what (c : Go TW (result A)) next (Q : B + string → TW → Prop) t :
  answers_at t0 is_inl c → config_quiet c → config_same t0 t →
  (∀ x t', config_same t0 t' → wp (next x) Q no_panic t') → wp (checked what c next) Q no_panic t.
Proof.
  intros Hok Hq Ht Hn. eapply (wp_checked _ _ _ _ _ (λ r t', is_inl r ∧ config_same t0 t')).
  - eapply wp_mono; [apply wp_and; [by apply Hok|by apply (wp_quiet_step _ t0)]|done|by intros ? ? []].
  - by intros e t' [[x [=]] _].
  - intros x t' [_ Ht']. by apply Hn.
Qed.

Lemma wp_answered_ {B} what (c : Go TW (option goerror)) next (Q : B + string → TW → Prop) t :
  answers_at t0 (eq None) c → config_quiet c → config_same t0 t →
  (∀ t', config_same t0 t' → wp next Q no_panic t') → wp (checked_ what c next) Q no_panic t.
Proof.
  intros Hok Hq Ht Hn. unfold checked_. apply wp_bind.
  eapply wp_mono; [apply wp_and; [by apply Hok|by apply (wp_quiet_step _ t0)]| |by intros ? ? []].
  intros r t' [<- Ht']. by apply Hn.
Qed.

Lemma add_controller_answers mgr name kind : answers_at t0 (eq None) (add_controller mgr name kind).
Proof.
  intros t Ht. unfold add_controller. apply wp_bind.
  eapply wp_mono; [apply wp_and; [by apply (ok_controller_New _ Hall)
                                 |by apply (wp_quiet_step _ t0), Ht; apply quiet_controller_New]
                  | |by intros ? ? []].
  intros r t' [<- Ht']. by apply (ok_controller_Watch _ Hall).
Qed.

(** The infra cluster's client. *)
Lemma infra_New_answers :
  credentials_at t0 →
  answers_at t0 is_inl (InfraCluster.client.New : Go TW (result (InfraCluster.client.client K D))).
Proof.
  intros (s & Hs & creds & Hc) t Ht. unfold InfraCluster.client.New. apply wp_bind.
  change (GetSecret defaultCredentialsSecretSecretName defaultCredentialsSecretSecretNamespace)
    with (secrets_Get (TW:=TW) defaultCredentialsSecretSecretNamespace
            defaultCredentialsSecretSecretName).
  eapply wp_mono; [apply wp_and; [by apply (ok_credentials _ Hall)|apply api_get_secret]| |by intros ? ? []].
  intros r t' [[s' ->] [-> Hs']]. apply wp_ret. rewrite (proj2 Ht), Hs in Hs'. injection Hs' as <-.
  rewrite Hc. destruct (ok_kubeconfig _ Hall s creds Hs Hc) as (cc & rc & -> & -> & [k ->] & [d ->]).
  by eexists.
Qed.

(** Without the config map the actuator is nil, and that is no error. *)
Lemma New_nil t :
  config_same t0 t → configmap_at t0 configMapNamespace configMapName = None →
  wp Actuator.New (λ r t', r = inl None ∧ t' = t) no_panic t.
Proof.
  intros [Hcm _] Hnone. unfold Actuator.New. apply wp_bind. go_call GetConfigMapValue_spec.
  intros [v|e] t' [-> Hr]; apply wp_ret; [|done]. destruct Hr as (c & Hc & _). congruence.
Qed.

Lemma main_starts flags :
  credentials_at t0 → configmap_at t0 configMapNamespace configMapName = None →
  wp (main flags) (λ r _, ∃ infra : InfraCluster.client.client K D, r = inl (MkRunning None infra))
    no_panic t0.
Proof.
  intros Hcred Hnone. unfold main. assert (config_same t0 t0) as H0 by done.
  apply wp_answered; [apply Hall|apply quiet_GetConfig|done|intros cfg t1 H1].
  apply wp_answered; [apply Hall|apply quiet_manager_New|done|intros mgr t2 H2].
  apply wp_answered_; [apply Hall|apply quiet_AddToScheme|done|intros t3 H3].
  apply wp_answered_; [apply Hall|apply quiet_clientset|done|intros t4 H4].
  apply wp_answered; [by apply infra_New_answers| |done|intros infra t5 H5].
  { intros t. eapply wp_mono; [apply infra_New_spec| |done]. by intros r t' [-> _]. }
  unfold checked at 1. apply wp_bind. eapply wp_mono; [by apply New_nil| |done].
  intros r t6 [-> ->].
  apply wp_answered_; [apply add_controller_answers|apply add_controller_quiet|done|intros t7 H7].
  apply wp_answered_; [apply add_controller_answers|apply add_controller_quiet|done|intros t8 H8].
  apply wp_answered_; [apply Hall|apply quiet_AddReadyzCheck|done|intros t9 H9].
  apply wp_answered_; [apply Hall|apply quiet_AddHealthzCheck|done|intros t10 H10].
  apply wp_answered_; [apply Hall|apply quiet_Start|done|intros t11 H11].
  apply wp_ret. by eexists.
Qed.
End answered.
End spec.

(** *** Without an actuator *)
Section nil_actuator.
Context {TW IW : Type} `{!TenantApi TW, !EventRecorder TW, !NodeApi TW, !MachineApi TW,
  !StatusConverter, !TenantView (TW:=TW), !EventLaws TW, !MachineLaws (TW:=TW)}.

(** A machine the controller would call the actuator for. *)
Definition needs_actuator (m : Mapi.Machine) : Prop :=
  Validate m = [] ∧ under_deletion m = false ∧ Mapi.MachineFinalizer ∈ finalizers m ∧
  machineIsFailed m = false.

Lemma nil_actuator_panics ns name m (t : TW) (i : IW) :
  machine_at t ns name = Some m → needs_actuator m →
  wp (Reconcile None ns name) (λ r _, r.2 ≠ None) (λ _ w', w' = (t, i)) (t, i).
Proof.
  intros Hat (Hv & Hd & Hf%Contains_spec & Hnf). unfold Reconcile. do 2 go_step.
  go_call machine_Get_spec. intros [m'|e] t' [-> Hr].
  - rewrite Hat in Hr. injection Hr as <-. apply wp_with_machine. unfold reconcile_machine.
    apply wp_bind, wp_the_machine. cbn [fst]. rewrite Hv. unfold under_deletion in Hd.
    destruct (time_IsZero _); [|done]. unfold finalizers in Hf. rewrite Hf.
    unfold reconcile_present. apply wp_bind, wp_the_machine. cbn [fst]. rewrite Hnf.
    by apply wp_bind.
  - destruct (IsNotFound e); [by rewrite Hr in Hat|]. by go_step.
Qed.
End nil_actuator.

Section properties.
Context {TW IW CFG MGR K D : Type} `{!ManagerLib TW CFG MGR, !TenantApi TW, !Kubeconfig K D,
  !TenantView (TW:=TW), !TenantLaws (TW:=TW), !ManagerLaws TW CFG MGR}
  `{!EventRecorder TW, !NodeApi TW, !MachineApi TW, !StatusConverter, !EventLaws TW,
    !MachineLaws (TW:=TW), !YamlLib, !KubevirtVM IW}.

(** C28: main never panics, and when it has started the manager the infra
    cluster's credentials are in place and an actuator, if there is one, is
    the one the config map describes.  Without that config map main starts all
    the same, if no other call fails, and never with an actuator: then the
    first reconciliation of a live machine panics unless it fails to read the
    machine. *)
Theorem main_started (flags : Flags) (t : TW) :
  let no_config := configmap_at t configMapNamespace configMapName = None in
  wp (main flags)
    (λ r _,
       (∀ run : running K D, r = inl run →
          credentials_at t ∧ (∀ a, r_actuator run = Some a → actuator_from t a)) ∧
       (no_config → credentials_at t → all_answer t → ∃ run, r = inl run) ∧
       (∀ run, r = inl run → no_config → r_actuator run = None ∧
          ∀ ns name m t' (i : IW), machine_at t' ns name = Some m → needs_actuator m →
            wp (Reconcile (provider <$> r_actuator run) ns name)
              (λ r _, r.2 ≠ None) (λ _ w', w' = (t', i)) (t', i)))
    no_panic t.
Proof.
  intros no_config. pose proof (main_spec flags t) as Hspec.
  assert (∀ r t', main flags t = (Ret r, t') → no_config → credentials_at t → all_answer t →
    ∃ run, r = inl run) as Hstart.
  { intros r t' Hrun Hno Hcred Hall. pose proof (main_starts t Hall flags Hcred Hno) as Hwp.
    unfold wp in Hwp. rewrite Hrun in Hwp. destruct Hwp as [infra ->]. by eexists. }
  unfold wp in *. destruct (main flags t) as [[r|s] t']; [|done].
  split; [|split; [by apply (Hstart r t')|]].
  - intros run ->. by destruct Hspec as (? & ? & _).
  - intros run -> Hno. destruct Hspec as (_ & _ & Hnone). specialize (Hnone Hno). split; [done|].
    intros ns name m t1 i Hm Hneeds. rewrite Hnone. by eapply nil_actuator_panics.
Qed.
End properties.

(** ** On the reference clusters *)
#[export] Instance example_lib : ManagerLib tenant unit unit := {|
  GetConfig := mret (inl tt);
  manager_New _ _ := mret (inl tt);
  AddToScheme _ := mret None;
  clientset_NewForConfig _ := mret None;
  controller_New _ _ := mret None;
  controller_Watch _ _ _ := mret None;
  AddReadyzCheck _ _ := mret None;
  AddHealthzCheck _ _ := mret None;
  Start _ := mret None
|}.

#[export] Instance example_lib_laws : ManagerLaws tenant unit unit.
Proof. split; by intros. Qed.

#[export] Instance example_kubeconfig : Kubeconfig unit unit := {|
  ClientConfig := unit; RestConfig := unit;
  NewClientConfigFromBytes _ := inl tt;
  client_config _ := inl tt;
  kubernetes_NewForConfig _ := inl tt;
  dynamic_NewForConfig _ := inl tt
|}.

(** The credentials are there, the config map may be missing. *)
Definition installed (configmaps : gmap (string * string) Core.ConfigMap) : tenant :=
  MkTenant (t_machines (tenant_with (provisioning with_finalizer)))
    {[ (defaultCredentialsSecretSecretNamespace, defaultCredentialsSecretSecretName) :=
         Core.MkSecret Meta.empty (Some {[ platformCredentialsKey := "kubeconfig" ]}) ]}
    configmaps (t_nodes example_tenant) [].

Example main_example :
  main default_flags (installed (t_configmaps example_tenant)) =
    (Ret (inl (MkRunning (Some example_actuator) (InfraCluster.client.MkClient tt tt))),
     installed (t_configmaps example_tenant)).
Proof. vm_compute. reflexivity. Qed.

Example main_example_nil :
  main default_flags (installed ∅) =
    (Ret (inl (MkRunning None (InfraCluster.client.MkClient tt tt))), installed ∅) ∧
  outcome_is_panic
    (Reconcile None machine_ns "worker-0" (installed ∅, empty_server)).1 = true.
Proof. vm_compute. done. Qed.

Lemma example_all_answer configmaps : all_answer (CFG:=unit) (MGR:=unit) (K:=unit) (D:=unit) (installed configmaps).
Proof.
  split; try by intros; intros t' _.
  - intros t' _. by eexists.
  - intros cfg opts t' _. by eexists.
  - intros t' [_ Hs]. unfold wp. simpl.
    specialize (Hs defaultCredentialsSecretSecretNamespace defaultCredentialsSecretSecretName).
    cbn [secret_at tenant_view] in Hs. rewrite Hs. vm_compute. by eexists.
  - intros s creds _ _. exists tt, tt. split_and!; try done; by eexists.
Qed.

Lemma main_started_witness :
  let t := installed ∅ in
  wp (main default_flags)
    (λ r _, ∃ run : running unit unit, r = inl run ∧ r_actuator run = None) no_panic t.
Proof.
  intros t. pose proof (main_started (IW:=server) (CFG:=unit) (MGR:=unit) (K:=unit) (D:=unit)
    default_flags t) as Hwp.
  assert (credentials_at t) as Hcred.
  { eexists. split; [vm_compute; reflexivity|vm_compute; by eexists]. }
  assert (configmap_at t configMapNamespace configMapName = None) as Hno by (vm_compute; reflexivity).
  cbv zeta in Hwp. eapply wp_mono; [exact Hwp| |done]. intros r t' (_ & Hstart & Hnil).
  destruct (Hstart Hno Hcred (example_all_answer ∅)) as [run ->]. exists run. split; [done|].
  by apply Hnil.
Defined.
